(* ===== verification/_CoqProject ===== *)
-Q . S2P
Prelude.v
GoFloat.v
Api.v
Sha256.v
CacheTier.v
PrefixTree.v
PrefixCache.v
PrefixInv.v
PrefixEvict.v
PrefixInsert.v
PrefixProps.v
FileSystem.v
LocalCache.v
LocalProps.v
RedisCache.v
RedisProps.v
Tiers.v
CacheManager.v
ManagerProps.v
GpuTypes.v
Mig.v
MigProps.v
Mps.v
MpsProps.v
Timeslice.v
TimesliceProps.v
GpuManager.v
GpuProps.v
ServiceApi.v
Backend.v
Vllm.v
Triton.v
TensorRT.v
Backends.v
BackendProps.v
Kube.v
ControllerLib.v
InferenceController.v
InferenceProps.v
DeployProps.v
PoolController.v
PoolProps.v
TokenCacheController.v
TokenCacheProps.v
Operator.v
OperatorProps.v
PrefixContents.v
WarmProps.v
GoMemory.v
DeepCopy.v
DeepCopyProps.v
Metrics.v
Loops.v
BackendStats.v
