(* ===== verification/Prelude.v ===== *)
(** * The inference operator, verified

    The operator runs on Kubernetes and serves language models.  Its own logic
    is in three packages: a multi-tier token cache (src/internal/cache), a
    manager that shares GPUs between services (src/internal/gpu), and backends
    that turn a service into a deployment (src/internal/backends), driven by
    controllers (src/internal/controller) from the API types of
    src/api/v1alpha1; src/cmd/operator starts it.  This library models all of
    them, definition by definition, and proves what they do, alone and together,
    right or wrong: a theorem that records a defect states it for every state in
    which it occurs, and its witness runs the code into it.

    ** Files

    - [Prelude]: outcomes (a Go call returns, panics or blocks), results,
      machine integers with their wrap-around, slices, the iteration order of
      maps and [sort.Slice] as a class [GoRuntime], sums over maps, tactics.
    - [GoFloat]: float64 as the Standard Library's executable binary64.
    - [Api]: the structs and constants of gpupool_types.go and
      tokencache_types.go, and [resource.Quantity] as a class.
    - [Sha256]: the hash the prefix and Redis caches use for keys.
    - [CacheTier]: entries and statistics shared by the tiers (manager.go).
    - [PrefixTree], [PrefixCache]: prefix.go.  Blocks are heap objects shared
      by the three indexes, the read-write mutex is part of the state, and a
      call that locks it twice blocks.  [PrefixInv], [PrefixEvict] and
      [PrefixInsert] hold the lemmas, [PrefixProps] the properties.
    - [FileSystem], [LocalCache], [LocalProps]: local.go over paths, files and
      injected faults; the compressors and gob are a class [Codecs].
    - [RedisCache], [RedisProps]: redis.go over a class [RedisServer], whose laws
      are the documented behaviour of the commands.
    - [Tiers]: the interface [CacheTier] of manager.go as a class of operations
      ([CacheTierOps]) with laws ([CacheTierLaws]) and its three instances.
    - [CacheManager], [ManagerProps]: manager.go of the cache, over any tier.
    - [GpuTypes]: the structs of gpu/manager.go that the managers share.
    - [Mig], [MigProps]; [Mps], [MpsProps]; [Timeslice], [TimesliceProps]:
      mig.go, mps.go and timeslice.go.  Instances, daemons and slots are heap
      objects, because indexes and pools point to the same ones.
    - [GpuManager], [GpuProps]: gpu/manager.go, over the three managers.
    - [ServiceApi]: the structs and constants of inferenceservice_types.go.
    - [Backend]: backends/interface.go, the fields of core/v1 that backends
      write, and the code that the three backends share word for word.
    - [Vllm], [Triton], [TensorRT]: the backends, with the text of the scripts
      they generate.  [Backends]: the default factory, and what a backend
      promises to the controller, a class [BackendLaws] with three instances.
      [BackendProps]: their properties.
    - [Kube]: the objects the controllers write, the calls they make to the API
      server, programs over its answers, and a logic for them.
    - [ControllerLib]: conditions and the library functions the controllers
      share.  [InferenceController], [InferenceProps]:
      controller/inferenceservice_controller.go, composed with the GPU manager,
      the cache manager and the backends.  [DeployProps]: how a service gets
      deployed, through all of them.  [PoolController], [PoolProps]:
      controller/gpupool_controller.go, alone and with the former.
      [TokenCacheController], [TokenCacheProps]:
      controller/tokencache_controller.go, with the cache manager it configures.
    - [Operator], [OperatorProps]: cmd/operator/main.go, the registrations of the
      controllers, and the runs of the three controllers together, as a step
      relation on the managers they share.  [PrefixContents], [WarmProps]: what
      the caches of a running operator hold.

    - [GoMemory]: Go values over a heap with aliasing, and what a deep copy is.
      [DeepCopy], [DeepCopyProps]: zz_generated.deepcopy.go function by function,
      and the registration of the types (groupversion_info.go).
    - [Metrics]: the Prometheus collectors and gauges of gpu/manager.go and
      cache/manager.go.  [Loops]: the background loops that have a stop channel.
      [BackendStats]: the statistics that nothing fetches.

    ** How the code is read

    A method of a struct becomes a function from the state to the state and a
    result; an [(T, error)] result is [result T], and where the code can panic
    or block the whole is an [outcome].  Pointers that alias are addresses in a
    list of objects.  A reading of the clock is an argument.  A [range] over a
    map visits a permutation of it that a seed selects, so that no theorem
    depends on an order; [sort.Slice] returns some sorted permutation.  One
    step of a state machine is a completed call, which is what the mutexes of
    the code make atomic; the places where the code gives a mutex up inside a
    call are modelled as separate steps ([getExpired] and [dropStale]).

    A controller is a program: a finite tree of calls to the API server that
    branches on the answers.  A theorem about it ([calls], [always]) holds for
    every answer the server may give, errors and stale objects included
    ([always_may] says so in terms of traces); a witness runs it against a
    concrete server.  The reconcilers of pools and of token caches use a manager
    twice, so they are cut in two ([register] or [configure], and [report]), and
    [reconcileObject] puts the parts together for a reconciliation that nobody
    disturbs.  A run of the operator ([opRun]) is a sequence of reconciliations of
    services, which use a manager once, of parts of the others, of goroutines and
    of ticks of the background loops, in any order: a warm-up may run before the
    reconciliation that started it has written its status.  Such a step uses a
    manager once, so more interleaving of the calls gives no other states of the
    managers, and no other calls but for their order.  A goroutine of the cache
    manager is one step, with a clock and faults for each prefix of a warm-up.

    Loops over slices and counters recurse on them, so they terminate by
    construction.  Only the eviction of the local cache loops on a condition:
    it takes fuel, [local_evict_lru] proves that the size of the index is
    enough, and [local_evict_empty_key_diverges] that for one index no fuel is.

    ** What the theorems show

    Prefix cache: the counters agree with the blocks in every reachable
    state; what is set is got; eviction removes the least recently used
    unpinned blocks and stops at its target; matches are the longest stored
    prefix, of one block at most; and the panic, the self-deadlock and the
    race of [Get].  Local cache: the same counters; round trips through
    compression and through the saved index; eviction; and paths that leave the
    directory.  Redis cache: the round trip, and what its counters count.
    Cache manager: the first hit wins and is promoted, writes reach the tiers
    the policy names, write-around leaves old values, and a configuration
    drops what the tiers held.

    MIG: what an allocation grants, that identifiers repeat, what a release
    frees.  MPS: the client limit, when allocation succeeds, what its rollback
    drops.  Time slices: the layout of the slots in every reachable state, when
    allocation succeeds and what its failure destroys, and that the scheduler is
    a round robin.  GPU manager: that no device is ever known, what exclusive
    allocation grants, and how registration and release lose MIG instances.

    Backends: what each describes is a deployment that Kubernetes accepts, that
    takes its identity from the service and that the described service routes
    to; the arguments of vLLM are determined up to the order of a map; and the
    GPUs that pipeline parallelism needs are not asked for.

    Controller of inference services: that a MIG service is deployed by one
    reconciliation; what status it writes, when it writes a deployment, the life
    of the finalizer, that conditions stay keyed by type;
    and that the Error condition stays, that without devices nothing is ever
    deployed, and that each reconciliation of a MIG service allocates again,
    while a status lists one allocation.
    Controller of GPU pools: that it never blocks a deletion, which removes its
    finalizer, and that with the
    controller of services it makes two of them hold one identifier.
    Controller of token caches: which specs are configured and what becomes of
    the others, what status it writes, what it creates and that it does so once,
    that the Redis it deploys fits together; and that the deployed Redis is never
    used, and that caches of one name in two namespaces are one.

    Operator: the order of the start-up, and that it crashes; what holds in every
    state the controllers reach together; that only MIG services are ever
    deployed; that no object is dropped; that each controller stays within its
    registration; that the prefix tiers hold the warm-up prefixes of the caches
    read and nothing else, and that every reconciliation empties them.

    API types: the copy of a registered object means what the object means and
    has no cell in common with it.  The controllers are modelled over values;
    this is why two holders of an object may be.  Metrics: they are registered
    without a clash, those of caches are exported, those of devices never.
    Loops: each serves what it receives until it sees the end, the scheduler's
    runs are steps of its manager, and three loops change nothing.

    ** Not modelled

    Logging and Kubernetes events, which no decision reads; the counters and the
    latency histogram that [Get], [Set] and [Allocate] increment; goroutines as
    such, whose ticks are steps, and with them a race of [warmupCache], which
    reads the map of caches without the mutex; an [os.Stat] that fails for a
    directory that is there; the parsing of the command line, of which [main]
    gets the flags; the text of durations in the statistics for debugging; the
    capacity of slices; and structs that nothing uses ([InferenceRequest],
    [InferenceResponse], [TokenUsage]).  The API server, controller-runtime, the
    copy methods of apimachinery and core/v1, the Prometheus client, go-redis, the
    Redis server, gzip, zstd, gob, JSON and the parsing of quantities and of the
    oversubscription ratio are parameters with their documented behaviour as
    laws. *)
From stdpp Require Export relations sorting.
From stdpp Require Export base numbers gmap strings fin_maps pretty list.

(** * Notation scope of the development *)
Declare Scope op_scope.
Delimit Scope op_scope with op.
Open Scope op_scope.

(** * Machine integers: Go's [int32] and [int64] wrap around. *)
Definition wrap (w x : Z) : Z := ((x + 2 ^ (w - 1)) `mod` 2 ^ w - 2 ^ (w - 1))%Z.
Definition int32 (x : Z) : Z := wrap 32 x.
Definition int64 (x : Z) : Z := wrap 64 x.
Definition in_int32 (x : Z) : Prop := (- 2 ^ 31 <= x < 2 ^ 31)%Z.
Definition in_int64 (x : Z) : Prop := (- 2 ^ 63 <= x < 2 ^ 63)%Z.

(** * Outcomes: a Go call returns, panics, or blocks for ever on a mutex. *)
Inductive outcome (A : Type) : Type :=
| Ret (a : A)
| Panic (why : string)
| Blocked.
Arguments Ret {_} _.
Arguments Panic {_} _.
Arguments Blocked {_}.

#[export] Instance outcome_ret : MRet outcome := @Ret.
#[export] Instance outcome_bind : MBind outcome := λ A B f m,
  match m with Ret a => f a | Panic w => Panic w | Blocked => Blocked end.

(** Go's [(T, error)] results: a call yields a value or an error message. *)
Definition error : Type := string.
Inductive result (A : Type) : Type :=
| Ok (a : A)
| Err (e : error).
Arguments Ok {_} _.
Arguments Err {_} _.

Definition is_ok {A} (r : result A) : bool :=
  match r with Ok _ => true | Err _ => false end.

(** Pointers are indices into a list of allocated objects. *)
Abbreviation loc := nat (only parsing).

(** Byte slices: every element is in [0, 256). *)
Abbreviation bytes := (list Z) (only parsing).

(** A loop over a slice whose body may panic or block. *)
Fixpoint foldM {S A : Type} (f : S -> A -> outcome S) (s : S) (l : list A) : outcome S :=
  match l with
  | [] => Ret s
  | a :: l' => s' ← f s a; foldM f s' l'
  end.

(** [l[lo:hi]] of a slice panics when the bounds are out of order or range. *)
Definition goSlice {A : Type} (l : list A) (lo hi : Z) : outcome (list A) :=
  if decide (0 <= lo <= hi /\ hi <= Z.of_nat (length l))%Z
  then Ret (take (Z.to_nat (hi - lo)) (drop (Z.to_nat lo) l))
  else Panic "slice bounds out of range".

(** Decimal printing, as [%d] does. *)
Definition print_Z (z : Z) : string := pretty z.

(** Go's [/] on integers truncates toward zero and panics on zero. *)
Definition goDiv (x y : Z) : outcome Z :=
  if decide (y = 0)%Z then Panic "integer divide by zero" else Ret (Z.quot x y).

(** [make([]T, 0, n)] panics on a negative capacity. *)
Definition make_cap (n : Z) : outcome unit :=
  if (n <? 0)%Z then Panic "makeslice: cap out of range" else Ret tt.

(** [time.Duration] constants, in nanoseconds. *)
Definition Millisecond : Z := 1000000.
Definition Second : Z := 1000 * Millisecond.
Definition Minute : Z := 60 * Second.
Definition Hour : Z := 60 * Minute.

(** [s[:n]] panics when the string is shorter than [n] bytes. *)
Definition slicePrefix (s : string) (n : nat) : outcome string :=
  if decide (n <= String.length s) then Ret (String.substring 0 n s)
  else Panic "slice bounds out of range".

(** * What the Go runtime and the [sort] package leave open

    [range] over a map visits every entry once, in an order that may differ
    from loop to loop (the [nat] seed names the loop); [sort.Slice] returns
    some sorted permutation and is not stable.  Theorems quantify over every
    runtime that keeps these promises. *)
Class GoRuntime := {
  range : forall {V : Type}, nat -> gmap string V -> list (string * V);
  range_perm : forall (V : Type) seed (m : gmap string V),
    range seed m ≡ₚ map_to_list m;
  sort_slice : forall {A : Type}, (A -> A -> bool) -> list A -> list A;
  sort_slice_perm : forall (A : Type) less (l : list A), sort_slice less l ≡ₚ l;
  sort_slice_sorted : forall (A : Type) (less : A -> A -> bool) (l : list A),
    (forall x y, less x y = true -> less y x = false) ->
    (forall x y z, less y x = false -> less z y = false -> less z x = false) ->
    StronglySorted (fun x y => less y x = false) (sort_slice less l);
}.

(** * Sums over finite maps *)
Definition map_sum {V : Type} (f : V -> Z) (m : gmap string V) : Z :=
  map_fold (fun _ v acc => (f v + acc)%Z) 0%Z m.

Definition list_sum (l : list Z) : Z := foldr Z.add 0%Z l.

(** A runtime to evaluate with: maps are visited in the order of their
    representation, and [sort.Slice] is an insertion sort. *)
Fixpoint insert_by {A} (less : A -> A -> bool) (x : A) (l : list A) : list A :=
  match l with
  | [] => [x]
  | y :: l' => if less y x then y :: insert_by less x l' else x :: l
  end.
Definition insertion_sort {A} (less : A -> A -> bool) (l : list A) : list A :=
  foldr (insert_by less) [] l.

(** * Lemmas *)
Create HintDb inference.
Create Rewrite HintDb inference.

Lemma wrap_range w x : (0 < w)%Z -> (- 2 ^ (w - 1) <= wrap w x < 2 ^ (w - 1))%Z.
Proof.
  intros Hw. unfold wrap.
  assert (Hp : (2 ^ w = 2 * 2 ^ (w - 1))%Z).
  { rewrite <- (Z.pow_succ_r 2 (w - 1)) by lia. f_equal. lia. }
  assert (0 < 2 ^ (w - 1))%Z by (apply Z.pow_pos_nonneg; lia).
  pose proof (Z.mod_pos_bound (x + 2 ^ (w - 1)) (2 ^ w)%Z ltac:(lia)). lia.
Qed.

Lemma wrap_id w x : (0 < w)%Z -> (- 2 ^ (w - 1) <= x < 2 ^ (w - 1))%Z -> wrap w x = x.
Proof.
  intros Hw Hx. unfold wrap.
  assert (Hp : (2 ^ w = 2 * 2 ^ (w - 1))%Z).
  { rewrite <- (Z.pow_succ_r 2 (w - 1)) by lia. f_equal. lia. }
  rewrite Z.mod_small; lia.
Qed.

Lemma wrap_wrap_add w x y : (0 < w)%Z -> wrap w (wrap w x + y) = wrap w (x + y).
Proof.
  intros Hw. unfold wrap. f_equal.
  replace ((x + 2 ^ (w - 1)) `mod` 2 ^ w - 2 ^ (w - 1) + y + 2 ^ (w - 1))%Z
    with ((x + 2 ^ (w - 1)) `mod` 2 ^ w + y)%Z by lia.
  rewrite Zplus_mod_idemp_l. f_equal. lia.
Qed.

Lemma int64_range x : in_int64 (int64 x).
Proof. exact (wrap_range 64 x ltac:(lia)). Qed.
Lemma int64_id x : in_int64 x -> int64 x = x.
Proof. intros H. apply wrap_id; [lia | exact H]. Qed.
Lemma int64_add x y : int64 (int64 x + y) = int64 (x + y).
Proof. apply wrap_wrap_add. lia. Qed.
Lemma int64_sub x y : int64 (int64 x - y) = int64 (x - y).
Proof. apply (int64_add x (- y)). Qed.
Lemma int32_range x : in_int32 (int32 x).
Proof. exact (wrap_range 32 x ltac:(lia)). Qed.
Lemma int32_id x : in_int32 x -> int32 x = x.
Proof. intros H. apply wrap_id; [lia | exact H]. Qed.
#[export] Hint Resolve int64_range int32_range : inference.
#[export] Hint Rewrite int64_add int64_sub : inference.

Lemma outcome_bind_Ret {A B} (m : outcome A) (f : A -> outcome B) b :
  (m ≫= f) = Ret b <-> exists a, m = Ret a /\ f a = Ret b.
Proof.
  split.
  - destruct m as [a| |]; [eauto | discriminate | discriminate].
  - intros (a & -> & Hf). exact Hf.
Qed.

Lemma slicePrefix_ok s n : n <= String.length s ->
  slicePrefix s n = Ret (String.substring 0 n s).
Proof. intros H. unfold slicePrefix. by rewrite decide_True. Qed.
Lemma slicePrefix_short s n : String.length s < n ->
  slicePrefix s n = Panic "slice bounds out of range".
Proof. intros H. unfold slicePrefix. rewrite decide_False; [done | lia]. Qed.

Section map_sum.
Context {V : Type}.
Implicit Types (f g : V -> Z) (m : gmap string V).

Lemma map_sum_empty f : map_sum f ∅ = 0%Z.
Proof. apply map_fold_empty. Qed.

Lemma map_sum_insert_None f m k v : m !! k = None ->
  map_sum f (<[k := v]> m) = (f v + map_sum f m)%Z.
Proof. intros H. unfold map_sum. rewrite map_fold_insert_L; [done | intros; lia | done]. Qed.

Lemma list_sum_perm (l1 l2 : list Z) : l1 ≡ₚ l2 -> list_sum l1 = list_sum l2.
Proof. unfold list_sum. intros Hp. induction Hp; simpl; lia. Qed.

(** A sum over the map is the sum over any listing of it. *)
Lemma map_sum_list f m (ls : list (string * V)) : ls ≡ₚ map_to_list m ->
  map_sum f m = list_sum (f <$> ls.*2).
Proof.
  intros Hp. rewrite (list_sum_perm _ (f <$> (map_to_list m).*2)) by (by rewrite Hp).
  unfold map_sum. rewrite map_fold_foldr. clear Hp. induction (map_to_list m) as [|[k v] l IH]; csimpl; [done|].
  rewrite IH. done.
Qed.

Lemma map_sum_delete f m k v : m !! k = Some v ->
  map_sum f (delete k m) = (map_sum f m - f v)%Z.
Proof.
  intros H. rewrite <- (insert_delete_id m k v H) at 2.
  rewrite map_sum_insert_None by apply lookup_delete_eq. lia.
Qed.

Lemma map_sum_ext f g m : (forall k v, m !! k = Some v -> f v = g v) ->
  map_sum f m = map_sum g m.
Proof.
  induction m as [|k v m Hk IH] using map_ind; intros Hfg.
  - by rewrite !map_sum_empty.
  - rewrite !map_sum_insert_None by done. f_equal.
    + apply (Hfg k). apply lookup_insert_eq.
    + apply IH. intros k' v' H'. apply (Hfg k').
      rewrite lookup_insert_ne; [done | congruence].
Qed.

Lemma map_sum_nonneg f m : (forall k v, m !! k = Some v -> (0 <= f v)%Z) ->
  (0 <= map_sum f m)%Z.
Proof.
  induction m as [|k v m Hk IH] using map_ind; intros Hf.
  - by rewrite map_sum_empty.
  - rewrite map_sum_insert_None by done.
    assert (0 <= f v)%Z by (apply (Hf k); apply lookup_insert_eq).
    assert (0 <= map_sum f m)%Z; [|lia].
    apply IH. intros k' v' H'. apply (Hf k').
    rewrite lookup_insert_ne; [done | congruence].
Qed.
End map_sum.
#[export] Hint Rewrite @map_sum_empty : inference.

Lemma insert_by_perm {A} less (x : A) l : insert_by less x l ≡ₚ x :: l.
Proof.
  induction l as [|y l IH]; simpl; [done|].
  destruct (less y x); [|done]. rewrite IH. apply Permutation_swap.
Qed.

Lemma insertion_sort_perm {A} less (l : list A) : insertion_sort less l ≡ₚ l.
Proof.
  induction l as [|x l IH]; simpl; [done|].
  rewrite insert_by_perm. by apply Permutation_cons.
Qed.

Lemma insertion_sort_sorted {A} (less : A -> A -> bool) (l : list A) :
  (forall x y, less x y = true -> less y x = false) ->
  (forall x y z, less y x = false -> less z y = false -> less z x = false) ->
  StronglySorted (fun x y => less y x = false) (insertion_sort less l).
Proof.
  intros Hasym Htrans. induction l as [|x l IH]; simpl; [constructor|].
  fold (insertion_sort less l). induction IH as [|y s Hs IHs Hall]; simpl.
  - repeat constructor.
  - destruct (less y x) eqn:E.
    + constructor; [done|]. rewrite (insert_by_perm less x s).
      constructor; [by apply Hasym | done].
    + constructor; [by constructor|]. constructor; [done|].
      eapply Forall_impl; [exact Hall|]. intros z Hz; simpl in Hz. eauto.
Qed.

Definition stdRuntime : GoRuntime := {|
  range := fun V _ m => map_to_list m;
  range_perm := fun V _ m => reflexivity _;
  sort_slice := @insertion_sort;
  sort_slice_perm := @insertion_sort_perm;
  sort_slice_sorted := @insertion_sort_sorted;
|}.

(** A runtime that visits the keys a seed names first and in that order: any
    listing of a map is the order of some lawful runtime. *)
Definition visit {V : Type} (ks : list string) (m : gmap string V) : list (string * V) :=
  omap (fun k => (k,.) <$> m !! k) ks ++ map_to_list (filter (fun kv => kv.1 ∉ ks) m).

Lemma visit_perm {V : Type} (ks : list string) (m : gmap string V) : NoDup ks -> visit ks m ≡ₚ map_to_list m.
Proof.
  intros Hks. unfold visit.
  assert (Hin : forall k v, (k, v) ∈ omap (fun k => (k,.) <$> m !! k) ks <-> k ∈ ks /\ m !! k = Some v).
  { intros k v. rewrite list_elem_of_omap. split.
    - intros (k' & Hk' & (v' & Hv' & [= -> ->])%fmap_Some). done.
    - intros [Hk Hv]. exists k. by rewrite Hv. }
  apply NoDup_Permutation; [| apply NoDup_map_to_list |].
  - apply NoDup_app. split_and!; [| | apply NoDup_map_to_list].
    + clear Hin. induction Hks as [|k ks Hk Hks IH]; csimpl; [constructor|].
      destruct (m !! k) as [v|]; csimpl; [|exact IH]. constructor; [|exact IH].
      rewrite list_elem_of_omap. intros (k' & Hk' & (v' & _ & [= -> _])%fmap_Some). done.
    + intros [k v] [Hk _]%Hin [_ Hno]%elem_of_map_to_list%map_lookup_filter_Some. by apply Hno.
  - intros [k v]. rewrite elem_of_app, Hin, !elem_of_map_to_list, map_lookup_filter_Some. simpl.
    destruct (decide (k ∈ ks)); naive_solver.
Qed.

Lemma visit_listing {V : Type} (m : gmap string V) l : l ≡ₚ map_to_list m -> NoDup l.*1 /\ visit l.*1 m = l.
Proof.
  intros Hl. assert (Hnd : NoDup l.*1) by (rewrite Hl; apply NoDup_fst_map_to_list). split; [done|].
  assert (Hlk : forall k v, (k, v) ∈ l -> m !! k = Some v) by (intros k v Hkv; apply elem_of_map_to_list; by rewrite <- Hl).
  unfold visit. assert (Hrest : filter (fun kv => kv.1 ∉ l.*1) m = ∅); [| rewrite Hrest, map_to_list_empty, app_nil_r].
  2: { clear Hrest Hl Hnd. induction l as [|[k v] l IH]; csimpl; [done|].
    rewrite (Hlk k v) by left. csimpl. rewrite IH; [done|]. intros k' v' H'. apply Hlk. by right. }
  apply map_empty. intros k. apply map_lookup_filter_None. right. intros v Hv Hno. apply Hno.
  apply list_elem_of_fmap. exists (k, v). split; [done|]. rewrite Hl. by apply elem_of_map_to_list.
Qed.

Section order_runtime.
Variable order : nat -> list string.
Hypothesis order_NoDup : forall seed, NoDup (order seed).
Definition orderRuntime : GoRuntime := {|
  range := fun V seed m => visit (order seed) m;
  range_perm := fun V seed m => visit_perm (order seed) m (order_NoDup seed);
  sort_slice := @insertion_sort;
  sort_slice_perm := @insertion_sort_perm;
  sort_slice_sorted := @insertion_sort_sorted;
|}.
End order_runtime.

(** Two loops over one map may visit it in any two orders. *)
Lemma range_any_order {V : Type} (m : gmap string V) l1 l2 :
  l1 ≡ₚ map_to_list m -> l2 ≡ₚ map_to_list m ->
  exists R : GoRuntime, @range R V 0 m = l1 /\ @range R V 1 m = l2.
Proof.
  intros [Hn1 H1]%visit_listing [Hn2 H2]%visit_listing.
  assert (Hnd : forall seed, NoDup (if decide (seed = 0) then l1.*1 else l2.*1)) by (intros s; by case_decide).
  by exists (orderRuntime _ Hnd).
Qed.

Section range_lemmas.
Context `{GoRuntime}.

Lemma range_elem {V} seed (m : gmap string V) k v :
  (k, v) ∈ range seed m <-> m !! k = Some v.
Proof. rewrite range_perm. apply elem_of_map_to_list. Qed.

Lemma range_NoDup {V} seed (m : gmap string V) : NoDup (range seed m).*1.
Proof. rewrite range_perm. apply NoDup_fst_map_to_list. Qed.

Lemma range_length {V} seed (m : gmap string V) : length (range seed m) = size m.
Proof. rewrite range_perm. apply length_map_to_list. Qed.

Lemma range_empty {V} seed : range (V := V) seed ∅ = [].
Proof.
  apply Permutation_nil_r. rewrite range_perm, map_to_list_empty. done.
Qed.
End range_lemmas.

(** The first element of a list with a property. *)
Section head_filter.
Context {A : Type} (P : A -> Prop) `{!forall x, Decision (P x)}.
Implicit Type l : list A.

Lemma head_filter_Some l x : head (filter P l) = Some x -> P x /\ x ∈ l.
Proof. intros Hx. by apply head_Some_elem_of, list_elem_of_filter in Hx. Qed.
Lemma head_filter_None l : head (filter P l) = None <-> forall x, x ∈ l -> ~ P x.
Proof.
  rewrite head_None. split.
  - intros Hnil x Hx Hp. assert (x ∈ filter P l) as Hin by (by apply list_elem_of_filter).
    rewrite Hnil in Hin. by apply elem_of_nil in Hin.
  - intros Hno. destruct (filter P l) as [|x l'] eqn:E; [done|]. exfalso.
    assert (x ∈ filter P l) as [Hp Hx]%list_elem_of_filter by (rewrite E; by left). by apply (Hno x).
Qed.
End head_filter.

(** A property that every step preserves holds in every reachable state. *)
Lemma rtc_invariant {A} (R : relation A) (P : A -> Prop) x y :
  (forall x y, P x -> R x y -> P y) -> P x -> rtc R x y -> P y.
Proof. intros HP Hx Hr. revert Hx. induction Hr; eauto. Qed.

(** * Tactics *)

(** Splits [m ≫= f = Ret b] hypotheses into the intermediate results. *)
Ltac inv_ret :=
  repeat match goal with
  | H : mbind _ _ = Ret _ |- _ =>
      apply outcome_bind_Ret in H; destruct H as (? & ? & ?)
  | H : Ret _ = Ret _ |- _ => injection H as H; try subst
  | H : mret _ = Ret _ |- _ => injection H as H; try subst
  | H : Panic _ = Ret _ |- _ => discriminate H
  | H : Blocked = Ret _ |- _ => discriminate H
  | H : (_, _) = (_, _) |- _ => injection H as H
  | p : _ * _ |- _ => destruct p
  end; simplify_eq/=.

(** Rewrites the wrap-around sums of a goal to one wrap. *)
Ltac wrap_solve := autorewrite with inference; f_equal; try lia.
