(* ===== verification/GoFloat.v ===== *)
(** Go's [float64]: IEEE-754 binary64 arithmetic as the Standard Library's
    executable [SpecFloat] defines it, with the conversions the operator uses
    ([float64(n)] of an integer and [time.Duration(x)] of a float). *)
From Stdlib Require Export SpecFloat.
From S2P Require Import Prelude.
Local Open Scope Z_scope.

Definition float64 : Type := spec_float.
Definition f64_prec : Z := 53.
Definition f64_emax : Z := 1024.

(** [float64(n)]: round to nearest, ties to even. *)
Definition float64_of_int (n : Z) : float64 :=
  binary_normalize f64_prec f64_emax n 0 false.

Definition f64_add : float64 -> float64 -> float64 := SFadd f64_prec f64_emax.
Definition f64_mul : float64 -> float64 -> float64 := SFmul f64_prec f64_emax.
Definition f64_div : float64 -> float64 -> float64 := SFdiv f64_prec f64_emax.
Definition f64_zero : float64 := S754_zero false.
Definition f64_one : float64 := float64_of_int 1.

(** [x > y] *)
Definition f64_gtb (x y : float64) : bool := SFltb y x.

(** The integer a finite float truncates to. *)
Definition f64_trunc (x : float64) : option Z :=
  match x with
  | S754_zero _ => Some 0
  | S754_finite s m e =>
      let v := if 0 <=? e then Z.pos m * 2 ^ e else Z.pos m / 2 ^ (- e) in
      Some (if s then - v else v)
  | _ => None
  end.

(** [int64(x)]: truncation toward zero.  For NaN, infinities and values out
    of range the language leaves the result to the implementation; the value
    here is the amd64 compiler's, the minimum integer.  No theorem depends
    on that choice. *)
Definition int64_of_float64 (x : float64) : Z :=
  match f64_trunc x with
  | Some v => if (- 2 ^ 63 <=? v) && (v <? 2 ^ 63) then v else - 2 ^ 63
  | None => - 2 ^ 63
  end.

Lemma int64_of_float64_range x : in_int64 (int64_of_float64 x).
Proof.
  unfold int64_of_float64, in_int64.
  destruct (f64_trunc x) as [v|]; [|lia].
  destruct ((- 2 ^ 63 <=? v) && (v <? 2 ^ 63)) eqn:E; lia.
Qed.
#[export] Hint Resolve int64_of_float64_range : inference.

Lemma float64_of_int_0 : float64_of_int 0 = f64_zero.
Proof. reflexivity. Qed.

Example f64_third : f64_mul (float64_of_int 100) (f64_div (float64_of_int 1) (float64_of_int 3))
  = S754_finite false 4691249611844266 (-47).
Proof. vm_compute. reflexivity. Qed.
Example f64_trunc_third : int64_of_float64 (S754_finite false 4691249611844266 (-47)) = 33.
Proof. vm_compute. reflexivity. Qed.
