(* ===== verification/Api.v ===== *)
(** The v1alpha1 API types of the operator (api/v1alpha1): specs and statuses
    of the custom resources, as records with the source's fields.  Kubernetes'
    [resource.Quantity] is an interface ([QuantityOps]); of [metav1.ObjectMeta]
    only the fields the operator reads are kept. *)
From S2P Require Import Prelude GoFloat.
Local Open Scope Z_scope.

(** * Kubernetes library types the API is written with *)

(** [resource.Quantity] as the operator uses it: [Value()] (an int64),
    [resource.NewQuantity(v, format)], [resource.MustParse], [IsZero()] and
    the zero value. *)
Inductive Format := BinarySI | DecimalSI.
Class QuantityOps := {
  Quantity : Type;
  Quantity_zero : Quantity;
  Quantity_Value : Quantity -> Z;
  Quantity_IsZero : Quantity -> bool;
  NewQuantity : Z -> Format -> Quantity;
  MustParse : string -> Quantity;
  Quantity_Value_zero : Quantity_Value Quantity_zero = 0;
  Quantity_Value_New : forall v f, in_int64 v -> Quantity_Value (NewQuantity v f) = v;
}.

Record ObjectMeta := mkObjectMeta {
  om_Name : string;
  om_Namespace : string;
  om_Generation : Z;
  om_DeletionTimestamp : option Z;
  om_Finalizers : list string;
}.

Record Condition := mkCondition {
  cond_Type : string;
  cond_Status : string;
  cond_LastTransitionTime : Z;
  cond_Reason : string;
  cond_Message : string;
}.

(** * inferenceservice_types.go: sharing modes *)
Definition GPUSharingMode : Type := string.
Definition GPUSharingModeMIG : GPUSharingMode := "mig".
Definition GPUSharingModeMPS : GPUSharingMode := "mps".
Definition GPUSharingModeTimeslice : GPUSharingMode := "timeslice".
Definition GPUSharingModeExclusive : GPUSharingMode := "exclusive".

(** * gpupool_types.go *)
Record MIGProfileSpec := mkMIGProfileSpec {
  mps_Name : string;
  mps_Count : Z;
}.

Record GPUSharingSpec `{QuantityOps} := mkGPUSharingSpec {
  gss_Mode : GPUSharingMode;
  gss_Profiles : list MIGProfileSpec;
  gss_TimeSliceInterval : Z;
  gss_MPSActiveThreadPercentage : Z;
  gss_MPSMemoryLimit : option Quantity;
}.

Record OversubscriptionSpec := mkOversubscriptionSpec {
  os_Enabled : bool;
  os_Ratio : string;
  os_MemoryOvercommitRatio : string;
}.

Record MIGInstanceStatus `{QuantityOps} := mkMIGInstanceStatus {
  mis_InstanceID : string;
  mis_Profile : string;
  mis_Memory : Quantity;
  mis_ComputeUnits : Z;
  mis_InUse : bool;
  mis_AllocatedTo : string;
}.

Record AllocationInfo `{QuantityOps} := mkAllocationInfo {
  ai_ServiceRef : string;
  ai_Namespace : string;
  ai_AllocatedMemory : Quantity;
  ai_AllocatedAt : Z;
}.

Record GPUDeviceStatus `{QuantityOps} := mkGPUDeviceStatus {
  gds_DeviceID : string;
  gds_UUID : string;
  gds_Model : string;
  gds_TotalMemory : Quantity;
  gds_AvailableMemory : Quantity;
  gds_Utilization : Z;
  gds_Temperature : Z;
  gds_PowerUsage : Z;
  gds_MIGEnabled : bool;
  gds_MIGInstances : list MIGInstanceStatus;
  gds_Allocations : list AllocationInfo;
}.

Record GPUNodeStatus `{QuantityOps} := mkGPUNodeStatus {
  gns_NodeName : string;
  gns_TotalGPUs : Z;
  gns_AvailableGPUs : Z;
  gns_GPUs : list GPUDeviceStatus;
}.

Record GPUPoolSpec `{QuantityOps} := mkGPUPoolSpec {
  gps_NodeSelector : gmap string string;
  gps_GPUType : string;
  gps_Sharing : option GPUSharingSpec;
  gps_Oversubscription : option OversubscriptionSpec;
  gps_ReservationPolicy : string;
  gps_PreemptionPolicy : string;
  gps_HealthCheckInterval : option Z;
}.

Definition GPUPoolPhase : Type := string.
Definition GPUPoolPhasePending : GPUPoolPhase := "Pending".
Definition GPUPoolPhaseReady : GPUPoolPhase := "Ready".
Definition GPUPoolPhaseDegraded : GPUPoolPhase := "Degraded".
Definition GPUPoolPhaseFailed : GPUPoolPhase := "Failed".

Record GPUPoolStatus `{QuantityOps} := mkGPUPoolStatus {
  gpst_Phase : GPUPoolPhase;
  gpst_TotalGPUs : Z;
  gpst_AvailableGPUs : Z;
  gpst_AllocatedGPUs : Z;
  gpst_TotalMemory : Quantity;
  gpst_AvailableMemory : Quantity;
  gpst_Nodes : list GPUNodeStatus;
  gpst_Conditions : list Condition;
  gpst_LastSyncTime : option Z;
  gpst_ObservedGeneration : Z;
}.

Record GPUPool `{QuantityOps} := mkGPUPool {
  gp_ObjectMeta : ObjectMeta;
  gp_Spec : GPUPoolSpec;
  gp_Status : GPUPoolStatus;
}.

(** * tokencache_types.go *)
Definition CacheTierType : Type := string.
Definition CacheTierTypePrefix : CacheTierType := "prefix".
Definition CacheTierTypeLocal : CacheTierType := "local".
Definition CacheTierTypeRedis : CacheTierType := "redis".
Definition CacheTierTypeMemcached : CacheTierType := "memcached".

Definition EvictionPolicy : Type := string.
Definition EvictionPolicyLRU : EvictionPolicy := "lru".
Definition EvictionPolicyLFU : EvictionPolicy := "lfu".
Definition EvictionPolicyFIFO : EvictionPolicy := "fifo".
Definition EvictionPolicyTTL : EvictionPolicy := "ttl".

Record SecretKeyRef := mkSecretKeyRef {
  skr_Name : string;
  skr_Key : string;
}.

Record RedisCacheConfig := mkRedisCacheConfig {
  rcc_Replicas : Z;
  rcc_Mode : string;
  rcc_ExternalEndpoint : string;
  rcc_PasswordSecretRef : option SecretKeyRef;
  rcc_MaxConnections : Z;
  rcc_ConnectionTimeout : option Z;
  rcc_PersistenceEnabled : bool;
}.

Record LocalCacheConfig := mkLocalCacheConfig {
  lcc_StorageClass : string;
  lcc_MountPath : string;
  lcc_UseRamDisk : bool;
  lcc_Compression : bool;
  lcc_CompressionAlgorithm : string;
}.

Record PrefixCacheConfig `{QuantityOps} := mkPrefixCacheConfig {
  pcc_MaxPrefixLength : Z;
  pcc_MinPrefixLength : Z;
  pcc_BlockSize : Z;
  pcc_EnableSwap : bool;
  pcc_SwapSpaceSize : option Quantity;
}.

Record CacheTierSpec `{QuantityOps} := mkCacheTierSpec {
  cts_Name : string;
  cts_Type : CacheTierType;
  cts_Size : Quantity;
  cts_TTL : option Z;
  cts_Priority : Z;
  cts_RedisConfig : option RedisCacheConfig;
  cts_LocalConfig : option LocalCacheConfig;
  cts_PrefixConfig : option PrefixCacheConfig;
}.

Record WarmupSpec := mkWarmupSpec {
  ws_Enabled : bool;
  ws_CommonPrefixes : list string;
  ws_WarmupSchedule : string;
  ws_SourceConfigMapRef : option SecretKeyRef;
}.

Record TokenCacheSpec `{QuantityOps} := mkTokenCacheSpec {
  tcs_Tiers : list CacheTierSpec;
  tcs_EvictionPolicy : EvictionPolicy;
  tcs_Warmup : option WarmupSpec;
  tcs_CoherencePolicy : string;
  tcs_MetricsEnabled : bool;
  tcs_MetricsPort : Z;
}.

Record CacheTierStatus `{QuantityOps} := mkCacheTierStatus {
  ctst_Name : string;
  ctst_Ready : bool;
  ctst_Size : Quantity;
  ctst_UsedSize : Quantity;
  ctst_Entries : Z;
  ctst_HitRate : float64;
  ctst_MissRate : float64;
  ctst_AvgLatency : option Z;
  ctst_Endpoint : string;
}.

Definition TokenCachePhase : Type := string.
Definition TokenCachePhasePending : TokenCachePhase := "Pending".
Definition TokenCachePhaseInitializing : TokenCachePhase := "Initializing".
Definition TokenCachePhaseReady : TokenCachePhase := "Ready".
Definition TokenCachePhaseDegraded : TokenCachePhase := "Degraded".
Definition TokenCachePhaseFailed : TokenCachePhase := "Failed".

Record WarmupStatus := mkWarmupStatus {
  wst_InProgress : bool;
  wst_Progress : Z;
  wst_LastWarmupTime : option Z;
  wst_EntriesWarmed : Z;
}.

Record TokenCacheStatus `{QuantityOps} := mkTokenCacheStatus {
  tcst_Phase : TokenCachePhase;
  tcst_TotalSize : Quantity;
  tcst_UsedSize : Quantity;
  tcst_TotalEntries : Z;
  tcst_OverallHitRate : float64;
  tcst_Tiers : list CacheTierStatus;
  tcst_WarmupStatus : option WarmupStatus;
  tcst_Conditions : list Condition;
  tcst_LastSyncTime : option Z;
  tcst_ObservedGeneration : Z;
}.

Record TokenCache `{QuantityOps} := mkTokenCache {
  tc_ObjectMeta : ObjectMeta;
  tc_Spec : TokenCacheSpec;
  tc_Status : TokenCacheStatus;
}.

(** * A concrete [QuantityOps] to evaluate with

    A quantity is its [Value()]; [MustParse] reads decimal digits with an
    optional suffix [Ki], [Mi], [Gi] or [m] (milli, rounded up), which covers
    every literal the operator parses. *)
Definition digit_val (a : Ascii.ascii) : option Z :=
  let n := Z.of_N (Ascii.N_of_ascii a) in
  if (48 <=? n) && (n <=? 57) then Some (n - 48) else None.
Fixpoint parse_quantity (acc : Z) (s : string) : Z :=
  match s with
  | EmptyString => acc
  | String a rest =>
      match digit_val a with
      | Some d => parse_quantity (10 * acc + d) rest
      | None =>
          if decide (s = "Ki") then acc * 2 ^ 10
          else if decide (s = "Mi") then acc * 2 ^ 20
          else if decide (s = "Gi") then acc * 2 ^ 30
          else if decide (s = "m") then (acc + 999) / 1000
          else 0
      end
  end.

Lemma Z_quantity_New (v : Z) (f : Format) : in_int64 v -> v = v.
Proof. done. Qed.

Definition ZQuantity : QuantityOps := {|
  Quantity := Z;
  Quantity_zero := 0;
  Quantity_Value := fun q => q;
  Quantity_IsZero := fun q => q =? 0;
  NewQuantity := fun v _ => v;
  MustParse := parse_quantity 0;
  Quantity_Value_zero := eq_refl;
  Quantity_Value_New := Z_quantity_New;
|}.

Example parse_80Gi : parse_quantity 0 "80Gi" = 85899345920.
Proof. reflexivity. Qed.
