(* ===== verification/Sha256.v ===== *)
(** Go's [crypto/sha256] (FIPS 180-4) and [encoding/hex], executable, as the
    cache tiers use them to derive block keys. *)
From S2P Require Import Prelude.
Local Open Scope Z_scope.

Definition w32 (x : Z) : Z := x `mod` 2 ^ 32.
Definition rotr (x n : Z) : Z := Z.lor (Z.shiftr x n) (w32 (Z.shiftl x (32 - n))).
Definition sha_ch (x y z : Z) : Z := Z.lxor (Z.land x y) (Z.land (Z.lxor x (2 ^ 32 - 1)) z).
Definition sha_maj (x y z : Z) : Z :=
  Z.lxor (Z.lxor (Z.land x y) (Z.land x z)) (Z.land y z).
Definition big_sigma0 x := Z.lxor (Z.lxor (rotr x 2) (rotr x 13)) (rotr x 22).
Definition big_sigma1 x := Z.lxor (Z.lxor (rotr x 6) (rotr x 11)) (rotr x 25).
Definition small_sigma0 x := Z.lxor (Z.lxor (rotr x 7) (rotr x 18)) (Z.shiftr x 3).
Definition small_sigma1 x := Z.lxor (Z.lxor (rotr x 17) (rotr x 19)) (Z.shiftr x 10).

(** The constants of the standard: the first 32 bits of the fractional parts
    of the square and cube roots of the first primes. *)
Definition is_prime (n : nat) : bool :=
  forallb (fun d => negb (Nat.eqb (Nat.modulo n d) 0)) (seq 2 (n - 2)).
Definition primes (below : nat) : list Z := Z.of_nat <$> filter (fun n => is_prime n = true) (seq 2 (below - 2)).
(** Integer cube root by bisection, one bit of the root at a time. *)
Fixpoint cbrt_go (bits : nat) (x r : Z) : Z :=
  match bits with
  | O => r
  | S b => let r' := r + 2 ^ Z.of_nat b in cbrt_go b x (if r' * r' * r' <=? x then r' else r)
  end.
Definition sha_k : list Z := Eval vm_compute in
  (fun p => w32 (cbrt_go 36 (p * 2 ^ 96) 0)) <$> primes 312.
Definition sha_h0 : list Z := Eval vm_compute in
  (fun p => w32 (Z.sqrt (p * 2 ^ 64))) <$> primes 20.

(** Big-endian bytes of a word and back. *)
Fixpoint be_bytes (n : nat) (x : Z) : list Z :=
  match n with
  | O => []
  | S n' => be_bytes n' (x / 256) ++ [x `mod` 256]
  end.
Definition be_word (bs : list Z) : Z := foldl (fun acc b => acc * 256 + b) 0 bs.

Definition sha_pad (msg : list Z) : list Z :=
  let len := Z.of_nat (length msg) in
  let zeros := Z.to_nat ((55 - len) `mod` 64) in
  msg ++ [0x80] ++ replicate zeros 0 ++ be_bytes 8 (8 * len).

Fixpoint chunks_fuel (fuel n : nat) (l : list Z) : list (list Z) :=
  match fuel, l with
  | S fuel', _ :: _ => take n l :: chunks_fuel fuel' n (drop n l)
  | _, _ => []
  end.
Definition chunks (n : nat) (l : list Z) : list (list Z) := chunks_fuel (length l) n l.

(** Message schedule, newest word first. *)
Fixpoint sha_extend (n : nat) (w : list Z) : list Z :=
  match n with
  | O => w
  | S n' =>
      let at_ i := nth i w 0 in
      sha_extend n' (w32 (small_sigma1 (at_ 1%nat) + at_ 6%nat + small_sigma0 (at_ 14%nat) + at_ 15%nat) :: w)
  end.
Definition sha_schedule (block : list Z) : list Z :=
  rev (sha_extend 48 (rev (map be_word (chunks 4 block)))).

Definition sha_round (s : list Z) (kw : Z * Z) : list Z :=
  match s with
  | [a; b; c; d; e; f; g; h] =>
      let t1 := h + big_sigma1 e + sha_ch e f g + fst kw + snd kw in
      let t2 := big_sigma0 a + sha_maj a b c in
      [w32 (t1 + t2); a; b; c; w32 (d + t1); e; f; g]
  | _ => s
  end.
Definition sha_compress (hs block : list Z) : list Z :=
  zip_with (fun a b => w32 (a + b)) hs (foldl sha_round hs (zip sha_k (sha_schedule block))).

(** [sha256.Sum256] *)
Definition Sum256 (msg : list Z) : list Z :=
  foldl sha_compress sha_h0 (chunks 64 (sha_pad msg)) ≫= be_bytes 4.

(** [hex.EncodeToString] *)
Definition hex_digit (d : Z) : Ascii.ascii :=
  Ascii.ascii_of_nat (Z.to_nat (if d <? 10 then 48 + d else 87 + d)).
Fixpoint hex_encode (bs : list Z) : string :=
  match bs with
  | [] => EmptyString
  | b :: rest => String (hex_digit (b / 16)) (String (hex_digit (b `mod` 16)) (hex_encode rest))
  end.

Example sha256_abc : hex_encode (Sum256 [97; 98; 99]) =
  "ba7816bf8f01cfea414140de5dae2223b00361a396177a9cb410ff61f20015ad".
Proof. vm_compute. reflexivity. Qed.
Example sha256_empty : hex_encode (Sum256 []) =
  "e3b0c44298fc1c149afbf4c8996fb92427ae41e4649b934ca495991b7852b855".
Proof. vm_compute. reflexivity. Qed.
Example sha256_two_blocks : hex_encode (Sum256 (replicate 64 0)) =
  "f5a5fd42d16a20302798ef6ed309979b43003d2320d9f0e8ea9831a92759fb4b".
Proof. vm_compute. reflexivity. Qed.

Lemma be_bytes_length n x : length (be_bytes n x) = n.
Proof.
  revert x. induction n as [|n IH]; intros x; simpl; [done|].
  rewrite length_app, IH. simpl. lia.
Qed.

Lemma sha_round_length s kw : length s = 8%nat -> length (sha_round s kw) = 8%nat.
Proof.
  intros H. do 9 (destruct s as [|? s]; simpl in H; try discriminate H). reflexivity.
Qed.

Lemma sha_compress_length hs block : length hs = 8%nat ->
  length (sha_compress hs block) = 8%nat.
Proof.
  intros H. unfold sha_compress. rewrite length_zip_with, H.
  assert (forall l s, length s = 8%nat -> length (foldl sha_round s l) = 8%nat) as Hf.
  { induction l as [|kw l IH]; intros s Hs; simpl; [done|].
    apply IH. by apply sha_round_length. }
  rewrite Hf; [lia | done].
Qed.

Lemma Sum256_length msg : length (Sum256 msg) = 32%nat.
Proof.
  unfold Sum256.
  assert (forall l hs, length hs = 8%nat -> length (foldl sha_compress hs l) = 8%nat) as Hf.
  { induction l as [|b l IH]; intros hs Hs; simpl; [done|].
    apply IH. by apply sha_compress_length. }
  specialize (Hf (chunks 64 (sha_pad msg)) sha_h0 eq_refl).
  generalize dependent (foldl sha_compress sha_h0 (chunks 64 (sha_pad msg))).
  intros l Hl.
  do 9 (destruct l as [|? l]; simpl in Hl; try discriminate Hl).
  simpl. by rewrite ?length_app, ?be_bytes_length.
Qed.

Lemma hex_encode_length bs : String.length (hex_encode bs) = (2 * length bs)%nat.
Proof. induction bs as [|b bs IH]; simpl; [done|]. rewrite IH. lia. Qed.
