(* ===== verification/CacheTier.v ===== *)
(** internal/cache/manager.go: what every cache tier shares -- cache entries,
    tier statistics, and the [CacheTier] interface as a type class. *)
From S2P Require Import Prelude GoFloat Api.
Local Open Scope Z_scope.

Record CacheEntry := mkCacheEntry {
  ce_Key : string;
  ce_Value : bytes;
  ce_Size : Z;
  ce_CreatedAt : Z;
  ce_AccessedAt : Z;
  ce_AccessCount : Z;
  ce_TTL : Z;
  ce_Tier : string;
  ce_Metadata : gmap string string;
}.

Record TierStats := mkTierStats {
  ts_HitRate : float64;
  ts_MissRate : float64;
  ts_AvgLatency : Z;
  ts_Entries : Z;
  ts_UsedSize : Z;
  ts_MaxSize : Z;
  ts_Evictions : Z;
}.

(** The rates the three [Stats] methods compute from their counters. *)
Definition hitRates (hits misses : Z) : float64 * float64 :=
  let total := int64 (hits + misses) in
  if 0 <? total
  then (f64_div (float64_of_int hits) (float64_of_int total),
        f64_div (float64_of_int misses) (float64_of_int total))
  else (f64_zero, f64_zero).

Lemma hitRates_idle : hitRates 0 0 = (f64_zero, f64_zero).
Proof. reflexivity. Qed.
