(* ===== verification/PrefixTree.v ===== *)
(** internal/cache/prefix.go: the prefix tree (a trie over token IDs) that
    [MatchPrefix] walks and [insertIntoTree] extends.  A node owns its
    children, so the tree is an inductive value; blocks are shared with the
    cache's maps and appear as pointers.  The tree refines the pair (set of
    stored paths, block of each path): [has_path] and [block_at]. *)
From S2P Require Import Prelude.
Local Open Scope Z_scope.

Inductive PrefixNode :=
| mkPrefixNode (TokenID : Z) (Children : gmap Z PrefixNode) (Block : option loc) (Depth : Z).

Definition pn_TokenID (n : PrefixNode) : Z := let 'mkPrefixNode t _ _ _ := n in t.
Definition pn_Children (n : PrefixNode) : gmap Z PrefixNode := let 'mkPrefixNode _ c _ _ := n in c.
Definition pn_Block (n : PrefixNode) : option loc := let 'mkPrefixNode _ _ b _ := n in b.
Definition pn_Depth (n : PrefixNode) : Z := let 'mkPrefixNode _ _ _ d := n in d.

(** The root [NewPrefixCache] allocates. *)
Definition newRoot : PrefixNode := mkPrefixNode (-1) ∅ None 0.

(** The loop of [MatchPrefix]: [i] is the loop index, [current] the node
    reached, [matched] and [blocks] the accumulated results. *)
Fixpoint matchLoop (maxPrefixLen : Z) (i : nat) (current : PrefixNode)
    (matched : nat) (blocks : list loc) (tokens : list Z) : nat * list loc :=
  match tokens with
  | [] => (matched, blocks)
  | token :: rest =>
      if maxPrefixLen <=? Z.of_nat i then (matched, blocks)
      else match pn_Children current !! token with
      | None => (matched, blocks)
      | Some child =>
          let blocks' := match pn_Block child with
                         | Some b => blocks ++ [b]
                         | None => blocks
                         end in
          matchLoop maxPrefixLen (S i) child (S i) blocks' rest
      end
  end.

(** The loop of [insertIntoTree] from the node at depth [i], with the block
    to link at the leaf ([None] when the block map has no such hash). *)
Fixpoint insertLoop (i : nat) (current : PrefixNode) (tokens : list Z)
    (block : option loc) : PrefixNode :=
  match tokens with
  | [] =>
      match block with
      | Some b => mkPrefixNode (pn_TokenID current) (pn_Children current) (Some b) (pn_Depth current)
      | None => current
      end
  | token :: rest =>
      let child := default (mkPrefixNode token ∅ None (int32 (Z.of_nat i + 1)))
                           (pn_Children current !! token) in
      mkPrefixNode (pn_TokenID current)
        (<[token := insertLoop (S i) child rest block]> (pn_Children current))
        (pn_Block current) (pn_Depth current)
  end.

(** * Abstraction: the node a path leads to *)
Fixpoint walk (n : PrefixNode) (path : list Z) : option PrefixNode :=
  match path with
  | [] => Some n
  | t :: rest => pn_Children n !! t ≫= fun c => walk c rest
  end.
Definition has_path (n : PrefixNode) (path : list Z) : Prop := is_Some (walk n path).
Definition block_at (n : PrefixNode) (path : list Z) : option loc := walk n path ≫= pn_Block.

(** The longest prefix of [tokens] that is a path, as a specification. *)
Fixpoint longest_path (n : PrefixNode) (tokens : list Z) : nat :=
  match tokens with
  | [] => 0
  | t :: rest => match pn_Children n !! t with
                 | Some c => S (longest_path c rest)
                 | None => 0
                 end
  end.

(** All blocks met on the way, shortest path first. *)
Definition blocks_along (n : PrefixNode) (tokens : list Z) (k : nat) : list loc :=
  omap (fun j => block_at n (take (S j) tokens)) (seq 0 k).

(** * Lemmas *)
Lemma walk_app n p q : walk n (p ++ q) = walk n p ≫= fun m => walk m q.
Proof.
  revert n. induction p as [|t p IH]; intros n; simpl; [done|].
  destruct (pn_Children n !! t); simpl; [apply IH | done].
Qed.

Lemma has_path_prefix n p q : has_path n q -> p `prefix_of` q -> has_path n p.
Proof.
  intros [m Hm] [r ->]. rewrite walk_app in Hm. unfold has_path.
  destruct (walk n p); [eauto | discriminate].
Qed.

Lemma longest_path_has n tokens : has_path n (take (longest_path n tokens) tokens).
Proof.
  revert n. induction tokens as [|t tokens IH]; intros n; simpl.
  - exists n. done.
  - destruct (pn_Children n !! t) as [c|] eqn:E; simpl.
    + destruct (IH c) as [m Hm]. exists m. simpl. by rewrite E.
    + by exists n.
Qed.

Lemma longest_path_max n (tokens : list Z) k : (k <= length tokens)%nat ->
  has_path n (take k tokens) -> (k <= longest_path n tokens)%nat.
Proof.
  revert n k. induction tokens as [|t tokens IH]; intros n [|k] Hk Hp; simpl in *; try lia.
  destruct Hp as [m Hm]. simpl in Hm.
  destruct (pn_Children n !! t) as [c|]; simpl in Hm; [|discriminate].
  apply le_n_S. apply IH; [lia | by exists m].
Qed.

Lemma longest_path_length n (tokens : list Z) : (longest_path n tokens <= length tokens)%nat.
Proof.
  revert n. induction tokens as [|t tokens IH]; intros n; simpl; [lia|].
  destruct (pn_Children n !! t); [|lia]. apply le_n_S, IH.
Qed.

Lemma omap_fmap {A B C} (f : A -> B) (g : B -> option C) (l : list A) :
  omap g (f <$> l) = omap (fun x => g (f x)) l.
Proof. induction l as [|x l IH]; csimpl; [done|]. by rewrite IH. Qed.

Lemma omap_cons {A B} (f : A -> option B) x (l : list A) :
  omap f (x :: l) = option_list (f x) ++ omap f l.
Proof. simpl. by destruct (f x). Qed.

Lemma blocks_along_cons n t c tokens k : pn_Children n !! t = Some c ->
  blocks_along n (t :: tokens) (S k) =
    option_list (pn_Block c) ++ blocks_along c tokens k.
Proof.
  intros E. unfold blocks_along. rewrite <- cons_seq, <- fmap_S_seq, omap_cons, omap_fmap.
  assert (forall j, block_at n (take (S (S j)) (t :: tokens)) = block_at c (take (S j) tokens)) as Hj.
  { intros j. unfold block_at. simpl. by rewrite E. }
  f_equal; [unfold block_at; simpl; by rewrite E|].
  apply list_omap_ext, Forall_Forall2_diag, Forall_true. exact Hj.
Qed.

(** [matchLoop] computes the longest stored prefix, cut at the limit. *)
Lemma matchLoop_spec maxLen cur i blocks tokens :
  let k := Nat.min (longest_path cur tokens) (Z.to_nat (maxLen - Z.of_nat i)) in
  matchLoop maxLen i cur i blocks tokens = ((i + k)%nat, blocks ++ blocks_along cur tokens k).
Proof.
  revert cur i blocks. induction tokens as [|t tokens IH]; intros cur i blocks; simpl.
  - by rewrite Nat.add_0_r, app_nil_r.
  - destruct (Z.leb_spec maxLen (Z.of_nat i)) as [Hle|Hlt].
    + replace (Z.to_nat (maxLen - Z.of_nat i)) with 0%nat by lia.
      by rewrite Nat.min_0_r, Nat.add_0_r, app_nil_r.
    + destruct (pn_Children cur !! t) as [c|] eqn:E; simpl.
      2: by rewrite Nat.add_0_r, app_nil_r.
      rewrite IH.
      replace (Z.to_nat (maxLen - Z.of_nat i)) with (S (Z.to_nat (maxLen - Z.of_nat (S i)))) by lia.
      f_equal; [lia|].
      rewrite (blocks_along_cons _ _ _ _ _ E).
      destruct (pn_Block c); simpl; [by rewrite <- app_assoc | done].
Qed.

(** A freshly allocated node has no path but its own and no block. *)
Lemma walk_fresh t d p : walk (mkPrefixNode t ∅ None d) p =
  match p with [] => Some (mkPrefixNode t ∅ None d) | _ => None end.
Proof. destruct p; simpl; [done|]. by rewrite lookup_empty. Qed.

Lemma insertLoop_has_path i n tokens b p :
  has_path (insertLoop i n tokens b) p <-> has_path n p \/ p `prefix_of` tokens.
Proof.
  unfold has_path. revert i n p. induction tokens as [|t tokens IH]; intros i n p; simpl.
  - destruct b, p as [|t' p]; simpl; split; intros H; try (by left);
      try (destruct H as [H|H]; [done|]; try by apply prefix_nil_inv in H); by eauto.
  - destruct p as [|t' p]; simpl.
    + split; [intros _; left; eauto | eauto].
    + destruct (decide (t = t')) as [<-|Hne].
      * rewrite lookup_insert_eq. simpl. rewrite IH.
        destruct (pn_Children n !! t) as [c|]; simpl.
        -- naive_solver eauto using prefix_cons, prefix_cons_inv_2.
        -- rewrite walk_fresh. destruct p as [|x p]; split; intros H.
           ++ right. exists tokens. done.
           ++ left. eauto.
           ++ destruct H as [[? H]|H]; [done|]. right. by apply prefix_cons.
           ++ destruct H as [[? H]|H]; [done|]. right. by apply prefix_cons_inv_2 in H.
      * rewrite lookup_insert_ne by done. split; [by left|].
        intros [H|H]; [done|]. by apply prefix_cons_inv_1 in H.
Qed.

(** Linking a block at [tokens] sets that path's block and no other. *)
Lemma insertLoop_block_at i n tokens b p :
  block_at (insertLoop i n tokens (Some b)) p = if decide (p = tokens) then Some b else block_at n p.
Proof.
  unfold block_at. revert i n p. induction tokens as [|t tokens IH]; intros i n p; simpl.
  - destruct p; done.
  - destruct p as [|t' p]; simpl; [done|].
    destruct (decide (t' = t)) as [->|Hne].
    + rewrite lookup_insert_eq. simpl. rewrite IH.
      destruct (decide (p = tokens)) as [->|Hp].
      * by rewrite decide_True.
      * rewrite decide_False by congruence.
        destruct (pn_Children n !! t); simpl; [done|]. rewrite walk_fresh. by destruct p.
    + by rewrite lookup_insert_ne, decide_False by congruence.
Qed.

Lemma insertLoop_None_block_at i n tokens p :
  block_at (insertLoop i n tokens None) p = block_at n p.
Proof.
  unfold block_at. revert i n p. induction tokens as [|t tokens IH]; intros i n p; simpl; [done|].
  destruct p as [|t' p]; simpl; [done|].
  destruct (decide (t = t')) as [->|Hne].
  - rewrite lookup_insert_eq. simpl. rewrite IH.
    destruct (pn_Children n !! t'); simpl; [done|]. rewrite walk_fresh. by destruct p.
  - by rewrite lookup_insert_ne.
Qed.

(** * Height *)
Definition height_le (n : PrefixNode) (d : nat) : Prop :=
  forall p, has_path n p -> (length p <= d)%nat.

Lemma height_le_newRoot d : height_le newRoot d.
Proof. intros p [m Hm]. unfold newRoot in Hm. rewrite walk_fresh in Hm. destruct p; simpl; [lia | done]. Qed.

Lemma height_le_clear n d : height_le (mkPrefixNode (pn_TokenID n) ∅ (pn_Block n) (pn_Depth n)) d.
Proof. intros [|t p] [m Hm]; simpl in *; [lia|]. by rewrite lookup_empty in Hm. Qed.

Lemma height_le_insert i n tokens b d :
  height_le n d -> (length tokens <= d)%nat -> height_le (insertLoop i n tokens b) d.
Proof.
  intros Hn Ht p [Hp|Hp]%insertLoop_has_path; [by apply Hn|].
  apply prefix_length in Hp. lia.
Qed.

Lemma longest_path_height n tokens d : height_le n d -> (longest_path n tokens <= d)%nat.
Proof.
  intros Hn. pose proof (Hn _ (longest_path_has n tokens)) as H.
  rewrite length_take in H. pose proof (longest_path_length n tokens). lia.
Qed.
#[export] Hint Resolve height_le_newRoot height_le_clear height_le_insert : inference.
