(* ===== verification/PrefixCache.v ===== *)
(** internal/cache/prefix.go: the GPU prefix cache.  Blocks are heap objects
    shared by [gpuBlocks], [swapBlocks], the tree's block map and the tree's
    nodes, so the state keeps a list of allocated blocks and the maps hold
    indices into it.  The cache mutex is part of the state: locking it while
    it is held blocks for ever, as Go's [sync.RWMutex] does. *)
From S2P Require Import Prelude GoFloat Api Sha256 CacheTier PrefixTree.
Local Open Scope Z_scope.

(** * State *)
Record PrefixCacheBlock := mkBlock {
  pb_Hash : string;
  pb_Tokens : list Z;
  pb_KVCache : bytes;
  pb_Size : Z;
  pb_RefCount : Z;
  pb_CreatedAt : Z;
  pb_AccessedAt : Z;
  pb_ExpiresAt : Z;
  pb_BlockIndex : Z;
  pb_InGPU : bool;
  pb_InSwap : bool;
}.

(** The fields [NewPrefixCache] sets once. *)
Record PrefixSettings `{QuantityOps} := mkPrefixSettings {
  ps_cacheName : string;
  ps_tierName : string;
  ps_maxSize : Quantity;
  ps_defaultTTL : Z;
  ps_config : option PrefixCacheConfig;
  ps_maxDepth : Z;
  ps_blockSize : Z;
  ps_maxPrefixLen : Z;
  ps_minPrefixLen : Z;
  ps_enableSwap : bool;
  ps_swapSize : Z;
}.

(** [pc_heap] holds the allocated blocks; [pc_root] and [pc_treeBlocks] are
    [tree.root] and [tree.blocks]; [pc_mu] tells whether the cache mutex is
    write-locked; [pc_spawned] counts the [go c.evictLRU()] goroutines that
    have been started and have not run. *)
Record PrefixCache `{QuantityOps} := mkPrefixCache {
  pc_settings : PrefixSettings;
  pc_heap : list PrefixCacheBlock;
  pc_root : PrefixNode;
  pc_treeBlocks : gmap string loc;
  pc_mu : bool;
  pc_gpuBlocks : gmap string loc;
  pc_swapBlocks : gmap string loc;
  pc_hits : Z;
  pc_misses : Z;
  pc_usedSize : Z;
  pc_swapUsed : Z;
  pc_entries : Z;
  pc_spawned : nat;
}.

Section setters.
Context `{QuantityOps}.
Implicit Type c : PrefixCache.

Definition b_set_RefCount (v : Z) (b : PrefixCacheBlock) : PrefixCacheBlock :=
  mkBlock (pb_Hash b) (pb_Tokens b) (pb_KVCache b) (pb_Size b) v (pb_CreatedAt b)
    (pb_AccessedAt b) (pb_ExpiresAt b) (pb_BlockIndex b) (pb_InGPU b) (pb_InSwap b).
Definition b_set_AccessedAt (v : Z) (b : PrefixCacheBlock) : PrefixCacheBlock :=
  mkBlock (pb_Hash b) (pb_Tokens b) (pb_KVCache b) (pb_Size b) (pb_RefCount b) (pb_CreatedAt b)
    v (pb_ExpiresAt b) (pb_BlockIndex b) (pb_InGPU b) (pb_InSwap b).
Definition b_set_place (gpu swap : bool) (b : PrefixCacheBlock) : PrefixCacheBlock :=
  mkBlock (pb_Hash b) (pb_Tokens b) (pb_KVCache b) (pb_Size b) (pb_RefCount b) (pb_CreatedAt b)
    (pb_AccessedAt b) (pb_ExpiresAt b) (pb_BlockIndex b) gpu swap.

Definition set_heap v c : PrefixCache :=
  mkPrefixCache _ (pc_settings c) v (pc_root c) (pc_treeBlocks c) (pc_mu c) (pc_gpuBlocks c)
    (pc_swapBlocks c) (pc_hits c) (pc_misses c) (pc_usedSize c) (pc_swapUsed c) (pc_entries c) (pc_spawned c).
Definition set_root v c : PrefixCache :=
  mkPrefixCache _ (pc_settings c) (pc_heap c) v (pc_treeBlocks c) (pc_mu c) (pc_gpuBlocks c)
    (pc_swapBlocks c) (pc_hits c) (pc_misses c) (pc_usedSize c) (pc_swapUsed c) (pc_entries c) (pc_spawned c).
Definition set_treeBlocks v c : PrefixCache :=
  mkPrefixCache _ (pc_settings c) (pc_heap c) (pc_root c) v (pc_mu c) (pc_gpuBlocks c)
    (pc_swapBlocks c) (pc_hits c) (pc_misses c) (pc_usedSize c) (pc_swapUsed c) (pc_entries c) (pc_spawned c).
Definition set_mu v c : PrefixCache :=
  mkPrefixCache _ (pc_settings c) (pc_heap c) (pc_root c) (pc_treeBlocks c) v (pc_gpuBlocks c)
    (pc_swapBlocks c) (pc_hits c) (pc_misses c) (pc_usedSize c) (pc_swapUsed c) (pc_entries c) (pc_spawned c).
Definition set_gpuBlocks v c : PrefixCache :=
  mkPrefixCache _ (pc_settings c) (pc_heap c) (pc_root c) (pc_treeBlocks c) (pc_mu c) v
    (pc_swapBlocks c) (pc_hits c) (pc_misses c) (pc_usedSize c) (pc_swapUsed c) (pc_entries c) (pc_spawned c).
Definition set_swapBlocks v c : PrefixCache :=
  mkPrefixCache _ (pc_settings c) (pc_heap c) (pc_root c) (pc_treeBlocks c) (pc_mu c) (pc_gpuBlocks c)
    v (pc_hits c) (pc_misses c) (pc_usedSize c) (pc_swapUsed c) (pc_entries c) (pc_spawned c).
Definition set_hits v c : PrefixCache :=
  mkPrefixCache _ (pc_settings c) (pc_heap c) (pc_root c) (pc_treeBlocks c) (pc_mu c) (pc_gpuBlocks c)
    (pc_swapBlocks c) v (pc_misses c) (pc_usedSize c) (pc_swapUsed c) (pc_entries c) (pc_spawned c).
Definition set_misses v c : PrefixCache :=
  mkPrefixCache _ (pc_settings c) (pc_heap c) (pc_root c) (pc_treeBlocks c) (pc_mu c) (pc_gpuBlocks c)
    (pc_swapBlocks c) (pc_hits c) v (pc_usedSize c) (pc_swapUsed c) (pc_entries c) (pc_spawned c).
Definition set_usedSize v c : PrefixCache :=
  mkPrefixCache _ (pc_settings c) (pc_heap c) (pc_root c) (pc_treeBlocks c) (pc_mu c) (pc_gpuBlocks c)
    (pc_swapBlocks c) (pc_hits c) (pc_misses c) v (pc_swapUsed c) (pc_entries c) (pc_spawned c).
Definition set_swapUsed v c : PrefixCache :=
  mkPrefixCache _ (pc_settings c) (pc_heap c) (pc_root c) (pc_treeBlocks c) (pc_mu c) (pc_gpuBlocks c)
    (pc_swapBlocks c) (pc_hits c) (pc_misses c) (pc_usedSize c) v (pc_entries c) (pc_spawned c).
Definition set_entries v c : PrefixCache :=
  mkPrefixCache _ (pc_settings c) (pc_heap c) (pc_root c) (pc_treeBlocks c) (pc_mu c) (pc_gpuBlocks c)
    (pc_swapBlocks c) (pc_hits c) (pc_misses c) (pc_usedSize c) (pc_swapUsed c) v (pc_spawned c).
Definition set_spawned v c : PrefixCache :=
  mkPrefixCache _ (pc_settings c) (pc_heap c) (pc_root c) (pc_treeBlocks c) (pc_mu c) (pc_gpuBlocks c)
    (pc_swapBlocks c) (pc_hits c) (pc_misses c) (pc_usedSize c) (pc_swapUsed c) (pc_entries c) v.
End setters.

(** * Operations *)
(** The map of [GetSwapStats]. *)
Record SwapStats := mkSwapStats {
  sw_enabled : bool;
  sw_maxSize : Z;
  sw_usedSize : Z;
  sw_blockCount : nat;
  sw_gpuBlocks : nat;
}.

Section operations.
Context `{QuantityOps} `{GoRuntime}.
Implicit Type c : PrefixCache.

Definition NewPrefixCache (cacheName tierName : string) (size : Quantity) (ttl : Z)
    (config : option PrefixCacheConfig) : PrefixCache :=
  let pick (get : PrefixCacheConfig -> Z) (dflt : Z) : Z :=
    match config with
    | Some cfg => if 0 <? get cfg then get cfg else dflt
    | None => dflt
    end in
  let settings := mkPrefixSettings _ cacheName tierName size
    (if ttl =? 0 then Hour else ttl) config 2048
    (pick pcc_BlockSize 16) (pick pcc_MaxPrefixLength 2048) (pick pcc_MinPrefixLength 32)
    (match config with Some cfg => pcc_EnableSwap cfg | None => true end)
    (match config with
     | Some cfg => match pcc_SwapSpaceSize cfg with Some q => Quantity_Value q | None => 0 end
     | None => 0
     end) in
  mkPrefixCache _ settings [] newRoot ∅ false ∅ ∅ 0 0 0 0 0 0.

(** [c.mu.Lock()], [c.mu.Unlock()] and [c.mu.RLock(); ...; c.mu.RUnlock()]. *)
Definition Lock c : outcome PrefixCache := if pc_mu c then Blocked else Ret (set_mu true c).
Definition Unlock c : PrefixCache := set_mu false c.
Definition RLock c : outcome PrefixCache := if pc_mu c then Blocked else Ret c.

(** Pointer dereference and update of a block. *)
Definition load c (l : loc) : outcome PrefixCacheBlock :=
  match pc_heap c !! l with
  | Some b => Ret b
  | None => Panic "nil pointer dereference"
  end.
Definition modify (f : PrefixCacheBlock -> PrefixCacheBlock) (l : loc) c : PrefixCache :=
  set_heap (alter f l (pc_heap c)) c.

Definition maxSize c : Z := Quantity_Value (ps_maxSize (pc_settings c)).

(** [removeBlock]: the counters change according to the block's flags, the
    entry count always. *)
Definition removeBlock (hash : string) (l : loc) c : outcome PrefixCache :=
  block ← load c l;
  let c := if pb_InGPU block
           then set_usedSize (int64 (pc_usedSize c - pb_Size block))
                  (set_gpuBlocks (delete hash (pc_gpuBlocks c)) c)
           else c in
  let c := if pb_InSwap block
           then set_swapUsed (int64 (pc_swapUsed c - pb_Size block))
                  (set_swapBlocks (delete hash (pc_swapBlocks c)) c)
           else c in
  let c := set_treeBlocks (delete hash (pc_treeBlocks c)) c in
  Ret (set_entries (int64 (pc_entries c - 1)) c).

(** [moveToSwap]: the log statement slices the first 16 bytes of the hash. *)
Definition moveToSwap (hash : string) (l : loc) c : outcome PrefixCache :=
  block ← load c l;
  let c := modify (b_set_place false true) l c in
  let c := set_gpuBlocks (delete hash (pc_gpuBlocks c)) c in
  let c := set_swapBlocks (<[hash := l]> (pc_swapBlocks c)) c in
  let c := set_usedSize (int64 (pc_usedSize c - pb_Size block)) c in
  let c := set_swapUsed (int64 (pc_swapUsed c + pb_Size block)) c in
  _ ← slicePrefix hash 16;
  Ret c.

Definition evictExpired (now : Z) (seed : nat) c : outcome PrefixCache :=
  c ← Lock c;
  c ← foldM (fun c '(hash, l) =>
        block ← load c l;
        if (pb_ExpiresAt block <? now) && (pb_RefCount block =? 0)
        then removeBlock hash l c else Ret c)
      c (range seed (pc_gpuBlocks c));
  Ret (Unlock c).

(** The [blockInfo] of [evictLRU]: hash, block, access time. *)
Definition blockInfo : Type := string * loc * Z.
Definition collectUnpinned c (l : list (string * loc)) : list blockInfo :=
  omap (fun '(hash, p) =>
    b ← pc_heap c !! p;
    if pb_RefCount b =? 0 then Some (hash, p, pb_AccessedAt b) else None) l.
Definition accessedBefore (x y : blockInfo) : bool := x.2 <? y.2.

(** Target of an eviction: 80% of the maximum size, in int64 arithmetic. *)
Definition targetSize c : Z := Z.quot (int64 (maxSize c * 80)) 100.

Definition evictOne (bi : blockInfo) c : outcome PrefixCache :=
  if ps_enableSwap (pc_settings c) && (pc_swapUsed c <? ps_swapSize (pc_settings c))
  then moveToSwap bi.1.1 bi.1.2 c
  else removeBlock bi.1.1 bi.1.2 c.

Fixpoint evictLoop (target : Z) (blocks : list blockInfo) c : outcome PrefixCache :=
  match blocks with
  | [] => Ret c
  | bi :: rest =>
      if pc_usedSize c <=? target then Ret c
      else c ← evictOne bi c; evictLoop target rest c
  end.

Definition evictLRU (seed : nat) c : outcome PrefixCache :=
  c ← Lock c;
  let target := targetSize c in
  if pc_usedSize c <=? target then Ret (Unlock c)
  else
    let blocks := sort_slice accessedBefore (collectUnpinned c (range seed (pc_gpuBlocks c))) in
    c ← evictLoop target blocks c;
    Ret (Unlock c).

(** [moveToGPU] runs with the mutex held, and calls [evictLRU]. *)
Definition moveToGPU (seed : nat) (hash : string) (l : loc) c : outcome PrefixCache :=
  block ← load c l;
  c ← (if maxSize c <? int64 (pc_usedSize c + pb_Size block) then evictLRU seed c else Ret c);
  let c := modify (b_set_place true false) l c in
  let c := set_swapBlocks (delete hash (pc_swapBlocks c)) c in
  let c := set_gpuBlocks (<[hash := l]> (pc_gpuBlocks c)) c in
  let c := set_swapUsed (int64 (pc_swapUsed c - pb_Size block)) c in
  let c := set_usedSize (int64 (pc_usedSize c + pb_Size block)) c in
  _ ← slicePrefix hash 16;
  Ret c.

(** One iteration of [evictionLoop] (a 30 s ticker). *)
Definition evictionTick (now : Z) (seed : nat) c : outcome PrefixCache :=
  c ← evictExpired now seed c;
  evictLRU (S seed) c.

(** The lookup [Get] does under the read lock. *)
Definition lookupBlock (key : string) c : option loc :=
  match pc_gpuBlocks c !! key with
  | Some l => Some l
  | None => pc_swapBlocks c !! key
  end.

(** The expired branch of [Get]: its own critical section. *)
Definition getExpired (key : string) (l : loc) c : outcome PrefixCache :=
  c ← Lock c;
  c ← removeBlock key l c;
  let c := Unlock c in
  Ret (set_misses (int64 (pc_misses c + 1)) c).

Definition getHit (now : Z) (seed : nat) (key : string) (l : loc) c
    : outcome (PrefixCache * CacheEntry) :=
  let c := set_hits (int64 (pc_hits c + 1)) c in
  let c := modify (fun b => b_set_RefCount (int32 (pb_RefCount b + 1)) b) l c in
  c ← Lock c;
  let c := modify (b_set_AccessedAt now) l c in
  block ← load c l;
  c ← (if pb_InSwap block then moveToGPU seed key l c else Ret c);
  let c := Unlock c in
  block ← load c l;
  let entry := mkCacheEntry key (pb_KVCache block) (pb_Size block) (pb_CreatedAt block)
                 (pb_AccessedAt block) 0 0 (ps_tierName (pc_settings c)) ∅ in
  Ret (modify (fun b => b_set_RefCount (int32 (pb_RefCount b - 1)) b) l c, entry).

(** [Get]: [now1] and [now2] are its two [time.Now()] readings. *)
Definition Get (now1 now2 : Z) (seed : nat) (key : string) c
    : outcome (PrefixCache * result (option CacheEntry)) :=
  c ← RLock c;
  match lookupBlock key c with
  | None => Ret (set_misses (int64 (pc_misses c + 1)) c, Ok None)
  | Some l =>
      block ← load c l;
      if pb_ExpiresAt block <? now1
      then c ← getExpired key l c; Ret (c, Ok None)
      else '(c, entry) ← getHit now2 seed key l c; Ret (c, Ok (Some entry))
  end.

(** [Set] always stores; when the cache is over its size it starts an
    asynchronous eviction. *)
Definition Set_ (now : Z) (key : string) (value : bytes) (ttl : Z) c
    : outcome (PrefixCache * result unit) :=
  let ttl := if ttl =? 0 then ps_defaultTTL (pc_settings c) else ttl in
  let block := mkBlock key [] value (Z.of_nat (length value)) 0 now now (now + ttl) 0 true false in
  c ← Lock c;
  c ← (match pc_gpuBlocks c !! key with
       | Some old => removeBlock key old c
       | None => match pc_swapBlocks c !! key with
                 | Some old => removeBlock key old c
                 | None => Ret c
                 end
       end);
  let c := if maxSize c <? int64 (pc_usedSize c + pb_Size block)
           then set_spawned (S (pc_spawned c)) c else c in
  let l := length (pc_heap c) in
  let c := set_heap (pc_heap c ++ [block]) c in
  let c := set_gpuBlocks (<[key := l]> (pc_gpuBlocks c)) c in
  let c := set_treeBlocks (<[key := l]> (pc_treeBlocks c)) c in
  let c := set_usedSize (int64 (pc_usedSize c + pb_Size block)) c in
  let c := set_entries (int64 (pc_entries c + 1)) c in
  Ret (Unlock c, Ok tt).

Definition Delete (key : string) c : outcome (PrefixCache * result unit) :=
  c ← Lock c;
  c ← (match pc_gpuBlocks c !! key with
       | Some l => removeBlock key l c
       | None => match pc_swapBlocks c !! key with
                 | Some l => removeBlock key l c
                 | None => Ret c
                 end
       end);
  Ret (Unlock c, Ok tt).

Definition Clear c : outcome (PrefixCache * result unit) :=
  c ← Lock c;
  let c := set_treeBlocks ∅ (set_swapBlocks ∅ (set_gpuBlocks ∅ c)) in
  let root := pc_root c in
  let c := set_root (mkPrefixNode (pn_TokenID root) ∅ (pn_Block root) (pn_Depth root)) c in
  let c := set_entries 0 (set_swapUsed 0 (set_usedSize 0 c)) in
  Ret (Unlock c, Ok tt).

(** Accessors. *)
Definition Name c : string := ps_tierName (pc_settings c).
Definition Type_ c : CacheTierType := CacheTierTypePrefix.
Definition Size c : Quantity := ps_maxSize (pc_settings c).
Definition UsedSize c : Quantity := NewQuantity (pc_usedSize c) BinarySI.
Definition Entries c : Z := pc_entries c.
Definition Healthy c : bool := true.
Definition Stats c : TierStats :=
  let '(hitRate, missRate) := hitRates (pc_hits c) (pc_misses c) in
  mkTierStats hitRate missRate 0 (pc_entries c) (pc_usedSize c) (maxSize c) 0.

(** [hashTokens]: SHA-256 of the big-endian int32 tokens, in hex. *)
Definition token_bytes (t : Z) : bytes :=
  [Z.land (Z.shiftr t 24) 255; Z.land (Z.shiftr t 16) 255; Z.land (Z.shiftr t 8) 255; Z.land t 255].
Definition hashTokens (tokens : list Z) : string :=
  hex_encode (Sum256 (tokens ≫= token_bytes)).

Definition MatchPrefix (tokens : list Z) c : nat * list loc :=
  matchLoop (ps_maxPrefixLen (pc_settings c)) 0 (pc_root c) 0 [] tokens.

Definition insertIntoTree (tokens : list Z) (blockHash : string) c : PrefixCache :=
  set_root (insertLoop 0 (pc_root c) tokens (pc_treeBlocks c !! blockHash)) c.

(** The loop of [InsertPrefix]: [n] iterations left, at index [i]. *)
Fixpoint insertBlocks (now : nat -> Z) (tokens : list Z) (kv : bytes) (ttl : Z)
    (n i : nat) (blockStart : Z) c : outcome (PrefixCache * result unit) :=
  match n with
  | O => Ret (c, Ok tt)
  | S n' =>
      let len := Z.of_nat (length tokens) in
      let blockEnd0 := int64 (blockStart + ps_blockSize (pc_settings c)) in
      let blockEnd := if len <? blockEnd0 then len else blockEnd0 in
      blockTokens ← goSlice tokens blockStart blockEnd;
      upto ← goSlice tokens 0 blockEnd;
      let blockHash := hashTokens upto in
      kvStart ← goDiv (int64 (blockStart * Z.of_nat (length kv))) len;
      kvEnd ← goDiv (int64 (blockEnd * Z.of_nat (length kv))) len;
      blockKV ← goSlice kv kvStart kvEnd;
      '(c, r) ← Set_ (now i) blockHash blockKV ttl c;
      match r with
      | Err e => Ret (c, Err e)
      | Ok _ => insertBlocks now tokens kv ttl n' (S i) blockEnd
                  (insertIntoTree blockTokens blockHash c)
      end
  end.

Definition InsertPrefix (now : nat -> Z) (tokens : list Z) (kvCache : bytes) (ttl : Z) c
    : outcome (PrefixCache * result unit) :=
  let st := pc_settings c in
  if Z.of_nat (length tokens) <? ps_minPrefixLen st
  then Ret (c, Err ("prefix too short: " +:+ print_Z (Z.of_nat (length tokens)) +:+ " < "
                    +:+ print_Z (ps_minPrefixLen st)))
  else
    tokens ← (if ps_maxPrefixLen st <? Z.of_nat (length tokens)
              then goSlice tokens 0 (ps_maxPrefixLen st) else Ret tokens);
    numBlocks ← goDiv (int64 (int64 (Z.of_nat (length tokens) + ps_blockSize st) - 1)) (ps_blockSize st);
    insertBlocks now tokens kvCache ttl (Z.to_nat numBlocks) 0 0 c.

Definition GetSwapStats c : SwapStats :=
  mkSwapStats (ps_enableSwap (pc_settings c)) (ps_swapSize (pc_settings c)) (pc_swapUsed c) (size (pc_swapBlocks c)) (size (pc_gpuBlocks c)).
End operations.
