(* ===== verification/PrefixInv.v ===== *)
(** Well-formedness of the prefix cache (prefix.go) and its preservation by
    every operation: the GPU and swap maps are disjoint, point to blocks that
    carry the matching key and flags, and the three counters are the sizes of
    the maps, up to int64 wrap-around. *)
From S2P Require Import Prelude GoFloat Api Sha256 CacheTier PrefixTree PrefixCache.
Local Open Scope Z_scope.

Definition size_of (h : list PrefixCacheBlock) (l : loc) : Z :=
  match h !! l with Some b => pb_Size b | None => 0 end.

Definition block_ok (h : list PrefixCacheBlock) (gpu swap : bool) (k : string) (l : loc) : Prop :=
  exists b, h !! l = Some b /\ pb_Hash b = k /\ pb_InGPU b = gpu /\ pb_InSwap b = swap /\
            pb_Size b = Z.of_nat (length (pb_KVCache b)).

Record WF `{QuantityOps} (c : PrefixCache) : Prop := {
  wf_gpu : forall k l, pc_gpuBlocks c !! k = Some l -> block_ok (pc_heap c) true false k l;
  wf_swap : forall k l, pc_swapBlocks c !! k = Some l -> block_ok (pc_heap c) false true k l;
  wf_disj : forall k, is_Some (pc_gpuBlocks c !! k) -> pc_swapBlocks c !! k = None;
  wf_tree : forall k, pc_treeBlocks c !! k = lookupBlock k c;
  wf_used : pc_usedSize c = int64 (map_sum (size_of (pc_heap c)) (pc_gpuBlocks c));
  wf_swapUsed : pc_swapUsed c = int64 (map_sum (size_of (pc_heap c)) (pc_swapBlocks c));
  wf_entries : pc_entries c = int64 (Z.of_nat (size (pc_gpuBlocks c) + size (pc_swapBlocks c)));
}.

(** What the block-moving operations leave alone. *)
Record same_frame `{QuantityOps} (c c' : PrefixCache) : Prop := {
  sf_settings : pc_settings c' = pc_settings c;
  sf_root : pc_root c' = pc_root c;
  sf_mu : pc_mu c' = pc_mu c;
  sf_spawned : pc_spawned c' = pc_spawned c;
  sf_hits : pc_hits c' = pc_hits c;
  sf_misses : pc_misses c' = pc_misses c;
}.

(** Outcome of removing the block of [k]. *)
Definition removed `{QuantityOps} (k : string) (c c' : PrefixCache) : Prop :=
  WF c' /\ same_frame c c' /\ pc_heap c' = pc_heap c /\
  pc_gpuBlocks c' = delete k (pc_gpuBlocks c) /\ pc_swapBlocks c' = delete k (pc_swapBlocks c).

(** Outcome of moving the block [l] of [k] from the GPU to swap. *)
Definition swapped_out `{QuantityOps} (k : string) (l : loc) (c c' : PrefixCache) : Prop :=
  WF c' /\ same_frame c c' /\ pc_heap c' = alter (b_set_place false true) l (pc_heap c) /\
  pc_gpuBlocks c' = delete k (pc_gpuBlocks c) /\ pc_swapBlocks c' = <[k := l]> (pc_swapBlocks c).

(** Outcome of moving it back. *)
Definition swapped_in `{QuantityOps} (k : string) (l : loc) (c c' : PrefixCache) : Prop :=
  WF c' /\ same_frame c c' /\ pc_heap c' = alter (b_set_place true false) l (pc_heap c) /\
  pc_gpuBlocks c' = <[k := l]> (pc_gpuBlocks c) /\ pc_swapBlocks c' = delete k (pc_swapBlocks c).

(** The block [Set] allocates. *)
Definition newBlock `{QuantityOps} (now : Z) (k : string) (v : bytes) (ttl : Z) (c : PrefixCache)
    : PrefixCacheBlock :=
  mkBlock k [] v (Z.of_nat (length v)) 0 now now
    (now + if ttl =? 0 then ps_defaultTTL (pc_settings c) else ttl) 0 true false.

(** Outcome of storing [b] under [k]. *)
Record stored `{QuantityOps} (k : string) (b : PrefixCacheBlock) (c c' : PrefixCache) : Prop := {
  st_WF : WF c';
  st_settings : pc_settings c' = pc_settings c;
  st_root : pc_root c' = pc_root c;
  st_mu : pc_mu c' = pc_mu c;
  st_heap : pc_heap c' = pc_heap c ++ [b];
  st_gpu : pc_gpuBlocks c' = <[k := length (pc_heap c)]> (pc_gpuBlocks c);
  st_swap : pc_swapBlocks c' = delete k (pc_swapBlocks c);
}.

(** The block stored under a key. *)
Definition content `{QuantityOps} (k : string) (c : PrefixCache) : option PrefixCacheBlock :=
  lookupBlock k c ≫= fun l => pc_heap c !! l.

(** Blocks keep everything but their placement flags. *)
Definition heap_placed (h h' : list PrefixCacheBlock) : Prop :=
  forall l b, h !! l = Some b -> exists g s, h' !! l = Some (b_set_place g s b).

(** A list of (hash, block) pairs taken from the GPU map. *)
Definition listed `{QuantityOps} (l : list (string * loc)) (c : PrefixCache) : Prop :=
  NoDup l.*1 /\ forall k p, (k, p) ∈ l -> pc_gpuBlocks c !! k = Some p.

(** Blocks [evictExpired] removes. *)
Definition expired_unpinned (h : list PrefixCacheBlock) (now : Z) (l : loc) : bool :=
  match h !! l with
  | Some b => (pb_ExpiresAt b <? now) && (pb_RefCount b =? 0)
  | None => false
  end.

(** A block update that keeps identity, contents and placement. *)
Definition keeps_place (f : PrefixCacheBlock -> PrefixCacheBlock) : Prop :=
  forall b, pb_Hash (f b) = pb_Hash b /\ pb_KVCache (f b) = pb_KVCache b /\ pb_Size (f b) = pb_Size b /\
            pb_InGPU (f b) = pb_InGPU b /\ pb_InSwap (f b) = pb_InSwap b.

Section facts.
Context `{QO : QuantityOps} `{GR : GoRuntime}.
Implicit Types (c : PrefixCache) (k : string) (l : loc).

#[local] Hint Constructors WF same_frame : inference.

Lemma same_frame_refl c : same_frame c c.
Proof. by constructor. Qed.
Lemma same_frame_trans c1 c2 c3 : same_frame c1 c2 -> same_frame c2 c3 -> same_frame c1 c3.
Proof. intros [] []. constructor; congruence. Qed.

Lemma load_ok c l b : pc_heap c !! l = Some b -> load c l = Ret b.
Proof. intros Hb. unfold load. by rewrite Hb. Qed.

Lemma size_of_lookup h l b : h !! l = Some b -> size_of h l = pb_Size b.
Proof. intros Hb. unfold size_of. by rewrite Hb. Qed.

Lemma size_of_alter f h l x : (forall b, pb_Size (f b) = pb_Size b) ->
  size_of (alter f l h) x = size_of h x.
Proof.
  intros Hf. unfold size_of. destruct (decide (x = l)) as [->|Hne].
  - rewrite list_lookup_alter_eq. by destruct (h !! l); simpl.
  - by rewrite list_lookup_alter_ne.
Qed.

Lemma block_ok_alter f h g s k l x : keeps_place f ->
  block_ok h g s k l -> block_ok (alter f x h) g s k l.
Proof.
  intros Hf (b & Hb & Hh & Hg & Hs & Hz). destruct (decide (x = l)) as [->|Hne].
  - exists (f b). destruct (Hf b) as (? & ? & ? & ? & ?).
    rewrite list_lookup_alter_eq, Hb. simpl. split_and!; congruence.
  - exists b. by rewrite list_lookup_alter_ne.
Qed.

Lemma block_ok_alter_ne f h g s k l x : x <> l ->
  block_ok h g s k l -> block_ok (alter f x h) g s k l.
Proof. intros Hne (b & Hb & ?). exists b. by rewrite list_lookup_alter_ne. Qed.

Lemma block_ok_app h h' g s k l : block_ok h g s k l -> block_ok (h ++ h') g s k l.
Proof. intros (b & Hb & ?). exists b. split; [by apply lookup_app_l_Some | done]. Qed.

Lemma block_ok_key h g s g' s' k k' l : block_ok h g s k l -> block_ok h g' s' k' l -> k = k'.
Proof. intros (? & ? & <- & _) (? & ? & <- & _). congruence. Qed.

Lemma size_of_app h h' l : (l < length h)%nat -> size_of (h ++ h') l = size_of h l.
Proof. intros Hl. unfold size_of. by rewrite lookup_app_l. Qed.

Lemma block_ok_lt h g s k l : block_ok h g s k l -> (l < length h)%nat.
Proof. intros (b & Hb & _). by apply lookup_lt_Some in Hb. Qed.
Hint Resolve block_ok_alter block_ok_app block_ok_lt : inference.

Lemma size_of_nonneg h g s k l : block_ok h g s k l -> 0 <= size_of h l.
Proof. intros (b & Hb & _ & _ & _ & Hz). unfold size_of. rewrite Hb. lia. Qed.

(** ** Updates that keep placement *)
Lemma WF_modify f l c : keeps_place f -> WF c -> WF (modify f l c).
Proof.
  intros Hf [Hg Hs Hd Ht Hu Hsu He].
  assert (Hsz : forall x, size_of (alter f l (pc_heap c)) x = size_of (pc_heap c) x).
  { intros x. apply size_of_alter. intros b. apply Hf. }
  constructor; simpl; eauto with inference.
  - rewrite Hu. f_equal. by apply map_sum_ext.
  - rewrite Hsu. f_equal. by apply map_sum_ext.
Qed.

(** Updates of fields the invariant does not mention. *)
Lemma WF_frame c c' : pc_heap c' = pc_heap c -> pc_treeBlocks c' = pc_treeBlocks c ->
  pc_gpuBlocks c' = pc_gpuBlocks c -> pc_swapBlocks c' = pc_swapBlocks c ->
  pc_usedSize c' = pc_usedSize c -> pc_swapUsed c' = pc_swapUsed c ->
  pc_entries c' = pc_entries c -> WF c -> WF c'.
Proof.
  intros E1 E2 E3 E4 E5 E6 E7 [Hg Hs Hd Ht Hu Hsu He].
  unfold lookupBlock in *.
  constructor; rewrite ?E1, ?E2, ?E3, ?E4, ?E5, ?E6, ?E7; auto.
  intros k. unfold lookupBlock. rewrite E3, E4. apply Ht.
Qed.

(** ** removeBlock *)
Lemma int64_size_delete {V} (m : gmap string V) (k : string) n v : m !! k = Some v ->
  int64 (int64 (Z.of_nat (size m + n)) - 1) = int64 (Z.of_nat (size (delete k m) + n)).
Proof.
  intros Hk. rewrite int64_sub. f_equal.
  rewrite (map_size_delete_Some k m) by eauto.
  enough (size m <> 0)%nat by lia.
  intros E. apply map_size_empty_inv in E. subst. by rewrite lookup_empty in Hk.
Qed.

Lemma removeBlock_spec k l c : WF c -> lookupBlock k c = Some l ->
  exists c', removeBlock k l c = Ret c' /\ removed k c c'.
Proof.
  intros HWF Hl. destruct (HWF) as [Hg Hs Hd Ht Hu Hsu He].
  unfold lookupBlock in Hl. destruct (pc_gpuBlocks c !! k) as [l'|] eqn:Eg.
  - injection Hl as ->. destruct (Hg _ _ Eg) as (b & Hb & Hh & Hgp & Hsw & Hz).
    assert (Esw : pc_swapBlocks c !! k = None) by (apply Hd; eauto).
    unfold removeBlock, load. rewrite Hb. simpl. rewrite Hgp, Hsw. eexists; split; [done|].
    split_and!; simpl; [|by constructor|done|done|by rewrite delete_id].
    constructor; simpl; unfold lookupBlock; simpl.
    + intros k' l' H'. apply lookup_delete_Some in H' as [_ H']. auto.
    + auto.
    + intros k' [? H']. apply lookup_delete_Some in H' as [_ H']. eauto.
    + intros k'. destruct (decide (k = k')) as [->|Hne].
      * by rewrite !lookup_delete_eq, Esw.
      * rewrite !lookup_delete_ne by done. apply Ht.
    + rewrite (map_sum_delete _ _ _ _ Eg), Hu, (size_of_lookup _ _ _ Hb). apply int64_sub.
    + done.
    + rewrite He. by eapply int64_size_delete.
  - destruct (Hs _ _ Hl) as (b & Hb & Hh & Hgp & Hsw & Hz).
    unfold removeBlock, load. rewrite Hb. simpl. rewrite Hgp, Hsw. eexists; split; [done|].
    split_and!; simpl; [|by constructor|done|by rewrite delete_id|done].
    constructor; simpl; unfold lookupBlock; simpl.
    + auto.
    + intros k' l' H'. apply lookup_delete_Some in H' as [_ H']. auto.
    + intros k' H'. rewrite lookup_delete_None. eauto.
    + intros k'. destruct (decide (k = k')) as [->|Hne].
      * by rewrite !lookup_delete_eq, Eg.
      * rewrite !lookup_delete_ne by done. apply Ht.
    + done.
    + rewrite (map_sum_delete _ _ _ _ Hl), Hsu, (size_of_lookup _ _ _ Hb). apply int64_sub.
    + rewrite He, (Nat.add_comm (size (pc_gpuBlocks c))), (Nat.add_comm (size (pc_gpuBlocks c))).
      by eapply int64_size_delete.
Qed.
(** ** moveToSwap *)
Lemma loc_ne h g s g' s' k k' l l' : block_ok h g s k l -> block_ok h g' s' k' l' ->
  k <> k' -> l <> l'.
Proof. intros H1 H2 Hne ->. apply Hne. by eapply block_ok_key. Qed.

Lemma block_ok_placed h g s g' s' k l : block_ok h g s k l ->
  block_ok (alter (b_set_place g' s') l h) g' s' k l.
Proof.
  intros (b & Hb & Hh & _ & _ & Hz). eexists. rewrite list_lookup_alter_eq, Hb. simpl. done.
Qed.

Lemma moved_gpu_to_swap_WF k l c : WF c -> pc_gpuBlocks c !! k = Some l ->
  let h := alter (b_set_place false true) l (pc_heap c) in
  (forall k' l', delete k (pc_gpuBlocks c) !! k' = Some l' -> block_ok h true false k' l') /\
  (forall k' l', <[k := l]> (pc_swapBlocks c) !! k' = Some l' -> block_ok h false true k' l').
Proof.
  intros [Hg Hs Hd _ _ _ _] Eg h. split.
  - intros k' l' H'. apply lookup_delete_Some in H' as [Hne H'].
    apply block_ok_alter_ne; [|by apply Hg]. eapply loc_ne; [by apply Hg | by apply Hg | done].
  - intros k' l' H'. apply lookup_insert_Some in H' as [[<- <-]|[Hne H']].
    + eapply block_ok_placed. by apply Hg.
    + apply block_ok_alter_ne; [|by apply Hs]. eapply loc_ne; [by apply Hg | by apply Hs | done].
Qed.

Lemma moveToSwap_spec k l c : WF c -> pc_gpuBlocks c !! k = Some l ->
  exists c', moveToSwap k l c = (if decide (16 <= String.length k)%nat then Ret c'
                                 else Panic "slice bounds out of range")
    /\ swapped_out k l c c'.
Proof.
  intros HWF Eg. destruct (HWF) as [Hg Hs Hd Ht Hu Hsu He].
  destruct (Hg _ _ Eg) as (b & Hb & Hh & Hgp & Hsw & Hz).
  assert (Esw : pc_swapBlocks c !! k = None) by (apply Hd; eauto).
  destruct (moved_gpu_to_swap_WF k l c HWF Eg) as [Hg' Hs'].
  assert (Hsz : forall x, size_of (alter (b_set_place false true) l (pc_heap c)) x = size_of (pc_heap c) x)
    by (intros x; by apply size_of_alter).
  unfold moveToSwap, load. rewrite Hb. simpl. unfold slicePrefix.
  eexists. split; [by destruct (decide _)|].
  split_and!; simpl; [|by constructor|done|done|done].
  constructor; simpl; unfold lookupBlock; simpl; [exact Hg' | exact Hs' | | | | |].
  - intros k' [? H']. apply lookup_delete_Some in H' as [Hne H'].
    rewrite lookup_insert_ne by done. eauto.
  - intros k'. destruct (decide (k = k')) as [<-|Hne].
    + rewrite lookup_delete_eq, lookup_insert_eq, Ht. unfold lookupBlock. by rewrite Eg.
    + rewrite lookup_delete_ne, lookup_insert_ne by done. apply Ht.
  - rewrite (map_sum_ext _ (size_of (pc_heap c))) by auto.
    rewrite (map_sum_delete _ _ _ _ Eg), Hu, (size_of_lookup _ _ _ Hb). apply int64_sub.
  - rewrite (map_sum_ext _ (size_of (pc_heap c))) by auto.
    rewrite map_sum_insert_None, Hsu, (size_of_lookup _ _ _ Hb) by done.
    rewrite int64_add. f_equal. lia.
  - rewrite He, map_size_insert_None by done. rewrite (map_size_delete_Some k) by eauto.
    do 2 f_equal. enough (size (pc_gpuBlocks c) <> 0)%nat by lia.
    intros E. apply map_size_empty_inv in E. rewrite E, lookup_empty in Eg. done.
Qed.
(** ** moveToGPU *)
Lemma moveToGPU_room seed k l c b : WF c -> pc_swapBlocks c !! k = Some l ->
  pc_heap c !! l = Some b -> int64 (pc_usedSize c + pb_Size b) <= maxSize c ->
  exists c', moveToGPU seed k l c = (if decide (16 <= String.length k)%nat then Ret c'
                                     else Panic "slice bounds out of range")
    /\ swapped_in k l c c'.
Proof.
  intros HWF Es Hb Hroom. destruct (HWF) as [Hg Hs Hd Ht Hu Hsu He].
  assert (Eg : pc_gpuBlocks c !! k = None).
  { destruct (pc_gpuBlocks c !! k) eqn:E; [|done]. rewrite Hd in Es by eauto. done. }
  assert (Hsz : forall x, size_of (alter (b_set_place true false) l (pc_heap c)) x = size_of (pc_heap c) x)
    by (intros x; by apply size_of_alter).
  unfold moveToGPU, load. rewrite Hb. simpl.
  replace (maxSize c <? int64 (pc_usedSize c + pb_Size b)) with false
    by (symmetry; by apply Z.ltb_ge). simpl. unfold slicePrefix.
  eexists. split; [by destruct (decide _)|].
  split_and!; simpl; [|by constructor|done|done|done].
  constructor; simpl; unfold lookupBlock; simpl.
  - intros k' l' H'. apply lookup_insert_Some in H' as [[<- <-]|[Hne H']].
    + eapply block_ok_placed. by apply Hs.
    + apply block_ok_alter_ne; [|by apply Hg]. eapply loc_ne; [by apply Hs | by apply Hg | done].
  - intros k' l' H'. apply lookup_delete_Some in H' as [Hne H'].
    apply block_ok_alter_ne; [|by apply Hs]. eapply loc_ne; [by apply Hs | by apply Hs | done].
  - intros k' [? H']. apply lookup_insert_Some in H' as [[<- _]|[Hne H']].
    + apply lookup_delete_eq.
    + rewrite lookup_delete_ne by done. eauto.
  - intros k'. destruct (decide (k = k')) as [<-|Hne].
    + rewrite lookup_insert_eq, Ht. unfold lookupBlock. by rewrite Eg.
    + rewrite lookup_delete_ne, lookup_insert_ne by done. apply Ht.
  - rewrite (map_sum_ext _ (size_of (pc_heap c))) by auto.
    rewrite map_sum_insert_None, Hu, (size_of_lookup _ _ _ Hb) by done.
    rewrite int64_add. f_equal. lia.
  - rewrite (map_sum_ext _ (size_of (pc_heap c))) by auto.
    rewrite (map_sum_delete _ _ _ _ Es), Hsu, (size_of_lookup _ _ _ Hb). apply int64_sub.
  - rewrite He, map_size_insert_None by done. rewrite (map_size_delete_Some k) by eauto.
    do 2 f_equal. enough (size (pc_swapBlocks c) <> 0)%nat by lia.
    intros E. apply map_size_empty_inv in E. rewrite E, lookup_empty in Es. done.
Qed.

(** With the mutex held and no room, [moveToGPU] waits for itself. *)
Lemma moveToGPU_full seed k l c b : pc_mu c = true -> pc_heap c !! l = Some b ->
  maxSize c < int64 (pc_usedSize c + pb_Size b) -> moveToGPU seed k l c = Blocked.
Proof.
  intros Hmu Hb Hfull. unfold moveToGPU, load. rewrite Hb. simpl.
  replace (maxSize c <? int64 (pc_usedSize c + pb_Size b)) with true
    by (symmetry; by apply Z.ltb_lt).
  unfold evictLRU, Lock. by rewrite Hmu.
Qed.

(** ** Set *)
Lemma WF_store k b c : WF c -> lookupBlock k c = None -> pb_Hash b = k -> pb_InGPU b = true ->
  pb_InSwap b = false -> pb_Size b = Z.of_nat (length (pb_KVCache b)) ->
  WF (set_entries (int64 (pc_entries c + 1)) (set_usedSize (int64 (pc_usedSize c + pb_Size b))
       (set_treeBlocks (<[k := length (pc_heap c)]> (pc_treeBlocks c))
       (set_gpuBlocks (<[k := length (pc_heap c)]> (pc_gpuBlocks c))
       (set_heap (pc_heap c ++ [b]) c))))).
Proof.
  intros [Hg Hs Hd Ht Hu Hsu He] Hn Hh Hgp Hsw Hz. unfold lookupBlock in Hn.
  destruct (pc_gpuBlocks c !! k) eqn:Eg; [done|].
  constructor; simpl; unfold lookupBlock; simpl.
  - intros k' l' H'. apply lookup_insert_Some in H' as [[<- <-]|[Hne H']].
    + exists b. rewrite lookup_app_r, Nat.sub_diag by lia. done.
    + apply block_ok_app. auto.
  - intros k' l' H'. apply block_ok_app. auto.
  - intros k' [? H']. apply lookup_insert_Some in H' as [[<- _]|[Hne H']]; eauto.
  - intros k'. destruct (decide (k = k')) as [<-|Hne]; [by rewrite !lookup_insert_eq|].
    rewrite !lookup_insert_ne by done. apply Ht.
  - rewrite map_sum_insert_None by done. unfold size_of at 1.
    rewrite lookup_app_r, Nat.sub_diag by lia. simpl.
    rewrite (map_sum_ext _ (size_of (pc_heap c))), Hu, int64_add; [f_equal; lia|].
    intros k' l' H'. apply size_of_app. by eapply block_ok_lt, Hg.
  - rewrite (map_sum_ext _ (size_of (pc_heap c))); [done|].
    intros k' l' H'. apply size_of_app. by eapply block_ok_lt, Hs.
  - rewrite He, map_size_insert_None, int64_add by done. f_equal. lia.
Qed.

Lemma lookupBlock_removed k c c' : removed k c c' -> lookupBlock k c' = None.
Proof.
  intros (_ & _ & _ & Hg & Hs). unfold lookupBlock. by rewrite Hg, Hs, !lookup_delete_eq.
Qed.

(** Removing whatever block [k] has, as [Set] and [Delete] begin. *)
Lemma remove_old_spec k c : WF c ->
  exists c', (match pc_gpuBlocks c !! k with
              | Some old => removeBlock k old c
              | None => match pc_swapBlocks c !! k with
                        | Some old => removeBlock k old c
                        | None => Ret c
                        end
              end) = Ret c' /\ removed k c c'.
Proof.
  intros HWF.
  pose proof (fun l => removeBlock_spec k l c HWF) as Hrm. unfold lookupBlock in Hrm.
  destruct (pc_gpuBlocks c !! k) eqn:Eg; [by apply Hrm|].
  destruct (pc_swapBlocks c !! k) eqn:Es; [by apply Hrm|].
  exists c. split; [done|]. split_and!; [done | apply same_frame_refl | done | |];
    by rewrite delete_id.
Qed.

Lemma Set_spec now k v ttl c : WF c -> pc_mu c = false ->
  exists c', Set_ now k v ttl c = Ret (c', Ok tt) /\ stored k (newBlock now k v ttl c) c c'.
Proof.
  intros HWF Hmu. unfold Set_, Lock. rewrite Hmu. simpl.
  assert (HWF1 : WF (set_mu true c)) by (by eapply WF_frame, HWF).
  destruct (remove_old_spec k _ HWF1) as (c1 & Hrm & Hd). simpl in Hrm. rewrite Hrm. simpl.
  pose proof (lookupBlock_removed _ _ _ Hd) as Hn.
  destruct Hd as (HWF2 & [Hst Hrt _ _ _ _] & Hh & Hg & Hs). simpl in *.
  eexists. split; [done|].
  assert (HWF3 : forall n, WF (set_spawned n c1)) by (intros n; by eapply WF_frame, HWF2).
  destruct (maxSize c1 <? _); simpl; (constructor; simpl;
    [ | congruence | congruence | congruence | by rewrite Hh | by rewrite Hg, Hh, insert_delete_eq | done ]).
  - eapply WF_frame; [..|apply (WF_store k (newBlock now k v ttl c) (set_spawned (S (pc_spawned c1)) c1));
      [apply HWF3|exact Hn|done..]]; done.
  - eapply WF_frame; [..|apply (WF_store k (newBlock now k v ttl c) c1);
      [apply HWF2|exact Hn|done..]]; done.
Qed.

Lemma lookupBlock_lt k l c : WF c -> lookupBlock k c = Some l -> (l < length (pc_heap c))%nat.
Proof.
  intros [Hg Hs _ _ _ _ _]. unfold lookupBlock. destruct (pc_gpuBlocks c !! k) eqn:E; intros Hl.
  - injection Hl as ->. by eapply block_ok_lt, Hg.
  - by eapply block_ok_lt, Hs.
Qed.

(** Storing [b] under [k] changes what [k] maps to and nothing else. *)
Lemma stored_content k b c c' k' : WF c -> stored k b c c' ->
  content k' c' = if decide (k = k') then Some b else content k' c.
Proof.
  intros HWF [_ _ _ _ Hh Hg Hs]. unfold content, lookupBlock. rewrite Hg, Hs, Hh. case_decide as Hk.
  - subst k'. rewrite lookup_insert_eq. simpl. by rewrite lookup_app_r, Nat.sub_diag by lia.
  - rewrite lookup_insert_ne, lookup_delete_ne by done.
    pose proof (fun l => lookupBlock_lt k' l c HWF) as Hlt. unfold lookupBlock in Hlt.
    destruct (pc_gpuBlocks c !! k') as [l|]; simpl.
    + apply lookup_app_l. by apply Hlt.
    + destruct (pc_swapBlocks c !! k') as [l|]; simpl; [|done]. apply lookup_app_l. by apply Hlt.
Qed.

(** ** Evictions *)
Lemma heap_placed_refl h : heap_placed h h.
Proof. intros l b Hb. exists (pb_InGPU b), (pb_InSwap b). by destruct b. Qed.
Lemma heap_placed_trans h1 h2 h3 : heap_placed h1 h2 -> heap_placed h2 h3 -> heap_placed h1 h3.
Proof.
  intros H1 H2 l b Hb. destruct (H1 l b Hb) as (g & s & Hb').
  destruct (H2 l _ Hb') as (g' & s' & Hb''). eauto.
Qed.
Lemma heap_placed_alter g s l h : heap_placed h (alter (b_set_place g s) l h).
Proof.
  intros l' b Hb. destruct (decide (l = l')) as [->|Hne].
  - rewrite list_lookup_alter_eq, Hb. simpl. eauto.
  - rewrite list_lookup_alter_ne by done. by apply heap_placed_refl.
Qed.
Hint Resolve heap_placed_refl heap_placed_alter same_frame_refl : inference.

Lemma listed_range seed c : listed (range seed (pc_gpuBlocks c)) c.
Proof. split; [apply range_NoDup|]. intros k p. by rewrite range_elem. Qed.

Lemma listed_tail k l rest c c' : listed ((k, l) :: rest) c ->
  pc_gpuBlocks c' = delete k (pc_gpuBlocks c) -> listed rest c'.
Proof.
  intros [Hnd Hin] Hg. simpl in Hnd. apply NoDup_cons in Hnd as [Hk Hnd].
  split; [done|]. intros k' p Hp. rewrite Hg, lookup_delete_ne.
  - apply Hin. by right.
  - intros ->. apply Hk. apply list_elem_of_fmap. by exists (k', p).
Qed.

Lemma listed_tail_same k l rest c : listed ((k, l) :: rest) c -> listed rest c.
Proof.
  intros [Hnd Hin]. simpl in Hnd. apply NoDup_cons in Hnd as [_ Hnd]. split; [done|].
  intros k' p Hp. apply Hin. by right.
Qed.

Lemma evictExpired_loop now (ls : list (string * loc)) c : WF c -> listed ls c ->
  exists c', foldM (fun c '(hash, l) =>
        block ← load c l;
        if (pb_ExpiresAt block <? now) && (pb_RefCount block =? 0)
        then removeBlock hash l c else Ret c) c ls = Ret c'
    /\ WF c' /\ same_frame c c' /\ pc_heap c' = pc_heap c /\ pc_swapBlocks c' = pc_swapBlocks c
    /\ forall k p, pc_gpuBlocks c' !! k = Some p <->
         pc_gpuBlocks c !! k = Some p /\
         ((k, p) ∈ ls -> expired_unpinned (pc_heap c) now p = false).
Proof.
  revert c. induction ls as [|[k p] rest IH]; intros c HWF Hl; simpl.
  - exists c. split_and!; [done|done|by apply same_frame_refl|done|done|].
    intros k p. split; [|by intros [? _]]. intros Hk. split; [done|]. intros Hin.
    by apply elem_of_nil in Hin.
  - assert (Hk : pc_gpuBlocks c !! k = Some p) by (apply Hl; by left).
    destruct (wf_gpu c HWF _ _ Hk) as (b & Hb & _ & _ & _ & _).
    rewrite (load_ok _ _ _ Hb). simpl.
    assert (Hex : expired_unpinned (pc_heap c) now p =
                  ((pb_ExpiresAt b <? now) && (pb_RefCount b =? 0)))
      by (unfold expired_unpinned; by rewrite Hb).
    destruct (_ && _) eqn:E.
    + destruct (removeBlock_spec k p c HWF) as (c1 & -> & HWF1 & Hf1 & Hh1 & Hg1 & Hs1).
      { unfold lookupBlock. by rewrite Hk. }
      simpl. destruct (IH c1 HWF1) as (c2 & -> & HWF2 & Hf2 & Hh2 & Hs2 & Hg2).
      { by eapply listed_tail. }
      exists c2. split_and!; [done|done|by eapply same_frame_trans|congruence| |].
      { rewrite Hs2, Hs1, delete_id; [done|]. apply (wf_disj c HWF). eauto. }
      intros k' p'. rewrite Hg2, Hg1, Hh1, lookup_delete_Some, elem_of_cons.
      naive_solver congruence.
    + simpl. destruct (IH c HWF) as (c2 & -> & HWF2 & Hf2 & Hh2 & Hs2 & Hg2).
      { by eapply listed_tail_same. }
      exists c2. split_and!; [done..|]. intros k' p'. rewrite Hg2, elem_of_cons.
      naive_solver congruence.
Qed.

Lemma evictExpired_spec now seed c : WF c -> pc_mu c = false ->
  exists c', evictExpired now seed c = Ret c' /\ WF c' /\ same_frame c c' /\
    pc_heap c' = pc_heap c /\ pc_swapBlocks c' = pc_swapBlocks c /\
    forall k p, pc_gpuBlocks c' !! k = Some p <->
      pc_gpuBlocks c !! k = Some p /\ expired_unpinned (pc_heap c) now p = false.
Proof.
  intros HWF Hmu. unfold evictExpired, Lock. rewrite Hmu. simpl.
  destruct (evictExpired_loop now (range seed (pc_gpuBlocks c)) (set_mu true c))
    as (c1 & -> & HWF1 & [] & Hh1 & Hs1 & Hg1); [by eapply WF_frame, HWF | exact (listed_range seed (set_mu true c)) |].
  simpl in *. exists (Unlock c1). split_and!; [done|by eapply WF_frame, HWF1|by constructor|done|done|].
  intros k p. simpl. rewrite Hg1, range_elem. naive_solver.
Qed.
End facts.
