(* ===== verification/PrefixEvict.v ===== *)
(** The LRU eviction of the prefix cache (prefix.go, [evictLRU]): which blocks
    leave the GPU, in which order, and when the loop stops or panics. *)
From S2P Require Import Prelude GoFloat Api Sha256 CacheTier PrefixTree PrefixCache PrefixInv.
Local Open Scope Z_scope.

Definition bi_key (bi : blockInfo) : string := bi.1.1.

(** The list handed to the eviction loop: distinct GPU entries. *)
Definition candidates `{QuantityOps} (bis : list blockInfo) (c : PrefixCache) : Prop :=
  listed bis.*1 c.

(** The state after evicting the blocks of [pre]. *)
Record evicted `{QuantityOps} (pre : list blockInfo) (c c' : PrefixCache) : Prop := {
  ev_WF : WF c';
  ev_frame : same_frame c c';
  ev_heap : heap_placed (pc_heap c) (pc_heap c');
  ev_gpu : forall k p, pc_gpuBlocks c' !! k = Some p <->
             pc_gpuBlocks c !! k = Some p /\ k ∉ bi_key <$> pre;
}.

(** Keys long enough for the log statement of [moveToSwap]. *)
Definition long_keys `{QuantityOps} (c : PrefixCache) : Prop :=
  forall k, is_Some (pc_gpuBlocks c !! k) -> (16 <= String.length k)%nat.

(** The specification of [evictLRU]: [c'] results from evicting unpinned GPU
    blocks of [c], none when usage is within 80% of the maximum, least recently
    used first, until usage is within the target or only pinned blocks are left. *)
Record lru_evicted `{QuantityOps} (c c' : PrefixCache) : Prop := {
  lru_WF : WF c';
  lru_frame : same_frame c c';
  lru_heap : heap_placed (pc_heap c) (pc_heap c');
  lru_subset : pc_gpuBlocks c' ⊆ pc_gpuBlocks c;
  lru_idle : pc_usedSize c <= targetSize c -> pc_gpuBlocks c' = pc_gpuBlocks c;
  lru_pinned : forall k p b, pc_gpuBlocks c !! k = Some p -> pc_heap c !! p = Some b ->
    pb_RefCount b <> 0 -> pc_gpuBlocks c' !! k = Some p;
  lru_target : pc_usedSize c' <= targetSize c \/
    forall k p b, pc_gpuBlocks c' !! k = Some p -> pc_heap c !! p = Some b -> pb_RefCount b <> 0;
  lru_order : forall k1 p1 b1 k2 p2 b2,
    pc_gpuBlocks c !! k1 = Some p1 -> pc_heap c !! p1 = Some b1 -> pc_gpuBlocks c' !! k1 = None ->
    pc_gpuBlocks c' !! k2 = Some p2 -> pc_heap c !! p2 = Some b2 -> pb_RefCount b2 = 0 ->
    pb_AccessedAt b1 <= pb_AccessedAt b2;
}.

Section facts.
Context `{QO : QuantityOps} `{GR : GoRuntime}.
Implicit Types (c : PrefixCache) (k : string).

#[local] Instance listed_proper : Proper ((≡ₚ) ==> (=) ==> iff) (@listed QO).
Proof.
  intros l1 l2 Hl c1 c2 ->. unfold listed. rewrite Hl.
  split; intros [Hnd Hin]; (split; [done|]); intros k p Hp; apply Hin; [by rewrite Hl | by rewrite <- Hl].
Qed.

Lemma evictOne_spec (bi : blockInfo) c : WF c -> pc_gpuBlocks c !! bi_key bi = Some bi.1.2 ->
  (exists c', evictOne bi c = Ret c' /\ WF c' /\ same_frame c c' /\
     heap_placed (pc_heap c) (pc_heap c') /\ pc_gpuBlocks c' = delete (bi_key bi) (pc_gpuBlocks c)) \/
  (evictOne bi c = Panic "slice bounds out of range" /\ (String.length (bi_key bi) < 16)%nat).
Proof.
  intros HWF Hk. unfold evictOne, bi_key in *. destruct (_ && _).
  - destruct (moveToSwap_spec _ _ _ HWF Hk) as (c' & -> & HWF' & Hf & Hh & Hg & Hs).
    destruct (decide _); [left|right; split; [done|lia]].
    exists c'. split_and!; auto. rewrite Hh. apply heap_placed_alter.
  - left. destruct (removeBlock_spec bi.1.1 bi.1.2 c HWF) as (c' & -> & HWF' & Hf & Hh & Hg & Hs).
    { unfold lookupBlock. by rewrite Hk. }
    exists c'. split_and!; auto. rewrite Hh. apply heap_placed_refl.
Qed.

Lemma evicted_nil c : WF c -> evicted [] c c.
Proof.
  intros HWF. constructor; [done | apply same_frame_refl | apply heap_placed_refl |].
  intros k p. simpl. split; [|tauto]. intros H. split; [done | apply not_elem_of_nil].
Qed.

Lemma evicted_cons bi pre c c1 c' : same_frame c c1 -> heap_placed (pc_heap c) (pc_heap c1) ->
  pc_gpuBlocks c1 = delete (bi_key bi) (pc_gpuBlocks c) -> evicted pre c1 c' -> evicted (bi :: pre) c c'.
Proof.
  intros Hf Hh Hg [HWF' Hf' Hh' Hg']. constructor; [done | by eapply same_frame_trans
    | by eapply heap_placed_trans |].
  intros k p. rewrite Hg', Hg, lookup_delete_Some. csimpl. rewrite not_elem_of_cons. naive_solver.
Qed.

Lemma evictLoop_spec t (bis : list blockInfo) c : WF c -> candidates bis c ->
  (exists c' pre post, evictLoop t bis c = Ret c' /\ bis = pre ++ post /\ evicted pre c c' /\
     (pc_usedSize c <= t -> pre = []) /\ (pc_usedSize c' <= t \/ post = [])) \/
  (evictLoop t bis c = Panic "slice bounds out of range" /\
   exists bi, bi ∈ bis /\ (String.length (bi_key bi) < 16)%nat).
Proof.
  revert c. induction bis as [|bi rest IH]; intros c HWF Hc; simpl.
  - left. exists c, [], []. split_and!; auto using evicted_nil.
  - destruct (Z.leb_spec (pc_usedSize c) t) as [Hle|Hgt].
    + left. exists c, [], (bi :: rest). split_and!; auto using evicted_nil.
    + assert (Hk : pc_gpuBlocks c !! bi_key bi = Some bi.1.2).
      { apply Hc. csimpl. destruct bi as [[k p] t0]. by left. }
      destruct (evictOne_spec bi c HWF Hk) as [(c1 & -> & HWF1 & Hf & Hh & Hg)|[-> Hshort]]; simpl.
      2: { right. split; [done|]. exists bi. split; [by left | done]. }
      destruct (IH c1 HWF1) as [(c' & pre & post & -> & -> & Hev & Hidle & Hstop)|[-> (bi' & Hin & Hs)]].
      * unfold candidates in *. destruct bi as [[k p] t0]. by eapply listed_tail.
      * left. exists c', (bi :: pre), post.
        split_and!; [done | done | by eapply evicted_cons | intros; lia | done].
      * right. split; [done|]. exists bi'. split; [by right | done].
Qed.

Lemma collectUnpinned_elem c ls k p t :
  (k, p, t) ∈ collectUnpinned c ls <->
  (k, p) ∈ ls /\ exists b, pc_heap c !! p = Some b /\ pb_RefCount b = 0 /\ t = pb_AccessedAt b.
Proof.
  unfold collectUnpinned. rewrite list_elem_of_omap. split.
  - intros ([k' p'] & Hin & Hx). destruct (pc_heap c !! p') as [b|] eqn:Hb; simpl in Hx; [|done].
    destruct (Z.eqb_spec (pb_RefCount b) 0); [|done]. simplify_eq. eauto.
  - intros (Hin & b & Hb & Hr & ->). exists (k, p). split; [done|]. rewrite Hb. simpl. by rewrite Hr.
Qed.

Lemma collectUnpinned_keys c ls : (collectUnpinned c ls).*1.*1 `sublist_of` ls.*1.
Proof.
  induction ls as [|[k p] ls IH]; simpl; [constructor|].
  destruct (pc_heap c !! p) as [b|]; simpl; [|by constructor].
  destruct (pb_RefCount b =? 0); csimpl; by constructor.
Qed.

Lemma collect_candidates seed c :
  candidates (sort_slice accessedBefore (collectUnpinned c (range seed (pc_gpuBlocks c)))) c.
Proof.
  unfold candidates. rewrite sort_slice_perm. split.
  - eapply sublist_NoDup; [apply (range_NoDup seed (pc_gpuBlocks c)) | apply collectUnpinned_keys].
  - intros k p H. apply list_elem_of_fmap in H as ([[k' p'] t] & [= -> ->] & H).
    apply collectUnpinned_elem in H as [H _]. by apply range_elem in H.
Qed.

Lemma sorted_split {A} (R : A -> A -> Prop) pre post x y :
  StronglySorted R (pre ++ post) -> x ∈ pre -> y ∈ post -> R x y.
Proof.
  induction pre as [|z pre IH]; intros Hs Hx Hy; [by apply elem_of_nil in Hx|].
  simpl in Hs. apply StronglySorted_inv in Hs as [Hs Hall].
  apply elem_of_cons in Hx as [->|Hx]; [|by apply IH].
  eapply Forall_forall; [exact Hall|]. apply elem_of_app. by right.
Qed.

Lemma accessedBefore_sorted (l : list blockInfo) :
  StronglySorted (fun x y => accessedBefore y x = false) (sort_slice accessedBefore l).
Proof.
  apply sort_slice_sorted; unfold accessedBefore; intros; lia.
Qed.

Lemma WF_Lock c : WF c -> WF (set_mu true c).
Proof. intros HWF. by eapply WF_frame, HWF. Qed.
Lemma WF_Unlock c : WF c -> WF (Unlock c).
Proof. intros HWF. by eapply WF_frame, HWF. Qed.

Lemma evicted_key_iff c c' pre k p : evicted pre c c' -> pc_gpuBlocks c !! k = Some p ->
  (k ∈ bi_key <$> pre <-> pc_gpuBlocks c' !! k = None).
Proof.
  intros Hev Hk. split.
  - intros Hin. destruct (pc_gpuBlocks c' !! k) as [q|] eqn:E; [|done].
    apply (ev_gpu _ _ _ Hev) in E as [_ E]. done.
  - intros Hn. destruct (decide (k ∈ bi_key <$> pre)) as [Hin|Hout]; [done|].
    assert (pc_gpuBlocks c' !! k = Some p) by (by apply (ev_gpu _ _ _ Hev)). congruence.
Qed.

(** From the sorted candidate list to the specification. *)
Lemma evicted_lru seed c c' pre post :
  sort_slice accessedBefore (collectUnpinned c (range seed (pc_gpuBlocks c))) = pre ++ post ->
  evicted pre c c' -> (pc_usedSize c <= targetSize c -> pre = []) ->
  (pc_usedSize c' <= targetSize c \/ post = []) -> lru_evicted c c'.
Proof.
  intros Hsort Hev Hidle Hstop.
  assert (Hcand : forall k p t, (k, p, t) ∈ pre ++ post <->
    pc_gpuBlocks c !! k = Some p /\
    exists b, pc_heap c !! p = Some b /\ pb_RefCount b = 0 /\ t = pb_AccessedAt b).
  { intros k p t. rewrite <- Hsort, sort_slice_perm, collectUnpinned_elem, range_elem. done. }
  assert (Hpre : forall k p b, pc_gpuBlocks c !! k = Some p -> pc_heap c !! p = Some b ->
    k ∈ bi_key <$> pre -> (k, p, pb_AccessedAt b) ∈ pre /\ pb_RefCount b = 0).
  { intros k p b Hk Hb Hin. apply list_elem_of_fmap in Hin as ([[k' p'] t] & -> & Hin).
    destruct (proj1 (Hcand k' p' t)) as (Hk' & b' & Hb' & Hr & ->); [apply elem_of_app; by left|].
    unfold bi_key in *. simpl in *. simplify_eq. done. }
  constructor; try apply Hev.
  - apply map_subseteq_spec. intros k p Hk. by apply (ev_gpu _ _ _ Hev) in Hk as [? _].
  - intros Hle. apply map_eq. intros k. apply option_eq. intros p.
    rewrite (ev_gpu _ _ _ Hev), (Hidle Hle). csimpl. split; [tauto|].
    intros H. split; [done | apply not_elem_of_nil].
  - intros k p b Hk Hb Hr. apply (ev_gpu _ _ _ Hev). split; [done|]. intros Hin.
    destruct (Hpre k p b Hk Hb Hin). done.
  - destruct Hstop as [Hle| ->]; [by left|right]. intros k p b Hk' Hb Hr.
    apply (ev_gpu _ _ _ Hev) in Hk' as [Hk Hout]. apply Hout.
    apply list_elem_of_fmap. exists (k, p, pb_AccessedAt b). split; [done|].
    assert (H : (k, p, pb_AccessedAt b) ∈ pre ++ []) by (apply Hcand; eauto).
    by rewrite app_nil_r in H.
  - intros k1 p1 b1 k2 p2 b2 Hk1 Hb1 Hn1 Hk2' Hb2 Hr2.
    apply (evicted_key_iff _ _ _ _ _ Hev Hk1) in Hn1.
    apply (ev_gpu _ _ _ Hev) in Hk2' as [Hk2 Hout2].
    destruct (Hpre _ _ _ Hk1 Hb1 Hn1) as [Hin1 _].
    assert (Hin2 : (k2, p2, pb_AccessedAt b2) ∈ post).
    { assert (H : (k2, p2, pb_AccessedAt b2) ∈ pre ++ post) by (apply Hcand; eauto).
      apply elem_of_app in H as [H|H]; [|done]. exfalso. apply Hout2.
      apply list_elem_of_fmap. by exists (k2, p2, pb_AccessedAt b2). }
    pose proof (accessedBefore_sorted (collectUnpinned c (range seed (pc_gpuBlocks c)))) as Hs.
    rewrite Hsort in Hs. pose proof (sorted_split _ _ _ _ _ Hs Hin1 Hin2) as H.
    unfold accessedBefore in H. simpl in H. lia.
Qed.

(** Every outcome of [evictLRU] on a well-formed, unlocked cache. *)
Lemma evictLRU_outcome seed c : WF c -> pc_mu c = false ->
  (exists c', evictLRU seed c = Ret c' /\ lru_evicted c c') \/
  (evictLRU seed c = Panic "slice bounds out of range" /\
   exists k, is_Some (pc_gpuBlocks c !! k) /\ (String.length k < 16)%nat).
Proof.
  intros HWF Hmu. unfold evictLRU, Lock. rewrite Hmu. simpl.
  change (targetSize (set_mu true c)) with (targetSize c).
  destruct (Z.leb_spec (pc_usedSize c) (targetSize c)) as [Hle|Hgt].
  - left. eexists. split; [done|].
    apply (evicted_lru 0 c _ [] (sort_slice accessedBefore (collectUnpinned c (range 0 (pc_gpuBlocks c)))));
      [done | | done | by left].
    constructor; simpl; [by apply WF_Unlock, WF_Lock | by constructor | apply heap_placed_refl |].
    intros k p. split; [|tauto]. intros H. split; [done | apply not_elem_of_nil].
  - pose proof (collect_candidates seed (set_mu true c)) as Hc. simpl in Hc.
    destruct (evictLoop_spec (targetSize c) _ _ (WF_Lock c HWF) Hc)
      as [(c' & pre & post & Hr & Hsplit & Hev & _ & Hstop)|[Hr (bi & Hin & Hshort)]].
    + change (collectUnpinned c) with (collectUnpinned (set_mu true c)).
      rewrite Hr. simpl. left. eexists. split; [done|].
      apply (evicted_lru seed c _ pre post); [exact Hsplit | | intros; lia | exact Hstop].
      destruct Hev as [HWF' [] Hh Hg]. simpl in *.
      constructor; simpl; [by apply WF_Unlock | by constructor | done | done].
    + right. change (collectUnpinned c) with (collectUnpinned (set_mu true c)).
      rewrite Hr. simpl. split; [done|]. exists (bi_key bi). split; [|done].
      destruct Hc as [_ Hc]. exists bi.1.2. apply Hc. apply list_elem_of_fmap.
      exists bi. destruct bi as [[k p] t]. done.
Qed.
End facts.
