(* ===== verification/PrefixInsert.v ===== *)
(** [InsertPrefix] and [MatchPrefix] of the prefix cache (prefix.go): the
    blocks an insertion stores, and what the prefix tree can match. *)
From S2P Require Import Prelude GoFloat Api Sha256 CacheTier PrefixTree PrefixCache PrefixInv.
Local Open Scope Z_scope.

(** Settings as [NewPrefixCache] makes them out of int32 configuration fields. *)
Definition settings_ok `{QuantityOps} (st : PrefixSettings) : Prop :=
  0 < ps_blockSize st < 2 ^ 31 /\ 0 < ps_maxPrefixLen st < 2 ^ 31 /\ 0 < ps_minPrefixLen st < 2 ^ 31.
Definition config_ok `{QuantityOps} (cfg : PrefixCacheConfig) : Prop :=
  in_int32 (pcc_BlockSize cfg) /\ in_int32 (pcc_MaxPrefixLength cfg) /\ in_int32 (pcc_MinPrefixLength cfg).

(** Number of blocks of [n] tokens. *)
Definition num_blocks (n bs : Z) : Z := (n + bs - 1) / bs.

(** The byte of the KV cache at which the share of [pos] tokens ends. *)
Definition kv_cut (tokens : list Z) (kv : bytes) (pos : Z) : Z :=
  pos * Z.of_nat (length kv) / Z.of_nat (length tokens).

(** The hashes of the blocks stored from token [start] on. *)
Definition block_hashes (tokens : list Z) (bs start : Z) (n : nat) : list string :=
  map (fun j => hashTokens (take (Z.to_nat (start + bs * (Z.of_nat j + 1))) tokens)) (seq 0 n).

(** What a run of the insertion loop adds to the cache. *)
Record inserted `{QuantityOps} (blocks : list PrefixCacheBlock) (c c' : PrefixCache) : Prop := {
  ins_WF : WF c';
  ins_mu : pc_mu c' = pc_mu c;
  ins_settings : pc_settings c' = pc_settings c;
  ins_heap : pc_heap c' = pc_heap c ++ blocks;
  ins_content : forall k, content k c' =
    match last (filter (fun b => pb_Hash b = k) blocks) with
    | Some b => Some b
    | None => content k c
    end;
  ins_height : forall d, height_le (pc_root c) d -> (Z.to_nat (ps_blockSize (pc_settings c)) <= d)%nat ->
    height_le (pc_root c') d;
}.

Section facts.
Context `{QO : QuantityOps} `{GR : GoRuntime}.
Implicit Types (c : PrefixCache) (tokens : list Z) (kv : bytes).

Lemma NewPrefixCache_settings_ok cn tn size ttl cfg :
  (forall x, cfg = Some x -> config_ok x) ->
  settings_ok (pc_settings (NewPrefixCache cn tn size ttl cfg)).
Proof.
  intros Hcfg. unfold settings_ok. simpl. destruct cfg as [x|]; simpl; [|lia].
  destruct (Hcfg x eq_refl) as (? & ? & ?). unfold in_int32 in *.
  repeat case_match; lia.
Qed.

Lemma WF_NewPrefixCache cn tn size ttl cfg : WF (NewPrefixCache cn tn size ttl cfg).
Proof.
  constructor; simpl; try done; intros k; try (by intros ? H; rewrite lookup_empty in H);
    by rewrite ?lookup_empty.
Qed.

Lemma goSlice_ok {A} (l : list A) lo hi : 0 <= lo <= hi -> hi <= Z.of_nat (length l) ->
  goSlice l lo hi = Ret (take (Z.to_nat (hi - lo)) (drop (Z.to_nat lo) l)).
Proof. intros H1 H2. unfold goSlice. by rewrite decide_True. Qed.

Lemma goDiv_ok x y : 0 <= x -> 0 < y -> goDiv x y = Ret (x / y).
Proof.
  intros Hx Hy. unfold goDiv. rewrite decide_False by lia. by rewrite Z.quot_div_nonneg by lia.
Qed.

Lemma inserted_nil c : WF c -> inserted [] c c.
Proof. intros HWF. constructor; auto. by rewrite app_nil_r. Qed.

Lemma inserted_cons b blockTokens h blocks c c1 c' :
  WF c -> stored (pb_Hash b) b c c1 -> (length blockTokens <= Z.to_nat (ps_blockSize (pc_settings c)))%nat ->
  inserted blocks (insertIntoTree blockTokens h c1) c' -> inserted (b :: blocks) c c'.
Proof.
  intros HWF Hs Hlen [HWF' Hmu' Hst' Hh' Hct Hht].
  pose proof (fun k => stored_content _ _ _ _ k HWF Hs) as Hct1.
  destruct Hs as [HWF1 Hst Hrt Hmu Hh _ _]. simpl in *. constructor.
  - done.
  - congruence.
  - congruence.
  - rewrite Hh', Hh, <- app_assoc. done.
  - intros k. rewrite Hct. change (content k (insertIntoTree blockTokens h c1)) with (content k c1).
    rewrite Hct1, filter_cons. repeat case_decide; try done.
    rewrite last_cons. by destruct (last (filter _ blocks)).
  - intros d Hd Hbs. apply Hht; [|by rewrite Hst]. rewrite Hrt. apply height_le_insert; [done|lia].
Qed.

Lemma num_blocks_S n bs start len : 0 < bs -> start <= len -> Z.of_nat (S n) = num_blocks (len - start) bs ->
  start < len /\ Z.of_nat n = num_blocks (len - Z.min len (start + bs)) bs.
Proof.
  unfold num_blocks. intros Hbs Hle Hn.
  assert (start < len).
  { destruct (Z.eq_dec start len) as [->|]; [|lia].
    replace (len - len + bs - 1) with (bs - 1) in Hn by lia. rewrite Z.div_small in Hn by lia. lia. }
  split; [done|]. destruct (Z.min_spec len (start + bs)) as [[Hm ->]|[Hm ->]].
  - replace (len - start + bs - 1) with ((len - start - 1) + 1 * bs) in Hn by lia.
    rewrite Z.div_add, Z.div_small in Hn by lia. rewrite Z.sub_diag, Z.div_small; lia.
  - replace (len - start + bs - 1) with ((len - (start + bs) + bs - 1) + 1 * bs) in Hn by lia.
    rewrite Z.div_add in Hn by lia. lia.
Qed.

Lemma num_blocks_0 start len bs : 0 < bs -> start <= len -> Z.of_nat 0 = num_blocks (len - start) bs ->
  start = len.
Proof.
  unfold num_blocks. intros Hbs Hle Hn.
  destruct (Z.eq_dec start len) as [|Hne]; [done|]. exfalso.
  assert (1 <= (len - start + bs - 1) / bs); [|lia]. apply Z.div_le_lower_bound; lia.
Qed.

Lemma block_hashes_S tokens bs start n : 0 < bs -> 0 <= start ->
  block_hashes tokens bs start (S n) =
    hashTokens (take (Z.to_nat (start + bs)) tokens) ::
    block_hashes tokens bs (Z.min (Z.of_nat (length tokens)) (start + bs)) n.
Proof.
  intros Hbs Hst. unfold block_hashes. rewrite <- cons_seq. simpl. f_equal.
  - do 2 f_equal. lia.
  - rewrite <- seq_shift, map_map. apply map_ext. intros j. f_equal.
    destruct (Z.min_spec (Z.of_nat (length tokens)) (start + bs)) as [[Hm ->]|[Hm ->]].
    + rewrite !take_ge by nia. done.
    + f_equal. lia.
Qed.

(** The bytes between two cuts, telescoped. *)
Lemma kv_cut_slice kv lo hi : 0 <= lo <= hi ->
  take (Z.to_nat (hi - lo)) (drop (Z.to_nat lo) kv) ++ drop (Z.to_nat hi) kv = drop (Z.to_nat lo) kv.
Proof.
  intros H. replace (Z.to_nat hi) with (Z.to_nat lo + Z.to_nat (hi - lo))%nat by lia.
  rewrite <- drop_drop. apply take_drop.
Qed.

Lemma kv_cut_mono tokens kv a b : (0 < length tokens)%nat -> 0 <= a <= b -> b <= Z.of_nat (length tokens) ->
  0 <= kv_cut tokens kv a <= kv_cut tokens kv b /\ kv_cut tokens kv b <= Z.of_nat (length kv).
Proof.
  intros Ht Hab Hb. unfold kv_cut. split_and!.
  - apply Z.div_pos; nia.
  - apply Z.div_le_mono; nia.
  - apply Z.div_le_upper_bound; nia.
Qed.

Lemma insertBlocks_spec now tokens kv ttl n i start c :
  let st := pc_settings c in
  let len := Z.of_nat (length tokens) in
  WF c -> pc_mu c = false -> settings_ok st -> 0 <= start <= len -> len < 2 ^ 31 ->
  Z.of_nat (length kv) < 2 ^ 32 -> Z.of_nat n = num_blocks (len - start) (ps_blockSize st) ->
  (0 < length tokens)%nat ->
  exists c' blocks, insertBlocks now tokens kv ttl n i start c = Ret (c', Ok tt) /\
    inserted blocks c c' /\
    concat (pb_KVCache <$> blocks) = drop (Z.to_nat (kv_cut tokens kv start)) kv /\
    pb_Hash <$> blocks = block_hashes tokens (ps_blockSize st) start n.
Proof.
  revert i start c. induction n as [|n IH]; intros i start c st len HWF Hmu Hok Hst Hlen Hkv Hn Hpos;
    cbn [insertBlocks]; fold st; fold len.
  - exists c, []. split_and!; [done | by apply inserted_nil | | done].
    destruct Hok as (? & _ & _). apply num_blocks_0 in Hn; [|lia|lia]. subst start.
    unfold kv_cut. fold len. rewrite (Z.mul_comm len), Z.div_mul by lia. rewrite Nat2Z.id, drop_all. done.
  - destruct (Hok) as (Hbs & _ & _).
    destruct (num_blocks_S _ _ _ _ (proj1 Hbs) (proj2 Hst) Hn) as [Hlt Hn'].
    rewrite (int64_id (start + ps_blockSize st)) by (unfold in_int64; lia).
    set (e := if len <? start + ps_blockSize st then len else start + ps_blockSize st).
    assert (He : e = Z.min len (start + ps_blockSize st)).
    { unfold e. destruct (Z.ltb_spec len (start + ps_blockSize st)); lia. }
    destruct (kv_cut_mono tokens kv start e) as [Hcut1 Hcut2]; [done|lia|lia|].
    rewrite (goSlice_ok tokens start e) by lia. rewrite (goSlice_ok tokens 0 e) by lia.
    rewrite !int64_id by (unfold in_int64; nia). rewrite !goDiv_ok by nia.
    change (start * Z.of_nat (length kv) / len) with (kv_cut tokens kv start).
    change (e * Z.of_nat (length kv) / len) with (kv_cut tokens kv e). cbn [mbind outcome_bind].
    rewrite (goSlice_ok kv) by lia. simpl. rewrite Z.sub_0_r, drop_0.
    set (bKV := take _ (drop _ kv)). set (bTok := take _ (drop (Z.to_nat start) tokens)).
    destruct (Set_spec (now i) (hashTokens (take (Z.to_nat e) tokens)) bKV ttl c HWF Hmu)
      as (c1 & -> & Hs). simpl.
    pose proof Hs as [HWF1 Hst1 _ Hmu1 _ _ _].
    edestruct (IH (S i) e (insertIntoTree bTok (hashTokens (take (Z.to_nat e) tokens)) c1))
      as (c' & blocks & -> & Hins & Hkvs & Hhs); simpl; rewrite ?Hst1; fold st; fold len; try done.
    + by eapply WF_frame, HWF1.
    + congruence.
    + lia.
    + by rewrite He.
    + exists c', (newBlock (now i) (hashTokens (take (Z.to_nat e) tokens)) bKV ttl c :: blocks).
      split_and!; [done | | |].
      * eapply inserted_cons; [exact HWF | exact Hs | | exact Hins].
        unfold bTok. rewrite length_take. fold st. lia.
      * csimpl. rewrite Hkvs. unfold bKV. apply kv_cut_slice. done.
      * csimpl. rewrite block_hashes_S by lia. fold len. rewrite <- He. f_equal; [|].
        -- unfold newBlock. simpl. f_equal. rewrite He.
           destruct (Z.min_spec len (start + ps_blockSize st)) as [[Hm ->]|[Hm ->]]; [|done].
           rewrite !take_ge by lia. done.
        -- rewrite Hhs. simpl. by rewrite Hst1.
Qed.
End facts.
