(* ===== verification/PrefixProps.v ===== *)
(** Properties of the prefix cache (prefix.go): reachable states, the
    behaviour of every branch of [Get], eviction, prefix insertion and
    matching, and the defects of the swap path. *)
From S2P Require Import Prelude GoFloat Api Sha256 CacheTier PrefixTree PrefixCache PrefixInv PrefixEvict PrefixInsert.
Local Open Scope Z_scope.

(** One completed call of the tier, or one run of a background goroutine. *)
Inductive step `{QuantityOps} `{GoRuntime} : PrefixCache -> PrefixCache -> Prop :=
| step_Get now1 now2 seed key c c' r : Get now1 now2 seed key c = Ret (c', r) -> step c c'
| step_Set now key value ttl c c' r : Set_ now key value ttl c = Ret (c', r) -> step c c'
| step_Delete key c c' r : Delete key c = Ret (c', r) -> step c c'
| step_Clear c c' r : Clear c = Ret (c', r) -> step c c'
| step_InsertPrefix now tokens kv ttl c c' r :
    InsertPrefix now tokens kv ttl c = Ret (c', r) -> step c c'
| step_evictionTick now seed c c' : evictionTick now seed c = Ret c' -> step c c'
| step_spawned seed n c c' : pc_spawned c = S n -> evictLRU seed (set_spawned n c) = Ret c' -> step c c'.

(** The invariant of reachable states. *)
Record Inv `{QuantityOps} (st : PrefixSettings) (c : PrefixCache) : Prop := {
  inv_WF : WF c;
  inv_mu : pc_mu c = false;
  inv_settings : pc_settings c = st;
  inv_height : height_le (pc_root c) (Z.to_nat (ps_blockSize st));
}.

(** A live block can be served: it is in the GPU, or in swap with room left
    in the GPU and a key long enough for the log statement. *)
Definition servable `{QuantityOps} (key : string) (b : PrefixCacheBlock) (c : PrefixCache) : Prop :=
  pb_InSwap b = true -> int64 (pc_usedSize c + pb_Size b) <= maxSize c /\ (16 <= String.length key)%nat.

(** The state after a served hit. *)
Record got `{QuantityOps} (key : string) (l : loc) (c c' : PrefixCache) : Prop := {
  got_WF : WF c';
  got_mu : pc_mu c' = false;
  got_settings : pc_settings c' = pc_settings c;
  got_root : pc_root c' = pc_root c;
  got_lookup : lookupBlock key c' = Some l;
  got_others : forall k, k <> key -> lookupBlock k c' = lookupBlock k c;
}.

Definition hit_entry `{QuantityOps} (now : Z) (key : string) (b : PrefixCacheBlock) (c : PrefixCache)
    : CacheEntry :=
  mkCacheEntry key (pb_KVCache b) (pb_Size b) (pb_CreatedAt b) now 0 0 (ps_tierName (pc_settings c)) ∅.

(** The locked state in which a hit decides whether to move the block. *)
Definition hit_state `{QuantityOps} (now : Z) (l : loc) (c : PrefixCache) : PrefixCache :=
  modify (b_set_AccessedAt now) l (set_mu true
    (modify (fun b => b_set_RefCount (int32 (pb_RefCount b + 1)) b) l
      (set_hits (int64 (pc_hits c + 1)) c))).
Definition hit_block (now : Z) (b : PrefixCacheBlock) : PrefixCacheBlock :=
  b_set_AccessedAt now (b_set_RefCount (int32 (pb_RefCount b + 1)) b).

Section facts.
Context `{QO : QuantityOps} `{GR : GoRuntime}.
Implicit Types (c : PrefixCache) (k key : string).

Lemma keeps_place_RefCount f : keeps_place (fun b => b_set_RefCount (f b) b).
Proof. intros b. done. Qed.
Lemma keeps_place_AccessedAt t : keeps_place (b_set_AccessedAt t).
Proof. intros b. done. Qed.

Lemma lookupBlock_ok k l c : WF c -> lookupBlock k c = Some l -> exists b, pc_heap c !! l = Some b.
Proof.
  intros HWF. unfold lookupBlock. destruct (pc_gpuBlocks c !! k) eqn:E.
  - intros [= <-]. destruct (wf_gpu c HWF _ _ E) as (b & ? & _). eauto.
  - intros Hs. destruct (wf_swap c HWF _ _ Hs) as (b & ? & _). eauto.
Qed.

(** ** The branches of [Get] *)
Lemma Get_absent now1 now2 seed key c : pc_mu c = false -> lookupBlock key c = None ->
  Get now1 now2 seed key c = Ret (set_misses (int64 (pc_misses c + 1)) c, Ok None).
Proof. intros Hmu Hn. unfold Get, RLock. rewrite Hmu. simpl. by rewrite Hn. Qed.

Lemma Get_expired_spec now1 now2 seed key l b c : WF c -> pc_mu c = false ->
  lookupBlock key c = Some l -> pc_heap c !! l = Some b -> pb_ExpiresAt b < now1 ->
  exists c', Get now1 now2 seed key c = Ret (c', Ok None) /\ WF c' /\ pc_mu c' = false /\
    pc_settings c' = pc_settings c /\ pc_root c' = pc_root c /\ pc_heap c' = pc_heap c /\
    pc_gpuBlocks c' = delete key (pc_gpuBlocks c) /\ pc_swapBlocks c' = delete key (pc_swapBlocks c).
Proof.
  intros HWF Hmu Hl Hb Hexp. unfold Get, RLock. rewrite Hmu. simpl. rewrite Hl, (load_ok _ _ _ Hb). simpl.
  rewrite (proj2 (Z.ltb_lt _ _) Hexp). unfold getExpired, Lock. rewrite Hmu. simpl.
  destruct (removeBlock_spec key l (set_mu true c) (WF_Lock c HWF) Hl)
    as (c1 & -> & HWF1 & [] & Hh & Hg & Hs). simpl in *.
  eexists. split; [done|]. split_and!; simpl; try congruence. by eapply WF_frame, HWF1.
Qed.

Lemma keeps_place_hit : keeps_place (fun b => b_set_RefCount (int32 (pb_RefCount b + 1)) b).
Proof. intros b. done. Qed.
Lemma keeps_place_unhit : keeps_place (fun b => b_set_RefCount (int32 (pb_RefCount b - 1)) b).
Proof. intros b. done. Qed.
Hint Resolve keeps_place_hit keeps_place_unhit keeps_place_AccessedAt : inference.

Lemma hit_state_block now l b c : pc_heap c !! l = Some b ->
  pc_heap (hit_state now l c) !! l = Some (hit_block now b).
Proof. intros Hb. simpl. by rewrite !list_lookup_alter_eq, Hb. Qed.

Lemma hit_state_WF now l c : WF c -> WF (hit_state now l c).
Proof.
  intros HWF. unfold hit_state. apply WF_modify; [auto with inference|].
  apply WF_Lock, WF_modify; [auto with inference|]. by eapply WF_frame, HWF.
Qed.

(** [getHit] up to the decision on the block's place. *)
Lemma getHit_unfold now seed key l b c : pc_mu c = false -> pc_heap c !! l = Some b ->
  getHit now seed key l c =
    c1 ← (if pb_InSwap b then moveToGPU seed key l (hit_state now l c) else Ret (hit_state now l c));
    let c2 := Unlock c1 in
    block ← load c2 l;
    Ret (modify (fun b => b_set_RefCount (int32 (pb_RefCount b - 1)) b) l c2,
         mkCacheEntry key (pb_KVCache block) (pb_Size block) (pb_CreatedAt block)
           (pb_AccessedAt block) 0 0 (ps_tierName (pc_settings c2)) ∅).
Proof.
  intros Hmu Hb. unfold getHit, Lock. simpl. rewrite Hmu. cbn [mbind outcome_bind].
  change (modify (b_set_AccessedAt now) l _) with (hit_state now l c).
  rewrite (load_ok _ _ _ (hit_state_block now l b c Hb)). reflexivity.
Qed.

Lemma Get_live now1 now2 seed key l b c : pc_mu c = false -> lookupBlock key c = Some l ->
  pc_heap c !! l = Some b -> now1 <= pb_ExpiresAt b ->
  Get now1 now2 seed key c = '(c', e) ← getHit now2 seed key l c; Ret (c', Ok (Some e)).
Proof.
  intros Hmu Hl Hb Hexp. unfold Get, RLock. rewrite Hmu. simpl. rewrite Hl, (load_ok _ _ _ Hb). simpl.
  by rewrite (proj2 (Z.ltb_ge _ _) Hexp).
Qed.

Lemma InSwap_lookup key l b c : WF c -> lookupBlock key c = Some l -> pc_heap c !! l = Some b ->
  if pb_InSwap b then pc_swapBlocks c !! key = Some l /\ pc_gpuBlocks c !! key = None
  else pc_gpuBlocks c !! key = Some l.
Proof.
  intros HWF Hl Hb. unfold lookupBlock in Hl. destruct (pc_gpuBlocks c !! key) as [l'|] eqn:Eg.
  - injection Hl as ->. destruct (wf_gpu c HWF _ _ Eg) as (b' & Hb' & _ & _ & Hs & _).
    simplify_eq. by rewrite Hs.
  - destruct (wf_swap c HWF _ _ Hl) as (b' & Hb' & _ & _ & Hs & _). simplify_eq. by rewrite Hs.
Qed.

Lemma getHit_served now seed key l b c : WF c -> pc_mu c = false ->
  lookupBlock key c = Some l -> pc_heap c !! l = Some b -> servable key b c ->
  exists c', getHit now seed key l c = Ret (c', hit_entry now key b c) /\ got key l c c'.
Proof.
  intros HWF Hmu Hl Hb Hserv. rewrite (getHit_unfold _ _ _ _ _ _ Hmu Hb).
  pose proof (hit_state_WF now l c HWF) as HWF1. pose proof (hit_state_block now l b c Hb) as Hb1.
  pose proof (InSwap_lookup _ _ _ _ HWF Hl Hb) as Hplace.
  destruct (pb_InSwap b) eqn:Esw.
  - destruct (Hserv Esw) as [Hroom Hlen]. destruct Hplace as [Es Eg].
    destruct (moveToGPU_room seed key l (hit_state now l c) (hit_block now b) HWF1 Es Hb1 Hroom)
      as (c1 & -> & HWF2 & [Hst2 Hrt2 _ _ _ _] & Hh2 & Hg2 & Hs2).
    rewrite decide_True by done. cbn [mbind outcome_bind].
    rewrite (load_ok (Unlock c1) l (b_set_place true false (hit_block now b)))
      by (simpl; by rewrite Hh2, list_lookup_alter_eq, Hb1).
    simpl in *. rewrite Hst2. eexists. split; [reflexivity|].
    constructor; [ | done | done | done | |].
    + apply WF_modify; [auto with inference | by apply WF_Unlock].
    + unfold lookupBlock. simpl. by rewrite Hg2, lookup_insert_eq.
    + intros k Hk. unfold lookupBlock. simpl.
      by rewrite Hg2, Hs2, lookup_insert_ne, lookup_delete_ne by done.
  - cbn [mbind outcome_bind]. rewrite (load_ok (Unlock (hit_state now l c)) l (hit_block now b)) by exact Hb1.
    eexists. split; [reflexivity|]. constructor; [ | done | done | done | done | done].
    apply WF_modify; [auto with inference | by apply WF_Unlock].
Qed.

Lemma getHit_swap_full now seed key l b c : pc_mu c = false -> pc_heap c !! l = Some b ->
  pb_InSwap b = true -> maxSize c < int64 (pc_usedSize c + pb_Size b) ->
  getHit now seed key l c = Blocked.
Proof.
  intros Hmu Hb Esw Hfull. rewrite (getHit_unfold _ _ _ _ _ _ Hmu Hb), Esw.
  rewrite (moveToGPU_full seed key l (hit_state now l c) (hit_block now b));
    [done | done | by apply hit_state_block | done].
Qed.

Lemma getHit_swap_short now seed key l b c : WF c -> pc_mu c = false ->
  lookupBlock key c = Some l -> pc_heap c !! l = Some b ->
  pb_InSwap b = true -> int64 (pc_usedSize c + pb_Size b) <= maxSize c ->
  (String.length key < 16)%nat -> getHit now seed key l c = Panic "slice bounds out of range".
Proof.
  intros HWF Hmu Hl Hb Esw Hroom Hshort. rewrite (getHit_unfold _ _ _ _ _ _ Hmu Hb), Esw.
  pose proof (InSwap_lookup _ _ _ _ HWF Hl Hb) as Hplace. rewrite Esw in Hplace.
  destruct (moveToGPU_room seed key l (hit_state now l c) (hit_block now b) (hit_state_WF now l c HWF)
    (proj1 Hplace) (hit_state_block now l b c Hb) Hroom) as (c1 & -> & _).
  rewrite decide_False by lia. done.
Qed.
End facts.

(** * Preservation of the invariant *)
Section preservation.
Context `{QO : QuantityOps} `{GR : GoRuntime}.
Implicit Types (c : PrefixCache) (k key : string) (st : PrefixSettings).

Hint Resolve keeps_place_hit keeps_place_unhit keeps_place_AccessedAt WF_Lock WF_Unlock WF_modify : inference.

Lemma Inv_new cn tn size ttl cfg :
  Inv (pc_settings (NewPrefixCache cn tn size ttl cfg)) (NewPrefixCache cn tn size ttl cfg).
Proof. constructor; [apply WF_NewPrefixCache | done | done | apply height_le_newRoot]. Qed.

(** An operation that keeps settings, tree and mutex keeps the invariant. *)
Lemma Inv_frame st c c' : Inv st c -> WF c' -> pc_mu c' = pc_mu c ->
  pc_settings c' = pc_settings c -> pc_root c' = pc_root c -> Inv st c'.
Proof. intros [] HWF Hmu Hst Hrt. constructor; [done | congruence | congruence | by rewrite Hrt]. Qed.

Lemma Inv_same_frame st c c' : Inv st c -> WF c' -> same_frame c c' -> Inv st c'.
Proof. intros HI HWF []. by eapply Inv_frame. Qed.

Lemma Inv_Set st now k v ttl c c' r : Inv st c -> Set_ now k v ttl c = Ret (c', r) ->
  Inv st c' /\ r = Ok tt.
Proof.
  intros HI Hr. destruct (Set_spec now k v ttl c (inv_WF _ _ HI) (inv_mu _ _ HI)) as (c1 & Hr' & []).
  rewrite Hr in Hr'. simplify_eq. split; [by eapply Inv_frame | done].
Qed.

Lemma evictLRU_Ret st seed c c' : Inv st c -> evictLRU seed c = Ret c' -> Inv st c'.
Proof.
  intros HI Hr. destruct (evictLRU_outcome seed c (inv_WF _ _ HI) (inv_mu _ _ HI))
    as [(c1 & Hr' & [])|[Hr' _]]; rewrite Hr in Hr'; simplify_eq. by eapply Inv_same_frame.
Qed.

Lemma Inv_Get st now1 now2 seed key c c' r : Inv st c ->
  Get now1 now2 seed key c = Ret (c', r) -> Inv st c'.
Proof.
  intros HI Hr. pose proof (inv_WF _ _ HI) as HWF. pose proof (inv_mu _ _ HI) as Hmu.
  destruct (lookupBlock key c) as [l|] eqn:Hl.
  2: { rewrite Get_absent in Hr by done. simplify_eq. eapply Inv_frame; [done|by eapply WF_frame, HWF|done..]. }
  destruct (lookupBlock_ok _ _ _ HWF Hl) as [b Hb].
  destruct (Z.ltb_spec (pb_ExpiresAt b) now1) as [Hexp|Hlive].
  - destruct (Get_expired_spec now1 now2 seed key l b c HWF Hmu Hl Hb Hexp)
      as (c1 & Hr' & HWF1 & Hmu1 & Hst1 & Hrt1 & _). rewrite Hr in Hr'. simplify_eq.
    eapply Inv_frame; [done|done|congruence|done|done].
  - rewrite (Get_live _ _ _ _ _ _ _ Hmu Hl Hb Hlive) in Hr.
    destruct (decide (servable key b c)) as [Hs|Hs].
    + destruct (getHit_served now2 seed key l b c HWF Hmu Hl Hb Hs) as (c1 & Hr' & []).
      rewrite Hr' in Hr. simpl in Hr. simplify_eq. eapply Inv_frame; [done|done|congruence|done|done].
    + exfalso. revert Hr. unfold servable in Hs. destruct (pb_InSwap b) eqn:Esw; [|by destruct Hs].
      destruct (Z.ltb_spec (maxSize c) (int64 (pc_usedSize c + pb_Size b))).
      * by rewrite (getHit_swap_full now2 seed key l b).
      * rewrite (getHit_swap_short now2 seed key l b); try done.
        destruct (decide (String.length key < 16)%nat); [done|]. exfalso. apply Hs. intros _. lia.
Qed.

Lemma Inv_Delete st key c c' r : Inv st c -> Delete key c = Ret (c', r) -> Inv st c'.
Proof.
  intros HI Hr. unfold Delete, Lock in Hr. rewrite (inv_mu _ _ HI) in Hr. simpl in Hr.
  destruct (remove_old_spec key _ (WF_Lock c (inv_WF _ _ HI))) as (c1 & Hrm & HWF1 & [] & _).
  simpl in Hrm. rewrite Hrm in Hr. simpl in *. simplify_eq.
  eapply Inv_frame; [done | by apply WF_Unlock | by rewrite (inv_mu _ _ HI) | done | done].
Qed.

Lemma Inv_Clear st c c' r : Inv st c -> Clear c = Ret (c', r) -> Inv st c'.
Proof.
  intros HI Hr. unfold Clear, Lock in Hr. rewrite (inv_mu _ _ HI) in Hr. simpl in Hr. simplify_eq.
  constructor; simpl; [|done|apply HI|apply height_le_clear].
  constructor; simpl; try done; intros k; try (by intros ? H; rewrite lookup_empty in H);
    by rewrite ?lookup_empty.
Qed.

Lemma Inv_insertBlocks st now tokens kv ttl n i start c c' r : 0 < ps_blockSize st < 2 ^ 31 ->
  Inv st c -> 0 <= start -> Z.of_nat (length tokens) < 2 ^ 31 -> start <= Z.of_nat (length tokens) ->
  insertBlocks now tokens kv ttl n i start c = Ret (c', r) -> Inv st c'.
Proof.
  intros Hbs. revert i start c. induction n as [|n IH]; intros i start c HI H0 Hlen Hst Hr; cbn [insertBlocks] in Hr;
    [by simplify_eq|].
  rewrite (inv_settings _ _ HI) in Hr. apply outcome_bind_Ret in Hr as (bt & Hbt & Hr).
  apply outcome_bind_Ret in Hr as (upto & _ & Hr). apply outcome_bind_Ret in Hr as (ks & _ & Hr).
  apply outcome_bind_Ret in Hr as (ke & _ & Hr). apply outcome_bind_Ret in Hr as (bkv & _ & Hr).
  apply outcome_bind_Ret in Hr as ([c1 r1] & Hset & Hr).
  destruct (Inv_Set _ _ _ _ _ _ _ _ HI Hset) as [HI1 ->].
  rewrite (int64_id (start + _)) in Hr, Hbt by (unfold in_int64; lia).
  eapply IH; [| | | |exact Hr].
  - unfold goSlice in Hbt. case_decide; [|done]. simplify_eq.
    destruct HI1 as [HW1 Hm1 Hs1 Hh1]. constructor; simpl; [by eapply WF_frame, HW1|done|done|].
    apply height_le_insert; [done|]. rewrite length_take, length_drop.
    destruct (Z.ltb_spec (Z.of_nat (length tokens)) (start + ps_blockSize st)); lia.
  - case_match; lia.
  - done.
  - case_match eqn:E; [lia|]. apply Z.ltb_ge in E. lia.
Qed.

Lemma Inv_InsertPrefix st now tokens kv ttl c c' r : settings_ok st -> Inv st c ->
  InsertPrefix now tokens kv ttl c = Ret (c', r) -> Inv st c'.
Proof.
  intros (Hbs & Hmax & _) HI Hr. unfold InsertPrefix in Hr. rewrite (inv_settings _ _ HI) in Hr.
  case_match; [by simplify_eq|].
  apply outcome_bind_Ret in Hr as (toks & Ht & Hr). apply outcome_bind_Ret in Hr as (nb & _ & Hr).
  eapply Inv_insertBlocks; [exact Hbs|exact HI|done| |lia|exact Hr].
  case_match eqn:E; [|simplify_eq; lia].
  unfold goSlice in Ht. case_decide; [|done]. simplify_eq. rewrite length_take. lia.
Qed.

Lemma Inv_step st c c' : settings_ok st -> Inv st c -> step c c' -> Inv st c'.
Proof.
  intros Hok HI Hs. destruct Hs as [??????? Hr|??????? Hr|???? Hr|??? Hr|??????? Hr|???? Hr|???? ? Hr].
  - by eapply Inv_Get.
  - by eapply Inv_Set.
  - by eapply Inv_Delete.
  - by eapply Inv_Clear.
  - by eapply Inv_InsertPrefix.
  - unfold evictionTick in Hr. apply outcome_bind_Ret in Hr as (c1 & H1 & Hr).
    destruct (evictExpired_spec now seed c (inv_WF _ _ HI) (inv_mu _ _ HI)) as (c2 & H2 & HWF2 & Hf2 & _).
    rewrite H1 in H2. simplify_eq. eapply evictLRU_Ret, Hr. by eapply Inv_same_frame.
  - eapply evictLRU_Ret, Hr. eapply Inv_frame; [done| by eapply WF_frame, (inv_WF _ _ HI) |done..].
Qed.

Lemma Inv_reachable st c c' : settings_ok st -> Inv st c -> rtc step c c' -> Inv st c'.
Proof. intros Hok HI. apply (rtc_invariant step (Inv st)); [by intros; eapply Inv_step | done]. Qed.

Lemma MatchPrefix_count st c tokens : Inv st c ->
  (MatchPrefix tokens c).1 = Nat.min (longest_path (pc_root c) tokens) (Z.to_nat (ps_maxPrefixLen st)).
Proof.
  intros HI. unfold MatchPrefix. rewrite matchLoop_spec, (inv_settings _ _ HI). simpl. f_equal. lia.
Qed.
End preservation.

(** The tokens [InsertPrefix] keeps. *)
Definition kept_tokens `{QuantityOps} (st : PrefixSettings) (tokens : list Z) : list Z :=
  if ps_maxPrefixLen st <? Z.of_nat (length tokens) then take (Z.to_nat (ps_maxPrefixLen st)) tokens
  else tokens.

(** The answer of [Get] for a key set at [now] with [ttl]. *)
Definition fresh_entry `{QuantityOps} (st : PrefixSettings) (now ttl now1 now2 : Z) (k : string) (v : bytes)
    : option CacheEntry :=
  if now + (if ttl =? 0 then ps_defaultTTL st else ttl) <? now1 then None
  else Some (mkCacheEntry k v (Z.of_nat (length v)) now now2 0 0 (ps_tierName st) ∅).

(** ** Reading back a value *)
Section readback.
Context `{QO : QuantityOps} `{GR : GoRuntime}.
Implicit Types (c : PrefixCache) (k key : string) (st : PrefixSettings).

Lemma Set_then_Get st now k v ttl c : Inv st c ->
  exists c1, Set_ now k v ttl c = Ret (c1, Ok tt) /\ Inv st c1 /\
    (forall k', k' <> k -> content k' c1 = content k' c) /\
    forall now1 now2 seed, exists c2,
      Get now1 now2 seed k c1 = Ret (c2, Ok (fresh_entry st now ttl now1 now2 k v)) /\ Inv st c2.
Proof.
  intros HI. pose proof (inv_WF _ _ HI) as HWF.
  destruct (Set_spec now k v ttl c HWF (inv_mu _ _ HI)) as (c1 & Hset & Hs).
  destruct (Inv_Set _ _ _ _ _ _ _ _ HI Hset) as [HI1 _].
  exists c1. split_and!; [done | done | intros k' Hk; rewrite (stored_content _ _ _ _ k' HWF Hs);
    by rewrite decide_False |].
  intros now1 now2 seed. destruct Hs as [HWF1 Hst _ Hmu Hh Hg _].
  assert (Hl : lookupBlock k c1 = Some (length (pc_heap c)))
    by (unfold lookupBlock; by rewrite Hg, lookup_insert_eq).
  assert (Hb : pc_heap c1 !! length (pc_heap c) = Some (newBlock now k v ttl c))
    by (by rewrite Hh, lookup_app_r, Nat.sub_diag by lia).
  pose proof (inv_mu _ _ HI1) as Hmu1. pose proof (inv_settings _ _ HI) as Hst0.
  unfold fresh_entry. subst st.
  change (now + _) with (pb_ExpiresAt (newBlock now k v ttl c)).
  destruct (Z.ltb_spec (pb_ExpiresAt (newBlock now k v ttl c)) now1) as [E|E].
  - destruct (Get_expired_spec now1 now2 seed k _ _ c1 HWF1 Hmu1 Hl Hb E) as (c2 & Hget & _).
    exists c2. split; [exact Hget | by eapply Inv_Get].
  - assert (Hget := Get_live now1 now2 seed k _ _ c1 Hmu1 Hl Hb E).
    destruct (getHit_served now2 seed k _ _ c1 HWF1 Hmu1 Hl Hb) as (c2 & Hhit & _); [done|].
    rewrite Hhit in Hget. simpl in Hget. exists c2. split; [|by eapply Inv_Get].
    rewrite Hget. unfold hit_entry. by rewrite Hst.
Qed.

(** A deleted key is gone. *)
Lemma Delete_forgets st k c c' r : Inv st c -> Delete k c = Ret (c', r) -> lookupBlock k c' = None.
Proof.
  intros HI Hr. unfold Delete, Lock in Hr. rewrite (inv_mu _ _ HI) in Hr. simpl in Hr.
  destruct (remove_old_spec k _ (WF_Lock c (inv_WF _ _ HI))) as (c1 & Hrm & Hd).
  simpl in Hrm. rewrite Hrm in Hr. simpl in Hr. simplify_eq. apply (lookupBlock_removed _ _ _ Hd).
Qed.

(** Every call keeps the settings. *)
Lemma Clear_settings c c' r : Clear c = Ret (c', r) -> pc_settings c' = pc_settings c.
Proof. unfold Clear, Lock. destruct (pc_mu c); simpl; [done|]. by intros [= <- _]. Qed.
End readback.

(** * Properties *)
Section properties.
Context `{QO : QuantityOps} `{GR : GoRuntime}.
Implicit Types (c : PrefixCache) (k key : string) (st : PrefixSettings).

(** C10. Every state the cache reaches from [NewPrefixCache] by completed calls
    ([Get], [Set], [Delete], [Clear], [InsertPrefix]) and background runs of
    the eviction ticker and of the spawned evictions is well formed: the GPU
    and swap maps are disjoint and point to blocks with the matching key and
    flags, the block map of the tree is their union, the used sizes and the
    entry count are the sums over the maps (in int64), the mutex is free, and
    no path of the prefix tree is longer than one block. *)
Theorem prefix_reachable_Inv cn tn size ttl cfg c :
  (forall x, cfg = Some x -> config_ok x) ->
  rtc step (NewPrefixCache cn tn size ttl cfg) c ->
  Inv (pc_settings (NewPrefixCache cn tn size ttl cfg)) c.
Proof.
  intros Hcfg Hr. eapply Inv_reachable; [|apply Inv_new|exact Hr]. by apply NewPrefixCache_settings_ok.
Qed.

(** C11. [Set] always succeeds; a later [Get] of the key returns the stored
    value with its size and times until the expiry time, the cache default
    standing for a zero TTL, and a miss after it; the contents of every
    other key are unchanged. *)
Theorem prefix_Set_Get st now k v ttl c : Inv st c ->
  exists c1, Set_ now k v ttl c = Ret (c1, Ok tt) /\ Inv st c1 /\
    (forall k', k' <> k -> content k' c1 = content k' c) /\
    forall now1 now2 seed, exists c2,
      Get now1 now2 seed k c1 = Ret (c2, Ok (fresh_entry st now ttl now1 now2 k v)) /\ Inv st c2.
Proof. apply Set_then_Get. Qed.

(** C12. [evictLRU] returns when the GPU keys have at least 16 bytes, and does
    LRU eviction: nothing is evicted while usage is within 80% of the
    maximum; pinned blocks stay; an evicted block was accessed no later than
    any unpinned block that stays; and afterwards usage is within the target
    or only pinned blocks are left. *)
Theorem prefix_evictLRU_correct st seed c : Inv st c -> long_keys c ->
  exists c', evictLRU seed c = Ret c' /\ Inv st c' /\ lru_evicted c c'.
Proof.
  intros HI Hlong. destruct (evictLRU_outcome seed c (inv_WF _ _ HI) (inv_mu _ _ HI))
    as [(c' & Hr & Hlru)|[_ (k & Hk & Hshort)]].
  - exists c'. split_and!; [done | by eapply evictLRU_Ret | done].
  - apply Hlong in Hk. lia.
Qed.

(** The log statement of the swap path slices 16 bytes of the key: when
    all the GPU keys are shorter, an eviction that has to swap a block out
    panics. *)
Theorem prefix_evictLRU_short_key_panics st seed c k p b : Inv st c ->
  targetSize c < pc_usedSize c -> ps_enableSwap st = true -> pc_swapUsed c < ps_swapSize st ->
  pc_gpuBlocks c !! k = Some p -> pc_heap c !! p = Some b -> pb_RefCount b = 0 ->
  (forall k', is_Some (pc_gpuBlocks c !! k') -> (String.length k' < 16)%nat) ->
  evictLRU seed c = Panic "slice bounds out of range".
Proof.
  intros HI Hover Hsw Hroom Hk Hb Hr Hshort. unfold evictLRU, Lock. rewrite (inv_mu _ _ HI). simpl.
  change (targetSize (set_mu true c)) with (targetSize c). rewrite (proj2 (Z.leb_gt _ _) Hover).
  change (collectUnpinned (set_mu true c)) with (collectUnpinned c).
  pose proof (collect_candidates seed c) as [_ Hc].
  destruct (sort_slice _ _) as [|[[k1 p1] t1] rest] eqn:Hs.
  - exfalso. assert (Hin : (k, p, pb_AccessedAt b) ∈ collectUnpinned c (range seed (pc_gpuBlocks c))).
    { apply collectUnpinned_elem. rewrite range_elem. eauto. }
    rewrite <- (sort_slice_perm _ accessedBefore), Hs in Hin. by apply elem_of_nil in Hin.
  - assert (Hk1 : pc_gpuBlocks c !! k1 = Some p1) by (apply Hc; csimpl; left).
    simpl. rewrite (proj2 (Z.leb_gt _ _) Hover). unfold evictOne. simpl.
    rewrite (inv_settings _ _ HI), Hsw, (proj2 (Z.ltb_lt _ _) Hroom). simpl.
    destruct (moveToSwap_spec k1 p1 (set_mu true c) (WF_Lock c (inv_WF _ _ HI)) Hk1) as (c' & -> & _).
    rewrite decide_False; [done|]. pose proof (Hshort k1 (mk_is_Some _ _ Hk1)). lia.
Qed.

(** C13. [Get] holds the cache mutex when it brings a swapped block back, and
    making room for it calls [evictLRU], which locks the same mutex: a live
    swapped block that does not fit makes [Get] block for ever. *)
Theorem prefix_Get_swapped_self_deadlock st now1 now2 seed key l b c : Inv st c ->
  pc_swapBlocks c !! key = Some l -> pc_heap c !! l = Some b -> now1 <= pb_ExpiresAt b ->
  maxSize c < int64 (pc_usedSize c + pb_Size b) -> Get now1 now2 seed key c = Blocked.
Proof.
  intros HI Hs Hb Hlive Hfull. pose proof (inv_WF _ _ HI) as HWF.
  destruct (wf_swap c HWF _ _ Hs) as (b' & Hb' & _ & _ & Hsw & _). simplify_eq.
  assert (Hl : lookupBlock key c = Some l).
  { unfold lookupBlock.
    destruct (pc_gpuBlocks c !! key) eqn:E; [|done]. rewrite (wf_disj c HWF) in Hs by eauto. done. }
  rewrite (Get_live _ _ _ _ _ _ _ (inv_mu _ _ HI) Hl Hb Hlive).
  by rewrite (getHit_swap_full now2 seed key l _ c (inv_mu _ _ HI) Hb Hsw Hfull).
Qed.

(** C14. [MatchPrefix] returns the length of the longest prefix of the tokens
    that is a path of the tree, cut at the maximum prefix length, with the
    blocks stored along it, shortest path first. *)
Theorem prefix_MatchPrefix_longest tokens c n blocks : MatchPrefix tokens c = (n, blocks) ->
  (n <= length tokens)%nat /\ has_path (pc_root c) (take n tokens) /\
  (forall m, (m <= length tokens)%nat -> Z.of_nat m <= ps_maxPrefixLen (pc_settings c) ->
     has_path (pc_root c) (take m tokens) -> (m <= n)%nat) /\
  blocks = omap (fun j => block_at (pc_root c) (take (S j) tokens)) (seq 0 n).
Proof.
  unfold MatchPrefix. rewrite matchLoop_spec. intros [= <- <-].
  pose proof (longest_path_length (pc_root c) tokens).
  split_and!; [simpl; lia | | | done].
  - eapply has_path_prefix; [apply longest_path_has|].
    rewrite Nat.min_comm, <- take_take. apply prefix_take.
  - intros m Hm Hmax Hp. apply longest_path_max in Hp; [|done]. simpl. lia.
Qed.

(** C15. [InsertPrefix] inserts every block from the root of the tree, not
    below the previous block: in no reachable state does [MatchPrefix] match
    more than one block of tokens, whatever was inserted. *)
Theorem prefix_MatchPrefix_one_block cn tn size ttl cfg c tokens :
  (forall x, cfg = Some x -> config_ok x) ->
  rtc step (NewPrefixCache cn tn size ttl cfg) c ->
  Z.of_nat (MatchPrefix tokens c).1 <= ps_blockSize (pc_settings c).
Proof.
  intros Hcfg Hr. pose proof (NewPrefixCache_settings_ok cn tn size ttl cfg Hcfg) as Hok.
  pose proof (Inv_reachable _ _ _ Hok (Inv_new cn tn size ttl cfg) Hr) as HI.
  rewrite (MatchPrefix_count _ _ _ HI), (inv_settings _ _ HI).
  pose proof (longest_path_height _ tokens _ (inv_height _ _ HI)). destruct Hok as (? & _). lia.
Qed.

(** [InsertPrefix] of enough tokens succeeds: it truncates them to the
    maximum prefix length and stores one block per [blockSize] tokens, each
    under the hash of all the tokens up to its end, whose KV slices are the
    KV cache in order; every other key keeps its contents. *)
Theorem prefix_InsertPrefix_blocks st now tokens kv ttl c : Inv st c -> settings_ok st ->
  ps_minPrefixLen st <= Z.of_nat (length tokens) -> Z.of_nat (length kv) < 2 ^ 32 ->
  exists c' blocks, let kept := kept_tokens st tokens in
    InsertPrefix now tokens kv ttl c = Ret (c', Ok tt) /\ Inv st c' /\ inserted blocks c c' /\
    concat (pb_KVCache <$> blocks) = kv /\
    pb_Hash <$> blocks = block_hashes kept (ps_blockSize st) 0
      (Z.to_nat (num_blocks (Z.of_nat (length kept)) (ps_blockSize st))).
Proof.
  intros HI Hok Hmin Hkv. destruct (Hok) as (Hbs & Hmax & Hmin0).
  set (kept := kept_tokens st tokens).
  assert (Hlen : 0 < Z.of_nat (length kept) < 2 ^ 31).
  { unfold kept, kept_tokens. destruct (Z.ltb_spec (ps_maxPrefixLen st) (Z.of_nat (length tokens)));
      [rewrite length_take|]; lia. }
  set (n := num_blocks (Z.of_nat (length kept)) (ps_blockSize st)).
  assert (Hn : 0 <= n) by (apply Z.div_pos; lia).
  destruct (insertBlocks_spec now kept kv ttl (Z.to_nat n) 0 0 c) as (c' & blocks & Hr & Hins & Hcat & Hh);
    rewrite ?(inv_settings _ _ HI); [apply HI | apply HI | done | lia | lia | done | | lia |].
  { rewrite Z2Nat.id, Z.sub_0_r by done. done. }
  assert (Hrun : InsertPrefix now tokens kv ttl c = Ret (c', Ok tt)).
  { unfold InsertPrefix. rewrite (inv_settings _ _ HI), (proj2 (Z.ltb_ge _ _) Hmin).
    replace (if _ <? _ then _ else _) with (Ret kept).
    2: { unfold kept, kept_tokens. destruct (Z.ltb_spec (ps_maxPrefixLen st) (Z.of_nat (length tokens))); [|done].
         rewrite goSlice_ok by lia. by rewrite Z.sub_0_r, drop_0. }
    simpl. rewrite !int64_id by (rewrite ?int64_id; unfold in_int64; lia).
    rewrite goDiv_ok by lia. simpl. exact Hr. }
  exists c', blocks. pose proof (inv_settings _ _ HI) as Est. subst st. split_and!; [exact Hrun | by eapply Inv_InsertPrefix | done | | exact Hh].
  rewrite Hcat. unfold kv_cut. by rewrite Z.mul_0_l, Z.div_0_l, drop_0 by lia.
Qed.

(** The expired branch of [Get] for a block in the GPU, whatever the maps hold. *)
Lemma getExpired_gpu key l b c : pc_mu c = false -> pc_heap c !! l = Some b ->
  pb_InGPU b = true -> pb_InSwap b = false ->
  getExpired key l c = Ret (set_misses (int64 (pc_misses c + 1)) (set_mu false
    (set_entries (int64 (pc_entries c - 1)) (set_treeBlocks (delete key (pc_treeBlocks c))
    (set_usedSize (int64 (pc_usedSize c - pb_Size b))
    (set_gpuBlocks (delete key (pc_gpuBlocks c)) c)))))).
Proof.
  intros Hmu Hb Hgp Hsw. unfold getExpired, Lock. rewrite Hmu. simpl. unfold removeBlock, load. simpl.
  rewrite Hb. simpl. by rewrite Hgp, Hsw.
Qed.

(** Two [Get]s of an expired block that both looked it up before either
    removed it both remove it: the entry count and the used size fall twice
    for the one entry that leaves the map, and the state is no longer well
    formed. *)
Theorem prefix_expired_Get_race st key l b c : Inv st c ->
  pc_gpuBlocks c !! key = Some l -> pc_heap c !! l = Some b ->
  exists c1 c2, getExpired key l c = Ret c1 /\ getExpired key l c1 = Ret c2 /\
    pc_gpuBlocks c2 = delete key (pc_gpuBlocks c) /\
    pc_entries c2 = int64 (pc_entries c - 2) /\ pc_usedSize c2 = int64 (pc_usedSize c - 2 * pb_Size b) /\
    WF c1 /\ ~ WF c2.
Proof.
  intros HI Hg Hb. pose proof (inv_WF _ _ HI) as HWF.
  destruct (wf_gpu c HWF _ _ Hg) as (b' & Hb' & _ & Hgp & Hsw & _). simplify_eq.
  pose proof (fun c0 Hmu0 Hb0 => getExpired_gpu key l b c0 Hmu0 Hb0 Hgp Hsw) as Hrem.
  eexists _, _. split; [apply Hrem; [apply HI | done]|]. split; [by apply Hrem|].
  assert (HWF1 : forall c1, getExpired key l c = Ret c1 -> WF c1 /\ pc_gpuBlocks c1 = delete key (pc_gpuBlocks c)
                   /\ pc_swapBlocks c1 = delete key (pc_swapBlocks c)).
  { intros c1 H1. unfold getExpired, Lock in H1. rewrite (inv_mu _ _ HI) in H1. simpl in H1.
    destruct (removeBlock_spec key l (set_mu true c) (WF_Lock c HWF)) as (c2 & H2 & HWF2 & _ & _ & Hg2 & Hs2).
    { unfold lookupBlock. simpl. by rewrite Hg. }
    rewrite H2 in H1. simpl in H1. simplify_eq. split_and!; [by eapply WF_frame, HWF2|done|done]. }
  destruct (HWF1 _ (Hrem c (inv_mu _ _ HI) Hb)) as (HW1 & Hg1 & Hs1).
  split_and!; simpl; [by rewrite delete_delete_eq | rewrite int64_sub; f_equal; lia
    | rewrite int64_sub; f_equal; lia | exact HW1 |].
  intros HW2. pose proof (wf_entries _ HW1) as E1. pose proof (wf_entries _ HW2) as E2.
  simpl in E1, E2. rewrite delete_delete_eq, <- E1, int64_sub in E2.
  unfold int64, wrap in E2. revert E2. Z.to_euclidean_division_equations. lia.
Qed.
End properties.

(** * Witnesses: concrete caches on which the properties apply *)
Section witnesses.
#[local] Existing Instance ZQuantity.
#[local] Existing Instance stdRuntime.

(** The state of a returned outcome. *)
Definition state_of {A} (d : PrefixCache) (o : outcome (PrefixCache * A)) : PrefixCache :=
  match o with Ret (c, _) => c | _ => d end.

(** 100 bytes with swap, a TTL of one minute. *)
Definition demoConfig : option PrefixCacheConfig := Some (mkPrefixCacheConfig _ 0 4 4 true (Some 1000)).
Definition demo0 : PrefixCache := NewPrefixCache "demo" "prefix" 100 Minute demoConfig.
Definition demoKey : string := "0123456789abcdef".
Definition demo1 : PrefixCache := state_of demo0 (Set_ 5 demoKey (replicate 90 1) 0 demo0).
Definition demoShort : PrefixCache := state_of demo0 (Set_ 5 "short" (replicate 90 1) 0 demo0).
(** [demoKey] swapped out, and the room taken by another key. *)
Definition demoTicked : PrefixCache := state_of demo1 (c ← evictionTick 6 0 demo1; Ret (c, tt)).
Definition demoSwapped : PrefixCache := state_of demoTicked (Set_ 7 "x" (replicate 60 2) 0 demoTicked).

Lemma demo_config_ok x : demoConfig = Some x -> config_ok x.
Proof. intros [= <-]. unfold config_ok, in_int32. simpl. lia. Qed.
Lemma demo_settings_ok : settings_ok (pc_settings demo0).
Proof. apply NewPrefixCache_settings_ok, demo_config_ok. Qed.
Lemma demo0_Inv : Inv (pc_settings demo0) demo0.
Proof. apply Inv_new. Qed.
Lemma demo1_step : step demo0 demo1.
Proof. eapply (step_Set 5 demoKey (replicate 90 1) 0 demo0 demo1 (Ok tt)). reflexivity. Qed.
Lemma demo1_Inv : Inv (pc_settings demo0) demo1.
Proof. eapply Inv_step; [apply demo_settings_ok | apply demo0_Inv | apply demo1_step]. Qed.
Lemma demoShort_Inv : Inv (pc_settings demo0) demoShort.
Proof.
  eapply Inv_step; [apply demo_settings_ok | apply demo0_Inv |].
  eapply (step_Set 5 "short" (replicate 90 1) 0 demo0 demoShort (Ok tt)). reflexivity.
Qed.
Lemma demoTicked_step : step demo1 demoTicked.
Proof. apply (step_evictionTick 6 0). vm_compute. reflexivity. Qed.
Lemma demoSwapped_step : step demoTicked demoSwapped.
Proof. apply (step_Set 7 "x" (replicate 60 2) 0 demoTicked demoSwapped (Ok tt)). vm_compute. reflexivity. Qed.
Lemma demoSwapped_Inv : Inv (pc_settings demo0) demoSwapped.
Proof.
  eapply Inv_step; [apply demo_settings_ok | | apply demoSwapped_step].
  eapply Inv_step; [apply demo_settings_ok | apply demo1_Inv | apply demoTicked_step].
Qed.
Lemma demo1_gpu : pc_gpuBlocks demo1 = {[ demoKey := 0%nat ]}.
Proof. reflexivity. Qed.
Lemma demoShort_gpu : pc_gpuBlocks demoShort = {[ "short" := 0%nat ]}.
Proof. reflexivity. Qed.

Lemma prefix_reachable_Inv_witness :
  rtc step demo0 demo1 /\ Inv (pc_settings demo0) demo1 /\ pc_usedSize demo1 = 90.
Proof.
  assert (Hr : rtc step demo0 demo1) by (apply rtc_once, demo1_step).
  split; [exact Hr|]. split; [|reflexivity].
  exact (prefix_reachable_Inv "demo" "prefix" 100 Minute demoConfig demo1 demo_config_ok Hr).
Defined.

Lemma prefix_Set_Get_witness :
  exists c1, Set_ 5 demoKey [7; 8] 10 demo0 = Ret (c1, Ok tt) /\
    (exists c2, Get 9 9 0 demoKey c1 = Ret (c2, Ok (Some (mkCacheEntry demoKey [7; 8] 2 5 9 0 0 "prefix" ∅)))) /\
    (exists c2, Get 16 16 0 demoKey c1 = Ret (c2, Ok None)).
Proof.
  destruct (prefix_Set_Get (pc_settings demo0) 5 demoKey [7; 8] 10 demo0 demo0_Inv) as (c1 & Hs & _ & _ & Hg).
  exists c1. split; [exact Hs|].
  split; [destruct (Hg 9 9 0%nat) as (c2 & H & _) | destruct (Hg 16 16 0%nat) as (c2 & H & _)]; exists c2; exact H.
Defined.

Lemma prefix_evictLRU_correct_witness :
  exists c', evictLRU 0 demo1 = Ret c' /\ lru_evicted demo1 c' /\ targetSize demo1 = 80.
Proof.
  destruct (prefix_evictLRU_correct (pc_settings demo0) 0 demo1 demo1_Inv) as (c' & Hr & _ & H).
  - intros k [p Hk]. rewrite demo1_gpu in Hk. apply lookup_singleton_Some in Hk as [<- _]. vm_compute. lia.
  - exists c'. split; [exact Hr|]. split; [exact H | reflexivity].
Defined.

Lemma prefix_evictLRU_short_key_panics_witness :
  evictLRU 0 demoShort = Panic "slice bounds out of range".
Proof.
  eapply (prefix_evictLRU_short_key_panics (pc_settings demo0) 0 demoShort "short" 0 _ demoShort_Inv);
    [reflexivity.. | ].
  intros k' [p Hk]. rewrite demoShort_gpu in Hk. apply lookup_singleton_Some in Hk as [<- _]. vm_compute. lia.
Defined.

Lemma prefix_Get_swapped_self_deadlock_witness :
  pc_mu demoSwapped = false /\ Get 9 9 0 demoKey demoSwapped = Blocked.
Proof.
  split; [reflexivity|].
  eapply (prefix_Get_swapped_self_deadlock (pc_settings demo0) 9 9 0 demoKey 0 _ demoSwapped demoSwapped_Inv);
    [reflexivity | reflexivity | discriminate | reflexivity].
Defined.

Lemma prefix_MatchPrefix_longest_witness :
  let c := state_of demo0 (InsertPrefix (fun _ => 0) [1; 2; 3; 4] [9; 9] 0 demo0) in
  MatchPrefix [1; 2; 3; 5] c = (3%nat, []) /\ has_path (pc_root c) [1; 2; 3].
Proof.
  split; [vm_compute; reflexivity|].
  refine (proj1 (proj2 (prefix_MatchPrefix_longest [1; 2; 3; 5]
    (state_of demo0 (InsertPrefix (fun _ => 0) [1; 2; 3; 4] [9; 9] 0 demo0)) 3%nat [] _))).
  vm_compute. reflexivity.
Defined.

Lemma prefix_MatchPrefix_one_block_witness :
  Z.of_nat (MatchPrefix [1; 2; 3; 4; 5; 6; 7; 8]
    (state_of demo0 (InsertPrefix (fun _ => 0) [1; 2; 3; 4; 5; 6; 7; 8] [9; 9] 0 demo0))).1 <= 4.
Proof.
  refine (prefix_MatchPrefix_one_block "demo" "prefix" 100 Minute demoConfig _ [1; 2; 3; 4; 5; 6; 7; 8] demo_config_ok _).
  apply rtc_once. eapply (step_InsertPrefix (fun _ => 0) [1; 2; 3; 4; 5; 6; 7; 8] [9; 9] 0 _ _ (Ok tt)).
  vm_compute. reflexivity.
Defined.

Lemma prefix_InsertPrefix_blocks_witness :
  exists c' blocks, InsertPrefix (fun _ => 0) [1; 2; 3; 4; 5; 6] [10; 11; 12] 0 demo0 = Ret (c', Ok tt) /\
    concat (pb_KVCache <$> blocks) = [10; 11; 12] /\ length (pb_Hash <$> blocks) = 2%nat.
Proof.
  destruct (prefix_InsertPrefix_blocks (pc_settings demo0) (fun _ => 0) [1; 2; 3; 4; 5; 6] [10; 11; 12] 0 demo0
    demo0_Inv demo_settings_ok) as (c' & blocks & Hr & _ & _ & Hkv & Hh); [vm_compute; discriminate | reflexivity |].
  exists c', blocks. split; [exact Hr|]. split; [exact Hkv|]. rewrite Hh. reflexivity.
Defined.

Lemma prefix_expired_Get_race_witness :
  exists c1 c2, getExpired demoKey 0 demo1 = Ret c1 /\ getExpired demoKey 0 c1 = Ret c2 /\
    pc_entries c2 = -1 /\ pc_usedSize c2 = -90 /\ ~ WF c2.
Proof.
  destruct (prefix_expired_Get_race (pc_settings demo0) demoKey 0 _ demo1 demo1_Inv eq_refl eq_refl)
    as (c1 & c2 & H1 & H2 & _ & He & Hu & _ & Hn).
  exists c1, c2. split; [exact H1|]. split; [exact H2|]. rewrite He, Hu. split; [reflexivity|].
  split; [reflexivity | exact Hn].
Defined.
End witnesses.
