(* ===== verification/FileSystem.v ===== *)
(** What internal/cache/local.go uses of the packages [path/filepath] and
    [os]: lexically cleaned paths and a file system of regular files and
    directories.  A path is a rooted flag and its cleaned elements, innermost
    first.  Every [os] call takes the fault the environment injects, if any. *)
From Stdlib Require Import Ascii.
From S2P Require Import Prelude.

Abbreviation path := (bool * list string)%type (only parsing).

(** [strings.Split(s, "/")]. *)
Definition slash : Ascii.ascii := "/"%char.
Fixpoint split_go (s : string) (acc : string) : list string :=
  match s with
  | EmptyString => [acc]
  | String.String a s' => if decide (a = slash) then acc :: split_go s' EmptyString
                          else split_go s' (acc +:+ String.String a EmptyString)
  end.
Definition split (s : string) : list string := split_go s EmptyString.

(** One element of [filepath.Clean]. *)
Definition push (p : path) (e : string) : path :=
  if decide (e = "" \/ e = ".") then p
  else if decide (e = "..") then
    match p with
    | (true, s) => (true, tail s)
    | (false, t :: s) => if decide (t = "..") then (false, e :: t :: s) else (false, s)
    | (false, []) => (false, [e])
    end
  else (p.1, e :: p.2).
(** [filepath.Join] below a cleaned path. *)
Definition join (p : path) (elems : list string) : path :=
  fold_left (fun q e => fold_left push (split e) q) elems p.
(** [filepath.Clean] of a non-empty string. *)
Definition Clean (s : string) : path :=
  fold_left push (split s)
    (match s with String.String a _ => bool_decide (a = slash) | EmptyString => false end, []).
(** [filepath.Dir]. *)
Definition Dir (p : path) : path := (p.1, tail p.2).

Inductive node := File (data : bytes) | Directory.
Abbreviation fs := (gmap path node) (only parsing).

(** The fault of one call, and what a call that fails leaves done: a write the
    bytes of the file, a making of directories the outermost levels that are
    there, a removal what it spares. *)
Record fault := mkFault {
  fault_err : error;
  fault_leaves : option bytes;
  fault_made : nat;
  fault_spares : path -> bool;
}.

(** The ancestors of a path, itself included, except the root. *)
Fixpoint up (s : list string) : list (list string) :=
  match s with [] => [] | _ :: s' => s :: up s' end.

Definition is_dir (d : fs) (p : path) : bool :=
  match p.2 with [] => true | _ => match d !! p with Some Directory => true | _ => false end end.
Definition is_file (d : fs) (p : path) : bool :=
  match p.2 with [] => false | _ => match d !! p with Some (File _) => true | _ => false end end.

Definition mkdirs (rooted : bool) (dirs : list (list string)) (d : fs) : fs :=
  foldr (fun s d => <[(rooted, s) := Directory]> d) d dirs.
Definition os_MkdirAll (f : option fault) (p : path) (d : fs) : fs * result unit :=
  if existsb (fun s => is_file d (p.1, s)) (up p.2) then (d, Err "not a directory")
  else match f with
       | Some e => (mkdirs p.1 (drop (length (up p.2) - fault_made e) (up p.2)) d, Err (fault_err e))
       | None => (mkdirs p.1 (up p.2) d, Ok tt)
       end.

Definition os_WriteFile (f : option fault) (p : path) (data : bytes) (d : fs) : fs * result unit :=
  if negb (is_dir d (Dir p)) || is_dir d p then (d, Err "is a directory")
  else match f with
       | Some e => (match fault_leaves e with Some b => <[p := File b]> d | None => d end, Err (fault_err e))
       | None => (<[p := File data]> d, Ok tt)
       end.

Definition os_ReadFile (f : option fault) (p : path) (d : fs) : result bytes :=
  match f, d !! p with
  | None, Some (File data) => Ok data
  | Some e, _ => Err (fault_err e)
  | None, _ => Err "no such file"
  end.

(** [os.Remove] deletes a file or an empty directory. *)
Definition below (p q : path) : bool := bool_decide (p.1 = q.1 /\ p.2 `suffix_of` q.2).
Definition os_Remove (f : option fault) (p : path) (d : fs) : fs :=
  match f, d !! p with
  | None, Some (File _) => delete p d
  | None, Some Directory =>
      if decide (filter (fun x : path * node => below p x.1 && bool_decide (x.1 <> p)) d = ∅)
      then delete p d else d
  | _, _ => d
  end.

Definition os_RemoveAll (f : option fault) (p : path) (d : fs) : fs * result unit :=
  match f with
  | Some e => (filter (fun x : path * node => below p x.1 && negb (fault_spares e x.1) = false) d, Err (fault_err e))
  | None => (filter (fun x : path * node => below p x.1 = false) d, Ok tt)
  end.

(** * Lemmas *)

(** A file name: no separator, and neither empty nor a dot element. *)
Fixpoint no_slash (s : string) : bool :=
  match s with EmptyString => true | String.String a s' => bool_decide (a <> slash) && no_slash s' end.
Definition plain (s : string) : Prop := no_slash s = true /\ s <> "" /\ s <> "." /\ s <> "..".

Lemma string_app_cons x (a b : string) : String.String x a +:+ b = String.String x (a +:+ b).
Proof. reflexivity. Qed.
Lemma string_app_assoc (a b c : string) : (a +:+ b) +:+ c = a +:+ b +:+ c.
Proof. induction a as [|x a IH]; [done|]. by rewrite !string_app_cons, IH. Qed.
Lemma string_app_nil (a : string) : a +:+ "" = a.
Proof. induction a as [|x a IH]; [done|]. by rewrite string_app_cons, IH. Qed.

Lemma split_go_app s t acc : no_slash s = true ->
  split_go (s +:+ String.String slash t) acc = (acc +:+ s) :: split t.
Proof.
  revert acc. induction s as [|a s IH]; intros acc Hs.
  - by rewrite string_app_nil.
  - rewrite ?string_app_cons. simpl. simpl in Hs. apply andb_prop in Hs as [Ha Hs]. apply bool_decide_eq_true in Ha.
    destruct (decide (a = slash)); [done|]. rewrite IH by done. by rewrite string_app_assoc, string_app_cons.
Qed.
Lemma split_go_no_slash s acc : no_slash s = true -> split_go s acc = [acc +:+ s].
Proof.
  revert acc. induction s as [|a s IH]; intros acc Hs.
  - by rewrite string_app_nil.
  - rewrite ?string_app_cons. simpl. simpl in Hs. apply andb_prop in Hs as [Ha Hs]. apply bool_decide_eq_true in Ha.
    destruct (decide (a = slash)); [done|]. rewrite IH by done. by rewrite string_app_assoc, string_app_cons.
Qed.
Lemma split_plain s : plain s -> split s = [s].
Proof. intros [Hs _]. unfold split. by rewrite split_go_no_slash. Qed.
Lemma split_cons s t : no_slash s = true -> split (s +:+ String.String slash t) = s :: split t.
Proof. intros Hs. unfold split at 1. by rewrite split_go_app. Qed.

Lemma push_plain p s : plain s -> push p s = (p.1, s :: p.2).
Proof.
  intros (_ & H1 & H2 & H3). unfold push. rewrite decide_False by tauto. by rewrite decide_False.
Qed.

Lemma up_elem s l : l ∈ up s <-> l <> [] /\ l `suffix_of` s.
Proof.
  induction s as [|a s IH]; simpl.
  - rewrite elem_of_nil. split; [done|]. intros [Hl Hs]. by apply suffix_nil_inv in Hs.
  - rewrite elem_of_cons, IH. split.
    + intros [->|[? ?]]; [done|]. split; [done|]. by apply suffix_cons_r.
    + intros [Hl [k Hk]]. destruct k as [|b k]; simpl in *; simplify_eq; [by left|].
      right. split; [done|]. by exists k.
Qed.

(** Making directories changes no file and no directory. *)
Lemma MkdirAll_lookup f p d d' q n : os_MkdirAll f p d = (d', Ok tt) ->
  d !! q = Some n -> d' !! q = Some n.
Proof.
  unfold os_MkdirAll, mkdirs. destruct (existsb _ _) eqn:E; [done|]. destruct f; [done|]. intros [= <-] Hq.
  assert (Hnf : Forall (fun s => is_file d (p.1, s) = false) (up p.2)).
  { apply Forall_forall. intros s Hs. destruct (is_file d (p.1, s)) eqn:Ef; [|done].
    rewrite <- E. symmetry. apply existsb_exists. exists s. split; [by apply list_elem_of_In|done]. }
  assert (Hne : Forall (fun s => s <> []) (up p.2)) by (apply Forall_forall; intros s [? _]%up_elem; done).
  clear E. induction Hnf as [|s l Hs _ IH]; simpl; [done|]. apply Forall_cons in Hne as [Hn Hne].
  destruct (decide (q = (p.1, s))) as [->|Hqn].
  - rewrite lookup_insert_eq. unfold is_file in Hs. simpl in Hs. rewrite Hq in Hs.
    destruct s; [done|]. by destruct n.
  - rewrite lookup_insert_ne by done. by apply IH.
Qed.

Lemma MkdirAll_is_dir f p d d' s : os_MkdirAll f p d = (d', Ok tt) -> s `suffix_of` p.2 ->
  is_dir d' (p.1, s) = true.
Proof.
  unfold os_MkdirAll, mkdirs. destruct (existsb _ _); [done|]. destruct f; [done|]. intros [= <-] Hs.
  unfold is_dir. simpl. destruct s as [|a s]; [done|].
  assert (Hin : a :: s ∈ up p.2) by (by apply up_elem).
  induction (up p.2) as [|t l IH]; simpl; [by apply elem_of_nil in Hin|].
  destruct (decide (t = a :: s)) as [->|Hne]; [by rewrite lookup_insert_eq|].
  rewrite lookup_insert_ne by congruence. apply IH. apply elem_of_cons in Hin as [?|?]; congruence.
Qed.

Lemma Remove_lookup_ne f p d q : p <> q -> os_Remove f p d !! q = d !! q.
Proof.
  intros Hne. unfold os_Remove. destruct f; [done|]. destruct (d !! p) as [[]|]; [|case_decide|]; try done;
    by rewrite lookup_delete_ne.
Qed.
