(* ===== verification/LocalCache.v ===== *)
(** internal/cache/local.go: the local disk tier.  The state is the index in
    memory and the file system; every [os] call takes the fault the
    environment injects there.  gzip, zstd and gob are a type class. *)
From S2P Require Import Prelude GoFloat Api CacheTier FileSystem.
Local Open Scope Z_scope.

Record LocalCacheEntry := mkLocalCacheEntry {
  le_Key : string;
  le_Value : bytes;
  le_CreatedAt : Z;
  le_AccessedAt : Z;
  le_ExpiresAt : Z;
  le_Size : Z;
  le_Compressed : bool;
}.
Definition le_set_AccessedAt (t : Z) (e : LocalCacheEntry) : LocalCacheEntry :=
  mkLocalCacheEntry (le_Key e) (le_Value e) (le_CreatedAt e) t (le_ExpiresAt e) (le_Size e) (le_Compressed e).

(** Compression libraries and [encoding/gob]: decoding undoes encoding. *)
Class Codecs := {
  zstd_encode : bytes -> result bytes;
  zstd_decode : bytes -> result bytes;
  gzip_encode : bytes -> result bytes;
  gzip_decode : bytes -> result bytes;
  gob_encode : gmap string LocalCacheEntry -> result bytes;
  gob_decode : bytes -> result (gmap string LocalCacheEntry);
  zstd_roundtrip : forall d d', zstd_encode d = Ok d' -> zstd_decode d' = Ok d;
  gzip_roundtrip : forall d d', gzip_encode d = Ok d' -> gzip_decode d' = Ok d;
  gob_roundtrip : forall m d, gob_encode m = Ok d -> gob_decode d = Ok m;
}.

(** [lc_evictCh] tells whether the one-slot channel [evictCh] holds a signal. *)
Record LocalCache `{QuantityOps} := mkLocalCache {
  lc_cacheName : string;
  lc_tierName : string;
  lc_maxSize : Quantity;
  lc_defaultTTL : Z;
  lc_config : option LocalCacheConfig;
  lc_basePath : path;
  lc_index : gmap string LocalCacheEntry;
  lc_hits : Z;
  lc_misses : Z;
  lc_usedSize : Z;
  lc_entries : Z;
  lc_evictions : Z;
  lc_compression : bool;
  lc_compressAlgo : string;
  lc_evictCh : bool;
  lc_disk : fs;
}.

Section setters.
Context `{QuantityOps}.
Implicit Type c : LocalCache.
Definition set_index v c : LocalCache :=
  mkLocalCache _ (lc_cacheName c) (lc_tierName c) (lc_maxSize c) (lc_defaultTTL c) (lc_config c) (lc_basePath c)
    v (lc_hits c) (lc_misses c) (lc_usedSize c) (lc_entries c) (lc_evictions c) (lc_compression c)
    (lc_compressAlgo c) (lc_evictCh c) (lc_disk c).
Definition set_hits v c : LocalCache :=
  mkLocalCache _ (lc_cacheName c) (lc_tierName c) (lc_maxSize c) (lc_defaultTTL c) (lc_config c) (lc_basePath c)
    (lc_index c) v (lc_misses c) (lc_usedSize c) (lc_entries c) (lc_evictions c) (lc_compression c)
    (lc_compressAlgo c) (lc_evictCh c) (lc_disk c).
Definition set_misses v c : LocalCache :=
  mkLocalCache _ (lc_cacheName c) (lc_tierName c) (lc_maxSize c) (lc_defaultTTL c) (lc_config c) (lc_basePath c)
    (lc_index c) (lc_hits c) v (lc_usedSize c) (lc_entries c) (lc_evictions c) (lc_compression c)
    (lc_compressAlgo c) (lc_evictCh c) (lc_disk c).
Definition set_usedSize v c : LocalCache :=
  mkLocalCache _ (lc_cacheName c) (lc_tierName c) (lc_maxSize c) (lc_defaultTTL c) (lc_config c) (lc_basePath c)
    (lc_index c) (lc_hits c) (lc_misses c) v (lc_entries c) (lc_evictions c) (lc_compression c)
    (lc_compressAlgo c) (lc_evictCh c) (lc_disk c).
Definition set_entries v c : LocalCache :=
  mkLocalCache _ (lc_cacheName c) (lc_tierName c) (lc_maxSize c) (lc_defaultTTL c) (lc_config c) (lc_basePath c)
    (lc_index c) (lc_hits c) (lc_misses c) (lc_usedSize c) v (lc_evictions c) (lc_compression c)
    (lc_compressAlgo c) (lc_evictCh c) (lc_disk c).
Definition set_evictions v c : LocalCache :=
  mkLocalCache _ (lc_cacheName c) (lc_tierName c) (lc_maxSize c) (lc_defaultTTL c) (lc_config c) (lc_basePath c)
    (lc_index c) (lc_hits c) (lc_misses c) (lc_usedSize c) (lc_entries c) v (lc_compression c)
    (lc_compressAlgo c) (lc_evictCh c) (lc_disk c).
Definition set_evictCh v c : LocalCache :=
  mkLocalCache _ (lc_cacheName c) (lc_tierName c) (lc_maxSize c) (lc_defaultTTL c) (lc_config c) (lc_basePath c)
    (lc_index c) (lc_hits c) (lc_misses c) (lc_usedSize c) (lc_entries c) (lc_evictions c) (lc_compression c)
    (lc_compressAlgo c) v (lc_disk c).
Definition set_disk v c : LocalCache :=
  mkLocalCache _ (lc_cacheName c) (lc_tierName c) (lc_maxSize c) (lc_defaultTTL c) (lc_config c) (lc_basePath c)
    (lc_index c) (lc_hits c) (lc_misses c) (lc_usedSize c) (lc_entries c) (lc_evictions c) (lc_compression c)
    (lc_compressAlgo c) (lc_evictCh c) v.
End setters.

(** Faults of the calls one operation makes. *)
Record faults := mkFaults {
  f_mkdir : option fault;
  f_write : option fault;
  f_read : option fault;
  f_remove : option fault;
}.
Definition no_faults : faults := mkFaults None None None None.

Section operations.
Context `{QuantityOps} `{GoRuntime} `{Codecs}.
Implicit Type c : LocalCache.

(** First two bytes of the key as a subdirectory. *)
Definition getFilePath c (key : string) : path :=
  let subdir := if bool_decide (2 <= String.length key)%nat then String.substring 0 2 key else "00" in
  join (lc_basePath c) [subdir; key].
Definition indexPath c : path := join (lc_basePath c) ["index.gob"].

Definition deleteEntry (f : faults) (key : string) (entry : LocalCacheEntry) c : LocalCache :=
  let c := set_disk (os_Remove (f_remove f) (getFilePath c key) (lc_disk c)) c in
  let c := set_usedSize (int64 (lc_usedSize c + - le_Size entry)) c in
  let c := set_entries (int64 (lc_entries c + -1)) c in
  set_index (delete key (lc_index c)) c.

Definition cleanupExpired (f : faults) (now : Z) (seed : nat) c : LocalCache :=
  fold_left (fun c '(key, entry) =>
    if le_ExpiresAt entry <? now then deleteEntry f key entry c else c) (range seed (lc_index c)) c.

(** One scan for the least recently used entry: [""] stands for none yet. *)
Definition findOldest (l : list (string * LocalCacheEntry)) : string * Z :=
  fold_left (fun '(oldestKey, oldestTime) '(key, entry) =>
    if bool_decide (oldestKey = "") || (le_AccessedAt entry <? oldestTime)
    then (key, le_AccessedAt entry) else (oldestKey, oldestTime)) l ("", 0).

(** The eviction loop; [None] when [fuel] iterations do not finish it. *)
Fixpoint evictLoop (f : faults) (seed : nat) (target : Z) (fuel : nat) c : option LocalCache :=
  if (target <? lc_usedSize c) && bool_decide (lc_index c <> ∅) then
    match fuel with
    | O => None
    | S fuel' =>
        let oldestKey := (findOldest (range (seed + fuel') (lc_index c))).1 in
        let c := if bool_decide (oldestKey <> "") then
                   match lc_index c !! oldestKey with
                   | Some entry =>
                       let c := deleteEntry f oldestKey entry c in
                       set_evictions (int64 (lc_evictions c + 1)) c
                   | None => c
                   end
                 else c in
        evictLoop f seed target fuel' c
    end
  else Some c.

Definition evictTarget c : Z := Z.quot (int64 (Quantity_Value (lc_maxSize c) * 80)) 100.
Definition evict (f : faults) (seed fuel : nat) c : option LocalCache :=
  evictLoop f seed (evictTarget c) fuel c.

(** [NewLocalCache] and [initialize] on a disk; the background goroutines
    are the operations [evict] and [cleanupExpired]. *)
Definition loadIndex (now : string -> Z) (seed : nat) (idx : gmap string LocalCacheEntry) c : LocalCache :=
  fold_left (fun c '(key, entry) =>
    if le_ExpiresAt entry <? now key then set_index (delete key (lc_index c)) c
    else set_usedSize (int64 (lc_usedSize c + le_Size entry)) (set_entries (int64 (lc_entries c + 1)) c))
    (range seed idx) (set_index idx c).

Definition initialize (f : faults) (now : string -> Z) (seed : nat) c : LocalCache * result unit :=
  match os_MkdirAll (f_mkdir f) (lc_basePath c) (lc_disk c) with
  | (d, Err e) => (set_disk d c, Err ("failed to create cache directory: " +:+ e))
  | (d, Ok _) =>
      let c := set_disk d c in
      match os_ReadFile (f_read f) (indexPath c) (lc_disk c) with
      | Err _ => (c, Ok tt)
      | Ok data => match gob_decode data with
                   | Err _ => (set_index ∅ c, Ok tt)
                   | Ok idx => (loadIndex now seed idx c, Ok tt)
                   end
      end
  end.

Definition cacheDir (cacheName tierName : string) (config : option LocalCacheConfig) : path :=
  let basePath := match config with
                  | Some cfg => if bool_decide (lcc_MountPath cfg <> "") then lcc_MountPath cfg else "/cache"
                  | None => "/cache" end in
  join (Clean basePath) [cacheName; tierName].
Definition NewLocalCache (f : faults) (now : string -> Z) (seed : nat) (disk : fs)
    (cacheName tierName : string) (size : Quantity) (ttl : Z) (config : option LocalCacheConfig) : LocalCache :=
  let compression := match config with Some cfg => lcc_Compression cfg | None => false end in
  let compressAlgo := match config with
                      | Some cfg => if bool_decide (lcc_CompressionAlgorithm cfg <> "")
                                    then lcc_CompressionAlgorithm cfg else "lz4"
                      | None => "lz4" end in
  let cache := mkLocalCache _ cacheName tierName size (if ttl =? 0 then 24 * Hour else ttl) config
    (cacheDir cacheName tierName config) ∅ 0 0 0 0 0 compression compressAlgo false disk in
  (initialize f now seed cache).1.

Definition compress c (data : bytes) : result bytes :=
  if bool_decide (lc_compressAlgo c = "zstd") then zstd_encode data
  else if bool_decide (lc_compressAlgo c = "gzip") then gzip_encode data
  else gzip_encode data.
Definition decompress c (data : bytes) : result bytes :=
  if bool_decide (lc_compressAlgo c = "zstd") then zstd_decode data
  else if bool_decide (lc_compressAlgo c = "gzip") then gzip_decode data
  else gzip_decode data.

(** [Get] in its phases, each under its own lock: the lookup, then what
    follows for the entry found. *)
Definition dropStale (f : faults) (key : string) (entry : LocalCacheEntry) c : LocalCache :=
  let c := deleteEntry f key entry c in
  set_misses (int64 (lc_misses c + 1)) c.
Definition getEntry (f : faults) (now1 now2 : Z) (key : string) (entry : LocalCacheEntry) c
    : LocalCache * result (option CacheEntry) :=
  if le_ExpiresAt entry <? now1 then (dropStale f key entry c, Ok None)
  else
    match os_ReadFile (f_read f) (getFilePath c key) (lc_disk c) with
    | Err _ => (dropStale f key entry c, Ok None)
    | Ok data =>
        match (if le_Compressed entry then decompress c data else Ok data) with
        | Err e => (set_misses (int64 (lc_misses c + 1)) c, Err ("failed to decompress: " +:+ e))
        | Ok data =>
            let c := set_hits (int64 (lc_hits c + 1)) c in
            let c := set_index (alter (le_set_AccessedAt now2) key (lc_index c)) c in
            (c, Ok (Some (mkCacheEntry key data (le_Size entry) (le_CreatedAt entry) now2 0 0
                            (lc_tierName c) ∅)))
        end
    end.
Definition Get (f : faults) (now1 now2 : Z) (key : string) c : LocalCache * result (option CacheEntry) :=
  match lc_index c !! key with
  | None => (set_misses (int64 (lc_misses c + 1)) c, Ok None)
  | Some entry => getEntry f now1 now2 key entry c
  end.

(** The data [Set] writes, and whether it is compressed. *)
Definition encodeValue c (value : bytes) : bytes * bool :=
  if lc_compression c && (1024 <? Z.of_nat (length value)) then
    match compress c value with
    | Err _ => (value, false)
    | Ok data => (data, true)
    end
  else (value, false).

Definition Set_ (f : faults) (now : Z) (key : string) (value : bytes) (ttl : Z) c : LocalCache * result unit :=
  let ttl := if ttl =? 0 then lc_defaultTTL c else ttl in
  let '(data, compressed) := encodeValue c value in
  let filePath := getFilePath c key in
  match os_MkdirAll (f_mkdir f) (Dir filePath) (lc_disk c) with
  | (d, Err e) => (set_disk d c, Err ("failed to create directory: " +:+ e))
  | (d, Ok _) =>
      match os_WriteFile (f_write f) filePath data d with
      | (d, Err e) => (set_disk d c, Err ("failed to write file: " +:+ e))
      | (d, Ok _) =>
          let c := set_disk d c in
          let entry := mkLocalCacheEntry key [] now now (now + ttl) (Z.of_nat (length data)) compressed in
          let c := match lc_index c !! key with
                   | Some old => set_usedSize (int64 (lc_usedSize c + - le_Size old)) c
                   | None => set_entries (int64 (lc_entries c + 1)) c
                   end in
          let c := set_index (<[key := entry]> (lc_index c)) c in
          let c := set_usedSize (int64 (lc_usedSize c + le_Size entry)) c in
          let c := if Z.quot (int64 (Quantity_Value (lc_maxSize c) * 90)) 100 <? lc_usedSize c
                   then set_evictCh true c else c in
          (c, Ok tt)
      end
  end.

Definition Delete (f : faults) (key : string) c : LocalCache * result unit :=
  match lc_index c !! key with
  | None => (c, Ok tt)
  | Some entry => (deleteEntry f key entry c, Ok tt)
  end.

Definition Clear (f : faults) c : LocalCache * result unit :=
  match os_RemoveAll (f_remove f) (lc_basePath c) (lc_disk c) with
  | (d, Err e) => (set_disk d c, Err ("failed to clear cache: " +:+ e))
  | (d, Ok _) =>
      match os_MkdirAll (f_mkdir f) (lc_basePath c) d with
      | (d, Err e) => (set_disk d c, Err ("failed to recreate cache directory: " +:+ e))
      | (d, Ok _) => (set_entries 0 (set_usedSize 0 (set_index ∅ (set_disk d c))), Ok tt)
      end
  end.

(** Accessors. *)
Definition Name c : string := lc_tierName c.
Definition Type_ c : CacheTierType := CacheTierTypeLocal.
Definition Size c : Quantity := lc_maxSize c.
Definition UsedSize c : Quantity := NewQuantity (lc_usedSize c) BinarySI.
Definition Entries c : Z := lc_entries c.
Definition Stats c : TierStats :=
  let '(hitRate, missRate) := hitRates (lc_hits c) (lc_misses c) in
  mkTierStats hitRate missRate 0 (lc_entries c) (lc_usedSize c) (Quantity_Value (lc_maxSize c)) (lc_evictions c).
(** [os.Stat] finds files and directories. *)
Definition Healthy (f : option fault) c : bool :=
  match f with
  | Some _ => false
  | None => is_dir (lc_disk c) (lc_basePath c) || is_file (lc_disk c) (lc_basePath c)
  end.

Definition SaveIndex (f : faults) c : LocalCache * result unit :=
  match gob_encode (lc_index c) with
  | Err e => (c, Err ("failed to encode index: " +:+ e))
  | Ok data => match os_WriteFile (f_write f) (indexPath c) data (lc_disk c) with
               | (d, Err e) => (set_disk d c, Err ("failed to write index: " +:+ e))
               | (d, Ok _) => (set_disk d c, Ok tt)
               end
  end.
End operations.

(** Codecs to evaluate with: gzip and zstd store the data as it is, and gob
    writes the number that [Countable] assigns to the index. *)
#[export] Instance LocalCacheEntry_eq_dec : EqDecision LocalCacheEntry.
Proof. solve_decision. Defined.
#[export] Instance LocalCacheEntry_countable : Countable LocalCacheEntry :=
  inj_countable' (fun e => (le_Key e, le_Value e, le_CreatedAt e, le_AccessedAt e, le_ExpiresAt e, le_Size e, le_Compressed e))
    (fun '(k, v, c, a, x, s, z) => mkLocalCacheEntry k v c a x s z)
    (fun e => match e with mkLocalCacheEntry _ _ _ _ _ _ _ => eq_refl end).

Definition countable_decode (d : bytes) : result (gmap string LocalCacheEntry) :=
  match d with
  | [Zpos p] => match decode p with Some m => Ok m | None => Err "gob: bad data" end
  | _ => Err "EOF"
  end.
Lemma countable_roundtrip m d : Ok [Zpos (encode m)] = Ok d -> countable_decode d = Ok m.
Proof. intros [= <-]. simpl. by rewrite decode_encode. Qed.
Definition storeCodecs : Codecs := {|
  zstd_encode := Ok; zstd_decode := Ok; gzip_encode := Ok; gzip_decode := Ok;
  gob_encode := fun m => Ok [Zpos (encode m)];
  gob_decode := countable_decode;
  zstd_roundtrip := fun d d' E => eq_sym E;
  gzip_roundtrip := fun d d' E => eq_sym E;
  gob_roundtrip := countable_roundtrip;
|}.
