(* ===== verification/LocalProps.v ===== *)
(** Properties of the local disk tier (local.go): accounting of the index,
    what [Get] returns after [Set], eviction, file paths, races and the saved
    index. *)
From S2P Require Import Prelude GoFloat Api CacheTier FileSystem LocalCache.
Local Open Scope Z_scope.

(** The counters are the sums over the index, in int64. *)
Record LInv `{QuantityOps} (c : LocalCache) : Prop := {
  linv_used : lc_usedSize c = int64 (map_sum le_Size (lc_index c));
  linv_entries : lc_entries c = int64 (Z.of_nat (size (lc_index c)));
}.

(** One completed call, or one run of a background goroutine; an eviction runs
    when its signal is pending. *)
Inductive lstep `{QuantityOps} `{GoRuntime} `{Codecs} : LocalCache -> LocalCache -> Prop :=
| lstep_Get f now1 now2 key c : lstep c (Get f now1 now2 key c).1
| lstep_Set f now key value ttl c : lstep c (Set_ f now key value ttl c).1
| lstep_Delete f key c : lstep c (Delete f key c).1
| lstep_Clear f c : lstep c (Clear f c).1
| lstep_cleanup f now seed c : lstep c (cleanupExpired f now seed c)
| lstep_evict f seed fuel c c' : lc_evictCh c = true ->
    evict f seed fuel (set_evictCh false c) = Some c' -> lstep c c'
| lstep_SaveIndex f c : lstep c (SaveIndex f c).1.

(** Everything but the index, its counters, the evictions and the disk. *)
Record same_setup `{QuantityOps} (c c' : LocalCache) : Prop := {
  ss_tierName : lc_tierName c' = lc_tierName c;
  ss_maxSize : lc_maxSize c' = lc_maxSize c;
  ss_basePath : lc_basePath c' = lc_basePath c;
  ss_algo : lc_compressAlgo c' = lc_compressAlgo c;
}.

(** A key whose file is the cache's own: a file name that does not begin
    with two dots. *)
Definition plain_key (k : string) : Prop :=
  plain k /\ String.substring 0 2 k <> "..".

(** The file an entry reads. *)
Definition file_at (d : fs) (p : path) : option bytes :=
  match d !! p with Some (File data) => Some data | _ => None end.

(** Entries that [initialize] keeps. *)
Definition live (now : string -> Z) (x : string * LocalCacheEntry) : Prop := now x.1 <= le_ExpiresAt x.2.
#[export] Instance live_dec now x : Decision (live now x).
Proof. unfold live. apply _. Defined.

(** [evict] removed the least recently used entries, down to the target. *)
Record lru_removed `{QuantityOps} (target : Z) (c c' : LocalCache) : Prop := {
  lr_inv : LInv c';
  lr_setup : same_setup c c';
  lr_subset : lc_index c' ⊆ lc_index c;
  lr_idle : lc_usedSize c <= target -> c' = c;
  lr_target : lc_usedSize c' <= target \/ lc_index c' = ∅;
  lr_order : forall k1 e1 k2 e2, lc_index c !! k1 = Some e1 -> lc_index c' !! k1 = None ->
    lc_index c' !! k2 = Some e2 -> le_AccessedAt e1 <= le_AccessedAt e2;
}.

(** Elements of a path as a key would write it, outermost first. *)
Fixpoint slashed (l : list string) : string :=
  match l with
  | [] => ""
  | [x] => x
  | x :: l' => x +:+ String.String slash (slashed l')
  end.
Fixpoint ups (n : nat) (s : string) : string :=
  match n with O => s | S n' => ".." +:+ String.String slash (ups n' s) end.

(** Pairs still to visit of a range over the index. *)
Definition pending `{QuantityOps} (ls : list (string * LocalCacheEntry)) (c : LocalCache) : Prop :=
  NoDup ls.*1 /\ forall k e, (k, e) ∈ ls -> lc_index c !! k = Some e.

Definition subdirOf (k : string) : string :=
  if bool_decide (2 <= String.length k)%nat then String.substring 0 2 k else "00".

(** The entry [Set] records. *)
Definition newEntry `{QuantityOps} `{Codecs} (now : Z) (key : string) (v : bytes) (ttl : Z) (c : LocalCache)
    : LocalCacheEntry :=
  mkLocalCacheEntry key [] now now (now + if ttl =? 0 then lc_defaultTTL c else ttl)
    (Z.of_nat (length (encodeValue c v).1)) (encodeValue c v).2.

(** [os.ReadFile] as a function of the file's contents. *)
Definition readFile_at (f : option fault) (x : option bytes) : result bytes :=
  match f, x with Some e, _ => Err (fault_err e) | None, Some d => Ok d | None, None => Err "no such file" end.

Section facts.
Context `{QO : QuantityOps} `{GR : GoRuntime} `{CO : Codecs}.
Implicit Types (c : LocalCache) (k key : string) (f : faults).

Lemma same_setup_refl c : same_setup c c.
Proof. by constructor. Qed.
Lemma same_setup_trans c1 c2 c3 : same_setup c1 c2 -> same_setup c2 c3 -> same_setup c1 c3.
Proof. intros [] []. constructor; congruence. Qed.

(** ** Accounting *)
Lemma LInv_frame c c' : LInv c -> lc_index c' = lc_index c -> lc_usedSize c' = lc_usedSize c ->
  lc_entries c' = lc_entries c -> LInv c'.
Proof. intros [Hu He] E1 E2 E3. constructor; by rewrite ?E1, ?E2, ?E3. Qed.

Lemma map_size_pos {V} (m : gmap string V) k v : m !! k = Some v -> (size m <> 0)%nat.
Proof. intros Hk E. apply map_size_empty_inv in E. by rewrite E, lookup_empty in Hk. Qed.

Lemma deleteEntry_inv f k e c : LInv c -> lc_index c !! k = Some e -> LInv (deleteEntry f k e c).
Proof.
  intros [Hu He] Hk. constructor; simpl.
  - rewrite Hu, (map_sum_delete _ _ _ _ Hk). apply int64_add.
  - rewrite He, (map_size_delete_Some k) by eauto. rewrite int64_add. f_equal.
    pose proof (map_size_pos _ _ _ Hk). lia.
Qed.

Lemma alter_as_insert {V} (g : V -> V) (m : gmap string V) k e : m !! k = Some e ->
  alter g k m = <[k := g e]> m.
Proof.
  intros Hk. apply map_eq. intros k'. destruct (decide (k = k')) as [<-|Hne].
  - by rewrite lookup_alter_eq, lookup_insert_eq, Hk.
  - by rewrite lookup_alter_ne, lookup_insert_ne.
Qed.
Lemma alter_absent {V} (g : V -> V) (m : gmap string V) k : m !! k = None -> alter g k m = m.
Proof. 
  intros Hk. apply map_eq. intros k'. destruct (decide (k = k')) as [<-|Hne].
  - by rewrite lookup_alter_eq, Hk.
  - by rewrite lookup_alter_ne.
Qed.

Lemma map_sum_alter g m k : (forall e, le_Size (g e) = le_Size e) ->
  map_sum le_Size (alter g k m) = map_sum le_Size m.
Proof.
  intros Hg. destruct (m !! k) as [e|] eqn:Hk; [|by rewrite alter_absent].
  rewrite (alter_as_insert g m k e Hk), <- insert_delete_eq.
  rewrite map_sum_insert_None by apply lookup_delete_eq.
  rewrite (map_sum_delete _ _ _ _ Hk), Hg. lia.
Qed.
Lemma size_alter {V} (g : V -> V) (m : gmap string V) k : size (alter g k m) = size m.
Proof.
  destruct (m !! k) as [e|] eqn:Hk; [|by rewrite alter_absent].
  rewrite (alter_as_insert g m k e Hk). by rewrite map_size_insert_Some by eauto.
Qed.

Lemma LInv_touch t k c c' : LInv c -> lc_index c' = alter (le_set_AccessedAt t) k (lc_index c) ->
  lc_usedSize c' = lc_usedSize c -> lc_entries c' = lc_entries c -> LInv c'.
Proof.
  intros [Hu He] E1 E2 E3. constructor; rewrite E1, ?E2, ?E3.
  - rewrite map_sum_alter by done. done.
  - by rewrite size_alter.
Qed.

Lemma Get_inv f now1 now2 k c : LInv c -> LInv (Get f now1 now2 k c).1.
Proof.
  intros HI. unfold Get. destruct (lc_index c !! k) as [e|] eqn:Hk; [|by apply (LInv_frame c)].
  assert (Hd : LInv (dropStale f k e c)).
  { eapply (LInv_frame (deleteEntry f k e c)); [by apply deleteEntry_inv | done..]. }
  unfold getEntry. destruct (_ <? _); [done|].
  destruct (os_ReadFile _ _ _); [|done].
  destruct (if le_Compressed e then _ else _); [|by apply (LInv_frame c)].
  by apply (LInv_touch now2 k c).
Qed.

Lemma Set_inv f now k v ttl c : LInv c -> LInv (Set_ f now k v ttl c).1.
Proof.
  intros HI. unfold Set_. destruct (encodeValue c v) as [data z].
  destruct (os_MkdirAll _ _ _) as [d1 [[]|]]; [|by apply (LInv_frame c)].
  destruct (os_WriteFile _ _ _) as [d2 [[]|]]; [|by apply (LInv_frame c)].
  cbn zeta. apply LInv_frame with
    (set_usedSize (int64 (lc_usedSize c - match lc_index c !! k with Some e => le_Size e | None => 0 end
                          + Z.of_nat (length data)))
      (set_entries (int64 (lc_entries c + match lc_index c !! k with Some _ => 0 | None => 1 end))
      (set_index (<[k := mkLocalCacheEntry k [] now now (now + (if ttl =? 0 then lc_defaultTTL c else ttl))
                          (Z.of_nat (length data)) z]> (lc_index c)) c))).
  - destruct HI as [Hu He]. constructor; simpl; rewrite ?Hu, ?He.
    + rewrite <- insert_delete_eq, map_sum_insert_None by apply lookup_delete_eq. simpl.
      rewrite <- Z.add_sub_swap, <- Z.add_sub_assoc, int64_add. f_equal.
      destruct (lc_index c !! k) eqn:Hk; [rewrite (map_sum_delete _ _ _ _ Hk); lia|].
      rewrite delete_id by done. lia.
    + rewrite int64_add. f_equal. destruct (lc_index c !! k) as [e|] eqn:Hk.
      * rewrite map_size_insert_Some by eauto. lia.
      * rewrite map_size_insert_None by done. lia.
  - destruct (_ <? _), (lc_index c !! k) eqn:E; simpl; rewrite ?E; done.
  - destruct (_ <? _), (lc_index c !! k) eqn:E; simpl; rewrite ?E; simpl; rewrite ?int64_add; f_equal; lia.
  - destruct (_ <? _), (lc_index c !! k) eqn:E; simpl; rewrite ?E; simpl; try done;
      rewrite Z.add_0_r; symmetry; apply int64_id; destruct HI as [_ ->]; apply int64_range.
Qed.

Lemma Delete_inv f k c : LInv c -> LInv (Delete f k c).1.
Proof.
  intros HI. unfold Delete. destruct (lc_index c !! k) eqn:Hk; [|done]. by apply deleteEntry_inv.
Qed.

Lemma Clear_inv f c : LInv c -> LInv (Clear f c).1.
Proof.
  intros HI. unfold Clear. destruct (os_RemoveAll _ _ _) as [d1 [[]|]]; [|by apply (LInv_frame c)].
  destruct (os_MkdirAll _ _ _) as [d2 [[]|]]; [|by apply (LInv_frame c)].
  constructor; simpl; by rewrite ?map_sum_empty.
Qed.

Lemma SaveIndex_inv f c : LInv c -> LInv (SaveIndex f c).1.
Proof.
  intros HI. unfold SaveIndex. destruct (gob_encode _); [|done].
  destruct (os_WriteFile _ _ _) as [d2 [[]|]]; by apply (LInv_frame c).
Qed.

Lemma pending_range seed c : pending (range seed (lc_index c)) c.
Proof. split; [apply range_NoDup|]. intros k e. by rewrite range_elem. Qed.
Lemma pending_tail x ls c : pending (x :: ls) c -> pending ls c.
Proof.
  intros [Hnd Hin]. csimpl in Hnd. apply NoDup_cons in Hnd as [_ Hnd]. split; [done|].
  intros k e H. apply Hin. by right.
Qed.
Lemma pending_delete k e ls c c' : pending ((k, e) :: ls) c -> lc_index c' = delete k (lc_index c) ->
  pending ls c'.
Proof.
  intros [Hnd Hin] E. csimpl in Hnd. apply NoDup_cons in Hnd as [Hk Hnd]. split; [done|].
  intros k' e' H. rewrite E, lookup_delete_ne.
  - apply Hin. by right.
  - intros ->. apply Hk. apply list_elem_of_fmap. by exists (k', e').
Qed.

Lemma cleanup_loop f now ls c : LInv c -> pending ls c ->
  LInv (fold_left (fun c '(key, entry) =>
    if le_ExpiresAt entry <? now then deleteEntry f key entry c else c) ls c).
Proof.
  revert c. induction ls as [|[k e] ls IH]; intros c HI Hp; simpl; [done|].
  destruct (_ <? _).
  - apply IH; [|by eapply pending_delete]. apply deleteEntry_inv; [done|]. apply Hp. by left.
  - apply IH; [done|]. by eapply pending_tail.
Qed.

(** ** Eviction *)
Lemma findOldest_step (k : string) t (l : list (string * LocalCacheEntry)) : k <> "" ->
  Forall (fun x => x.1 <> "") l ->
  exists k' t', fold_left (fun '(oldestKey, oldestTime) '(key, entry) =>
      if bool_decide (oldestKey = "") || (le_AccessedAt entry <? oldestTime)
      then (key, le_AccessedAt entry) else (oldestKey, oldestTime)) l (k, t) = (k', t') /\
    t' <= t /\ Forall (fun x => t' <= le_AccessedAt x.2) l /\
    ((k', t') = (k, t) \/ exists e, (k', e) ∈ l /\ t' = le_AccessedAt e).
Proof.
  revert k t. induction l as [|[k1 e1] l IH]; intros k t Hk Hl; simpl.
  - exists k, t. split_and!; [done | lia | constructor | by left].
  - apply Forall_cons in Hl as [Hk1 Hl]. rewrite (bool_decide_eq_false_2 (k = "")) by done. simpl.
    destruct (Z.ltb_spec (le_AccessedAt e1) t) as [Hlt|Hge].
    + destruct (IH k1 (le_AccessedAt e1) Hk1 Hl) as (k' & t' & -> & Hle & Hall & Hor).
      exists k', t'. split_and!; [done | lia | by constructor |]. right.
      destruct Hor as [[= -> ->]|(e & Hin & ->)]; [exists e1; split; [by left|done] | exists e; split; [by right|done]].
    + destruct (IH k t Hk Hl) as (k' & t' & -> & Hle & Hall & Hor).
      exists k', t'. split_and!; [done | lia | constructor; [simpl; lia|done] |].
      destruct Hor as [?|(e & Hin & ->)]; [by left | right; exists e; split; [by right|done]].
Qed.

Lemma findOldest_spec (l : list (string * LocalCacheEntry)) : Forall (fun x => x.1 <> "") l -> l <> [] ->
  exists k e, (findOldest l).1 = k /\ (k, e) ∈ l /\ Forall (fun x => le_AccessedAt e <= le_AccessedAt x.2) l.
Proof.
  intros Hl Hne. destruct l as [|[k1 e1] l]; [done|]. apply Forall_cons in Hl as [Hk1 Hl].
  unfold findOldest. cbn [fold_left].
  rewrite (bool_decide_eq_true_2 ("" = "")) by done. cbn [orb].
  destruct (findOldest_step k1 (le_AccessedAt e1) l Hk1 Hl) as (k' & t' & -> & Hle & Hall & Hor).
  simpl. exists k'. destruct Hor as [[= -> ->]|(e & Hin & ->)].
  - exists e1. split_and!; [done | by left | by constructor].
  - exists e. split_and!; [done | by right | by constructor].
Qed.

Lemma lru_removed_refl target c : LInv c -> lc_usedSize c <= target \/ lc_index c = ∅ ->
  lru_removed target c c.
Proof. intros HI Ht. constructor; [done | apply same_setup_refl | done | done | done |]. intros. congruence. Qed.

(** Removing the oldest entry first keeps the eviction order. *)
Lemma lru_removed_step target k e c c1 c' : target < lc_usedSize c -> lc_index c !! k = Some e ->
  (forall k' e', lc_index c !! k' = Some e' -> le_AccessedAt e <= le_AccessedAt e') ->
  lc_index c1 = delete k (lc_index c) -> same_setup c c1 -> lru_removed target c1 c' ->
  lru_removed target c c'.
Proof.
  intros Hover Hk Hold E1 Hs1 [HI Hs Hsub _ Ht Ho]. constructor; [done | by eapply same_setup_trans | | lia | done |].
  - etransitivity; [exact Hsub|]. rewrite E1. apply delete_subseteq.
  - intros k1 e1 k2 e2 H1 H1' H2. destruct (decide (k1 = k)) as [->|Hne].
    + simplify_eq. apply (Hold k2). apply (lookup_weaken _ (lc_index c)) in H2; [done|].
      etransitivity; [exact Hsub|]. rewrite E1. apply delete_subseteq.
    + eapply Ho; [|exact H1'|exact H2]. rewrite E1. by rewrite lookup_delete_ne.
Qed.

Lemma evict_loop_lru f seed target fuel c : LInv c -> lc_index c !! "" = None ->
  (size (lc_index c) <= fuel)%nat ->
  exists c', evictLoop f seed target fuel c = Some c' /\ lru_removed target c c'.
Proof.
  revert c. induction fuel as [|fuel IH]; intros c HI Hk0 Hsz; simpl.
  - assert (lc_index c = ∅) as Hemp by (apply map_size_empty_inv; lia). rewrite Hemp.
    rewrite bool_decide_eq_false_2 by (intros H; by apply H). rewrite andb_false_r.
    exists c. split; [done|]. apply lru_removed_refl; [done|by right].
  - destruct (Z.ltb_spec target (lc_usedSize c)) as [Hlt|Hge]; simpl.
    2: { exists c. split; [done|]. apply lru_removed_refl; [done|by left]. }
    destruct (decide (lc_index c = ∅)) as [Hemp|Hne].
    { rewrite bool_decide_eq_false_2 by (intros H; by apply H).
      exists c. split; [done|]. apply lru_removed_refl; [done|by right]. }
    rewrite bool_decide_eq_true_2 by done.
    destruct (findOldest_spec (range (seed + fuel) (lc_index c))) as (k & e & -> & Hin & Hmin).
    { apply Forall_forall. intros [k' e'] H%range_elem. intros Hk'. simpl in Hk'. congruence. }
    { intros H. apply Hne. apply map_size_empty_inv.
      by rewrite <- (range_length (seed + fuel) (lc_index c)), H. }
    apply range_elem in Hin. rewrite bool_decide_eq_true_2 by congruence. rewrite Hin.
    match goal with |- context [evictLoop _ _ _ _ ?x] => set (c1 := x) end.
    assert (HI1 : LInv c1).
    { apply (LInv_frame (deleteEntry f k e c)); [by apply deleteEntry_inv | done..]. }
    destruct (IH c1 HI1) as (c' & -> & Hr).
    { simpl. rewrite lookup_delete_ne by congruence. done. }
    { simpl. rewrite map_size_delete_Some by eauto. lia. }
    exists c'. split; [done|]. eapply (lru_removed_step target k e c c1); [done | done | | done | by constructor | done].
    intros k' e' H. apply (range_elem (seed + fuel)) in H.
    rewrite Forall_forall in Hmin. by apply (Hmin (k', e')).
Qed.

Lemma evictLoop_inv f seed target fuel c c' : LInv c -> evictLoop f seed target fuel c = Some c' -> LInv c'.
Proof.
  revert c. induction fuel as [|fuel IH]; intros c HI; simpl; (destruct (_ && _); [|by intros [= <-]]); [done|].
  apply IH. destruct (bool_decide _); [|done]. destruct (lc_index c !! _) eqn:E; [|done].
  apply (LInv_frame (deleteEntry f (findOldest (range (seed + fuel) (lc_index c))).1 l c));
    [by apply deleteEntry_inv | done..].
Qed.

Lemma lstep_inv c c' : LInv c -> lstep c c' -> LInv c'.
Proof.
  intros HI Hs. destruct Hs; [by apply Get_inv | by apply Set_inv | by apply Delete_inv | by apply Clear_inv
    | apply cleanup_loop; [done | apply pending_range] | | by apply SaveIndex_inv].
  eapply evictLoop_inv; [|eassumption]. by apply (LInv_frame c).
Qed.

(** ** Loading the saved index *)
Lemma loadIndex_loop (now : string -> Z) (ls : list (string * LocalCacheEntry)) c : pending ls c ->
  lc_usedSize c = int64 (map_sum le_Size (lc_index c) - list_sum (le_Size <$> ls.*2)) ->
  lc_entries c = int64 (Z.of_nat (size (lc_index c)) - Z.of_nat (length ls)) ->
  let c' := fold_left (fun c '(key, entry) =>
    if le_ExpiresAt entry <? now key then set_index (delete key (lc_index c)) c
    else set_usedSize (int64 (lc_usedSize c + le_Size entry)) (set_entries (int64 (lc_entries c + 1)) c)) ls c in
  LInv c' /\ same_setup c c' /\
  forall k e, lc_index c' !! k = Some e <-> lc_index c !! k = Some e /\ ((k, e) ∈ ls -> live now (k, e)).
Proof.
  revert c. induction ls as [|[k e] ls IH]; intros c Hp Hu He; cbn [fold_left].
  - csimpl in *. split_and!; [constructor; [rewrite Hu|rewrite He]; f_equal; simpl; lia | apply same_setup_refl |].
    intros k e. split; [|by intros [? _]]. intros H. split; [done|]. intros Hin. by apply elem_of_nil in Hin.
  - assert (Hk : lc_index c !! k = Some e) by (apply Hp; by left).
    set (c1 := if _ <? _ then _ else _).
    assert (Hc1 : pending ls c1 /\ same_setup c c1 /\
      lc_usedSize c1 = int64 (map_sum le_Size (lc_index c1) - list_sum (le_Size <$> ls.*2)) /\
      lc_entries c1 = int64 (Z.of_nat (size (lc_index c1)) - Z.of_nat (length ls)) /\
      forall k' e', lc_index c1 !! k' = Some e' <->
        lc_index c !! k' = Some e' /\ ((k', e') = (k, e) -> live now (k, e))).
    { unfold c1. csimpl in Hu. csimpl in He. unfold live. simpl.
      destruct (Z.ltb_spec (le_ExpiresAt e) (now k)) as [Hx|Hx]; simpl.
      - split_and!; [by eapply pending_delete | by constructor | | |].
        + rewrite Hu, (map_sum_delete _ _ _ _ Hk). f_equal. lia.
        + rewrite He, map_size_delete_Some by eauto. pose proof (map_size_pos _ _ _ Hk). f_equal. lia.
        + intros k' e'. rewrite lookup_delete_Some. split.
          * intros [Hne ?]. split; [done|]. congruence.
          * intros [? Hl]. split; [|done]. intros <-. simplify_eq. specialize (Hl eq_refl). lia.
      - split_and!; [by eapply pending_tail | by constructor | | |].
        + rewrite Hu, int64_add. f_equal. lia.
        + rewrite He, int64_add. f_equal. lia.
        + intros k' e'. split; [intros ?; split; [done | intros _; lia] | by intros [? _]]. }
    destruct Hc1 as (Hp1 & Hs1 & Hu1 & He1 & Hi1).
    destruct (IH c1 Hp1 Hu1 He1) as (HI & Hs & Hi).
    split_and!; [exact HI | by eapply same_setup_trans |].
    intros k' e'. rewrite (Hi k' e'), Hi1, elem_of_cons. naive_solver.
Qed.

Lemma loadIndex_spec now seed idx c : lc_usedSize c = 0 -> lc_entries c = 0 ->
  LInv (loadIndex now seed idx c) /\ same_setup c (loadIndex now seed idx c) /\
  lc_index (loadIndex now seed idx c) = filter (live now) idx.
Proof.
  intros Hu He. destruct (loadIndex_loop now (range seed idx) (set_index idx c)) as (HI & Hs & Hi).
  - apply (pending_range seed (set_index idx c)).
  - simpl. rewrite Hu, (map_sum_list _ _ _ (range_perm _ seed idx)), Z.sub_diag. done.
  - simpl. rewrite He, range_length, Z.sub_diag. done.
  - split_and!; [exact HI | by destruct Hs; constructor |].
    apply map_eq. intros k. apply option_eq. intros e. unfold loadIndex.
    rewrite Hi, map_lookup_filter_Some, range_elem. simpl. naive_solver.
Qed.

Lemma loadIndex_disk (now : string -> Z) (ls : list (string * LocalCacheEntry)) c :
  lc_disk (fold_left (fun c '(key, entry) =>
    if le_ExpiresAt entry <? now key then set_index (delete key (lc_index c)) c
    else set_usedSize (int64 (lc_usedSize c + le_Size entry)) (set_entries (int64 (lc_entries c + 1)) c)) ls c)
  = lc_disk c.
Proof.
  revert c. induction ls as [|[k e] ls IH]; intros c; simpl; [done|]. rewrite IH. by destruct (_ <? _).
Qed.

Lemma NewLocalCache_inv f now seed disk cn tn size ttl cfg :
  LInv (NewLocalCache f now seed disk cn tn size ttl cfg).
Proof.
  unfold NewLocalCache, initialize.
  assert (H0 : forall c, lc_usedSize c = 0 -> lc_entries c = 0 -> lc_index c = ∅ -> LInv c).
  { intros c0 Hu He Hi. constructor; by rewrite ?Hu, ?He, Hi, ?map_sum_empty. }
  destruct (os_MkdirAll _ _ _) as [d1 [[]|]]; [|by apply H0].
  destruct (os_ReadFile _ _ _); [|by apply H0]. destruct (gob_decode _); [|by apply H0].
  by apply loadIndex_spec.
Qed.

(** ** File paths *)
Lemma no_slash_substring n k : no_slash k = true -> no_slash (String.substring 0 n k) = true.
Proof.
  revert n. induction k as [|a k IH]; intros [|n]; simpl; try done.
  intros [Ha Hk]%andb_prop. by rewrite Ha, IH.
Qed.
Lemma substring_length n k : (n <= String.length k)%nat -> String.length (String.substring 0 n k) = n.
Proof.
  revert n. induction k as [|a k IH]; intros [|n]; simpl; try lia. intros Hn. rewrite IH; lia.
Qed.

Lemma plain_subdir k : plain_key k -> plain (subdirOf k).
Proof.
  intros [(Hs & _) Hup]. unfold subdirOf. case_bool_decide as Hlen; [|done].
  pose proof (substring_length 2 k Hlen) as Hl. split; [by apply no_slash_substring|].
  split_and!; [intros E; by rewrite E in Hl | intros E; by rewrite E in Hl | done].
Qed.

Lemma getFilePath_plain c k : plain_key k ->
  getFilePath c k = ((lc_basePath c).1, k :: subdirOf k :: (lc_basePath c).2).
Proof.
  intros Hk. unfold getFilePath. fold (subdirOf k). pose proof (plain_subdir k Hk) as Hsub.
  destruct Hk as [Hk _]. unfold join. cbn [fold_left].
  rewrite !split_plain by done. cbn [fold_left]. by rewrite !push_plain by done.
Qed.

Lemma getFilePath_inj c k1 k2 : plain_key k1 -> plain_key k2 ->
  getFilePath c k1 = getFilePath c k2 -> k1 = k2.
Proof. intros H1 H2. rewrite !getFilePath_plain by done. congruence. Qed.

Lemma getFilePath_same c c' k : lc_basePath c' = lc_basePath c -> getFilePath c' k = getFilePath c k.
Proof. intros E. unfold getFilePath. by rewrite E. Qed.

(** ** Set *)
Lemma MkdirAll_file (f : option fault) p d d' q : os_MkdirAll f p d = (d', Ok tt) -> file_at d' q = file_at d q.
Proof.
  intros Hm. unfold file_at. destruct (d !! q) as [n|] eqn:Hq; [by rewrite (MkdirAll_lookup _ _ _ _ _ _ Hm Hq)|].
  unfold os_MkdirAll, mkdirs in Hm. destruct (existsb _ _); [done|]. destruct f; [done|]. injection Hm as <-.
  induction (up p.2) as [|s l IH]; simpl; [by rewrite Hq|].
  destruct (decide ((p.1, s) = q)) as [<-|Hne]; [by rewrite lookup_insert_eq | by rewrite lookup_insert_ne].
Qed.

Lemma WriteFile_ok (f : option fault) p data d d' : os_WriteFile f p data d = (d', Ok tt) -> d' = <[p := File data]> d.
Proof. unfold os_WriteFile. destruct (_ || _); [done|]. destruct f; [done|]. congruence. Qed.

Lemma Set_ok f now k v ttl c c' : Set_ f now k v ttl c = (c', Ok tt) ->
  same_setup c c' /\ lc_index c' = <[k := newEntry now k v ttl c]> (lc_index c) /\
  forall q, file_at (lc_disk c') q =
    if decide (q = getFilePath c k) then Some (encodeValue c v).1 else file_at (lc_disk c) q.
Proof.
  unfold Set_, newEntry. destruct (encodeValue c v) as [data z].
  destruct (os_MkdirAll _ _ _) as [d1 [[]|]] eqn:Hm; [|done].
  destruct (os_WriteFile _ _ _) as [d2 [[]|]] eqn:Hw; [|done].
  apply WriteFile_ok in Hw as ->. cbn zeta. intros [= <-].
  match goal with |- same_setup _ ?x /\ _ => set (cf := x) end.
  assert (Hf : same_setup c cf /\ lc_disk cf = <[getFilePath c k := File data]> d1 /\
    lc_index cf = <[k := mkLocalCacheEntry k [] now now (now + (if ttl =? 0 then lc_defaultTTL c else ttl))
                          (Z.of_nat (length data)) z]> (lc_index c)).
  { unfold cf. simpl. destruct (lc_index c !! k), (_ <? _); done. }
  destruct Hf as (Hs & Hd & Hi). split_and!; [done | done |].
  intros q. rewrite Hd. unfold file_at at 1. case_decide as Hq.
  - subst q. by rewrite lookup_insert_eq.
  - rewrite lookup_insert_ne by done. apply (MkdirAll_file _ _ _ _ _ Hm).
Qed.

Lemma compress_decompress c d d' : compress c d = Ok d' -> decompress c d' = Ok d.
Proof.
  unfold compress, decompress. destruct (bool_decide _); [apply zstd_roundtrip|].
  destruct (bool_decide _); apply gzip_roundtrip.
Qed.

Lemma encodeValue_decode c v :
  (if (encodeValue c v).2 then decompress c (encodeValue c v).1 else Ok (encodeValue c v).1) = Ok v.
Proof.
  unfold encodeValue. destruct (_ && _); simpl; [|done].
  destruct (compress c v) as [d'|] eqn:E; simpl; [by apply compress_decompress | done].
Qed.

Lemma os_ReadFile_at (f : option fault) p d : os_ReadFile f p d = readFile_at f (file_at d p).
Proof. unfold os_ReadFile, file_at. destruct f; [done|]. by destruct (d !! p) as [[]|]. Qed.

Lemma Get_congr f now1 now2 k c c' : same_setup c c' -> lc_index c' !! k = lc_index c !! k ->
  file_at (lc_disk c') (getFilePath c k) = file_at (lc_disk c) (getFilePath c k) ->
  (Get f now1 now2 k c').2 = (Get f now1 now2 k c).2.
Proof.
  intros [Htn Hms Hbp Hal] Hi Hf. unfold Get. rewrite Hi. destruct (lc_index c !! k) as [e|]; [|done].
  unfold getEntry. destruct (_ <? _); [done|].
  rewrite (getFilePath_same c c' k Hbp), !os_ReadFile_at, Hf. destruct (readFile_at _ _); [|done].
  unfold decompress. rewrite Hal. destruct (if le_Compressed e then _ else _); simpl; by rewrite ?Htn.
Qed.

Lemma Get_after_Set f now k v ttl c c' f' now1 now2 : Set_ f now k v ttl c = (c', Ok tt) ->
  (Get f' now1 now2 k c').2 =
    Ok (if now + (if ttl =? 0 then lc_defaultTTL c else ttl) <? now1 then None
        else match f_read f' with
             | Some _ => None
             | None => Some (mkCacheEntry k v (Z.of_nat (length (encodeValue c v).1)) now now2 0 0 (lc_tierName c) ∅)
             end).
Proof.
  intros Hset. destruct (Set_ok _ _ _ _ _ _ _ Hset) as (Hs & Hi & Hf).
  unfold Get. rewrite Hi, lookup_insert_eq. unfold getEntry, newEntry. simpl.
  destruct (_ <? now1); [done|].
  rewrite os_ReadFile_at, Hf, (getFilePath_same c c' k (ss_basePath _ _ Hs)), decide_True by done. simpl.
  destruct (f_read f'); [done|]. simpl.
  assert (Hd : forall d, decompress c' d = decompress c d)
    by (intros d; unfold decompress; by rewrite (ss_algo _ _ Hs)).
  rewrite Hd, encodeValue_decode. by rewrite <- (ss_tierName _ _ Hs).
Qed.

(** ** Keys that leave the cache directory *)
Lemma split_ups n s : split (ups n s) = replicate n ".." ++ split s.
Proof. induction n as [|n IH]; simpl; [done|]. by rewrite split_cons, IH. Qed.

Lemma split_slashed l : Forall plain l -> l <> [] -> split (slashed l) = l.
Proof.
  induction l as [|x l IH]; intros Hl Hne; [done|]. apply Forall_cons in Hl as [Hx Hl].
  destruct l as [|y l]; [by apply split_plain|].
  change (slashed (x :: y :: l)) with (x +:+ String.String slash (slashed (y :: l))).
  rewrite split_cons by apply Hx. by rewrite IH.
Qed.

Lemma push_ups n s : fold_left push (replicate n "..") (true, s) = (true, drop n s).
Proof.
  revert s. induction n as [|n IH]; intros s; simpl; [done|].
  unfold push at 2. simpl. rewrite IH. destruct s; simpl; [by rewrite drop_nil | done].
Qed.

Lemma push_plains (l : list string) p : Forall plain l -> fold_left push l p = (p.1, reverse l ++ p.2).
Proof.
  revert p. induction l as [|x l IH]; intros p Hl; simpl; [by destruct p|].
  apply Forall_cons in Hl as [Hx Hl]. rewrite push_plain, IH by done. simpl.
  by rewrite reverse_cons, <- app_assoc.
Qed.

Lemma getFilePath_dotdot c s :
  getFilePath c (".." +:+ s) = fold_left push (".." :: split (".." +:+ s)) (lc_basePath c).
Proof.
  assert (Hsub : String.substring 0 2 (".." +:+ s) = "..").
  { rewrite !string_app_cons. simpl. by destruct s. }
  unfold getFilePath. rewrite bool_decide_eq_true_2; [rewrite Hsub; reflexivity|].
  rewrite !string_app_cons. simpl. lia.
Qed.

Lemma escaping_path c target : (lc_basePath c).1 = true -> Forall plain target -> target <> [] ->
  getFilePath c (ups (S (length (lc_basePath c).2)) (slashed target)) = (true, reverse target).
Proof.
  intros Hr Ht Hne. cbn [ups]. rewrite getFilePath_dotdot.
  rewrite split_cons, split_ups, split_slashed by done. cbn [fold_left].
  destruct (lc_basePath c) as [r base]. simpl in Hr. subst r. unfold push at 3. simpl.
  rewrite fold_left_app. unfold push at 3. simpl. rewrite push_ups, push_plains by done. simpl.
  rewrite drop_ge; [by rewrite app_nil_r|]. rewrite !length_tl. lia.
Qed.
End facts.

(** * Properties *)
Section properties.
Context `{QO : QuantityOps} `{GR : GoRuntime} `{CO : Codecs}.
Implicit Types (c : LocalCache) (k key : string) (f : faults).

(** C16. From [NewLocalCache] on any disk, saved index or not, and through
    any completed calls and background runs, with any file-system faults,
    the used size and the entry count are the sum of the sizes and the
    number of the entries in the index (in int64). *)
Theorem local_reachable_counters f now seed disk cn tn size ttl cfg c :
  rtc lstep (NewLocalCache f now seed disk cn tn size ttl cfg) c -> LInv c.
Proof.
  intros Hr. eapply (rtc_invariant lstep LInv); [exact lstep_inv | apply NewLocalCache_inv | exact Hr].
Qed.

(** C17. After a successful [Set], [Get] of the key returns the value, through
    compression or not, until the expiry and a miss after it; and [Get] of
    any other key answers as before, when both keys are plain file names
    that do not begin with two dots. *)
Theorem local_Set_Get f now k v ttl c c' : Set_ f now k v ttl c = (c', Ok tt) ->
  (forall f' now1 now2, f_read f' = None ->
    (Get f' now1 now2 k c').2 =
      Ok (if now + (if ttl =? 0 then lc_defaultTTL c else ttl) <? now1 then None
          else Some (mkCacheEntry k v (Z.of_nat (length (encodeValue c v).1)) now now2 0 0 (lc_tierName c) ∅))) /\
  (forall f' now1 now2 k', plain_key k -> plain_key k' -> k' <> k ->
    (Get f' now1 now2 k' c').2 = (Get f' now1 now2 k' c).2).
Proof.
  intros Hset. destruct (Set_ok _ _ _ _ _ _ _ Hset) as (Hs & Hi & Hf). split.
  - intros f' now1 now2 Hr. by rewrite (Get_after_Set _ _ _ _ _ _ _ f' now1 now2 Hset), Hr.
  - intros f' now1 now2 k' Hk Hk' Hne. apply Get_congr; [done | by rewrite Hi, lookup_insert_ne |].
    rewrite Hf, decide_False; [done|]. intros E. by apply getFilePath_inj in E.
Qed.

(** C18. Without an empty key in the index, one loop iteration per entry is
    enough for [evict]: it returns, has removed entries only when usage was
    above 80% of the maximum, least recently accessed first, and leaves
    usage within the target or the index empty. *)
Theorem local_evict_lru f seed fuel c : LInv c -> lc_index c !! "" = None ->
  (size (lc_index c) <= fuel)%nat ->
  exists c', evict f seed fuel c = Some c' /\ lru_removed (evictTarget c) c c'.
Proof. intros HI Hk Hf. by apply evict_loop_lru. Qed.

(** [evict] takes the empty key for "no entry found yet": when the only
    entry has that key and is above the target, the loop deletes nothing and
    no number of iterations finishes it, with the mutex held. *)
Theorem local_evict_empty_key_diverges f seed fuel c e : lc_index c = {[ "" := e ]} ->
  evictTarget c < lc_usedSize c -> evict f seed fuel c = None.
Proof.
  intros Hi Hover. unfold evict.
  induction fuel as [|fuel IH]; simpl; rewrite (proj2 (Z.ltb_lt _ _) Hover), bool_decide_eq_true_2;
    try done; try (rewrite Hi; by apply map_non_empty_singleton).
  assert (Hr : range (seed + fuel) (lc_index c) = [("", e)]).
  { apply Permutation_singleton_r. rewrite range_perm, Hi, map_to_list_singleton. done. }
  rewrite Hr. exact IH.
Qed.

(** [getFilePath] does not confine keys: below an absolute base path,
    every file of the machine is the file of some key. *)
Theorem local_getFilePath_escapes c target : (lc_basePath c).1 = true -> Forall plain target -> target <> [] ->
  exists key, getFilePath c key = (true, reverse target).
Proof. intros Hr Ht Hne. eexists. by apply escaping_path. Qed.

(** [Get] looks an entry up and expires it under separate locks: when a
    [Set] of the key succeeds in between, the expired branch deletes the new
    entry and its file, and the value just stored is lost. *)
Theorem local_stale_expiry_drops_Set f f' now k v ttl now1 now2 old c c' :
  lc_index c !! k = Some old -> le_ExpiresAt old < now1 -> f_remove f' = None ->
  Set_ f now k v ttl c = (c', Ok tt) ->
  let c2 := (getEntry f' now1 now2 k old c').1 in
  lc_index c2 !! k = None /\ file_at (lc_disk c2) (getFilePath c2 k) = None /\
  forall f2 t1 t2, (Get f2 t1 t2 k c2).2 = Ok None.
Proof.
  intros Hk Hexp Hrm Hset c2. destruct (Set_ok _ _ _ _ _ _ _ Hset) as (Hs & _ & Hf).
  assert (E : c2 = dropStale f' k old c').
  { unfold c2, getEntry. by rewrite (proj2 (Z.ltb_lt _ _) Hexp). }
  assert (Hn : lc_index c2 !! k = None) by (rewrite E; simpl; apply lookup_delete_eq).
  split_and!; [done | | intros; unfold Get; by rewrite Hn].
  rewrite E. cbn [dropStale deleteEntry lc_disk set_disk set_usedSize set_entries set_index set_misses].
  change (getFilePath (dropStale f' k old c') k) with (getFilePath c' k).
  specialize (Hf (getFilePath c k)). rewrite decide_True in Hf by done.
  rewrite (getFilePath_same c c' k (ss_basePath _ _ Hs)). unfold file_at in Hf |- *.
  unfold os_Remove. rewrite Hrm. destruct (lc_disk c' !! getFilePath c k) as [[]|] eqn:Ed; try done.
  by rewrite lookup_delete_eq.
Qed.

(** C19. A saved index survives a restart: after a successful [SaveIndex],
    [NewLocalCache] with the same names and configuration on the resulting
    disk has exactly the entries that have not expired, counts them, and
    every other file of the disk is unchanged. *)
Theorem local_save_load c c1 cn tn size ttl cfg now seed : lc_basePath c = cacheDir cn tn cfg ->
  Forall (fun s => is_file (lc_disk c) ((lc_basePath c).1, s) = false) (up (lc_basePath c).2) ->
  SaveIndex no_faults c = (c1, Ok tt) ->
  let c2 := NewLocalCache no_faults now seed (lc_disk c1) cn tn size ttl cfg in
  lc_index c2 = filter (live now) (lc_index c) /\ LInv c2 /\
  forall q, q <> indexPath c -> file_at (lc_disk c2) q = file_at (lc_disk c) q.
Proof.
  intros Hbase Hdirs Hsave c2. unfold SaveIndex in Hsave.
  destruct (gob_encode (lc_index c)) as [data|] eqn:Hg; [|done].
  destruct (os_WriteFile _ _ _ _) as [d [[]|]] eqn:Hw; [|done]. injection Hsave as <-.
  apply WriteFile_ok in Hw as ->.
  assert (Hidx : indexPath c = ((lc_basePath c).1, "index.gob" :: (lc_basePath c).2)) by done.
  set (d1 := <[indexPath c := File data]> (lc_disk c)) in *.
  destruct (os_MkdirAll None (lc_basePath c) d1) as [d2 r] eqn:Hm.
  assert (r = Ok tt) as ->.
  { unfold os_MkdirAll in Hm. destruct (existsb _ _) eqn:E; [|congruence]. exfalso.
    apply existsb_exists in E as (s & Hs & Hfile). apply list_elem_of_In in Hs.
    rewrite Forall_forall in Hdirs. specialize (Hdirs s Hs).
    apply up_elem in Hs as [_ Hs]. apply suffix_length in Hs.
    unfold is_file, d1 in *. simpl in *. rewrite lookup_insert_ne, Hdirs in Hfile; [done|].
    rewrite Hidx. intros [= <-]. simpl in Hs. lia. }
  assert (Hread : os_ReadFile None (indexPath c) d2 = Ok data).
  { unfold os_ReadFile. rewrite (MkdirAll_lookup _ _ _ _ _ (File data) Hm); [done|]. apply lookup_insert_eq. }
  assert (Hc2 : exists c0, lc_usedSize c0 = 0 /\ lc_entries c0 = 0 /\ lc_disk c0 = d2 /\
                  c2 = loadIndex now seed (lc_index c) c0).
  { unfold c2, NewLocalCache, initialize. cbn [lc_basePath lc_disk f_mkdir f_read no_faults set_disk].
    rewrite <- Hbase, Hm. unfold indexPath at 1. cbn [lc_basePath lc_disk set_disk]. change (join (lc_basePath c) ["index.gob"]) with (indexPath c).
    rewrite Hread, (gob_roundtrip _ _ Hg).
    eexists. split_and!; [..|reflexivity]; reflexivity. }
  destruct Hc2 as (c0 & Hu & He & Hd & Hc2).
  destruct (loadIndex_spec now seed (lc_index c) c0 Hu He) as (HI & _ & Hi). rewrite <- Hc2 in *.
  split_and!; [done | done |]. intros q Hq.
  assert (Hdisk : lc_disk c2 = d2).
  { rewrite Hc2, <- Hd. unfold loadIndex. by rewrite loadIndex_disk. }
  rewrite Hdisk, (MkdirAll_file _ _ _ _ _ Hm). unfold file_at, d1. by rewrite lookup_insert_ne.
Qed.
End properties.

(** * Witnesses *)
Section witnesses.
#[local] Existing Instance ZQuantity.
#[local] Existing Instance stdRuntime.
#[local] Existing Instance storeCodecs.

Definition lsize : @Quantity ZQuantity := 100.
Definition lnew : LocalCache := NewLocalCache no_faults (fun _ => 0) 0 ∅ "demo" "disk" lsize Minute None.
Definition lset (k : string) (v : bytes) (c : LocalCache) : LocalCache := (Set_ no_faults 5 k v 0 c).1.
Definition lone : LocalCache := lset "alpha" (replicate 90 1) lnew.
Definition lempty : LocalCache := lset "" (replicate 90 1) lnew.

Lemma lnew_reaches k v : rtc lstep lnew (lset k v lnew).
Proof. apply rtc_once, lstep_Set. Qed.
Lemma lone_inv : LInv lone.
Proof. eapply (rtc_invariant lstep LInv); [exact lstep_inv | apply NewLocalCache_inv | apply lnew_reaches]. Qed.

Lemma local_reachable_counters_witness : rtc lstep lnew lone /\ LInv lone /\ lc_usedSize lone = 90.
Proof.
  split; [apply lnew_reaches|]. split; [|vm_compute; reflexivity].
  apply (local_reachable_counters no_faults (fun _ => 0) 0 ∅ "demo" "disk" lsize Minute None lone), lnew_reaches.
Defined.

Lemma local_Set_Get_witness :
  (Set_ no_faults 5 "alpha" [7; 8] 10 lnew).2 = Ok tt /\
  (Get no_faults 9 9 "alpha" (Set_ no_faults 5 "alpha" [7; 8] 10 lnew).1).2 =
    Ok (Some (mkCacheEntry "alpha" [7; 8] 2 5 9 0 0 "disk" ∅)).
Proof.
  split; [vm_compute; reflexivity|].
  refine (proj1 (local_Set_Get no_faults 5 "alpha" [7; 8] 10 lnew (Set_ no_faults 5 "alpha" [7; 8] 10 lnew).1 _)
            no_faults 9 9 eq_refl).
  vm_compute. reflexivity.
Defined.

Lemma local_evict_lru_witness :
  exists c', evict no_faults 0 1 lone = Some c' /\ lru_removed 80 lone c' /\ lc_index c' = ∅.
Proof.
  destruct (local_evict_lru no_faults 0 1 lone lone_inv) as (c' & Hr & H);
    [vm_compute; reflexivity | vm_compute; lia |].
  exists c'. split; [exact Hr|]. split; [exact H|].
  assert (E : evict no_faults 0 1 lone = Some (deleteEntry no_faults "alpha"
    (newEntry 5 "alpha" (replicate 90 1) 0 lnew) (set_evictions 1 lone))) by (vm_compute; reflexivity).
  rewrite E in Hr. injection Hr as <-. vm_compute. reflexivity.
Defined.

Lemma local_evict_empty_key_diverges_witness :
  rtc lstep lnew lempty /\ forall fuel, evict no_faults 0 fuel lempty = None.
Proof.
  split; [apply lnew_reaches|]. intros fuel.
  apply (local_evict_empty_key_diverges no_faults 0 fuel lempty (newEntry 5 "" (replicate 90 1) 0 lnew));
    vm_compute; reflexivity.
Defined.

Lemma local_getFilePath_escapes_witness :
  exists key, getFilePath lnew key = (true, ["passwd"; "etc"]).
Proof.
  apply (local_getFilePath_escapes lnew ["etc"; "passwd"]); [vm_compute; reflexivity | | discriminate].
  repeat constructor; discriminate.
Defined.

Lemma local_stale_expiry_drops_Set_witness :
  let c' := (Set_ no_faults 100 "alpha" [7] 10 lone).1 in
  let c2 := (getEntry no_faults (5 + Minute + 1) 0 "alpha" (newEntry 5 "alpha" (replicate 90 1) 0 lnew) c').1 in
  (Get no_faults 101 101 "alpha" c').2 = Ok (Some (mkCacheEntry "alpha" [7] 1 100 101 0 0 "disk" ∅)) /\
  (Get no_faults 101 101 "alpha" c2).2 = Ok None.
Proof.
  split; [vm_compute; reflexivity|].
  refine (proj2 (proj2 (local_stale_expiry_drops_Set no_faults no_faults 100 "alpha" [7] 10 (5 + Minute + 1) 0
    (newEntry 5 "alpha" (replicate 90 1) 0 lnew) lone (Set_ no_faults 100 "alpha" [7] 10 lone).1 _ _ _ _)) _ _ _);
    vm_compute; reflexivity.
Defined.

Lemma local_save_load_witness :
  let c1 := (SaveIndex no_faults lone).1 in
  (Get no_faults 9 9 "alpha" (NewLocalCache no_faults (fun _ => 8) 0 (lc_disk c1) "demo" "disk" lsize Minute None)).2
    = (Get no_faults 9 9 "alpha" lone).2 /\
  lc_index (NewLocalCache no_faults (fun _ => 8) 0 (lc_disk c1) "demo" "disk" lsize Minute None)
    = filter (live (fun _ => 8)) (lc_index lone).
Proof.
  split; [vm_compute; reflexivity|].
  refine (proj1 (local_save_load lone (SaveIndex no_faults lone).1 "demo" "disk" lsize Minute None (fun _ => 8) 0 _ _ _)).
  - vm_compute. reflexivity.
  - apply Forall_forall. intros s Hs. vm_compute in Hs.
    repeat (apply elem_of_cons in Hs as [->|Hs]; [vm_compute; reflexivity|]). by apply elem_of_nil in Hs.
  - vm_compute. reflexivity.
Defined.
End witnesses.
