(* ===== verification/RedisCache.v ===== *)
(** internal/cache/redis.go: the distributed tier.  The go-redis client and
    the server behind it are a type class: what each command answers, and the
    hash a key holds as far as the commands determine it. *)
From Stdlib Require Import Ascii.
From S2P Require Import Prelude GoFloat Api CacheTier Sha256.
Local Open Scope Z_scope.

(** Bytes of a Go string. *)
Fixpoint bytes_of_string (s : string) : bytes :=
  match s with EmptyString => [] | String.String a s' => Z.of_N (N_of_ascii a) :: bytes_of_string s' end.

(** [redis.UniversalOptions] as [connect] fills it, and the kind of client. *)
Record Options := mkOptions {
  opt_Addrs : list string;
  opt_PoolSize : Z;
  opt_DialTimeout : Z;
  opt_ReadTimeout : Z;
  opt_WriteTimeout : Z;
  opt_Cluster : bool;
}.

(** Arguments of HSET: strings and integers, sent as text. *)
Inductive rvalue := RStr (b : bytes) | RInt (z : Z).
Definition rtext (v : rvalue) : bytes := match v with RStr b => b | RInt z => bytes_of_string (print_Z z) end.

(** Commands of a pipeline. *)
Inductive command :=
| CHSet (key : string) (fields : gmap string rvalue)
| CExpire (key : string) (ttl : Z).

(** EXPIRE with a time to live that is not positive deletes the key. *)
Class RedisServer := {
  Server : Type;
  (** The hash stored under a key, [∅] when there is none. *)
  hash_of : Server -> string -> gmap string bytes;
  redis_Nil : error;
  Ping : Options -> Server -> Server * result unit;
  HGetAll : Options -> string -> Server -> Server * result (gmap string bytes);
  HGetInt64 : Options -> string -> string -> Server -> Server * result Z;
  Del : Options -> string -> Server -> Server * result unit;
  Exec : Options -> list command -> Server -> Server * result unit;
  (** The keys an iterator over SCAN returns, and its final error. *)
  Scan : Options -> string -> Server -> Server * (list string * result unit);
  (** A pipeline of HGETALLs: one answer per key, and the error of [Exec]. *)
  ExecHGetAll : Options -> list string -> Server -> Server * (list (result (gmap string bytes)) * result unit);
  InfoText : Options -> Server -> Server * result string;

  HGetAll_Ok : forall o k s s' m, HGetAll o k s = (s', Ok m) -> m = hash_of s k;
  HGetAll_frame : forall o k s k', hash_of (HGetAll o k s).1 k' = hash_of s k';
  HGetInt64_frame : forall o k fld s k', hash_of (HGetInt64 o k fld s).1 k' = hash_of s k';
  Del_Ok : forall o k s s', Del o k s = (s', Ok tt) ->
    forall k', hash_of s' k' = if decide (k' = k) then ∅ else hash_of s k';
  Exec_Ok : forall o cmds s s', Exec o cmds s = (s', Ok tt) ->
    forall k, hash_of s' k = fold_left (fun h cmd =>
      match cmd with
      | CHSet k' fields => if decide (k = k') then (rtext <$> fields) ∪ h else h
      | CExpire k' ttl => if decide (k = k' /\ ttl <= 0) then ∅ else h
      end) cmds (hash_of s k);
}.

(** [rc_touches] are the goroutines started by [Get] that have not yet
    written the access time. *)
Record RedisCache `{QuantityOps} `{RedisServer} := mkRedisCache {
  rc_cacheName : string;
  rc_tierName : string;
  rc_maxSize : Quantity;
  rc_defaultTTL : Z;
  rc_client : Options;
  rc_config : option RedisCacheConfig;
  rc_hits : Z;
  rc_misses : Z;
  rc_usedSize : Z;
  rc_entries : Z;
  rc_healthy : bool;
  rc_keyPrefix : string;
  rc_server : Server;
  rc_touches : list string;
}.

Section setters.
Context `{QuantityOps} `{RedisServer}.
Implicit Type c : RedisCache.
Definition rset_client v c : RedisCache :=
  mkRedisCache _ _ (rc_cacheName c) (rc_tierName c) (rc_maxSize c) (rc_defaultTTL c) v (rc_config c) (rc_hits c)
    (rc_misses c) (rc_usedSize c) (rc_entries c) (rc_healthy c) (rc_keyPrefix c) (rc_server c) (rc_touches c).
Definition rset_stats hits misses c : RedisCache :=
  mkRedisCache _ _ (rc_cacheName c) (rc_tierName c) (rc_maxSize c) (rc_defaultTTL c) (rc_client c) (rc_config c) hits
    misses (rc_usedSize c) (rc_entries c) (rc_healthy c) (rc_keyPrefix c) (rc_server c) (rc_touches c).
Definition rset_counts used entries c : RedisCache :=
  mkRedisCache _ _ (rc_cacheName c) (rc_tierName c) (rc_maxSize c) (rc_defaultTTL c) (rc_client c) (rc_config c) (rc_hits c)
    (rc_misses c) used entries (rc_healthy c) (rc_keyPrefix c) (rc_server c) (rc_touches c).
Definition rset_healthy v c : RedisCache :=
  mkRedisCache _ _ (rc_cacheName c) (rc_tierName c) (rc_maxSize c) (rc_defaultTTL c) (rc_client c) (rc_config c) (rc_hits c)
    (rc_misses c) (rc_usedSize c) (rc_entries c) v (rc_keyPrefix c) (rc_server c) (rc_touches c).
Definition rset_server v c : RedisCache :=
  mkRedisCache _ _ (rc_cacheName c) (rc_tierName c) (rc_maxSize c) (rc_defaultTTL c) (rc_client c) (rc_config c) (rc_hits c)
    (rc_misses c) (rc_usedSize c) (rc_entries c) (rc_healthy c) (rc_keyPrefix c) v (rc_touches c).
Definition rset_touches v c : RedisCache :=
  mkRedisCache _ _ (rc_cacheName c) (rc_tierName c) (rc_maxSize c) (rc_defaultTTL c) (rc_client c) (rc_config c) (rc_hits c)
    (rc_misses c) (rc_usedSize c) (rc_entries c) (rc_healthy c) (rc_keyPrefix c) (rc_server c) v.
End setters.

Section operations.
Context `{QuantityOps} `{GoRuntime} `{RedisServer}.
Implicit Type c : RedisCache.

Definition unhealthy {A} : result A := Err "redis is not healthy".

(** [connect] never fails: an unanswered ping only marks the tier unhealthy. *)
Definition connectOptions (config : option RedisCacheConfig) : Options :=
  let addr := match config with
              | Some cfg => if bool_decide (rcc_ExternalEndpoint cfg <> "") then rcc_ExternalEndpoint cfg
                            else "localhost:6379"
              | None => "localhost:6379"
              end in
  match config with
  | Some cfg =>
      let pool := if 0 <? rcc_MaxConnections cfg then rcc_MaxConnections cfg else 0 in
      let timeout := default 0 (rcc_ConnectionTimeout cfg) in
      mkOptions [addr] pool timeout timeout timeout (bool_decide (rcc_Mode cfg = "cluster"))
  | None => mkOptions [addr] 0 0 0 0 false
  end.
Definition connect c : RedisCache * result unit :=
  let c := rset_client (connectOptions (rc_config c)) c in
  let '(s, r) := Ping (rc_client c) (rc_server c) in
  (rset_healthy (is_ok r) (rset_server s c), Ok tt).

Definition NewRedisCache (server : Server) (cacheName tierName : string) (size : Quantity) (ttl : Z)
    (config : option RedisCacheConfig) : RedisCache * result unit :=
  connect (mkRedisCache _ _ cacheName tierName size (if ttl =? 0 then 7 * (24 * Hour) else ttl)
    (mkOptions [] 0 0 0 0 false) config 0 0 0 0 false
    ("inference:" +:+ cacheName +:+ ":" +:+ tierName +:+ ":") server []).

(** One tick of [healthCheckLoop]. *)
Definition healthCheckTick c : RedisCache :=
  let '(s, r) := Ping (rc_client c) (rc_server c) in
  let c := rset_server s c in
  if is_ok r then rset_healthy true c else (connect (rset_healthy false c)).1.

Definition makeKey c (key : string) : string := rc_keyPrefix c +:+ key.
Definition hashKey (key : string) : string := hex_encode (Sum256 (bytes_of_string key)).

Definition value_of (m : gmap string bytes) : bytes := default [] (m !! "value").
Definition miss c : RedisCache := rset_stats (rc_hits c) (int64 (rc_misses c + 1)) c.
Definition hit c : RedisCache := rset_stats (int64 (rc_hits c + 1)) (rc_misses c) c.

Definition Get (key : string) c : RedisCache * result (option CacheEntry) :=
  if negb (rc_healthy c) then (c, unhealthy)
  else
    let redisKey := makeKey c key in
    let '(s, r) := HGetAll (rc_client c) redisKey (rc_server c) in
    let c := rset_server s c in
    match r with
    | Err e => if bool_decide (e = redis_Nil) then (miss c, Ok None)
               else (miss c, Err ("failed to get from redis: " +:+ e))
    | Ok m =>
        if bool_decide (m = ∅) then (miss c, Ok None)
        else
          let c := hit c in
          let c := rset_touches (redisKey :: rc_touches c) c in
          (c, Ok (Some (mkCacheEntry key (value_of m) (Z.of_nat (length (value_of m))) 0 0 0 0
                          (rc_tierName c) ∅)))
    end.

(** A goroutine of [Get] writes the access time; its result is not looked at. *)
Definition touch (now : Z) c : RedisCache :=
  match rc_touches c with
  | [] => c
  | redisKey :: rest =>
      rset_touches rest
        (rset_server (Exec (rc_client c) [CHSet redisKey {["accessed_at" := RInt now]}] (rc_server c)).1 c)
  end.

Definition setFields (now : Z) (value : bytes) : gmap string rvalue :=
  <["value" := RStr value]> (<["created_at" := RInt now]>
    (<["accessed_at" := RInt now]> {["size" := RInt (Z.of_nat (length value))]})).
Definition setCommands c (now : Z) (key : string) (value : bytes) (ttl : Z) : list command :=
  let redisKey := makeKey c key in [CHSet redisKey (setFields now value); CExpire redisKey ttl].

Definition Set_ (now : Z) (key : string) (value : bytes) (ttl : Z) c : RedisCache * result unit :=
  if negb (rc_healthy c) then (c, unhealthy)
  else
    let ttl := if ttl =? 0 then rc_defaultTTL c else ttl in
    let '(s, r) := Exec (rc_client c) (setCommands c now key value ttl) (rc_server c) in
    let c := rset_server s c in
    match r with
    | Err e => (c, Err ("failed to set in redis: " +:+ e))
    | Ok _ => (rset_counts (int64 (rc_usedSize c + Z.of_nat (length value))) (int64 (rc_entries c + 1)) c, Ok tt)
    end.

Definition Delete (key : string) c : RedisCache * result unit :=
  if negb (rc_healthy c) then (c, unhealthy)
  else
    let redisKey := makeKey c key in
    let '(s, r) := HGetInt64 (rc_client c) redisKey "size" (rc_server c) in
    let size := match r with Ok n => n | Err _ => 0 end in
    let '(s, r) := Del (rc_client c) redisKey s in
    let c := rset_server s c in
    match r with
    | Err e => (c, Err ("failed to delete from redis: " +:+ e))
    | Ok _ => (rset_counts (int64 (rc_usedSize c + - size)) (int64 (rc_entries c + -1)) c, Ok tt)
    end.

Definition Clear c : RedisCache * result unit :=
  if negb (rc_healthy c) then (c, unhealthy)
  else
    let '(s, (keys, r)) := Scan (rc_client c) (rc_keyPrefix c +:+ "*") (rc_server c) in
    let s := fold_left (fun s k => (Del (rc_client c) k s).1) keys s in
    let c := rset_server s c in
    match r with
    | Err e => (c, Err ("failed to scan redis: " +:+ e))
    | Ok _ => (rset_counts 0 0 c, Ok tt)
    end.

(** Accessors. *)
Definition Name c : string := rc_tierName c.
Definition Type_ c : CacheTierType := CacheTierTypeRedis.
Definition Size c : Quantity := rc_maxSize c.
Definition UsedSize c : Quantity := NewQuantity (rc_usedSize c) BinarySI.
Definition Entries c : Z := rc_entries c.
Definition Healthy c : bool := rc_healthy c.
Definition Stats c : TierStats :=
  let '(hitRate, missRate) := hitRates (rc_hits c) (rc_misses c) in
  mkTierStats hitRate missRate 0 (rc_entries c) (rc_usedSize c) (Quantity_Value (rc_maxSize c)) 0.

(** [GetMulti]: the commands are kept in a map by key. *)
Definition GetMulti (seed : nat) (keys : list string) c
    : RedisCache * result (gmap string CacheEntry) :=
  if negb (rc_healthy c) then (c, unhealthy)
  else
    let '(s, (answers, r)) := ExecHGetAll (rc_client c) (makeKey c <$> keys) (rc_server c) in
    let c := rset_server s c in
    let cmds := fold_left (fun m '(key, cmd) => <[key := cmd]> m) (zip keys answers) ∅ in
    let collect := fold_left (fun '(c, results) '(key, cmd) =>
      match cmd with
      | Err _ => (miss c, results)
      | Ok m => if bool_decide (m = ∅) then (miss c, results)
                else (hit c, <[key := mkCacheEntry key (value_of m) (Z.of_nat (length (value_of m))) 0 0 0 0
                                        (rc_tierName c) ∅]> results)
      end) (range seed cmds) (c, ∅) in
    match r with
    | Err e => if bool_decide (e = redis_Nil) then (collect.1, Ok collect.2)
               else (c, Err ("failed to get multi from redis: " +:+ e))
    | Ok _ => (collect.1, Ok collect.2)
    end.

(** [SetMulti] over a map of entries: one pipeline for all of them. *)
Definition SetMulti (now : Z) (seed : nat) (entries : gmap string bytes) (ttl : Z) c : RedisCache * result unit :=
  if negb (rc_healthy c) then (c, unhealthy)
  else
    let ttl := if ttl =? 0 then rc_defaultTTL c else ttl in
    let '(s, r) := Exec (rc_client c)
      (range seed entries ≫= fun '(key, value) => setCommands c now key value ttl) (rc_server c) in
    let c := rset_server s c in
    match r with
    | Err e => (c, Err ("failed to set multi in redis: " +:+ e))
    | Ok _ => (fold_left (fun c '(_, value) =>
                 rset_counts (int64 (rc_usedSize c + Z.of_nat (length value))) (int64 (rc_entries c + 1)) c)
                 (range (S seed) entries) c, Ok tt)
    end.

Definition Info c : RedisCache * result (gmap string string) :=
  if negb (rc_healthy c) then (c, unhealthy)
  else
    let '(s, r) := InfoText (rc_client c) (rc_server c) in
    let c := rset_server s c in
    match r with
    | Err e => (c, Err ("failed to get redis info: " +:+ e))
    | Ok info => (c, Ok {["info" := info]})
    end.
End operations.
