(* ===== verification/RedisProps.v ===== *)
(** Properties of the Redis tier (redis.go), for every server that stores
    hashes as documented, and an in-memory server to evaluate with. *)
From S2P Require Import Prelude GoFloat Api CacheTier RedisCache.
Local Open Scope Z_scope.

(** A call sequence and its effect on the tier. *)
Inductive rcall :=
| RSet (now : Z) (key : string) (value : bytes) (ttl : Z)
| RDelete (key : string).
Definition rrun1 `{QuantityOps} `{RedisServer} (op : rcall) (c : RedisCache) : RedisCache * result unit :=
  match op with
  | RSet now key value ttl => Set_ now key value ttl c
  | RDelete key => Delete key c
  end.
(** Runs the calls that succeed up to the first that does not. *)
Fixpoint rrun `{QuantityOps} `{RedisServer} (ops : list rcall) (c : RedisCache) : option RedisCache :=
  match ops with
  | [] => Some c
  | op :: ops' => match rrun1 op c with (c', Ok _) => rrun ops' c' | (_, Err _) => None end
  end.
Definition credit (op : rcall) : Z := match op with RSet _ _ _ _ => 1 | RDelete _ => -1 end.

Section facts.
Context `{QO : QuantityOps} `{RS : RedisServer}.
Implicit Types (c : RedisCache) (k : string).

Lemma makeKey_inj c k1 k2 : makeKey c k1 = makeKey c k2 -> k1 = k2.
Proof.
  unfold makeKey. generalize (rc_keyPrefix c). intros p. induction p as [|a p IH]; [done|].
  intros H. apply IH. by injection H.
Qed.

Lemma Set_Ok now k v ttl c c1 : Set_ now k v ttl c = (c1, Ok tt) ->
  rc_healthy c1 = true /\ rc_client c1 = rc_client c /\ rc_tierName c1 = rc_tierName c /\
  rc_keyPrefix c1 = rc_keyPrefix c /\ rc_entries c1 = int64 (rc_entries c + 1) /\
  Exec (rc_client c) (setCommands c now k v (if ttl =? 0 then rc_defaultTTL c else ttl)) (rc_server c)
    = (rc_server c1, Ok tt).
Proof.
  unfold Set_. destruct (rc_healthy c) eqn:Hh; simpl; [|done].
  destruct (Exec _ _ _) as [s [[]|]] eqn:E; [|done]. intros [= <-]. simpl. done.
Qed.

Lemma setCommands_hash c now k v ttl h k' :
  fold_left (fun h cmd =>
    match cmd with
    | CHSet k'' fields => if decide (k' = k'') then (rtext <$> fields) ∪ h else h
    | CExpire k'' ttl => if decide (k' = k'' /\ ttl <= 0) then ∅ else h
    end) (setCommands c now k v ttl) h =
  if decide (k' = makeKey c k) then if decide (0 < ttl) then (rtext <$> setFields now v) ∪ h else ∅ else h.
Proof. unfold setCommands. cbn [fold_left]. repeat case_decide; try done; exfalso; intuition lia. Qed.
Lemma setFields_value now v : (rtext <$> setFields now v) !! "value" = Some v.
Proof. unfold setFields. rewrite fmap_insert. apply lookup_insert_eq. Qed.

(** The time to live that [Set] asks for. *)
Definition ttlOf (ttl : Z) c : Z := if ttl =? 0 then rc_defaultTTL c else ttl.
(** What the server holds after a successful [Set]. *)
Lemma Set_hash now k v ttl c c1 k' : Set_ now k v ttl c = (c1, Ok tt) ->
  hash_of (rc_server c1) (makeKey c k') =
    if decide (k' = k) then
      if decide (0 < ttlOf ttl c) then (rtext <$> setFields now v) ∪ hash_of (rc_server c) (makeKey c k') else ∅
    else hash_of (rc_server c) (makeKey c k').
Proof.
  intros Hset. destruct (Set_Ok _ _ _ _ _ _ Hset) as (_ & _ & _ & _ & _ & He).
  rewrite (Exec_Ok _ _ _ _ He), setCommands_hash. fold (ttlOf ttl c).
  destruct (decide (k' = k)) as [->|Hne]; [by rewrite decide_True|].
  rewrite decide_False; [done|]. eauto using makeKey_inj.
Qed.
Lemma Set_value now k v ttl c c1 : Set_ now k v ttl c = (c1, Ok tt) -> 0 < ttlOf ttl c ->
  hash_of (rc_server c1) (makeKey c k) !! "value" = Some v.
Proof.
  intros Hset Httl. rewrite (Set_hash _ _ _ _ _ _ _ Hset), !decide_True by done.
  apply lookup_union_Some_l, setFields_value.
Qed.

Lemma Get_answer k c c' e : Get k c = (c', Ok (Some e)) ->
  exists m, m = hash_of (rc_server c) (makeKey c k) /\ m <> ∅ /\
    e = mkCacheEntry k (value_of m) (Z.of_nat (length (value_of m))) 0 0 0 0 (rc_tierName c) ∅.
Proof.
  unfold Get. destruct (rc_healthy c); simpl; [|done].
  destruct (HGetAll _ _ _) as [s [m|]] eqn:Hm; [|by case_bool_decide].
  case_bool_decide; [done|]. apply HGetAll_Ok in Hm. intros [= _ <-]. eauto.
Qed.

Lemma Delete_hash k c c' : Delete k c = (c', Ok tt) -> hash_of (rc_server c') (makeKey c' k) = ∅.
Proof.
  unfold Delete. destruct (rc_healthy c); simpl; [|done].
  destruct (HGetInt64 _ _ _ _) as [s r]. destruct (Del _ _ _) as [s' [[]|]] eqn:Hd; [|done].
  intros [= <-]. unfold makeKey. simpl. by rewrite (Del_Ok _ _ _ _ Hd), decide_True.
Qed.
End facts.

(** * Properties *)
Section properties.
Context `{QO : QuantityOps} `{RS : RedisServer}.
Implicit Types (c : RedisCache) (k : string).

(** After a successful [Set] with a positive time to live, a [Get] of the key
    that the server answers returns the value and its length; and the hash the
    server holds for every other key is unchanged. *)
Theorem redis_Set_Get now k v ttl c c1 : Set_ now k v ttl c = (c1, Ok tt) -> 0 < ttlOf ttl c ->
  (forall s m, HGetAll (rc_client c1) (makeKey c1 k) (rc_server c1) = (s, Ok m) ->
     (Get k c1).2 = Ok (Some (mkCacheEntry k v (Z.of_nat (length v)) 0 0 0 0 (rc_tierName c) ∅))) /\
  (forall k', k' <> k ->
     hash_of (rc_server c1) (makeKey c k') = hash_of (rc_server c) (makeKey c k')).
Proof.
  intros Hset Httl. destruct (Set_Ok _ _ _ _ _ _ Hset) as (Hh & Hcl & Htn & Hkp & _ & He). split.
  - intros s m Hm. unfold Get. rewrite Hh, Hm. simpl.
    apply HGetAll_Ok in Hm. assert (Hv : m !! "value" = Some v).
    { rewrite Hm. unfold makeKey. rewrite Hkp. fold (makeKey c k). by eapply Set_value. }
    rewrite bool_decide_eq_false_2 by (intros ->; by rewrite lookup_empty in Hv). simpl.
    unfold value_of. by rewrite Hv, Htn.
  - intros k' Hne. by rewrite (Set_hash _ _ _ _ _ _ _ Hset), decide_False.
Qed.

(** [Entries] counts calls, not keys: after any calls that succeed it has
    grown by the number of [Set]s and shrunk by the number of [Delete]s,
    whichever keys they named, stored or not. *)
Theorem redis_entries_count_calls ops c c' : in_int64 (rc_entries c) -> rrun ops c = Some c' ->
  Entries c' = int64 (Entries c + list_sum (credit <$> ops)).
Proof.
  unfold Entries. revert c. induction ops as [|op ops IH]; intros c Hin; simpl.
  - intros [= <-]. rewrite Z.add_0_r. by rewrite int64_id.
  - assert (Hop : forall c1, rrun1 op c = (c1, Ok tt) -> rc_entries c1 = int64 (rc_entries c + credit op)).
    { intros c1 H. destruct op as [now k v ttl|k]; simpl in *.
      - by destruct (Set_Ok _ _ _ _ _ _ H) as (_ & _ & _ & _ & -> & _).
      - unfold Delete in H. destruct (rc_healthy c); simpl in H; [|done].
        destruct (HGetInt64 _ _ _ _) as [s r]. destruct (Del _ _ _) as [s' [[]|]]; [|done].
        by injection H as <-. }
    destruct (rrun1 op c) as [c1 [[]|]]; [|done]. specialize (Hop c1 eq_refl). intros Hr.
    rewrite (IH c1) by (done || rewrite Hop; apply int64_range). rewrite Hop, int64_add. f_equal.
    change (list_sum (credit op :: (credit <$> ops))) with (credit op + list_sum (credit <$> ops)).
    by rewrite Z.add_assoc.
Qed.

(** The goroutine a [Get] leaves behind writes the access time without
    looking whether the key still exists: when it runs after a successful
    [Delete], the key comes back as an entry with an empty value, which the
    next [Get] the server answers reports as a hit. *)
Theorem redis_touch_resurrects now k c c1 e c2 s1 s2 m2 :
  rc_touches c = [] -> Get k c = (c1, Ok (Some e)) -> Delete k c1 = (c2, Ok tt) ->
  Exec (rc_client c2) [CHSet (makeKey c k) {["accessed_at" := RInt now]}] (rc_server c2) = (s1, Ok tt) ->
  HGetAll (rc_client c2) (makeKey c k) s1 = (s2, Ok m2) ->
  (Get k (touch now c2)).2 = Ok (Some (mkCacheEntry k [] 0 0 0 0 0 (rc_tierName c) ∅)).
Proof.
  intros Ht Hget Hdel Hexec Hall. unfold Get in Hget. destruct (rc_healthy c) eqn:Hh; simpl in Hget; [|done].
  destruct (HGetAll (rc_client c) _ _) as [s [m|]]; [|by case_bool_decide].
  case_bool_decide; [done|]. injection Hget as <- _. unfold Delete in Hdel. simpl in Hdel.
  rewrite Hh in Hdel. simpl in Hdel. destruct (HGetInt64 _ _ _ _) as [s3 r3].
  destruct (Del _ _ _) as [s4 [[]|]] eqn:Hd; [|done]. injection Hdel as <-. simpl in Hexec, Hall.
  unfold touch. simpl. rewrite Ht. simpl. rewrite Hexec. unfold Get. simpl. rewrite Hh. simpl.
  change (makeKey _ k) with (makeKey c k). rewrite Hall. simpl.
  apply HGetAll_Ok in Hall. rewrite (Exec_Ok _ _ _ _ Hexec) in Hall. cbn [fold_left] in Hall.
  rewrite decide_True, (Del_Ok _ _ _ _ Hd) in Hall by done.
  change (makeKey _ k) with (makeKey c k) in Hall.
  rewrite decide_True in Hall by done. rewrite (right_id_L ∅ (∪)), map_fmap_singleton in Hall. subst m2.
  rewrite bool_decide_eq_false_2 by apply map_non_empty_singleton. simpl.
  unfold value_of. by rewrite lookup_singleton_ne.
Qed.
End properties.

(** * An in-memory server *)
Definition mem_apply (s : gmap string (gmap string bytes)) (cmd : command) : gmap string (gmap string bytes) :=
  match cmd with
  | CHSet k fields => <[k := (rtext <$> fields) ∪ default ∅ (s !! k)]> s
  | CExpire k ttl => if decide (ttl <= 0) then delete k s else s
  end.
(** Decimal digits to a number, as the client parses an integer reply. *)
Definition parse_digits (b : bytes) : Z := fold_left (fun n d => 10 * n + (d - 48)) b 0.
Definition memHash (s : gmap string (gmap string bytes)) (k : string) : gmap string bytes := default ∅ (s !! k).
Definition memHGetInt64 (o : Options) (k fld : string) (s : gmap string (gmap string bytes))
    : gmap string (gmap string bytes) * result Z :=
  (s, match memHash s k !! fld with Some b => Ok (parse_digits b) | None => Err "redis: nil" end).

Lemma mem_Exec_Ok cmds s s' : (fold_left mem_apply cmds s, Ok tt) = (s', Ok tt) ->
  forall k, memHash s' k = fold_left (fun h cmd =>
    match cmd with
    | CHSet k' fields => if decide (k = k') then (rtext <$> fields) ∪ h else h
    | CExpire k' ttl => if decide (k = k' /\ ttl <= 0) then ∅ else h
    end) cmds (memHash s k).
Proof.
  intros [= <-] k. revert s. induction cmds as [|cmd cmds IH]; intros s; simpl; [done|].
  rewrite IH. f_equal. unfold memHash. destruct cmd as [k' fields|k' ttl]; simpl.
  - case_decide as E; [by subst; rewrite lookup_insert_eq | by rewrite lookup_insert_ne].
  - destruct (decide (ttl <= 0)) as [Ht|Ht]; [|by rewrite decide_False by tauto].
    destruct (decide (k = k')) as [->|Hne]; [by rewrite lookup_delete_eq, decide_True | by rewrite lookup_delete_ne, decide_False by (congruence || tauto)].
Qed.
Lemma mem_Del_Ok k (s s' : gmap string (gmap string bytes)) : (delete k s, Ok tt) = (s', Ok tt) ->
  forall k', memHash s' k' = if decide (k' = k) then ∅ else memHash s k'.
Proof.
  intros [= <-] k'. unfold memHash. case_decide as E; [by subst; rewrite lookup_delete_eq | by rewrite lookup_delete_ne].
Qed.
Lemma mem_HGetAll_Ok (o : Options) k (s s' : gmap string (gmap string bytes)) m :
  (s, Ok (memHash s k)) = (s', Ok m) -> m = memHash s k.
Proof. by intros [= _ <-]. Qed.

Definition memServer : RedisServer := {|
  Server := gmap string (gmap string bytes);
  hash_of := memHash;
  redis_Nil := "redis: nil";
  Ping := fun _ s => (s, Ok tt);
  HGetAll := fun _ k s => (s, Ok (memHash s k));
  HGetInt64 := memHGetInt64;
  Del := fun _ k s => (delete k s, Ok tt);
  Exec := fun _ cmds s => (fold_left mem_apply cmds s, Ok tt);
  Scan := fun _ _ s => (s, ((map_to_list s).*1, Ok tt));
  ExecHGetAll := fun _ ks s => (s, ((fun k => Ok (memHash s k)) <$> ks, Ok tt));
  InfoText := fun _ s => (s, Ok "");
  HGetAll_Ok := fun o k s s' m => mem_HGetAll_Ok o k s s' m;
  HGetAll_frame := fun o k s k' => eq_refl;
  HGetInt64_frame := fun o k fld s k' => eq_refl;
  Del_Ok := fun o k s s' => mem_Del_Ok k s s';
  Exec_Ok := fun o cmds s s' => mem_Exec_Ok cmds s s';
|}.

Section witnesses.
#[local] Existing Instance ZQuantity.
#[local] Existing Instance memServer.

Definition rnew : RedisCache := (NewRedisCache (∅ : gmap string (gmap string bytes)) "demo" "r" (100 : @Quantity ZQuantity) Minute None).1.
Definition rone : RedisCache := (Set_ 5 "a" [7; 8] 0 rnew).1.

Lemma rone_set : Set_ 5 "a" [7; 8] 0 rnew = (rone, Ok tt).
Proof. vm_cast_no_check (@eq_refl _ (rone, Ok tt : result unit)). Qed.
Lemma rone_answers : HGetAll (rc_client rone) (makeKey rone "a") (rc_server rone)
  = (rc_server rone, Ok (memHash (rc_server rone) (makeKey rone "a"))).
Proof. reflexivity. Qed.

Lemma redis_Set_Get_witness : (Get "a" rone).2 = Ok (Some (mkCacheEntry "a" [7; 8] 2 0 0 0 0 "r" ∅)).
Proof.
  rewrite (proj1 (redis_Set_Get 5 "a" [7; 8] 0 rnew rone rone_set eq_refl) _ _ rone_answers).
  vm_cast_no_check (@eq_refl _ (Ok (Some (mkCacheEntry "a" [7; 8] 2 0 0 0 0 "r" ∅)))).
Defined.

Definition rops : list rcall := [RSet 1 "a" [7] 0; RDelete "b"; RDelete "c"].
Definition rend : RedisCache := fold_left (fun c op => (rrun1 op c).1) rops rnew.
Lemma rrun_step op ops c c' : (rrun1 op c).2 = Ok tt -> rrun ops (rrun1 op c).1 = Some c' ->
  rrun (op :: ops) c = Some c'.
Proof. simpl. destruct (rrun1 op c) as [c1 r]. simpl. by intros ->. Qed.
Lemma rend_run : rrun rops rnew = Some rend.
Proof. do 3 (apply rrun_step; [reflexivity|]). reflexivity. Qed.
Lemma rnew_entries : in_int64 (rc_entries rnew).
Proof. unfold in_int64. vm_compute. split; congruence. Qed.

Lemma redis_entries_count_calls_witness : rrun rops rnew = Some rend /\ Entries rend = -1.
Proof.
  split; [exact rend_run|].
  rewrite (redis_entries_count_calls rops rnew rend rnew_entries rend_run). vm_compute. reflexivity.
Defined.

Definition rgot : RedisCache := (Get "a" rone).1.
Definition rdel : RedisCache := (Delete "a" rgot).1.
Definition rback : gmap string (gmap string bytes) :=
  (Exec (rc_client rdel) [CHSet (makeKey rone "a") {["accessed_at" := RInt 9]}] (rc_server rdel)).1.
Definition rentry : CacheEntry := mkCacheEntry "a" [7; 8] 2 0 0 0 0 "r" ∅.
Lemma rone_idle : rc_touches rone = [].
Proof. vm_compute. reflexivity. Qed.
Lemma rgot_get : Get "a" rone = (rgot, Ok (Some rentry)).
Proof. vm_cast_no_check (@eq_refl _ (rgot, Ok (Some rentry))). Qed.
Lemma rdel_delete : Delete "a" rgot = (rdel, Ok tt).
Proof. vm_cast_no_check (@eq_refl _ (rdel, Ok tt : result unit)). Qed.

Lemma redis_touch_resurrects_witness :
  (Get "a" (touch 9 rdel)).2 = Ok (Some (mkCacheEntry "a" [] 0 0 0 0 0 (rc_tierName rone) ∅)).
Proof.
  exact (redis_touch_resurrects 9 "a" rone rgot rentry rdel rback rback (memHash rback (makeKey rone "a"))
    rone_idle rgot_get rdel_delete eq_refl eq_refl).
Defined.
End witnesses.
