(* ===== verification/Tiers.v ===== *)
(** The [CacheTier] interface of internal/cache/manager.go as type classes:
    the operations, and what a tier promises to the manager.  The three tiers
    and their tagged union are instances. *)
From S2P Require Import Prelude GoFloat Api CacheTier PrefixTree PrefixCache PrefixInv PrefixInsert PrefixProps FileSystem LocalCache LocalProps RedisCache RedisProps.
Local Open Scope Z_scope.

(** What one tier call takes from its environment: clock readings, the seed
    of its map iterations and the faults of its file operations. *)
Record tier_env := mkTierEnv {
  te_now1 : Z;
  te_now2 : Z;
  te_seed : nat;
  te_faults : faults;
}.

Class CacheTierOps `{QuantityOps} (T : Type) := {
  tier_Name : T -> string;
  tier_Type : T -> CacheTierType;
  tier_Get : tier_env -> string -> T -> outcome (T * result (option CacheEntry));
  tier_Set : tier_env -> string -> bytes -> Z -> T -> outcome (T * result unit);
  tier_Delete : tier_env -> string -> T -> outcome (T * result unit);
  tier_Clear : tier_env -> T -> outcome (T * result unit);
  tier_Size : T -> Quantity;
  tier_UsedSize : T -> Quantity;
  tier_Entries : T -> Z;
  tier_Stats : T -> TierStats;
  tier_Healthy : T -> bool;
}.

(** The contract: calls keep a tier valid and named; whatever [Get] returns
    right after a successful [Set] is the value set; and nothing is returned
    right after a successful [Delete]. *)
Class CacheTierLaws `{QuantityOps} (T : Type) `{!CacheTierOps T} := {
  tier_ok : T -> Prop;
  law_Get_keeps : forall e k t t' r, tier_ok t -> tier_Get e k t = Ret (t', r) ->
    tier_ok t' /\ tier_Name t' = tier_Name t;
  law_Set_keeps : forall e k v ttl t t' r, tier_ok t -> tier_Set e k v ttl t = Ret (t', r) ->
    tier_ok t' /\ tier_Name t' = tier_Name t;
  law_Delete_keeps : forall e k t t' r, tier_ok t -> tier_Delete e k t = Ret (t', r) ->
    tier_ok t' /\ tier_Name t' = tier_Name t;
  law_Clear_keeps : forall e t t' r, tier_ok t -> tier_Clear e t = Ret (t', r) ->
    tier_ok t' /\ tier_Name t' = tier_Name t;
  law_Set_Get : forall e e' k v ttl t t' t'' ent, tier_ok t ->
    tier_Set e k v ttl t = Ret (t', Ok tt) -> tier_Get e' k t' = Ret (t'', Ok (Some ent)) ->
    ce_Value ent = v /\ ce_Key ent = k;
  law_Delete_Get : forall e e' k t t' t'' r, tier_ok t ->
    tier_Delete e k t = Ret (t', Ok tt) -> tier_Get e' k t' = Ret (t'', r) ->
    forall ent, r <> Ok (Some ent);
}.

(** The tiers [createTier] can make. *)
Inductive Tier `{QuantityOps} `{RedisServer} :=
| TPrefix (t : PrefixCache.PrefixCache)
| TLocal (t : LocalCache.LocalCache)
| TRedis (t : RedisCache.RedisCache).

(** Rewraps the state of a call. *)
Definition wrap_call {A B R : Type} (f : A -> B) (o : outcome (A * R)) : outcome (B * R) :=
  match o with Ret (a, r) => Ret (f a, r) | Panic w => Panic w | Blocked => Blocked end.

Lemma pair_fst {A B} (x : A * B) a b : x = (a, b) -> a = x.1.
Proof. by intros ->. Qed.

#[local] Obligation Tactic := idtac.

Section instances.
Context `{QO : QuantityOps} `{GR : GoRuntime} `{CO : Codecs} `{RS : RedisServer}.

#[export] Instance prefix_tier : CacheTierOps PrefixCache.PrefixCache := {|
  tier_Name := PrefixCache.Name;
  tier_Type := PrefixCache.Type_;
  tier_Get e k t := PrefixCache.Get (te_now1 e) (te_now2 e) (te_seed e) k t;
  tier_Set e k v ttl t := PrefixCache.Set_ (te_now1 e) k v ttl t;
  tier_Delete _ k t := PrefixCache.Delete k t;
  tier_Clear _ t := PrefixCache.Clear t;
  tier_Size := PrefixCache.Size;
  tier_UsedSize := PrefixCache.UsedSize;
  tier_Entries := PrefixCache.Entries;
  tier_Stats := PrefixCache.Stats;
  tier_Healthy := PrefixCache.Healthy;
|}.
#[export] Instance local_tier : CacheTierOps LocalCache.LocalCache := {|
  tier_Name := LocalCache.Name;
  tier_Type := LocalCache.Type_;
  tier_Get e k t := Ret (LocalCache.Get (te_faults e) (te_now1 e) (te_now2 e) k t);
  tier_Set e k v ttl t := Ret (LocalCache.Set_ (te_faults e) (te_now1 e) k v ttl t);
  tier_Delete e k t := Ret (LocalCache.Delete (te_faults e) k t);
  tier_Clear e t := Ret (LocalCache.Clear (te_faults e) t);
  tier_Size := LocalCache.Size;
  tier_UsedSize := LocalCache.UsedSize;
  tier_Entries := LocalCache.Entries;
  tier_Stats := LocalCache.Stats;
  tier_Healthy := LocalCache.Healthy None;
|}.
#[export] Instance redis_tier : CacheTierOps RedisCache.RedisCache := {|
  tier_Name := RedisCache.Name;
  tier_Type := RedisCache.Type_;
  tier_Get _ k t := Ret (RedisCache.Get k t);
  tier_Set e k v ttl t := Ret (RedisCache.Set_ (te_now1 e) k v ttl t);
  tier_Delete _ k t := Ret (RedisCache.Delete k t);
  tier_Clear _ t := Ret (RedisCache.Clear t);
  tier_Size := RedisCache.Size;
  tier_UsedSize := RedisCache.UsedSize;
  tier_Entries := RedisCache.Entries;
  tier_Stats := RedisCache.Stats;
  tier_Healthy := RedisCache.Healthy;
|}.

Definition onTier {R : Type} (fp : PrefixCache.PrefixCache -> R) (fl : LocalCache.LocalCache -> R)
    (fr : RedisCache.RedisCache -> R) (t : Tier) : R :=
  match t with TPrefix t => fp t | TLocal t => fl t | TRedis t => fr t end.
#[export] Instance Tier_tier : CacheTierOps Tier := {|
  tier_Name := onTier tier_Name tier_Name tier_Name;
  tier_Type := onTier tier_Type tier_Type tier_Type;
  tier_Get e k := onTier (fun t => wrap_call TPrefix (tier_Get e k t)) (fun t => wrap_call TLocal (tier_Get e k t))
                    (fun t => wrap_call TRedis (tier_Get e k t));
  tier_Set e k v ttl := onTier (fun t => wrap_call TPrefix (tier_Set e k v ttl t))
                    (fun t => wrap_call TLocal (tier_Set e k v ttl t)) (fun t => wrap_call TRedis (tier_Set e k v ttl t));
  tier_Delete e k := onTier (fun t => wrap_call TPrefix (tier_Delete e k t))
                    (fun t => wrap_call TLocal (tier_Delete e k t)) (fun t => wrap_call TRedis (tier_Delete e k t));
  tier_Clear e := onTier (fun t => wrap_call TPrefix (tier_Clear e t)) (fun t => wrap_call TLocal (tier_Clear e t))
                    (fun t => wrap_call TRedis (tier_Clear e t));
  tier_Size := onTier tier_Size tier_Size tier_Size;
  tier_UsedSize := onTier tier_UsedSize tier_UsedSize tier_UsedSize;
  tier_Entries := onTier tier_Entries tier_Entries tier_Entries;
  tier_Stats := onTier tier_Stats tier_Stats tier_Stats;
  tier_Healthy := onTier tier_Healthy tier_Healthy tier_Healthy;
|}.

(** ** The contract of each tier *)
Lemma prefix_laws_keep (c c' : PrefixCache.PrefixCache) : Inv (pc_settings c) c' ->
  Inv (pc_settings c') c' /\ PrefixCache.Name c' = PrefixCache.Name c.
Proof. intros HI. unfold PrefixCache.Name. by rewrite (inv_settings _ _ HI). Qed.

#[export] Program Instance prefix_tier_laws : CacheTierLaws PrefixCache.PrefixCache := {|
  tier_ok c := Inv (pc_settings c) c;
|}.
Next Obligation. intros e k t t' r HI Hr. apply prefix_laws_keep. exact (Inv_Get _ _ _ _ _ _ _ _ HI Hr). Qed.
Next Obligation. intros e k v ttl t t' r HI Hr. apply prefix_laws_keep. apply (Inv_Set _ _ _ _ _ _ _ _ HI Hr). Qed.
Next Obligation. intros e k t t' r HI Hr. apply prefix_laws_keep. exact (Inv_Delete _ _ _ _ _ HI Hr). Qed.
Next Obligation. intros e t t' r HI Hr. apply prefix_laws_keep. exact (Inv_Clear _ _ _ _ HI Hr). Qed.
Next Obligation.
  intros e e' k v ttl t t' t'' ent HI Hs Hg. simpl in *.
  destruct (Set_then_Get _ (te_now1 e) k v ttl t HI) as (c1 & Hs' & _ & _ & Hg').
  rewrite Hs in Hs'. simplify_eq.
  destruct (Hg' (te_now1 e') (te_now2 e') (te_seed e')) as (c2 & Hg2 & _).
  rewrite Hg in Hg2. unfold fresh_entry in Hg2. by case_match; simplify_eq.
Qed.
Next Obligation.
  intros e e' k t t' t'' r HI Hd Hg ent. simpl in *.
  pose proof (Delete_forgets _ _ _ _ _ HI Hd) as Hn. pose proof (Inv_Delete _ _ _ _ _ HI Hd) as HI'.
  rewrite Get_absent in Hg by (done || apply HI'). by simplify_eq.
Qed.

Lemma local_Get_Name f n1 n2 k c : LocalCache.Name (LocalCache.Get f n1 n2 k c).1 = LocalCache.Name c.
Proof.
  unfold LocalCache.Get, getEntry. destruct (lc_index c !! k) as [en|]; [|done].
  destruct (_ <? _); [done|]. destruct (os_ReadFile _ _ _); [|done]. by destruct (if le_Compressed en then _ else _).
Qed.
Lemma local_Set_Name f n k v ttl c : LocalCache.Name (LocalCache.Set_ f n k v ttl c).1 = LocalCache.Name c.
Proof.
  unfold LocalCache.Set_. destruct (encodeValue c v). destruct (os_MkdirAll _ _ _) as [? []]; [|done].
  destruct (os_WriteFile _ _ _) as [? []]; [|done]. simpl. by destruct (_ <? _), (lc_index c !! k).
Qed.
Lemma local_Clear_Name f c : LocalCache.Name (LocalCache.Clear f c).1 = LocalCache.Name c.
Proof.
  unfold LocalCache.Clear. destruct (os_RemoveAll _ _ _) as [? []]; [|done]. by destruct (os_MkdirAll _ _ _) as [? []].
Qed.

#[export] Program Instance local_tier_laws : CacheTierLaws LocalCache.LocalCache := {| tier_ok := LInv |}.
Next Obligation.
  intros e k t t' r HI [= Hr]. rewrite (pair_fst _ _ _ Hr). split; [by apply Get_inv | apply local_Get_Name].
Qed.
Next Obligation.
  intros e k v ttl t t' r HI [= Hr]. rewrite (pair_fst _ _ _ Hr). split; [by apply Set_inv | apply local_Set_Name].
Qed.
Next Obligation.
  intros e k t t' r HI [= Hr]. rewrite (pair_fst _ _ _ Hr). split; [by apply Delete_inv |].
  unfold LocalCache.Delete. simpl. by destruct (lc_index t !! k).
Qed.
Next Obligation.
  intros e t t' r HI [= Hr]. rewrite (pair_fst _ _ _ Hr). split; [by apply Clear_inv | apply local_Clear_Name].
Qed.
Next Obligation.
  intros e e' k v ttl t t' t'' ent HI [= Hs] [= Hg].
  pose proof (Get_after_Set _ _ _ _ _ _ _ (te_faults e') (te_now1 e') (te_now2 e') Hs) as H.
  rewrite Hg in H. simpl in H. by repeat case_match; simplify_eq.
Qed.
Next Obligation.
  intros e e' k t t' t'' r HI [= Hd] [= Hg] ent ->. unfold LocalCache.Delete in Hd.
  assert (Hn : lc_index t' !! k = None).
  { destruct (lc_index t !! k) eqn:E; injection Hd as <-; [apply lookup_delete_eq | done]. }
  unfold LocalCache.Get in Hg. rewrite Hn in Hg. done.
Qed.

Lemma redis_Get_Name k c : RedisCache.Name (RedisCache.Get k c).1 = RedisCache.Name c.
Proof.
  unfold RedisCache.Get. destruct (negb _); [done|]. destruct (HGetAll _ _ _) as [s []]; by case_bool_decide.
Qed.
Lemma redis_Set_Name n k v ttl c : RedisCache.Name (RedisCache.Set_ n k v ttl c).1 = RedisCache.Name c.
Proof. unfold RedisCache.Set_. destruct (negb _); [done|]. by destruct (Exec _ _ _) as [s []]. Qed.
Lemma redis_Delete_Name k c : RedisCache.Name (RedisCache.Delete k c).1 = RedisCache.Name c.
Proof.
  unfold RedisCache.Delete. destruct (negb _); [done|]. destruct (HGetInt64 _ _ _ _). by destruct (Del _ _ _) as [s' []].
Qed.
Lemma redis_Clear_Name c : RedisCache.Name (RedisCache.Clear c).1 = RedisCache.Name c.
Proof. unfold RedisCache.Clear. destruct (negb _); [done|]. by destruct (Scan _ _ _) as [s [ks []]]. Qed.

Lemma redis_Set_value n k v ttl c c1 c2 ent : RedisCache.Set_ n k v ttl c = (c1, Ok tt) ->
  RedisCache.Get k c1 = (c2, Ok (Some ent)) -> ce_Value ent = v /\ ce_Key ent = k.
Proof.
  intros Hs Hg. apply Get_answer in Hg as (m & Hm & Hne & ->). split; [|done].
  destruct (RedisProps.Set_Ok _ _ _ _ _ _ Hs) as (_ & _ & _ & Hkp & _). unfold makeKey in Hm. rewrite Hkp in Hm. fold (makeKey c k) in Hm.
  rewrite (RedisProps.Set_hash _ _ _ _ _ _ k Hs), decide_True in Hm by done.
  destruct (decide (0 < RedisProps.ttlOf ttl c)); [|by destruct Hne].
  simpl. unfold value_of. by rewrite Hm, (lookup_union_Some_l _ _ _ _ (RedisProps.setFields_value n v)).
Qed.

#[export] Program Instance redis_tier_laws : CacheTierLaws RedisCache.RedisCache := {| tier_ok _ := True |}.
Next Obligation. intros e k t t' r _ [= Hr]. rewrite (pair_fst _ _ _ Hr). split; [done | apply redis_Get_Name]. Qed.
Next Obligation. intros e k v ttl t t' r _ [= Hr]. rewrite (pair_fst _ _ _ Hr). split; [done | apply redis_Set_Name]. Qed.
Next Obligation. intros e k t t' r _ [= Hr]. rewrite (pair_fst _ _ _ Hr). split; [done | apply redis_Delete_Name]. Qed.
Next Obligation. intros e t t' r _ [= Hr]. rewrite (pair_fst _ _ _ Hr). split; [done | apply redis_Clear_Name]. Qed.
Next Obligation. intros e e' k v ttl t t' t'' ent _ [= Hs] [= Hg]. by eapply redis_Set_value. Qed.
Next Obligation.
  intros e e' k t t' t'' r _ [= Hd] [= Hg] ent ->. apply Get_answer in Hg as (m & -> & Hm & _).
  by rewrite (Delete_hash _ _ _ Hd) in Hm.
Qed.

Lemma wrap_call_Ret {A B R : Type} (f : A -> B) (o : outcome (A * R)) b r :
  wrap_call f o = Ret (b, r) -> exists a, o = Ret (a, r) /\ b = f a.
Proof. destruct o as [[a r']| |]; simpl; [|done..]. intros [= <- <-]. eauto. Qed.

#[export] Program Instance Tier_laws : CacheTierLaws Tier := {| tier_ok := onTier tier_ok tier_ok tier_ok |}.
Next Obligation.
  intros e k [t|t|t] t' r Hok Hr; apply wrap_call_Ret in Hr as (a & Hr & ->); by eapply law_Get_keeps in Hr.
Qed.
Next Obligation.
  intros e k v ttl [t|t|t] t' r Hok Hr; apply wrap_call_Ret in Hr as (a & Hr & ->); by eapply law_Set_keeps in Hr.
Qed.
Next Obligation.
  intros e k [t|t|t] t' r Hok Hr; apply wrap_call_Ret in Hr as (a & Hr & ->); by eapply law_Delete_keeps in Hr.
Qed.
Next Obligation.
  intros e [t|t|t] t' r Hok Hr; apply wrap_call_Ret in Hr as (a & Hr & ->); by eapply law_Clear_keeps in Hr.
Qed.
Next Obligation.
  intros e e' k v ttl [t|t|t] t' t'' ent Hok Hs Hg; apply wrap_call_Ret in Hs as (a & Hs & ->);
    apply wrap_call_Ret in Hg as (b & Hg & ->); exact (law_Set_Get _ _ _ _ _ _ _ _ _ Hok Hs Hg).
Qed.
Next Obligation.
  intros e e' k [t|t|t] t' t'' r Hok Hs Hg; apply wrap_call_Ret in Hs as (a & Hs & ->);
    apply wrap_call_Ret in Hg as (b & Hg & ->); exact (law_Delete_Get _ _ _ _ _ _ _ Hok Hs Hg).
Qed.
End instances.
