(* ===== verification/CacheManager.v ===== *)
(** internal/cache/manager.go: the cache manager, over any tier type that
    implements [CacheTier].  Cache configurations are heap objects: the map
    and the goroutines a call starts hold pointers to them. *)
From S2P Require Import Prelude GoFloat Api CacheTier PrefixCache FileSystem LocalCache RedisCache Tiers.
Local Open Scope Z_scope.

Record CacheConfig (T : Type) := mkCacheConfig {
  cc_Name : string;
  cc_Tiers : list T;
  cc_EvictionPolicy : EvictionPolicy;
  cc_CoherencePolicy : string;
  cc_WarmupEnabled : bool;
  cc_CommonPrefixes : list string;
}.
Arguments mkCacheConfig {T}.
Arguments cc_Name {T}.
Arguments cc_Tiers {T}.
Arguments cc_EvictionPolicy {T}.
Arguments cc_CoherencePolicy {T}.
Arguments cc_WarmupEnabled {T}.
Arguments cc_CommonPrefixes {T}.

(** A goroutine a call started: [promoteToPreviousTiers] or [warmupCache]. *)
Inductive task :=
| Promote (config : loc) (currentTier : string) (key : string) (entry : CacheEntry)
| Warmup (cacheName : string) (prefixes : list string).

Record Manager (T : Type) := mkManager {
  m_heap : list (CacheConfig T);
  m_caches : gmap string loc;
  m_evictionInterval : Z;
  m_running : bool;
  m_stopped : bool;
  m_tasks : list task;
}.
Arguments mkManager {T}.
Arguments m_heap {T}.
Arguments m_caches {T}.
Arguments m_evictionInterval {T}.
Arguments m_running {T}.
Arguments m_stopped {T}.
Arguments m_tasks {T}.

Definition set_tiers {T} (ts : list T) (c : CacheConfig T) : CacheConfig T :=
  mkCacheConfig (cc_Name c) ts (cc_EvictionPolicy c) (cc_CoherencePolicy c) (cc_WarmupEnabled c) (cc_CommonPrefixes c).
Definition mset_heap {T} v (m : Manager T) : Manager T :=
  mkManager v (m_caches m) (m_evictionInterval m) (m_running m) (m_stopped m) (m_tasks m).
Definition mset_caches {T} v (m : Manager T) : Manager T :=
  mkManager (m_heap m) v (m_evictionInterval m) (m_running m) (m_stopped m) (m_tasks m).
Definition mset_tasks {T} v (m : Manager T) : Manager T :=
  mkManager (m_heap m) (m_caches m) (m_evictionInterval m) (m_running m) (m_stopped m) v.
Definition mset_run {T} running stopped (m : Manager T) : Manager T :=
  mkManager (m_heap m) (m_caches m) (m_evictionInterval m) running stopped (m_tasks m).

(** The environment of a manager call: one per tier, by position. *)
Definition mgr_env : Type := nat -> tier_env.

(** What [createTier] takes from the machine. *)
Record world `{RedisServer} := mkWorld {
  w_now : string -> Z;
  w_seed : nat;
  w_faults : faults;
  w_disk : fs;
  w_server : Server;
}.

Definition not_found (cacheName : string) : error := "cache not found: " +:+ cacheName.

Section operations.
Context `{QuantityOps} `{GoRuntime} {T : Type} `{!CacheTierOps T}.
Implicit Types (m : Manager T) (e : mgr_env).

Definition NewManager : Manager T := mkManager [] ∅ (60 * Second) false false [].

Definition Start m : Manager T * result unit := (mset_run true (m_stopped m) m, Ok tt).
(** Closing the stop channel twice panics. *)
Definition Stop m : outcome (Manager T) :=
  if m_stopped m then Panic "close of closed channel" else Ret (mset_run false true m).

(** The configuration of a cache name. *)
Definition lookupConfig (cacheName : string) m : option (loc * CacheConfig T) :=
  l ← m_caches m !! cacheName; c ← m_heap m !! l; Some (l, c).
Definition update_tiers (l : loc) (ts : list T) m : Manager T :=
  mset_heap (alter (set_tiers ts) l (m_heap m)) m.

(** The loop of [Get]: the tiers after it, and the hit with its tier's name. *)
Fixpoint getTiers e (i : nat) (key : string) (tiers : list T) : outcome (list T * option (string * CacheEntry)) :=
  match tiers with
  | [] => Ret ([], None)
  | tier :: rest =>
      '(tier, r) ← tier_Get (e i) key tier;
      match r with
      | Ok (Some entry) => Ret (tier :: rest, Some (tier_Name tier, entry))
      | _ => '(rest, hit) ← getTiers e (S i) key rest; Ret (tier :: rest, hit)
      end
  end.

Definition Get e (cacheName key : string) m : outcome (Manager T * result CacheEntry) :=
  match lookupConfig cacheName m with
  | None => Ret (m, Err (not_found cacheName))
  | Some (l, config) =>
      '(tiers, hit) ← getTiers e 0 key (cc_Tiers config);
      let m := update_tiers l tiers m in
      match hit with
      | Some (tier, entry) =>
          let m := if bool_decide (cc_CoherencePolicy config = "write-through")
                   then mset_tasks (m_tasks m ++ [Promote l tier key entry]) m else m in
          Ret (m, Ok entry)
      | None => Ret (m, Err ("key not found: " +:+ key))
      end
  end.

(** A loop that calls every tier and goes on after an error; the errors are
    only logged, and are returned here next to the tiers. *)
Fixpoint eachTier {R : Type} (f : nat -> T -> outcome (T * result R)) (i : nat) (tiers : list T)
    : outcome (list T * list (result R)) :=
  match tiers with
  | [] => Ret ([], [])
  | tier :: rest =>
      '(tier, r) ← f i tier;
      '(rest, rs) ← eachTier f (S i) rest;
      Ret (tier :: rest, r :: rs)
  end.
Definition setAll e (key : string) (value : bytes) (ttl : Z) (tiers : list T) : outcome (list T * list (result unit)) :=
  eachTier (fun i t => tier_Set (e i) key value ttl t) 0 tiers.
Definition deleteAll e (key : string) (tiers : list T) : outcome (list T * list (result unit)) :=
  eachTier (fun i t => tier_Delete (e i) key t) 0 tiers.
Definition clearAll e (tiers : list T) : outcome (list T * list (result unit)) :=
  eachTier (fun i t => tier_Clear (e i) t) 0 tiers.

Definition Set_ e (cacheName key : string) (value : bytes) (ttl : Z) m : outcome (Manager T * result unit) :=
  match lookupConfig cacheName m with
  | None => Ret (m, Err (not_found cacheName))
  | Some (l, config) =>
      let tiers := cc_Tiers config in
      if bool_decide (cc_CoherencePolicy config = "write-through") then
        '(tiers, _) ← setAll e key value ttl tiers;
        Ret (update_tiers l tiers m, Ok tt)
      else if bool_decide (cc_CoherencePolicy config = "write-back") then
        match tiers with
        | [] => Ret (m, Ok tt)
        | first :: rest =>
            '(first, r) ← tier_Set (e 0%nat) key value ttl first;
            Ret (update_tiers l (first :: rest) m, r)
        end
      else if bool_decide (cc_CoherencePolicy config = "write-around") then
        match last tiers with
        | None => Ret (m, Ok tt)
        | Some lastTier =>
            '(lastTier, r) ← tier_Set (e (length tiers - 1)%nat) key value ttl lastTier;
            Ret (update_tiers l (<[(length tiers - 1)%nat := lastTier]> tiers) m, r)
        end
      else
        '(tiers, _) ← setAll e key value ttl tiers;
        Ret (update_tiers l tiers m, Ok tt)
  end.

Definition Delete e (cacheName key : string) m : outcome (Manager T * result unit) :=
  match lookupConfig cacheName m with
  | None => Ret (m, Err (not_found cacheName))
  | Some (l, config) =>
      '(tiers, _) ← deleteAll e key (cc_Tiers config);
      Ret (update_tiers l tiers m, Ok tt)
  end.

(** [Invalidate] ignores the pattern and clears every tier. *)
Definition Invalidate e (cacheName pattern : string) m : outcome (Manager T * result unit) :=
  match lookupConfig cacheName m with
  | None => Ret (m, Err (not_found cacheName))
  | Some (l, config) =>
      '(tiers, _) ← clearAll e (cc_Tiers config);
      Ret (update_tiers l tiers m, Ok tt)
  end.

Definition CleanupCache e (cacheName : string) m : outcome (Manager T * result unit) :=
  match lookupConfig cacheName m with
  | None => Ret (m, Ok tt)
  | Some (l, config) =>
      '(tiers, _) ← clearAll e (cc_Tiers config);
      Ret (mset_caches (delete cacheName (m_caches m)) (update_tiers l tiers m), Ok tt)
  end.

(** The tiers before the one that hit, by name. *)
Fixpoint previousTiers (currentTier : string) (tiers : list T) : list T :=
  match tiers with
  | [] => []
  | tier :: rest => if bool_decide (tier_Name tier = currentTier) then []
                    else tier :: previousTiers currentTier rest
  end.
Definition promoteToPreviousTiers e (l : loc) (currentTier key : string) (entry : CacheEntry) m
    : outcome (Manager T) :=
  match m_heap m !! l with
  | None => Panic "nil pointer dereference"
  | Some config =>
      let before := previousTiers currentTier (cc_Tiers config) in
      '(tiers, _) ← setAll e key (ce_Value entry) (ce_TTL entry) before;
      Ret (update_tiers l (tiers ++ drop (length before) (cc_Tiers config)) m)
  end.

Definition prefix_key (prefix : string) : string := "prefix:" +:+ prefix.
(** The loop of [warmupCache]: [es i] is the environment of the [i]-th prefix. *)
Fixpoint warmTiers (es : nat -> mgr_env) (i : nat) (prefixes : list string) (tiers : list T) : outcome (list T) :=
  match prefixes with
  | [] => Ret tiers
  | prefix :: rest =>
      '(tiers, _) ← setAll (es i) (prefix_key prefix) (bytes_of_string prefix) (24 * Hour) tiers;
      warmTiers es (S i) rest tiers
  end.
Definition warmupCache (es : nat -> mgr_env) (cacheName : string) (prefixes : list string) m : outcome (Manager T) :=
  match lookupConfig cacheName m with
  | None => Ret m
  | Some (l, config) =>
      tiers ← warmTiers es 0 prefixes (cc_Tiers config);
      Ret (update_tiers l tiers m)
  end.

(** Runs a goroutine; [es] are its environments. *)
Definition runTask (es : nat -> mgr_env) (t : task) m : outcome (Manager T) :=
  match t with
  | Promote l tier key entry => promoteToPreviousTiers (es 0%nat) l tier key entry m
  | Warmup cacheName prefixes => warmupCache es cacheName prefixes m
  end.

Definition tierStatus (tier : T) : CacheTierStatus :=
  let stats := tier_Stats tier in
  mkCacheTierStatus _ (tier_Name tier) (tier_Healthy tier) (tier_Size tier) (tier_UsedSize tier)
    (ts_Entries stats) (ts_HitRate stats) (ts_MissRate stats) None "".
Definition GetStatus (cacheName : string) m : result TokenCacheStatus :=
  match lookupConfig cacheName m with
  | None => Err (not_found cacheName)
  | Some (_, config) =>
      let tiers := cc_Tiers config in
      let total (f : T -> Z) : Z := fold_left (fun acc t => int64 (acc + f t)) tiers 0 in
      let totalHitRate := fold_left (fun acc t => f64_add acc (ts_HitRate (tier_Stats t))) tiers f64_zero in
      Ok (mkTokenCacheStatus _
            (if forallb tier_Healthy tiers then TokenCachePhaseReady else TokenCachePhaseDegraded)
            (NewQuantity (total (fun t => Quantity_Value (tier_Size t))) BinarySI)
            (NewQuantity (total (fun t => Quantity_Value (tier_UsedSize t))) BinarySI)
            (total (fun t => ts_Entries (tier_Stats t)))
            (if bool_decide (tiers = []) then f64_zero
             else f64_div totalHitRate (float64_of_int (Z.of_nat (length tiers))))
            (tierStatus <$> tiers) None [] None 0)
  end.

Definition GetCacheForService (serviceName namespace cacheRef : string) m : result loc :=
  if bool_decide (cacheRef = "") then
    match m_caches m !! "default" with
    | Some l => Ok l
    | None => Err "no default cache configured"
    end
  else match m_caches m !! cacheRef with
       | Some l => Ok l
       | None => Err (not_found cacheRef)
       end.

Definition ListCaches (seed : nat) m : list string := (range seed (m_caches m)).*1.

Definition HealthCheck (seed : nat) m : result unit :=
  let unhealthy := range seed (m_caches m) ≫= fun '(cacheName, l) =>
    match m_heap m !! l with
    | Some config => (fun t => "unhealthy tier in cache " +:+ cacheName +:+ ": " +:+ tier_Name t)
                       <$> filter (fun t => tier_Healthy t = false) (cc_Tiers config)
    | None => []
    end in
  match unhealthy with msg :: _ => Err msg | [] => Ok tt end.

(** [runEviction] only logs: the cache, the tier and the ratio of every tier
    that is above 90%. *)
Definition usedRatio (tier : T) : float64 :=
  f64_div (float64_of_int (Quantity_Value (tier_UsedSize tier))) (float64_of_int (Quantity_Value (tier_Size tier))).
Definition evictionThreshold : float64 := f64_div (float64_of_int 9) (float64_of_int 10).
Definition runEviction (seed : nat) m : list (string * string * float64) :=
  range seed (m_caches m) ≫= fun '(_, l) =>
    match m_heap m !! l with
    | Some cache => (fun tier => (cc_Name cache, tier_Name tier, usedRatio tier))
                      <$> filter (fun tier => f64_gtb (usedRatio tier) evictionThreshold = true) (cc_Tiers cache)
    | None => []
    end.
End operations.

(** * Configuration: the tiers are the three implementations *)
Section configure.
Context `{QuantityOps} `{GoRuntime} `{Codecs} `{RedisServer}.
Implicit Types (m : Manager Tier).

Definition createTier (w : world) (cacheName : string) (spec : CacheTierSpec) : result Tier :=
  let ttl := default 0 (cts_TTL spec) in
  if bool_decide (cts_Type spec = CacheTierTypePrefix) then
    Ok (TPrefix (NewPrefixCache cacheName (cts_Name spec) (cts_Size spec) ttl (cts_PrefixConfig spec)))
  else if bool_decide (cts_Type spec = CacheTierTypeLocal) then
    Ok (TLocal (NewLocalCache (w_faults w) (w_now w) (w_seed w) (w_disk w) cacheName (cts_Name spec)
                  (cts_Size spec) ttl (cts_LocalConfig spec)))
  else if bool_decide (cts_Type spec = CacheTierTypeRedis) then
    let '(c, r) := NewRedisCache (w_server w) cacheName (cts_Name spec) (cts_Size spec) ttl (cts_RedisConfig spec) in
    match r with Ok _ => Ok (TRedis c) | Err err => Err err end
  else Err ("unsupported tier type: " +:+ cts_Type spec).

Fixpoint createTiers (w : nat -> world) (i : nat) (cacheName : string) (specs : list CacheTierSpec)
    : result (list Tier) :=
  match specs with
  | [] => Ok []
  | spec :: rest =>
      match createTier (w i) cacheName spec with
      | Err err => Err ("failed to create tier " +:+ cts_Name spec +:+ ": " +:+ err)
      | Ok tier => match createTiers w (S i) cacheName rest with
                   | Err err => Err err
                   | Ok tiers => Ok (tier :: tiers)
                   end
      end
  end.

Definition ConfigureCache (w : nat -> world) (cache : TokenCache) m : Manager Tier * result unit :=
  let name := om_Name (tc_ObjectMeta cache) in
  let spec := tc_Spec cache in
  match createTiers w 0 name (tcs_Tiers spec) with
  | Err err => (m, Err err)
  | Ok tiers =>
      let enabled := match tcs_Warmup spec with Some wu => ws_Enabled wu | None => false end in
      let prefixes := match tcs_Warmup spec with Some wu => ws_CommonPrefixes wu | None => [] end in
      let config := mkCacheConfig name tiers (tcs_EvictionPolicy spec) (tcs_CoherencePolicy spec) enabled prefixes in
      let l := length (m_heap m) in
      let m := mset_heap (m_heap m ++ [config]) m in
      let m := mset_caches (<[name := l]> (m_caches m)) m in
      let m := if enabled && bool_decide (prefixes <> []) then mset_tasks (m_tasks m ++ [Warmup name prefixes]) m
               else m in
      (m, Ok tt)
  end.
End configure.
