(* ===== verification/ManagerProps.v ===== *)
(** Properties of the cache manager (manager.go), proved against the
    [CacheTier] contract for any tier type, and for [ConfigureCache] against
    the three implementations. *)
From S2P Require Import Prelude GoFloat Api CacheTier PrefixTree PrefixCache PrefixInv PrefixInsert PrefixProps FileSystem LocalCache LocalProps RedisCache RedisProps Tiers CacheManager.
Local Open Scope Z_scope.

(** Tiers [ts] of which every [Get] found nothing, and their states [ts'] after. *)
Inductive missed `{QuantityOps} {T : Type} `{!CacheTierOps T} (e : mgr_env) (key : string) : nat -> list T -> list T -> Prop :=
| missed_nil i : missed e key i [] []
| missed_cons i t t' r ts ts' : tier_Get (e i) key t = Ret (t', r) -> (forall ent, r <> Ok (Some ent)) ->
    missed e key (S i) ts ts' -> missed e key i (t :: ts) (t' :: ts').

(** The policies under which [Set] writes every tier: anything but
    "write-back" and "write-around". *)
Definition writes_all (policy : string) : Prop := policy <> "write-back" /\ policy <> "write-around".

Definition supported (ty : CacheTierType) : Prop :=
  ty = CacheTierTypePrefix \/ ty = CacheTierTypeLocal \/ ty = CacheTierTypeRedis.

Section facts.
Context `{QO : QuantityOps} {T : Type} `{TO : !CacheTierOps T}.
Implicit Types (e : mgr_env) (m : Manager T) (t : T) (ts : list T).

Lemma getTiers_spec e i key ts ts' hit : getTiers e i key ts = Ret (ts', hit) ->
  match hit with
  | None => missed e key i ts ts'
  | Some (name, ent) => exists pre t t' post pre',
      ts = pre ++ t :: post /\ ts' = pre' ++ t' :: post /\ missed e key i pre pre' /\
      tier_Get (e (i + length pre)%nat) key t = Ret (t', Ok (Some ent)) /\ name = tier_Name t'
  end.
Proof.
  revert i ts'. induction ts as [|t ts IH]; intros i ts' Hr; simpl in Hr.
  - injection Hr as <- <-. constructor.
  - apply outcome_bind_Ret in Hr as ([t' r] & Ht & Hr).
    assert (Hnone : (forall ent, r <> Ok (Some ent)) ->
      ('(rest, h) ← getTiers e (S i) key ts; Ret (t' :: rest, h)) = Ret (ts', hit) ->
      match hit with
      | None => missed e key i (t :: ts) ts'
      | Some (name, ent) => exists pre t0 t0' post pre',
          t :: ts = pre ++ t0 :: post /\ ts' = pre' ++ t0' :: post /\ missed e key i pre pre' /\
          tier_Get (e (i + length pre)%nat) key t0 = Ret (t0', Ok (Some ent)) /\ name = tier_Name t0'
      end).
    { intros Hne Hr'. apply outcome_bind_Ret in Hr' as ([rest h] & Hrest & [= <- <-]).
      apply IH in Hrest. destruct h as [[name ent]|]; [|by econstructor].
      destruct Hrest as (pre & t0 & t0' & post & pre' & -> & -> & Hm & Hg & Hn).
      exists (t :: pre), t0, t0', post, (t' :: pre'). split_and!; try done; [by econstructor|].
      rewrite <- Hg. f_equal. simpl. f_equal. lia. }
    destruct r as [[ent|]|err]; [|apply Hnone; [congruence|done]..].
    injection Hr as <- <-. exists [], t, t', ts, []. rewrite Nat.add_0_r. split_and!; try done. constructor.
Qed.

Lemma lookupConfig_Some name m l c : lookupConfig name m = Some (l, c) ->
  m_caches m !! name = Some l /\ m_heap m !! l = Some c.
Proof.
  unfold lookupConfig. destruct (m_caches m !! name) as [l'|]; simpl; [|done].
  destruct (m_heap m !! l') as [c'|] eqn:E; simpl; [|done]. by intros [= -> ->].
Qed.

Lemma lookupConfig_update name m l c ts : lookupConfig name m = Some (l, c) ->
  lookupConfig name (update_tiers l ts m) = Some (l, set_tiers ts c).
Proof.
  intros [Hn Hl]%lookupConfig_Some. unfold lookupConfig, update_tiers. simpl. rewrite Hn. simpl.
  by rewrite list_lookup_alter_eq, Hl.
Qed.

Lemma eachTier_spec {R} (f : nat -> T -> outcome (T * result R)) i ts ts' rs :
  eachTier f i ts = Ret (ts', rs) ->
  length ts' = length ts /\ length rs = length ts /\
  forall j t, ts !! j = Some t -> exists t' r, ts' !! j = Some t' /\ rs !! j = Some r /\ f (i + j)%nat t = Ret (t', r).
Proof.
  revert i ts' rs. induction ts as [|t ts IH]; intros i ts' rs Hr; simpl in Hr.
  - injection Hr as <- <-. done.
  - apply outcome_bind_Ret in Hr as ([t' r] & Ht & Hr).
    apply outcome_bind_Ret in Hr as ([rest rs'] & Hrest & [= <- <-]).
    destruct (IH _ _ _ Hrest) as (Hl1 & Hl2 & Hj). simpl. split_and!; [congruence..|].
    intros [|j] x Hx; simpl in *.
    + simplify_eq. exists t', r. by rewrite Nat.add_0_r.
    + destruct (Hj j x Hx) as (x' & r' & H1 & H2 & H3). exists x', r'. split_and!; try done.
      rewrite <- H3. f_equal. lia.
Qed.

(** A tier that hits has a position. *)
Lemma getTiers_hit e i key ts ts' name ent : getTiers e i key ts = Ret (ts', Some (name, ent)) ->
  exists j t t', ts !! j = Some t /\ tier_Get (e (i + j)%nat) key t = Ret (t', Ok (Some ent)).
Proof.
  intros (pre & t & t' & post & pre' & -> & _ & _ & Hg & _)%getTiers_spec.
  exists (length pre), t, t'. split; [by apply list_lookup_middle | done].
Qed.

Lemma Get_Ok_hit e name key m m' l c ent : lookupConfig name m = Some (l, c) ->
  Get e name key m = Ret (m', Ok ent) ->
  exists j t t', cc_Tiers c !! j = Some t /\ tier_Get (e j) key t = Ret (t', Ok (Some ent)).
Proof.
  intros Hc Hg. unfold Get in Hg. rewrite Hc in Hg.
  apply outcome_bind_Ret in Hg as ([ts' [[nm en]|]] & Hts & Hg); [|by injection Hg].
  assert (en = ent) as -> by congruence. by apply getTiers_hit in Hts.
Qed.

Lemma Set_writes_all e name key v ttl m l c ts' rs : lookupConfig name m = Some (l, c) ->
  writes_all (cc_CoherencePolicy c) -> setAll e key v ttl (cc_Tiers c) = Ret (ts', rs) ->
  Set_ e name key v ttl m = Ret (update_tiers l ts' m, Ok tt).
Proof.
  intros Hc [H1 H2] Hs. unfold Set_. rewrite Hc, Hs.
  rewrite (bool_decide_eq_false_2 (cc_CoherencePolicy c = "write-back")) by done.
  rewrite (bool_decide_eq_false_2 (cc_CoherencePolicy c = "write-around")) by done.
  by case_bool_decide.
Qed.
End facts.

Section configure_facts.
Context `{QO : QuantityOps} `{GR : GoRuntime} `{CO : Codecs} `{RS : RedisServer}.

Lemma createTier_supported w cn spec : supported (cts_Type spec) <-> is_ok (createTier w cn spec) = true.
Proof.
  unfold createTier, supported. split.
  - intros [->|[->| ->]]; [done|done|]. simpl. unfold NewRedisCache, connect. by destruct (Ping _ _).
  - case_bool_decide; [tauto|]. case_bool_decide; [tauto|]. case_bool_decide; [tauto|done].
Qed.

Lemma createTier_Name w cn spec t : createTier w cn spec = Ok t -> tier_Name t = cts_Name spec.
Proof.
  unfold createTier. case_bool_decide; [by intros [= <-]|]. case_bool_decide.
  - intros [= <-]. simpl. unfold LocalCache.Name, NewLocalCache, initialize, loadIndex.
    destruct (os_MkdirAll _ _ _) as [d [[]|]]; [|done]. destruct (os_ReadFile _ _ _) as [data|]; [|done].
    destruct (gob_decode data) as [idx|]; [|done]. simpl.
    match goal with |- lc_tierName (fold_left ?g ?l ?c) = _ => generalize l; intros ls; assert (Hc : lc_tierName c = cts_Name spec) by done; revert Hc; generalize c end.
    induction ls as [|[k en] ls IH]; intros c Hc; simpl; [done|]. apply IH. by destruct (_ <? _).
  - case_bool_decide; [|done]. unfold NewRedisCache, connect. destruct (Ping _ _). by intros [= <-].
Qed.

Lemma createTiers_spec w i cn specs :
  match createTiers w i cn specs with
  | Ok ts => Forall (fun s => supported (cts_Type s)) specs /\ tier_Name <$> ts = cts_Name <$> specs /\
             forall j s, specs !! j = Some s -> exists t, ts !! j = Some t /\ createTier (w (i + j)%nat) cn s = Ok t
  | Err _ => ~ Forall (fun s => supported (cts_Type s)) specs
  end.
Proof.
  revert i. induction specs as [|s specs IH]; intros i; cbn [createTiers].
  - split_and!; [constructor | done | done].
  - pose proof (createTier_supported (w i) cn s) as Hs. destruct (createTier (w i) cn s) as [t|err] eqn:Ht.
    2: { intros H. apply Forall_cons in H as [H _]. apply Hs in H. done. }
    specialize (IH (S i)). destruct (createTiers w (S i) cn specs) as [ts|err].
    2: { intros H. apply Forall_cons in H as [_ H]. done. }
    destruct IH as (H1 & H2 & H3). split_and!.
    + constructor; [by apply Hs | done].
    + csimpl. f_equal; [by apply createTier_Name in Ht | done].
    + intros [|j] s' Hj; simpl in *; [simplify_eq; rewrite Nat.add_0_r; eauto|].
      destruct (H3 j s' Hj) as (t' & ? & Ht'). exists t'. split; [done|]. rewrite <- Ht'. f_equal. f_equal. lia.
Qed.

(** Fresh prefix tiers miss every key. *)
Lemma missed_prefix e w cn key specs ts i i' : createTiers w i' cn specs = Ok ts ->
  Forall (fun s => cts_Type s = CacheTierTypePrefix) specs ->
  exists ts', getTiers e i key ts = Ret (ts', None).
Proof.
  revert i i' ts. induction specs as [|s specs IH]; intros i i' ts Ht Hp; cbn [createTiers] in Ht.
  - injection Ht as <-. by exists [].
  - apply Forall_cons in Hp as [Hs Hp]. destruct (createTier (w i') cn s) as [t|] eqn:E; [|done].
    destruct (createTiers w (S i') cn specs) as [ts1|] eqn:E1; [|done]. injection Ht as <-.
    destruct (IH (S i) (S i') ts1 E1 Hp) as [ts' Hts]. unfold createTier in E. rewrite Hs in E. simpl in E.
    injection E as <-. simpl. rewrite Get_absent by done. simpl. rewrite Hts. simpl. eauto.
Qed.

(** What a successful configuration leaves: the cache has the new tiers. *)
Lemma ConfigureCache_Ok w tc (m : Manager Tier) m' : ConfigureCache w tc m = (m', Ok tt) ->
  let name := om_Name (tc_ObjectMeta tc) in exists ts c,
    createTiers w 0 name (tcs_Tiers (tc_Spec tc)) = Ok ts /\ lookupConfig name m' = Some (length (m_heap m), c) /\ cc_Tiers c = ts /\
    m_caches m' = <[name := length (m_heap m)]> (m_caches m) /\ m_heap m' = m_heap m ++ [c].
Proof.
  intros Hr name. unfold ConfigureCache in Hr. fold name in Hr. destruct (createTiers w 0 name _) as [ts|err] eqn:Ect; [|done].
  injection Hr as <-. eexists ts, (mkCacheConfig name ts _ _ _ _). split; [done|].
  match goal with |- lookupConfig _ ?x = _ /\ _ => set (m2 := x) end.
  assert (E : m_caches m2 = <[name := length (m_heap m)]> (m_caches m) /\ exists c, m_heap m2 = m_heap m ++ [c] /\ c = mkCacheConfig name ts
    (tcs_EvictionPolicy (tc_Spec tc)) (tcs_CoherencePolicy (tc_Spec tc))
    (match tcs_Warmup (tc_Spec tc) with Some wu => ws_Enabled wu | None => false end)
    (match tcs_Warmup (tc_Spec tc) with Some wu => ws_CommonPrefixes wu | None => [] end))
    by (unfold m2; destruct (_ && _); simpl; eauto).
  destruct E as (Hcaches & c & Hheap & Hc). unfold lookupConfig. rewrite Hcaches, Hheap, lookup_insert_eq. simpl.
  rewrite lookup_app_r, Nat.sub_diag by lia. simpl. by rewrite Hc.
Qed.

(** A Redis tier is healthy when the server at its address answers a ping. *)
Lemma createTier_redis w cn s t : cts_Type s = CacheTierTypeRedis -> createTier w cn s = Ok t ->
  tier_Healthy t = is_ok (Ping (connectOptions (cts_RedisConfig s)) (w_server w)).2.
Proof.
  intros Ht Hc. unfold createTier in Hc. rewrite Ht in Hc. cbn in Hc. unfold NewRedisCache, connect in Hc. simpl in Hc.
  destruct (Ping _ _) as [server r]. by injection Hc as <-.
Qed.

(** A configuration succeeds when every tier type is supported. *)
Lemma ConfigureCache_is_ok w tc (m : Manager Tier) m' r : ConfigureCache w tc m = (m', r) ->
  is_ok r = true <-> Forall (fun s => supported (cts_Type s)) (tcs_Tiers (tc_Spec tc)).
Proof.
  intros Hr. unfold ConfigureCache in Hr. pose proof (createTiers_spec w 0 (om_Name (tc_ObjectMeta tc)) (tcs_Tiers (tc_Spec tc))) as Hts.
  destruct (createTiers _ _ _ _) as [ts|err]; injection Hr as <- <-; [by destruct Hts | by split].
Qed.
End configure_facts.

(** * Properties *)
Section properties.
Context `{QO : QuantityOps} {T : Type} `{TO : !CacheTierOps T} `{TL : !CacheTierLaws T}.
Implicit Types (e : mgr_env) (m : Manager T) (t : T) (ts : list T).

(** C20. [Get] asks the tiers in order and stops at the first that has the
    key: the tiers before it missed, the tiers after it are untouched, and
    under write-through a promotion of the entry is started; when every
    tier misses or fails it reports that the key is not found. *)
Theorem manager_Get_first_hit e name key m m' l c r : lookupConfig name m = Some (l, c) ->
  Get e name key m = Ret (m', r) ->
  (exists pre t t' post pre' ent, r = Ok ent /\ cc_Tiers c = pre ++ t :: post /\
     missed e key 0 pre pre' /\ tier_Get (e (length pre)) key t = Ret (t', Ok (Some ent)) /\
     lookupConfig name m' = Some (l, set_tiers (pre' ++ t' :: post) c) /\
     m_tasks m' = m_tasks m ++ (if bool_decide (cc_CoherencePolicy c = "write-through")
                                then [Promote l (tier_Name t') key ent] else [])) \/
  (exists ts', r = Err ("key not found: " +:+ key) /\ missed e key 0 (cc_Tiers c) ts' /\
     lookupConfig name m' = Some (l, set_tiers ts' c) /\ m_tasks m' = m_tasks m).
Proof.
  intros Hc Hg. unfold Get in Hg. rewrite Hc in Hg.
  apply outcome_bind_Ret in Hg as ([ts' hit] & Hts & Hg). apply getTiers_spec in Hts.
  pose proof (lookupConfig_update name m l c ts' Hc) as Hup.
  destruct hit as [[nm ent]|]; injection Hg as <- <-.
  - left. destruct Hts as (pre & t & t' & post & pre' & Ht & -> & Hm & Hget & ->).
    exists pre, t, t', post, pre', ent. split_and!; try done; case_bool_decide; simpl; by rewrite ?app_nil_r.
  - right. by exists ts'.
Qed.

(** C21. Read your writes: under every policy but write-back and write-around,
    when all tiers accept a [Set], what a [Get] of the key returns next is
    the value set. *)
Theorem manager_Set_Get e e' name key v ttl m l c ts' rs : lookupConfig name m = Some (l, c) ->
  Forall tier_ok (cc_Tiers c) -> writes_all (cc_CoherencePolicy c) ->
  setAll e key v ttl (cc_Tiers c) = Ret (ts', rs) -> Forall (fun r => r = Ok tt) rs ->
  exists m', Set_ e name key v ttl m = Ret (m', Ok tt) /\
    forall m'' ent, Get e' name key m' = Ret (m'', Ok ent) -> ce_Value ent = v /\ ce_Key ent = key.
Proof.
  intros Hc Hok Hp Hs Hrs. exists (update_tiers l ts' m).
  split; [by eapply Set_writes_all|]. intros m'' ent Hg.
  apply (Get_Ok_hit _ _ _ _ _ l (set_tiers ts' c)) in Hg as (j & t & t' & Hj & Hget);
    [|by apply lookupConfig_update].
  destruct (eachTier_spec _ _ _ _ _ Hs) as (Hl1 & Hl2 & Heach). simpl in Hj.
  destruct (lookup_lt_is_Some_2 (cc_Tiers c) j) as [t0 Ht0].
  { rewrite <- Hl1. by eapply lookup_lt_Some. }
  destruct (Heach j t0 Ht0) as (t1 & r & H1 & H2 & Hset). simplify_eq.
  rewrite Forall_forall in Hrs. assert (r = Ok tt) as -> by (apply Hrs; by eapply list_elem_of_lookup_2).
  eapply law_Set_Get; [|exact Hset|exact Hget]. eapply Forall_lookup_1; [exact Hok|exact Ht0].
Qed.

(** Under write-around [Set] writes the last tier only and removes nothing:
    when the first of several tiers holds the key, [Get] goes on returning
    its old entry after the [Set], whatever was set. *)
Theorem manager_write_around_stale e e' name key v ttl m l c t0 ts tl tl' t0' ent :
  lookupConfig name m = Some (l, c) -> cc_CoherencePolicy c = "write-around" ->
  cc_Tiers c = t0 :: ts -> last ts = Some tl -> tier_Set (e (length ts)) key v ttl tl = Ret (tl', Ok tt) ->
  tier_Get (e' 0%nat) key t0 = Ret (t0', Ok (Some ent)) ->
  exists m' m'', Set_ e name key v ttl m = Ret (m', Ok tt) /\ Get e' name key m' = Ret (m'', Ok ent).
Proof.
  intros Hc Hp Ht Hlast Hset Hget.
  assert (Hlt : last (t0 :: ts) = Some tl) by (by rewrite last_cons, Hlast).
  destruct ts as [|t1 ts]; [done|]. eexists _, _. split.
  - unfold Set_. rewrite Hc, Hp, Ht. cbn [bool_decide]. rewrite Hlt.
    replace (length (t0 :: t1 :: ts) - 1)%nat with (length (t1 :: ts)) by (simpl; lia).
    rewrite Hset. reflexivity.
  - unfold Get. rewrite (lookupConfig_update _ _ _ _ _ Hc). simpl.
    rewrite Hget. reflexivity.
Qed.

(** [Delete] forgets: when every tier accepts it, no later [Get] of the
    key returns an entry until the key is stored again. *)
Theorem manager_Delete_Get e e' name key m l c ts' rs : lookupConfig name m = Some (l, c) ->
  Forall tier_ok (cc_Tiers c) -> deleteAll e key (cc_Tiers c) = Ret (ts', rs) -> Forall (fun r => r = Ok tt) rs ->
  exists m', Delete e name key m = Ret (m', Ok tt) /\
    forall m'' r, Get e' name key m' = Ret (m'', r) -> r = Err ("key not found: " +:+ key).
Proof.
  intros Hc Hok Hs Hrs. exists (update_tiers l ts' m). split.
  { unfold Delete. rewrite Hc, Hs. done. }
  intros m'' [ent|err] Hg.
  - exfalso. apply (Get_Ok_hit _ _ _ _ _ l (set_tiers ts' c)) in Hg as (j & t & t' & Hj & Hget);
      [|by apply lookupConfig_update].
    destruct (eachTier_spec _ _ _ _ _ Hs) as (Hl1 & Hl2 & Heach). simpl in Hj.
    destruct (lookup_lt_is_Some_2 (cc_Tiers c) j) as [t0 Ht0].
    { rewrite <- Hl1. by eapply lookup_lt_Some. }
    destruct (Heach j t0 Ht0) as (t1 & r & H1 & H2 & Hdel). simplify_eq.
    rewrite Forall_forall in Hrs. assert (r = Ok tt) as -> by (apply Hrs; by eapply list_elem_of_lookup_2).
    assert (Hokt : tier_ok t0) by (eapply Forall_lookup_1; [exact Hok|exact Ht0]).
    exact (law_Delete_Get _ _ _ _ _ _ _ Hokt Hdel Hget ent eq_refl).
  - unfold Get in Hg. rewrite (lookupConfig_update _ _ _ _ _ Hc) in Hg.
    apply outcome_bind_Ret in Hg as ([ts'' [[nm en]|]] & _ & Hg); injection Hg as _ Hg; congruence.
Qed.
End properties.

Section configure_properties.
Context `{QO : QuantityOps} `{GR : GoRuntime} `{CO : Codecs} `{RS : RedisServer}.

(** [ConfigureCache] succeeds exactly when every tier type is one of
    prefix, local and redis, and changes nothing otherwise; on success the
    cache has new tiers with the specified names in order and the other
    caches are unchanged.  New means empty: configuring a cache of prefix
    tiers again, as every reconciliation does, loses all its entries. *)
Theorem manager_ConfigureCache w tc (m : Manager Tier) m' r : ConfigureCache w tc m = (m', r) ->
  let name := om_Name (tc_ObjectMeta tc) in let specs := tcs_Tiers (tc_Spec tc) in
  (is_ok r = true <-> Forall (fun s => supported (cts_Type s)) specs) /\
  (is_ok r = false -> m' = m) /\
  (is_ok r = true ->
    (forall name', name' <> name -> m_caches m' !! name' = m_caches m !! name') /\
    (exists c, lookupConfig name m' = Some (length (m_heap m), c) /\ tier_Name <$> cc_Tiers c = cts_Name <$> specs) /\
    (Forall (fun s => cts_Type s = CacheTierTypePrefix) specs -> forall e key, exists m'',
       Get e name key m' = Ret (m'', Err ("key not found: " +:+ key)))).
Proof.
  intros Hr name specs. split; [by apply ConfigureCache_is_ok in Hr|]. split.
  { intros Hno. unfold ConfigureCache in Hr. destruct (createTiers _ _ _ _); injection Hr as <- <-; done. }
  destruct r as [[]|err]; [intros _ | done]. apply ConfigureCache_Ok in Hr as (ts & c & Ect & Hc & Hct & Hcaches & _).
  fold name specs in Ect, Hc, Hcaches. pose proof (createTiers_spec w 0 name specs) as Hts. rewrite Ect in Hts.
  destruct Hts as (_ & Hnames & _). split_and!.
  - intros name' Hne. by rewrite Hcaches, lookup_insert_ne.
  - exists c. by rewrite Hct.
  - intros Hpre e key. destruct (missed_prefix e w name key specs ts 0 0 Ect Hpre) as [ts' Hget].
    eexists. unfold Get. rewrite Hc, Hct, Hget. reflexivity.
Qed.
End configure_properties.

(** * Witnesses *)
Section witnesses.
#[local] Existing Instance ZQuantity.
#[local] Existing Instance stdRuntime.

Definition ptiers : Type := PrefixCache.PrefixCache.
Definition menv : mgr_env := fun _ => mkTierEnv 9 9 0 no_faults.
Definition mone (policy : string) (ts : list ptiers) : Manager ptiers :=
  mkManager [mkCacheConfig "c" ts EvictionPolicyLRU policy false []] {["c" := 0%nat]} 0 false false [].
Definition mconf (policy : string) (ts : list ptiers) : CacheConfig ptiers :=
  mkCacheConfig "c" ts EvictionPolicyLRU policy false [].
Definition mafter {A} (m : Manager ptiers) (o : outcome (Manager ptiers * A)) : Manager ptiers :=
  match o with Ret (m', _) => m' | _ => m end.

Lemma demo_tiers_ok : Forall tier_ok [PrefixProps.demo0; PrefixProps.demo1].
Proof. constructor; [exact PrefixProps.demo0_Inv|]. constructor; [exact PrefixProps.demo1_Inv|constructor]. Qed.

Definition mget : Manager ptiers := mone "write-through" [PrefixProps.demo0; PrefixProps.demo1].
Definition mgot : Manager ptiers := mafter mget (Get menv "c" PrefixProps.demoKey mget).
Definition mentry : CacheEntry := mkCacheEntry PrefixProps.demoKey (replicate 90 1) 90 5 9 0 0 "prefix" ∅.
Lemma mgot_get : Get menv "c" PrefixProps.demoKey mget = Ret (mgot, Ok mentry).
Proof. vm_compute. reflexivity. Qed.

Lemma manager_Get_first_hit_witness : m_tasks mgot <> [].
Proof.
  destruct (manager_Get_first_hit menv "c" PrefixProps.demoKey mget mgot 0
    (mconf "write-through" [PrefixProps.demo0; PrefixProps.demo1]) (Ok mentry) eq_refl mgot_get)
    as [(pre & t & t' & post & pre' & ent & _ & _ & _ & _ & _ & Ht)|(ts' & Hr & _)]; [|discriminate Hr].
  rewrite Ht. discriminate.
Defined.

Definition mset_ts : list ptiers :=
  match setAll menv "k" [7; 8] 0 [PrefixProps.demo0; PrefixProps.demo1] with Ret (ts, _) => ts | _ => [] end.
Lemma mset_run_all : setAll menv "k" [7; 8] 0 [PrefixProps.demo0; PrefixProps.demo1] = Ret (mset_ts, [Ok tt; Ok tt]).
Proof. vm_compute. reflexivity. Qed.
Lemma manager_Set_Get_witness :
  exists m', Set_ menv "c" "k" [7; 8] 0 mget = Ret (m', Ok tt) /\
    forall m'' ent, Get menv "c" "k" m' = Ret (m'', Ok ent) -> ce_Value ent = [7; 8] /\ ce_Key ent = "k".
Proof.
  apply (manager_Set_Get menv menv "c" "k" [7; 8] 0 mget 0 (mconf "write-through" [PrefixProps.demo0; PrefixProps.demo1])
    mset_ts [Ok tt; Ok tt] eq_refl demo_tiers_ok); [split; discriminate | exact mset_run_all | repeat constructor].
Defined.

Definition maround : Manager ptiers := mone "write-around" [PrefixProps.demo1; PrefixProps.demo0].
Definition mlast : ptiers := PrefixProps.state_of PrefixProps.demo0 (tier_Set (menv 1%nat) PrefixProps.demoKey [7] 0 PrefixProps.demo0).
Definition mfirst : ptiers := PrefixProps.state_of PrefixProps.demo1 (tier_Get (menv 0%nat) PrefixProps.demoKey PrefixProps.demo1).
Lemma manager_write_around_stale_witness :
  exists m' m'', Set_ menv "c" PrefixProps.demoKey [7] 0 maround = Ret (m', Ok tt) /\
    Get menv "c" PrefixProps.demoKey m' = Ret (m'', Ok mentry).
Proof.
  apply (manager_write_around_stale menv menv "c" PrefixProps.demoKey [7] 0 maround 0
    (mconf "write-around" [PrefixProps.demo1; PrefixProps.demo0]) PrefixProps.demo1 [PrefixProps.demo0]
    PrefixProps.demo0 mlast mfirst mentry eq_refl eq_refl eq_refl eq_refl); vm_compute; reflexivity.
Defined.

Definition mdel_ts : list ptiers :=
  match deleteAll menv PrefixProps.demoKey [PrefixProps.demo0; PrefixProps.demo1] with Ret (ts, _) => ts | _ => [] end.
Lemma mdel_run_all : deleteAll menv PrefixProps.demoKey [PrefixProps.demo0; PrefixProps.demo1] = Ret (mdel_ts, [Ok tt; Ok tt]).
Proof. vm_compute. reflexivity. Qed.
Lemma manager_Delete_Get_witness :
  exists m', Delete menv "c" PrefixProps.demoKey mget = Ret (m', Ok tt) /\
    forall m'' r, Get menv "c" PrefixProps.demoKey m' = Ret (m'', r) -> r = Err ("key not found: " +:+ PrefixProps.demoKey).
Proof.
  apply (manager_Delete_Get menv menv "c" PrefixProps.demoKey mget 0
    (mconf "write-through" [PrefixProps.demo0; PrefixProps.demo1]) mdel_ts [Ok tt; Ok tt] eq_refl demo_tiers_ok);
    [exact mdel_run_all | repeat constructor].
Defined.
End witnesses.

Section configure_witness.
#[local] Existing Instance ZQuantity.
#[local] Existing Instance stdRuntime.
#[local] Existing Instance storeCodecs.
#[local] Existing Instance memServer.

Definition demoWorld : world := mkWorld _ (fun _ => 0) 0 no_faults ∅ (∅ : gmap string (gmap string bytes)).
Definition demoTier (ty : CacheTierType) : CacheTierSpec :=
  mkCacheTierSpec _ "t" ty (100 : @Quantity ZQuantity) None 0 None None None.
Definition demoCache (ty : CacheTierType) : TokenCache :=
  mkTokenCache _ (mkObjectMeta "c" "ns" 1 None [])
    (mkTokenCacheSpec _ [demoTier ty] EvictionPolicyLRU None "write-through" false 0)
    (mkTokenCacheStatus _ "" (0 : @Quantity ZQuantity) (0 : @Quantity ZQuantity) 0 f64_zero [] None [] None 0).

(** A prefix cache that has been configured forgets; memcached is refused. *)
Lemma manager_ConfigureCache_witness :
  (forall e key, exists m'', Get e "c" key (ConfigureCache (fun _ => demoWorld) (demoCache CacheTierTypePrefix) NewManager).1
    = Ret (m'', Err ("key not found: " +:+ key))) /\
  (ConfigureCache (fun _ => demoWorld) (demoCache CacheTierTypeMemcached) NewManager).1 = NewManager.
Proof.
  split.
  - destruct (manager_ConfigureCache (fun _ => demoWorld) (demoCache CacheTierTypePrefix) NewManager _ _
      (surjective_pairing _)) as (_ & _ & H).
    apply H; [reflexivity|]. repeat constructor.
  - destruct (manager_ConfigureCache (fun _ => demoWorld) (demoCache CacheTierTypeMemcached) NewManager _ _
      (surjective_pairing _)) as (_ & H & _).
    apply H. reflexivity.
Defined.
End configure_witness.
