(* ===== verification/GpuTypes.v ===== *)
(** The data that the GPU managers share (internal/gpu/manager.go).  Devices
    are heap objects: a pool keeps pointers to them. *)
From S2P Require Import Prelude GoFloat Api.
Local Open Scope Z_scope.

Record MIGInstance `{QuantityOps} := mkMIGInstance {
  mi_InstanceID : string;
  mi_Profile : string;
  mi_Memory : Quantity;
  mi_ComputeUnits : Z;
  mi_InUse : bool;
  mi_AllocatedTo : string;
}.

Record Allocation `{QuantityOps} := mkAllocation {
  al_ServiceRef : string;
  al_Namespace : string;
  al_AllocatedMemory : Quantity;
  al_AllocatedAt : Z;
  al_SharingMode : GPUSharingMode;
}.

Record GPUInfo `{QuantityOps} := mkGPUInfo {
  gi_DeviceID : string;
  gi_UUID : string;
  gi_Model : string;
  gi_NodeName : string;
  gi_TotalMemory : Quantity;
  gi_AvailableMemory : Quantity;
  gi_Utilization : Z;
  gi_Temperature : Z;
  gi_PowerUsage : Z;
  gi_MIGEnabled : bool;
  gi_MIGInstances : list MIGInstance;
  gi_Allocations : list Allocation;
}.

Record AllocationRequest `{QuantityOps} := mkAllocationRequest {
  rq_ServiceName : string;
  rq_Namespace : string;
  rq_GPUType : string;
  rq_GPUCount : Z;
  rq_Memory : Quantity;
  rq_SharingMode : GPUSharingMode;
  rq_MIGProfile : string;
  rq_PoolName : string;
}.

Record GPUAllocationInfo `{QuantityOps} := mkGPUAllocationInfo {
  ga_NodeName : string;
  ga_DeviceID : string;
  ga_MIGInstance : string;
  ga_Memory : Quantity;
}.

Record AllocationResult `{QuantityOps} := mkAllocationResult {
  ar_Success : bool;
  ar_Allocations : list GPUAllocationInfo;
  ar_Error : option error;
}.

(** [pi_GPUs] are pointers to devices. *)
Record PoolInfo := mkPoolInfo {
  pi_Name : string;
  pi_NodeSelector : gmap string string;
  pi_GPUType : string;
  pi_SharingMode : GPUSharingMode;
  pi_MIGProfiles : list MIGProfileSpec;
  pi_OversubscriptionRatio : float64;
  pi_TotalGPUs : Z;
  pi_AvailableGPUs : Z;
  pi_GPUs : list loc;
}.

(** [fmt.Sprintf("%s/%s", a, b)] *)
Definition slash_key (a b : string) : string := a +:+ "/" +:+ b.
Definition gpu_key `{QuantityOps} (g : GPUInfo) : string := slash_key (gi_NodeName g) (gi_DeviceID g).

(** Whether a pool asks for a sharing mode. *)
Definition has_mode `{QuantityOps} (mode : GPUSharingMode) (pool : GPUPool) : option GPUSharingSpec :=
  match gps_Sharing (gp_Spec pool) with
  | Some sh => if bool_decide (gss_Mode sh = mode) then Some sh else None
  | None => None
  end.
Definition pool_name `{QuantityOps} (pool : GPUPool) : string := om_Name (gp_ObjectMeta pool).

(** A pool to evaluate with: a sharing mode with its MIG profiles, time-slice
    interval (milliseconds) and MPS thread percentage. *)
Definition example_pool `{QuantityOps} (name : string) (mode : GPUSharingMode) (profiles : list MIGProfileSpec)
    (interval percentage : Z) : GPUPool :=
  mkGPUPool _ (mkObjectMeta name "" 0 None [])
    (mkGPUPoolSpec _ ∅ "" (Some (mkGPUSharingSpec _ mode profiles interval percentage None)) None "" "" None)
    (mkGPUPoolStatus _ GPUPoolPhasePending 0 0 0 Quantity_zero Quantity_zero [] [] None 0).
