(* ===== verification/Mig.v ===== *)
(** internal/gpu/mig.go: the MIG manager.  Instances are heap objects that a
    pool's configuration and the global index both point to. *)
From S2P Require Import Prelude GoFloat Api GpuTypes.
Local Open Scope Z_scope.

Record MIGProfile `{QuantityOps} := mkMIGProfile {
  pr_Name : string;
  pr_Memory : Quantity;
  pr_ComputeSlices : Z;
  pr_MemorySlices : Z;
  pr_MaxInstances : Z;
}.

Record MIGInstanceInfo `{QuantityOps} := mkMIGInstanceInfo {
  ii_InstanceID : string;
  ii_GPUUUID : string;
  ii_Profile : MIGProfile;
  ii_NodeName : string;
  ii_InUse : bool;
  ii_AllocatedTo : string;
  ii_Namespace : string;
}.

Record MIGPoolConfig := mkMIGPoolConfig {
  mc_PoolName : string;
  mc_Profiles : list MIGProfileSpec;
  mc_Instances : gmap string loc;
}.

Record MIGManager `{QuantityOps} := mkMIGManager {
  mm_heap : list MIGInstanceInfo;
  mm_pools : gmap string MIGPoolConfig;
  mm_instances : gmap string loc;
}.

(** The table of well-known profiles: name, memory, slices, maximum. *)
Definition profile_rows : list (string * string * (Z * Z * Z)) := [
  ("7g.80gb", "80Gi", (7, 8, 1)); ("4g.40gb", "40Gi", (4, 4, 1)); ("3g.40gb", "40Gi", (3, 4, 2));
  ("2g.20gb", "20Gi", (2, 2, 3)); ("1g.10gb", "10Gi", (1, 1, 7)); ("1g.5gb", "5Gi", (1, 1, 7));
  ("3g.20gb", "20Gi", (3, 4, 2)); ("2g.10gb", "10Gi", (2, 2, 3));
  ("7g.141gb", "141Gi", (7, 8, 1)); ("4g.94gb", "94Gi", (4, 4, 1)); ("3g.47gb", "47Gi", (3, 4, 2));
  ("2g.24gb", "24Gi", (2, 2, 3)); ("1g.12gb", "12Gi", (1, 1, 7))].
Definition migProfiles `{QuantityOps} : gmap string MIGProfile :=
  list_to_map ((fun '(n, mem, (c, ms, mx)) => (n, mkMIGProfile _ n (MustParse mem) c ms mx)) <$> profile_rows).

Definition migset_heap `{QuantityOps} v (m : MIGManager) : MIGManager := mkMIGManager _ v (mm_pools m) (mm_instances m).
Definition migset_pools `{QuantityOps} v (m : MIGManager) : MIGManager := mkMIGManager _ (mm_heap m) v (mm_instances m).
Definition migset_instances `{QuantityOps} v (m : MIGManager) : MIGManager := mkMIGManager _ (mm_heap m) (mm_pools m) v.
Definition with_instances (v : gmap string loc) (c : MIGPoolConfig) : MIGPoolConfig :=
  mkMIGPoolConfig (mc_PoolName c) (mc_Profiles c) v.
(** Assigns or frees an instance. *)
Definition set_owner `{QuantityOps} (inUse : bool) (service namespace : string) (i : MIGInstanceInfo) : MIGInstanceInfo :=
  mkMIGInstanceInfo _ (ii_InstanceID i) (ii_GPUUUID i) (ii_Profile i) (ii_NodeName i) inUse service namespace.

Section operations.
Context `{QuantityOps} `{GoRuntime}.
Implicit Type m : MIGManager.

Definition NewMIGManager : MIGManager := mkMIGManager _ [] ∅ ∅.

Definition unknown_profile (name : string) : error := "unknown MIG profile: " +:+ name.
Definition no_mig_pool (name : string) : error := "MIG pool not found: " +:+ name.

Definition ConfigurePool (pool : GPUPool) m : MIGManager * result unit :=
  match has_mode GPUSharingModeMIG pool with
  | None => (m, Err ("pool " +:+ pool_name pool +:+ " is not configured for MIG mode"))
  | Some sh =>
      match list_find (fun p => migProfiles !! mps_Name p = None) (gss_Profiles sh) with
      | Some (_, p) => (m, Err (unknown_profile (mps_Name p)))
      | None =>
          (migset_pools (<[pool_name pool := mkMIGPoolConfig (pool_name pool) (gss_Profiles sh) ∅]> (mm_pools m)) m, Ok tt)
      end
  end.

(** The first instance of a range that is in use. *)
Definition first_in_use m (ls : list (string * loc)) : option MIGInstanceInfo :=
  head (omap (fun '(_, l) => i ← mm_heap m !! l; if ii_InUse i then Some i else None) ls).

Definition CleanupPool (seed : nat) (poolName : string) m : MIGManager * result unit :=
  match mm_pools m !! poolName with
  | None => (m, Ok tt)
  | Some config =>
      match first_in_use m (range seed (mc_Instances config)) with
      | Some i => (m, Err ("cannot cleanup pool " +:+ poolName +:+ ": instance " +:+ ii_InstanceID i
                           +:+ " is in use by " +:+ ii_Namespace i +:+ "/" +:+ ii_AllocatedTo i))
      | None =>
          let instances := fold_left (fun g '(instanceID, _) => delete instanceID g)
                             (range (S seed) (mc_Instances config)) (mm_instances m) in
          (migset_pools (delete poolName (mm_pools m)) (migset_instances instances m), Ok tt)
      end
  end.

(** The loop of [findAvailableInstances] over a range of the pool's instances. *)
Fixpoint collectAvailable m (profileName : string) (count : Z) (ls : list (string * loc)) (available : list loc)
    : list loc :=
  match ls with
  | [] => available
  | (_, l) :: rest =>
      match mm_heap m !! l with
      | Some i =>
          if bool_decide (pr_Name (ii_Profile i) = profileName) && negb (ii_InUse i) then
            let available := available ++ [l] in
            if count <=? Z.of_nat (length available) then available
            else collectAvailable m profileName count rest available
          else collectAvailable m profileName count rest available
      | None => collectAvailable m profileName count rest available
      end
  end.
Definition findAvailableInstances (seed : nat) (config : MIGPoolConfig) (profileName : string) (count : Z) m : list loc :=
  collectAvailable m profileName count (range seed (mc_Instances config)) [].

Definition instance_id (profileName : string) (n : Z) : string := "mig-" +:+ profileName +:+ "-" +:+ print_Z n.
Definition newInstance (profile : MIGProfile) (profileName : string) (n i : nat) : MIGInstanceInfo :=
  mkMIGInstanceInfo _ (instance_id profileName (Z.of_nat (n + i)%nat)) ("GPU-simulated-" +:+ print_Z (Z.of_nat i)) profile
    "node-1" false "" "".

(** The loop of [createInstances]: [k] iterations left, at index [i]. *)
Fixpoint createLoop (profile : MIGProfile) (profileName : string) (k i : nat) (config : MIGPoolConfig) m (created : list loc)
    : MIGPoolConfig * MIGManager * list loc :=
  match k with
  | O => (config, m, created)
  | S k' =>
      let instance := newInstance profile profileName (size (mc_Instances config)) i in
      let l := length (mm_heap m) in
      let m := migset_heap (mm_heap m ++ [instance]) m in
      let config := with_instances (<[ii_InstanceID instance := l]> (mc_Instances config)) config in
      let m := migset_instances (<[ii_InstanceID instance := l]> (mm_instances m)) m in
      createLoop profile profileName k' (S i) config m (created ++ [l])
  end.
Definition createInstances (poolName profileName : string) (count : Z) m : MIGManager * result (list loc) :=
  match migProfiles !! profileName, mm_pools m !! poolName with
  | Some profile, Some config =>
      let '(config, m, created) := createLoop profile profileName (Z.to_nat count) 0 config m [] in
      (migset_pools (<[poolName := config]> (mm_pools m)) m, Ok created)
  | _, _ => (m, Err (unknown_profile profileName))
  end.

(** The allocation loop: the first [GPUCount] available instances get the
    service's name. *)
Fixpoint assignLoop (req : AllocationRequest) (memory : Quantity) (ls : list loc) m : MIGManager * list GPUAllocationInfo :=
  match ls with
  | [] => (m, [])
  | l :: rest =>
      match mm_heap m !! l with
      | Some i =>
          let m := migset_heap (alter (set_owner true (rq_ServiceName req) (rq_Namespace req)) l (mm_heap m)) m in
          let '(m, infos) := assignLoop req memory rest m in
          (m, mkGPUAllocationInfo _ (ii_NodeName i) (ii_GPUUUID i) (ii_InstanceID i) memory :: infos)
      | None => assignLoop req memory rest m
      end
  end.

Definition Allocate (seed : nat) (req : AllocationRequest) (poolName : string) m
    : outcome (MIGManager * result (list GPUAllocationInfo)) :=
  let count := rq_GPUCount req in
  match mm_pools m !! poolName with
  | None => Ret (m, Err (no_mig_pool poolName))
  | Some config =>
      match migProfiles !! rq_MIGProfile req with
      | None => Ret (m, Err (unknown_profile (rq_MIGProfile req)))
      | Some profile =>
          let available := findAvailableInstances seed config (rq_MIGProfile req) count m in
          let '(m, r) :=
            if Z.of_nat (length available) <? count then
              match createInstances poolName (rq_MIGProfile req) (count - Z.of_nat (length available)) m with
              | (m, Err e) => (m, Err ("failed to create MIG instances: " +:+ e))
              | (m, Ok created) => (m, Ok (available ++ created))
              end
            else (m, Ok available) in
          match r with
          | Err e => Ret (m, Err e)
          | Ok available =>
              if Z.of_nat (length available) <? count
              then Ret (m, Err ("insufficient MIG instances: requested " +:+ print_Z count +:+ ", available "
                                +:+ print_Z (Z.of_nat (length available))))
              else
                _ ← make_cap count;
                let '(m, infos) := assignLoop req (pr_Memory profile) (take (Z.to_nat count) available) m in
                Ret (m, Ok infos)
          end
      end
  end.

(** [Release] frees every instance of the global index that the service has. *)
Definition owned_by (service namespace : string) (i : MIGInstanceInfo) : bool :=
  bool_decide (ii_AllocatedTo i = service) && bool_decide (ii_Namespace i = namespace).
Definition releaseOne (service namespace : string) (i : MIGInstanceInfo) : MIGInstanceInfo :=
  if owned_by service namespace i then set_owner false "" "" i else i.
Definition Release (seed : nat) (service namespace : string) m : MIGManager * result unit :=
  (fold_left (fun m '(_, l) => migset_heap (alter (releaseOne service namespace) l (mm_heap m)) m)
     (range seed (mm_instances m)) m, Ok tt).

Definition DestroyInstance (instanceID : string) m : MIGManager * result unit :=
  match mm_instances m !! instanceID with
  | None => (m, Err ("MIG instance not found: " +:+ instanceID))
  | Some l =>
      match mm_heap m !! l with
      | Some i =>
          if ii_InUse i
          then (m, Err ("cannot destroy MIG instance " +:+ instanceID +:+ ": in use by " +:+ ii_Namespace i +:+ "/"
                        +:+ ii_AllocatedTo i))
          else
            let m := migset_pools ((fun c => with_instances (delete instanceID (mc_Instances c)) c) <$> mm_pools m) m in
            (migset_instances (delete instanceID (mm_instances m)) m, Ok tt)
      | None => (m, Err ("MIG instance not found: " +:+ instanceID))
      end
  end.

Definition GetInstance (instanceID : string) m : result loc :=
  match mm_instances m !! instanceID with
  | Some l => Ok l
  | None => Err ("MIG instance not found: " +:+ instanceID)
  end.
Definition ListInstances (seed : nat) (poolName : string) m : result (list loc) :=
  match mm_pools m !! poolName with
  | Some config => Ok (range seed (mc_Instances config)).*2
  | None => Err (no_mig_pool poolName)
  end.
Definition GetProfile (profileName : string) : result MIGProfile :=
  match migProfiles !! profileName with Some p => Ok p | None => Err (unknown_profile profileName) end.
Definition ValidateProfile (profileName : string) : bool := bool_decide (is_Some (migProfiles !! profileName)).

(** The profile names of a GPU type; [None] stands for all of them. *)
Definition type_profiles (gpuType : string) : option (list string) :=
  if bool_decide (gpuType = "nvidia-a100-80gb" \/ gpuType = "nvidia-a100") then
    Some ["7g.80gb"; "4g.40gb"; "3g.40gb"; "2g.20gb"; "1g.10gb"; "1g.5gb"]
  else if bool_decide (gpuType = "nvidia-a100-40gb") then Some ["3g.20gb"; "2g.10gb"; "1g.5gb"]
  else if bool_decide (gpuType = "nvidia-h100") then Some ["7g.141gb"; "4g.94gb"; "3g.47gb"; "2g.24gb"; "1g.12gb"]
  else None.
Definition GetAvailableProfiles (seed : nat) (gpuType : string) : list MIGProfile :=
  (filter (fun x : string * MIGProfile =>
     match type_profiles gpuType with Some names => bool_decide (x.1 ∈ names) | None => true end = true)
     (range seed migProfiles)).*2.

(** [ReconcileInstances] only logs how the counts differ from the specified
    ones; it changes nothing. *)
Definition ReconcileInstances (poolName : string) m : MIGManager * result unit :=
  match mm_pools m !! poolName with
  | None => (m, Err (no_mig_pool poolName))
  | Some config => (m, Ok tt)
  end.
End operations.
