(* ===== verification/MigProps.v ===== *)
(** Properties of the MIG manager (mig.go): what [Allocate] grants, how the
    generated instance identifiers collide, and what [Release] frees. *)
From S2P Require Import Prelude GoFloat Api GpuTypes Mig.
Local Open Scope Z_scope.

(** An index maps identifiers to instances that carry them, of known profiles. *)
Definition index_ok `{QuantityOps} (heap : list MIGInstanceInfo) (idx : gmap string loc) : Prop :=
  forall id l, idx !! id = Some l -> exists i, heap !! l = Some i /\ ii_InstanceID i = id.
Record MigWF `{QuantityOps} (m : MIGManager) : Prop := {
  mwf_pools : forall p c, mm_pools m !! p = Some c -> index_ok (mm_heap m) (mc_Instances c);
  mwf_instances : index_ok (mm_heap m) (mm_instances m);
}.

(** A free instance of a profile. *)
Definition free_of `{QuantityOps} (heap : list MIGInstanceInfo) (profileName : string) (l : loc) : Prop :=
  exists i, heap !! l = Some i /\ pr_Name (ii_Profile i) = profileName /\ ii_InUse i = false.

(** What a successful allocation did: [ls] are the instances granted. *)
Record granted `{QuantityOps} (req : AllocationRequest) (m m' : MIGManager) (ls : list loc)
    (infos : list GPUAllocationInfo) : Prop := {
  gr_WF : MigWF m';
  gr_NoDup : NoDup ls;
  gr_count : Z.of_nat (length ls) = rq_GPUCount req;
  gr_infos : length infos = length ls;
  gr_owner : forall j l, ls !! j = Some l -> exists i info, mm_heap m' !! l = Some i /\ infos !! j = Some info /\
    ii_InUse i = true /\ ii_AllocatedTo i = rq_ServiceName req /\ ii_Namespace i = rq_Namespace req /\
    pr_Name (ii_Profile i) = rq_MIGProfile req /\ ga_MIGInstance info = ii_InstanceID i /\
    (exists profile, migProfiles !! rq_MIGProfile req = Some profile /\ ga_Memory info = pr_Memory profile);
  gr_free : forall l i, l ∈ ls -> mm_heap m !! l = Some i -> ii_InUse i = false;
  gr_frame : forall l i, l ∉ ls -> mm_heap m !! l = Some i -> mm_heap m' !! l = Some i;
}.

(** The info reported for an instance. *)
Definition info_of `{QuantityOps} (memory : Quantity) (i : MIGInstanceInfo) : GPUAllocationInfo :=
  mkGPUAllocationInfo _ (ii_NodeName i) (ii_GPUUUID i) (ii_InstanceID i) memory.

(** The identifiers of the instances of a pool that never had any: even numbers. *)
Definition even_ids (profileName : string) (n : nat) : list string :=
  (fun j => instance_id profileName (Z.of_nat (j + j)%nat)) <$> seq 0 n.

(** A completed call of the manager. *)
Inductive migStep `{QuantityOps} `{GoRuntime} : MIGManager -> MIGManager -> Prop :=
| migStep_ConfigurePool pool m : migStep m (ConfigurePool pool m).1
| migStep_CleanupPool seed p m : migStep m (CleanupPool seed p m).1
| migStep_Allocate seed req p m m' r : Allocate seed req p m = Ret (m', r) -> migStep m m'
| migStep_Release seed service namespace m : migStep m (Release seed service namespace m).1
| migStep_DestroyInstance id m : migStep m (DestroyInstance id m).1
| migStep_ReconcileInstances p m : migStep m (ReconcileInstances p m).1.

Section facts.
Context `{QO : QuantityOps} `{GR : GoRuntime}.
Implicit Types (m : MIGManager) (l : loc) (ls : list loc).

Lemma string_app_inj (a b c : string) : a +:+ b = a +:+ c -> b = c.
Proof. induction a as [|x a IH]; [done|]. intros E. apply IH. by injection E. Qed.
Lemma instance_id_inj p x y : instance_id p x = instance_id p y -> x = y.
Proof.
  unfold instance_id. intros E. apply string_app_inj, string_app_inj, string_app_inj in E.
  by apply pretty_Z_inj in E.
Qed.

Lemma index_ok_app h h' idx : index_ok h idx -> index_ok (h ++ h') idx.
Proof. intros H id l Hl. destruct (H id l Hl) as (i & Hi & ?). exists i. split; [by apply lookup_app_l_Some|done]. Qed.

Lemma index_ok_alter h idx f l : (forall i, ii_InstanceID (f i) = ii_InstanceID i) ->
  index_ok h idx -> index_ok (alter f l h) idx.
Proof.
  intros Hf H id l' Hl. destruct (H id l' Hl) as (i & Hi & Hid). destruct (decide (l = l')) as [->|Hne].
  - exists (f i). rewrite list_lookup_alter_eq, Hi, Hf. done.
  - exists i. by rewrite list_lookup_alter_ne.
Qed.

Lemma index_ok_insert h idx i : index_ok h idx -> index_ok (h ++ [i]) (<[ii_InstanceID i := length h]> idx).
Proof.
  intros H id l Hl. apply lookup_insert_Some in Hl as [[<- <-]|[_ Hl]].
  - exists i. by rewrite lookup_app_r, Nat.sub_diag by lia.
  - by apply (index_ok_app _ [i] _ H).
Qed.

(** ** findAvailableInstances *)
Lemma collectAvailable_spec m p count (ls : list (string * loc)) av : exists new,
  collectAvailable m p count ls av = av ++ new /\ new `sublist_of` ls.*2 /\ Forall (free_of (mm_heap m) p) new.
Proof.
  revert av. induction ls as [|[k l] ls IH]; intros av; simpl.
  - exists []. by rewrite app_nil_r.
  - assert (Hskip : exists new, collectAvailable m p count ls av = av ++ new /\ new `sublist_of` l :: ls.*2 /\
      Forall (free_of (mm_heap m) p) new).
    { destruct (IH av) as (new & -> & Hs & Hf). exists new. split_and!; [done | by constructor | done]. }
    destruct (mm_heap m !! l) as [i|] eqn:Hi; [|exact Hskip].
    destruct (bool_decide _ && _) eqn:E; [|exact Hskip].
    apply andb_prop in E as [Hp Hu]. apply bool_decide_eq_true in Hp. apply negb_true_iff in Hu.
    assert (Hl : free_of (mm_heap m) p l) by (by exists i).
    destruct (_ <=? _).
    + exists [l]. split_and!; [done | constructor; apply sublist_nil_l | by constructor].
    + destruct (IH (av ++ [l])) as (new & -> & Hs & Hf). exists (l :: new).
      split_and!; [by rewrite <- app_assoc | by constructor | by constructor].
Qed.

Lemma index_locs_NoDup h idx seed : index_ok h idx -> NoDup (range seed idx).*2.
Proof.
  intros H. assert (Hin : forall x, x ∈ range seed idx -> idx !! x.1 = Some x.2).
  { intros [k l]. apply range_elem. }
  pose proof (range_NoDup seed idx) as Hnd. induction (range seed idx) as [|[k l] ls IH]; csimpl; [constructor|].
  csimpl in Hnd. apply NoDup_cons in Hnd as [Hk Hnd]. constructor.
  - intros Hl. apply list_elem_of_fmap in Hl as ([k' l'] & -> & Hl).
    destruct (H k l') as (i & Hi & Hid); [apply (Hin (k, l')); by left|].
    destruct (H k' l') as (i' & Hi' & Hid'); [apply (Hin (k', l')); by right|].
    simplify_eq. apply Hk. apply list_elem_of_fmap. by exists (ii_InstanceID i, l').
  - apply IH; [|done]. intros x Hx. apply Hin. by right.
Qed.

(** ** createInstances *)
Lemma createLoop_spec profile p k i config m created config' m' created' : index_ok (mm_heap m) (mc_Instances config) ->
  index_ok (mm_heap m) (mm_instances m) ->
  createLoop profile p k i config m created = (config', m', created') ->
  exists news, mm_heap m' = mm_heap m ++ news /\ length news = k /\ mm_pools m' = mm_pools m /\
    created' = created ++ seq (length (mm_heap m)) k /\
    Forall (fun n => ii_Profile n = profile /\ ii_InUse n = false) news /\
    index_ok (mm_heap m') (mc_Instances config') /\ index_ok (mm_heap m') (mm_instances m').
Proof.
  revert i config m created. induction k as [|k IH]; intros i config m created Hc Hg Hr; simpl in Hr.
  - simplify_eq. exists []. by rewrite !app_nil_r.
  - apply IH in Hr as (news & Hh & Hlen & Hp & -> & Hall & Hc' & Hg'); simpl in *.
    + eexists (_ :: news). rewrite Hh, <- app_assoc. split_and!; [done | simpl; congruence | done | | by constructor
        | by rewrite Hh, <- app_assoc in Hc' | by rewrite Hh, <- app_assoc in Hg'].
      rewrite <- app_assoc, length_app. simpl. by rewrite Nat.add_1_r.
    + apply (index_ok_insert _ _ (newInstance profile p (size (mc_Instances config)) i) Hc).
    + apply (index_ok_insert _ _ (newInstance profile p (size (mc_Instances config)) i) Hg).
Qed.

(** ** The allocation loop *)
Lemma assignLoop_spec req mem ls m : NoDup ls -> (forall l, l ∈ ls -> is_Some (mm_heap m !! l)) ->
  exists m' infos, assignLoop req mem ls m = (m', infos) /\ mm_pools m' = mm_pools m /\ mm_instances m' = mm_instances m /\
    (forall l, mm_heap m' !! l = (if decide (l ∈ ls) then set_owner true (rq_ServiceName req) (rq_Namespace req)
                                  else id) <$> mm_heap m !! l) /\
    infos = omap (fun l => info_of mem <$> mm_heap m !! l) ls /\ length infos = length ls.
Proof.
  revert m. induction ls as [|l ls IH]; intros m Hnd Hin; simpl.
  - exists m, []. split_and!; try done. intros l. 
    by destruct (mm_heap m !! l).
  - apply NoDup_cons in Hnd as [Hl Hnd]. destruct (Hin l) as [i Hi]; [by left|]. rewrite Hi.
    set (m1 := migset_heap _ m).
    assert (Hne : forall l', l' <> l -> mm_heap m1 !! l' = mm_heap m !! l') by (intros l' Hl'; simpl; by apply list_lookup_alter_ne).
    destruct (IH m1) as (m' & infos & -> & Hp & Hg & Hh & -> & Hlen); [done | |].
    { intros l' Hl'. rewrite Hne by (intros ->; done). apply Hin. by right. }
    eexists _, _. split; [reflexivity|]. split_and!; [done | done | | | exact (f_equal S Hlen)].
    + intros l'. rewrite Hh. destruct (decide (l' = l)) as [->|Hl'].
      * rewrite decide_False by done. rewrite decide_True by (by left). simpl.
        by rewrite list_lookup_alter_eq, Hi.
      * rewrite Hne by done. destruct (decide (l' ∈ ls)).
        -- by rewrite decide_True by (by right).
        -- rewrite decide_False; [done|]. rewrite elem_of_cons. tauto.
    + simpl. f_equal. apply list_omap_ext, Forall_Forall2_diag, Forall_forall. intros l' Hl'.
      by rewrite Hne by (intros ->; done).
Qed.

Lemma omap_total {A B} (f : A -> option B) (ls : list A) : (forall x, x ∈ ls -> is_Some (f x)) ->
  forall j x, ls !! j = Some x -> omap f ls !! j = f x.
Proof.
  revert ls. intros xs. induction xs as [|y ls IH]; intros Hf j x Hj; [done|]. simpl.
  destruct (Hf y) as [b Hb]; [by left|]. rewrite Hb. destruct j as [|j]; simpl in *; [congruence|].
  apply IH; [|done]. intros z Hz. apply Hf. by right.
Qed.

Lemma profile_name name profile : migProfiles !! name = Some profile -> pr_Name profile = name.
Proof.
  intros Hp. apply elem_of_list_to_map_2 in Hp. apply list_elem_of_fmap in Hp as ([[n mem] [[c ms] mx]] & [= -> ->] & _).
  done.
Qed.

(** The available instances of a request, once enough have been created. *)
Lemma available_spec seed (req : AllocationRequest) p config profile m :
  MigWF m -> mm_pools m !! p = Some config -> migProfiles !! rq_MIGProfile req = Some profile -> 0 <= rq_GPUCount req ->
  let count := rq_GPUCount req in
  let available := findAvailableInstances seed config (rq_MIGProfile req) count m in
  exists m1 all, (if Z.of_nat (length available) <? count then
      match createInstances p (rq_MIGProfile req) (count - Z.of_nat (length available)) m with
      | (m, Err e) => (m, Err ("failed to create MIG instances: " +:+ e))
      | (m, Ok created) => (m, Ok (available ++ created))
      end else (m, Ok available)) = (m1, Ok all) /\
    MigWF m1 /\ (exists news, mm_heap m1 = mm_heap m ++ news) /\
    NoDup all /\ Forall (free_of (mm_heap m1) (rq_MIGProfile req)) all /\ count <= Z.of_nat (length all) /\
    (forall l i, l ∈ all -> mm_heap m !! l = Some i -> ii_InUse i = false).
Proof.
  intros HWF Hp Hprof Hcount count available.
  pose proof (mwf_pools m HWF p config Hp) as Hok.
  destruct (collectAvailable_spec m (rq_MIGProfile req) count (range seed (mc_Instances config)) [])
    as (av & Hav & Hsub & Hfree).
  change (collectAvailable m (rq_MIGProfile req) count (range seed (mc_Instances config)) []) with available in Hav.
  simpl in Hav. rewrite Hav.
  assert (Hnd : NoDup av) by (eapply sublist_NoDup; [exact (index_locs_NoDup _ _ seed Hok) | done]).
  assert (Hunused : forall l i, l ∈ av -> mm_heap m !! l = Some i -> ii_InUse i = false).
  { intros l i Hl Hi. rewrite Forall_forall in Hfree. destruct (Hfree l Hl) as (i' & Hi' & _ & Hu). congruence. }
  destruct (Z.ltb_spec (Z.of_nat (length av)) count) as [Hlt|Hge].
  2: { exists m, av. split_and!; try done. exists []. by rewrite app_nil_r. }
  unfold createInstances. rewrite Hprof, Hp.
  set (k := Z.to_nat (count - Z.of_nat (length av))).
  destruct (createLoop profile (rq_MIGProfile req) k 0 config m []) as [[config' m1] created] eqn:Ecr.
  apply createLoop_spec in Ecr as (news & Hh & Hlen & Hpools & -> & Hall & Hc' & Hg'); [|done|apply HWF].
  eexists _, _. split; [reflexivity|]. simpl. split_and!.
  - constructor; simpl; [|done]. intros q c Hq. rewrite Hpools in Hq.
    apply lookup_insert_Some in Hq as [[_ <-]|[_ Hq]]; [done|]. rewrite Hh. by eapply index_ok_app, mwf_pools.
  - by exists news.
  - apply NoDup_app. split_and!; [done | | apply NoDup_seq].
    intros l Hl Hin. apply elem_of_seq in Hin as [Hge _]. rewrite Forall_forall in Hfree.
    destruct (Hfree l Hl) as (i & Hi & _). apply lookup_lt_Some in Hi. lia.
  - apply Forall_app. split.
    + eapply Forall_impl; [exact Hfree|]. intros l (i & Hi & ? & ?). exists i. rewrite Hh.
      split_and!; [by apply lookup_app_l_Some | done | done].
    + apply Forall_forall. intros l Hin. apply elem_of_seq in Hin as [Hge Hl].
      destruct (lookup_lt_is_Some_2 news (l - length (mm_heap m))) as [i Hi]; [lia|].
      exists i. rewrite Hh, lookup_app_r by lia. split; [done|].
      apply (Forall_lookup_1 _ _ _ _ Hall) in Hi as [-> Hu]. split; [by apply profile_name | done].
  - rewrite length_app, length_seq. lia.
  - intros l i Hl Hi. apply elem_of_app in Hl as [Hl|Hl]; [by apply (Hunused l)|].
    apply elem_of_seq in Hl as [Hge _]. apply lookup_lt_Some in Hi. lia.
Qed.

Lemma MigWF_owner m m1 : MigWF m1 -> mm_pools m = mm_pools m1 -> mm_instances m = mm_instances m1 ->
  (forall l i1, mm_heap m1 !! l = Some i1 -> exists i, mm_heap m !! l = Some i /\ ii_InstanceID i = ii_InstanceID i1) -> MigWF m.
Proof.
  intros [Hp Hi] E1 E2 Hh.
  assert (Hok : forall idx, index_ok (mm_heap m1) idx -> index_ok (mm_heap m) idx).
  { intros idx H id l Hl. destruct (H id l Hl) as (i1 & H1 & <-). by apply Hh. }
  constructor; [intros p c; rewrite E1; eauto | rewrite E2; eauto].
Qed.

Lemma Allocate_granted seed (req : AllocationRequest) p config profile m :
  MigWF m -> mm_pools m !! p = Some config -> migProfiles !! rq_MIGProfile req = Some profile -> 0 <= rq_GPUCount req ->
  exists m' infos ls, Allocate seed req p m = Ret (m', Ok infos) /\ granted req m m' ls infos.
Proof.
  intros HWF Hp Hprof Hcount. unfold Allocate. rewrite Hp, Hprof.
  destruct (available_spec seed req p config profile m HWF Hp Hprof Hcount)
    as (m1 & all & -> & HWF1 & [news Hnews] & Hnd & Hfree & Hlen & Hunused).
  replace (Z.of_nat (length all) <? rq_GPUCount req) with false by lia.
  unfold make_cap. replace (rq_GPUCount req <? 0) with false by lia. cbn [mbind outcome_bind].
  set (ls := take (Z.to_nat (rq_GPUCount req)) all).
  assert (Hls : NoDup ls) by (eapply sublist_NoDup; [exact Hnd | apply sublist_take]).
  assert (Hsub : forall l, l ∈ ls -> l ∈ all) by (intros l; apply subseteq_take).
  assert (Hsome : forall l, l ∈ ls -> is_Some (mm_heap m1 !! l)).
  { intros l Hl. rewrite Forall_forall in Hfree. destruct (Hfree l (Hsub l Hl)) as (i & Hi & _). eauto. }
  destruct (assignLoop_spec req (pr_Memory profile) ls m1) as (m' & infos & -> & Hpools & Hinst & Hheap & Hinfos & Hilen);
    [done | done |].
  exists m', infos, ls. split; [done|]. constructor.
  - eapply MigWF_owner; [exact HWF1 | done | done |]. intros l i1 Hi1. rewrite Hheap, Hi1.
    eexists. split; [reflexivity|]. by destruct (decide _).
  - done.
  - unfold ls. rewrite length_take. lia.
  - done.
  - intros j l Hj. assert (Hl : l ∈ ls) by (by eapply list_elem_of_lookup_2).
    rewrite Forall_forall in Hfree. destruct (Hfree l (Hsub l Hl)) as (i & Hi & Hname & Hu).
    exists (set_owner true (rq_ServiceName req) (rq_Namespace req) i), (info_of (pr_Memory profile) i).
    rewrite Hheap, Hi, decide_True by done. split_and!; try done; [|by exists profile].
    rewrite Hinfos, (omap_total _ ls) with (x := l); [by rewrite Hi | | done].
    intros l' Hl'. destruct (Hsome l' Hl') as [i' ->]. by eexists.
  - intros l i Hl. apply Hunused. by apply Hsub.
  - intros l i Hl Hi. rewrite Hheap, decide_False by done. rewrite Hnews.
    by rewrite (lookup_app_l_Some _ _ _ _ Hi).
Qed.

(** ** Identifiers of new instances *)
Lemma even_ids_fresh p i : instance_id p (Z.of_nat (i + i)%nat) ∉ even_ids p i.
Proof.
  unfold even_ids. intros Hin. apply list_elem_of_fmap in Hin as (j & E & Hj).
  apply elem_of_seq in Hj. apply instance_id_inj in E. lia.
Qed.
Lemma even_ids_S p i : even_ids p (S i) = even_ids p i ++ [instance_id p (Z.of_nat (i + i)%nat)].
Proof. unfold even_ids. by rewrite seq_S, fmap_app. Qed.

Lemma createLoop_even profile p k i config m created config' m' created' :
  size (mc_Instances config) = i ->
  (forall id, is_Some (mc_Instances config !! id) <-> id ∈ even_ids p i) ->
  createLoop profile p k i config m created = (config', m', created') ->
  exists news, mm_heap m' = mm_heap m ++ news /\
    (forall j, (j < k)%nat -> ii_InstanceID <$> news !! j = Some (instance_id p (Z.of_nat ((i + j) + (i + j))%nat))) /\
    size (mc_Instances config') = (i + k)%nat /\ created' = created ++ seq (length (mm_heap m)) k /\
    (forall id l, mc_Instances config' !! id = Some l ->
       mc_Instances config !! id = Some l \/ (length (mm_heap m) <= l < length (mm_heap m) + k)%nat).
Proof.
  revert i config m created. induction k as [|k IH]; intros i config m created Hsz Hdom Hr; simpl in Hr.
  - simplify_eq. exists []. rewrite !app_nil_r, Nat.add_0_r. split_and!; try done; [intros; lia | by left].
  - set (inst := newInstance profile p (size (mc_Instances config)) i) in *.
    assert (Hid : ii_InstanceID inst = instance_id p (Z.of_nat (i + i)%nat)) by (unfold inst; simpl; by rewrite Hsz).
    assert (Hfresh : mc_Instances config !! ii_InstanceID inst = None).
    { apply eq_None_not_Some. rewrite Hdom, Hid. apply even_ids_fresh. }
    apply IH in Hr as (news & Hh & Hids & Hsz' & -> & Hlocs); simpl in *.
    + exists (inst :: news). rewrite Hh, <- app_assoc. split_and!; [done | | lia | |].
      * intros [|j] Hj; simpl; [by rewrite Hid, Nat.add_0_r|]. rewrite Hids by lia. do 3 f_equal. lia.
      * rewrite <- app_assoc, length_app. simpl. by rewrite Nat.add_1_r.
      * rewrite length_app in Hlocs. simpl in Hlocs. intros id l Hl. destruct (Hlocs id l Hl) as [Hl'|Hl']; [|lia].
        apply lookup_insert_Some in Hl' as [[_ <-]|[_ Hl']]; [lia | by left].
    + by rewrite map_size_insert_None, Hsz by done.
    + intros id. rewrite even_ids_S, elem_of_app, list_elem_of_singleton, <- Hdom, <- Hid.
      rewrite lookup_insert_is_Some. destruct (decide (ii_InstanceID inst = id)); naive_solver.
Qed.

Lemma find_none seed p count config m :
  (forall id l i, mc_Instances config !! id = Some l -> mm_heap m !! l = Some i -> ii_InUse i = true) ->
  findAvailableInstances seed config p count m = [].
Proof.
  intros Huse. unfold findAvailableInstances.
  destruct (collectAvailable_spec m p count (range seed (mc_Instances config)) []) as (new & -> & Hsub & Hfree).
  simpl. destruct new as [|l new]; [done|]. exfalso. apply Forall_cons in Hfree as [(i & Hi & _ & Hu) _].
  assert (Hl : l ∈ (range seed (mc_Instances config)).*2) by (eapply elem_of_submseteq; [by left | apply sublist_submseteq, Hsub]).
  apply list_elem_of_fmap in Hl as ([id l'] & -> & Hl). apply range_elem in Hl.
  rewrite (Huse _ _ _ Hl Hi) in Hu. done.
Qed.

(** [Allocate] on a pool whose instances are all in use makes [k] new ones. *)
Lemma Allocate_new seed (req : AllocationRequest) p config profile m k :
  mm_pools m !! p = Some config -> migProfiles !! rq_MIGProfile req = Some profile ->
  rq_GPUCount req = Z.of_nat (S k) ->
  (forall id l i, mc_Instances config !! id = Some l -> mm_heap m !! l = Some i -> ii_InUse i = true) ->
  exists config' m1 m' infos, createLoop profile (rq_MIGProfile req) (S k) 0 config m [] =
      (config', m1, seq (length (mm_heap m)) (S k)) /\
    Allocate seed req p m = Ret (m', Ok infos) /\ mm_pools m' !! p = Some config' /\ length infos = S k /\
    (forall l, mm_heap m' !! l = (if decide (l ∈ seq (length (mm_heap m)) (S k))
        then set_owner true (rq_ServiceName req) (rq_Namespace req) else id) <$> mm_heap m1 !! l) /\
    (forall j, (j < S k)%nat -> ga_MIGInstance <$> infos !! j = ii_InstanceID <$> mm_heap m1 !! (length (mm_heap m) + j)%nat).
Proof.
  intros Hp Hprof Hcount Huse. unfold Allocate. rewrite Hp, Hprof, Hcount.
  rewrite (find_none seed _ _ _ _ Huse). cbn [length app].
  replace (Z.of_nat 0 <? Z.of_nat (S k)) with true by (symmetry; apply Z.ltb_lt; lia). unfold createInstances. rewrite Hprof, Hp.
  replace (Z.to_nat (Z.of_nat (S k) - Z.of_nat 0)) with (S k) by lia.
  destruct (createLoop profile (rq_MIGProfile req) (S k) 0 config m []) as [[config' m1] created] eqn:Ecr.
  assert (Hsh : created = seq (length (mm_heap m)) (S k) /\ (forall l, l ∈ created -> is_Some (mm_heap m1 !! l))).
  { clear -Ecr. revert Ecr. generalize (S k) as n. intros n Ecr.
    assert (Hgen : forall n i config m created config' m' created',
      createLoop profile (rq_MIGProfile req) n i config m created = (config', m', created') ->
      created' = created ++ seq (length (mm_heap m)) n /\ length (mm_heap m') = (length (mm_heap m) + n)%nat).
    { clear. induction n as [|n IH]; intros i config m created config' m' created' Hr; simpl in Hr.
      - simplify_eq. by rewrite app_nil_r, Nat.add_0_r.
      - apply IH in Hr as [-> Hl]. simpl in *. rewrite length_app in *. simpl in *. rewrite <- app_assoc. simpl.
        rewrite Nat.add_1_r in *. split; [done | lia]. }
    apply Hgen in Ecr as [-> Hl]. split; [done|]. intros l Hin. simpl in Hin. apply elem_of_seq in Hin.
    apply lookup_lt_is_Some. lia. }
  destruct Hsh as [-> Hsome]. rewrite length_seq. rewrite Z.ltb_irrefl.
  unfold make_cap. replace (Z.of_nat (S k) <? 0) with false by (symmetry; apply Z.ltb_ge; lia). cbn [mbind outcome_bind].
  rewrite Nat2Z.id, take_ge by (rewrite length_seq; lia).
  set (m2 := migset_pools _ m1). set (ls := seq (length (mm_heap m)) (S k)) in *.
  destruct (assignLoop_spec req (pr_Memory profile) ls m2) as (m' & infos & -> & Hpools & Hinst & Hheap & Hinfos & Hilen);
    [apply NoDup_seq | done |].
  exists config', m1, m', infos. split; [done|]. split; [done|]. split_and!.
  - rewrite Hpools. apply lookup_insert_eq.
  - rewrite Hilen. apply length_seq.
  - exact Hheap.
  - intros j Hj. assert (Hls : ls !! j = Some (length (mm_heap m) + j)%nat) by (apply lookup_seq; lia).
    rewrite Hinfos, (omap_total _ ls) with (x := (length (mm_heap m) + j)%nat); [ | | done].
    + change (mm_heap m2) with (mm_heap m1). by destruct (mm_heap m1 !! _).
    + intros l Hl. destruct (Hsome l Hl) as [i Hi]. change (mm_heap m2) with (mm_heap m1). rewrite Hi. by eexists.
Qed.

(** ** Release *)
Lemma releaseOne_idem service namespace i :
  releaseOne service namespace (releaseOne service namespace i) = releaseOne service namespace i.
Proof.
  unfold releaseOne. destruct (owned_by service namespace i) eqn:E; [|by rewrite E].
  by destruct (owned_by service namespace (set_owner false "" "" i)).
Qed.

Lemma release_loop service namespace (ls : list (string * loc)) m :
  let m' := fold_left (fun m '(_, l) => migset_heap (alter (releaseOne service namespace) l (mm_heap m)) m) ls m in
  mm_pools m' = mm_pools m /\ mm_instances m' = mm_instances m /\
  forall l, mm_heap m' !! l = (if decide (l ∈ ls.*2) then releaseOne service namespace else id) <$> mm_heap m !! l.
Proof.
  revert m. induction ls as [|[k l0] ls IH]; intros m; simpl.
  - split_and!; try done. intros l. by destruct (mm_heap m !! l).
  - destruct (IH (migset_heap (alter (releaseOne service namespace) l0 (mm_heap m)) m)) as (Hp & Hi & Hh).
    split_and!; [done | done |]. intros l. rewrite Hh. csimpl.
    destruct (decide (l = l0)) as [->|Hne].
    + rewrite list_lookup_alter_eq. rewrite (decide_True (P := l0 ∈ l0 :: ls.*2)) by (by left).
      destruct (mm_heap m !! l0) as [i|]; [|done]. simpl. f_equal. destruct (decide _); [apply releaseOne_idem | done].
    + rewrite list_lookup_alter_ne by done. destruct (decide (l ∈ ls.*2)) as [Hin|Hout].
      * by rewrite decide_True by (by right).
      * rewrite decide_False; [done|]. rewrite elem_of_cons. tauto.
Qed.

(** What [Release] leaves at every address. *)
Lemma range_locs seed (idx : gmap string loc) l : l ∈ (range seed idx).*2 <-> exists id, idx !! id = Some l.
Proof.
  rewrite list_elem_of_fmap. split.
  - intros ([id l'] & -> & Hin). exists id. by apply range_elem in Hin.
  - intros [id Hid]. exists (id, l). by rewrite range_elem.
Qed.
Lemma Release_indexed seed service namespace m id l : mm_instances m !! id = Some l ->
  mm_heap (Release seed service namespace m).1 !! l = releaseOne service namespace <$> mm_heap m !! l.
Proof.
  intros Hid. unfold Release. simpl. destruct (release_loop service namespace (range seed (mm_instances m)) m) as (_ & _ & ->).
  rewrite decide_True; [done|]. apply range_locs. eauto.
Qed.
Lemma Release_other seed service namespace m l : (forall id, mm_instances m !! id <> Some l) ->
  mm_heap (Release seed service namespace m).1 !! l = mm_heap m !! l.
Proof.
  intros Hid. unfold Release. simpl. destruct (release_loop service namespace (range seed (mm_instances m)) m) as (_ & _ & ->).
  rewrite decide_False; [by destruct (mm_heap m !! l)|]. rewrite range_locs. intros [id Hl]. by apply (Hid id).
Qed.

(** ** Well-formedness is kept *)
Lemma index_ok_sub h (idx idx' : gmap string loc) : idx' ⊆ idx -> index_ok h idx -> index_ok h idx'.
Proof. intros Hs H id l Hl. apply (H id l). by eapply lookup_weaken. Qed.

Lemma fold_delete_sub (ls : list (string * loc)) (g : gmap string loc) :
  fold_left (fun g '(k, _) => delete k g) ls g ⊆ g.
Proof.
  revert g. induction ls as [|[k l] ls IH]; intros g; simpl; [done|]. etrans; [apply IH | apply delete_subseteq].
Qed.

Lemma migStep_WF m m' : MigWF m -> migStep m m' -> MigWF m'.
Proof.
  intros HWF Hs. destruct Hs as [pool m|seed p m|seed req p m m' r Ha|seed service namespace m|id m|p m].
  - unfold ConfigurePool. destruct (has_mode _ _) as [sh|]; [|done]. destruct (list_find _ _) as [[? ?]|]; [done|].
    constructor; [|apply HWF]. simpl. intros q c Hq. apply lookup_insert_Some in Hq as [[_ <-]|[_ Hq]]; [by intros ? ?|].
    by eapply (mwf_pools m HWF).
  - unfold CleanupPool. destruct (mm_pools m !! p) as [config|]; [|done]. destruct (first_in_use _ _); [done|].
    constructor; simpl.
    + intros q c Hq. apply lookup_delete_Some in Hq as [_ Hq]. by eapply (mwf_pools m HWF).
    + eapply index_ok_sub; [apply fold_delete_sub | apply HWF].
  - unfold Allocate in Ha. destruct (mm_pools m !! p) as [config|] eqn:Hp; [|by simplify_eq/=].
    destruct (migProfiles !! rq_MIGProfile req) as [profile|] eqn:Hprof; [|by simplify_eq/=].
    destruct (Z.ltb_spec (rq_GPUCount req) 0) as [Hneg|Hpos].
    + replace (_ <? rq_GPUCount req) with false in Ha by (symmetry; apply Z.ltb_ge; lia).
      replace (_ <? rq_GPUCount req) with false in Ha by (symmetry; apply Z.ltb_ge; lia).
      unfold make_cap in Ha. by replace (rq_GPUCount req <? 0) with true in Ha by (symmetry; by apply Z.ltb_lt).
    + destruct (Allocate_granted seed req p config profile m HWF Hp Hprof Hpos) as (m2 & infos & ls & Hr & Hg).
      unfold Allocate in Hr. rewrite Hp, Hprof in Hr. rewrite Hr in Ha. simplify_eq. by destruct Hg.
  - destruct (release_loop service namespace (range seed (mm_instances m)) m) as (Hp & Hi & Hh).
    eapply MigWF_owner; [exact HWF | exact Hp | exact Hi |]. intros l i1 Hl. unfold Release. simpl. rewrite Hh, Hl. 
    eexists. split; [reflexivity|]. destruct (decide _); [|done]. unfold releaseOne. by destruct (owned_by _ _ _).
  - unfold DestroyInstance. destruct (mm_instances m !! id) as [l|]; [|done]. destruct (mm_heap m !! l) as [i|]; [|done].
    destruct (ii_InUse i); [done|]. constructor; simpl.
    + intros q c Hq. apply lookup_fmap_Some in Hq as (c0 & <- & Hq). simpl.
      eapply index_ok_sub; [apply delete_subseteq | by eapply (mwf_pools m HWF)].
    + eapply index_ok_sub; [apply delete_subseteq | apply HWF].
  - unfold ReconcileInstances. by destruct (mm_pools m !! p).
Qed.

Lemma NewMIGManager_WF : MigWF NewMIGManager.
Proof. by constructor; intros ? ?. Qed.
Lemma mig_reach_WF m : rtc migStep NewMIGManager m -> MigWF m.
Proof. apply (rtc_invariant migStep MigWF); [intros ? ?; apply migStep_WF | apply NewMIGManager_WF]. Qed.
(** ** The pools that stay *)
Lemma assignLoop_pools (req : AllocationRequest) memory ls (m : Mig.MIGManager) :
  Mig.mm_pools (Mig.assignLoop req memory ls m).1 = Mig.mm_pools m.
Proof.
  revert m. induction ls as [|l ls IH]; intros m; simpl; [done|]. destruct (Mig.mm_heap m !! l); [|apply IH].
  specialize (IH (Mig.migset_heap (alter (Mig.set_owner true (rq_ServiceName req) (rq_Namespace req)) l (Mig.mm_heap m)) m)).
  destruct (Mig.assignLoop _ _ _ _) as [m' infos]. exact IH.
Qed.
Lemma createLoop_pools profile name k i config (m : Mig.MIGManager) created :
  Mig.mm_pools (Mig.createLoop profile name k i config m created).1.2 = Mig.mm_pools m.
Proof. revert i config m created. induction k as [|k IH]; intros i config m created; simpl; [done|]. by rewrite IH. Qed.

(** [Allocate] forgets no pool. *)
Lemma mig_Allocate_pools seed (req : AllocationRequest) p q (m m' : Mig.MIGManager) res :
  Mig.Allocate seed req p m = Ret (m', res) -> is_Some (Mig.mm_pools m !! q) -> is_Some (Mig.mm_pools m' !! q).
Proof.
  unfold Mig.Allocate. intros Ha Hq. destruct (Mig.mm_pools m !! p) as [config|]; [|by simplify_eq].
  destruct (Mig.migProfiles !! rq_MIGProfile req) as [profile|]; [|by simplify_eq].
  set (av := Mig.findAvailableInstances _ _ _ _ _) in Ha.
  assert (Hc : is_Some (Mig.mm_pools (Mig.createInstances p (rq_MIGProfile req) (rq_GPUCount req - Z.of_nat (length av)) m).1 !! q)).
  { unfold Mig.createInstances. destruct (Mig.migProfiles !! rq_MIGProfile req); [|done]. destruct (Mig.mm_pools m !! p) as [cf|]; [|done].
    pose proof (createLoop_pools m0 (rq_MIGProfile req) (Z.to_nat (rq_GPUCount req - Z.of_nat (length av))) 0 cf m []) as Hl.
    destruct (Mig.createLoop _ _ _ _ _ _ _) as [[cf' m1] created]. simpl in *. rewrite Hl. apply lookup_insert_is_Some'. by right. }
  assert (Hfin : forall (m1 : Mig.MIGManager) avail, is_Some (Mig.mm_pools m1 !! q) ->
    (_ ← make_cap (rq_GPUCount req); let '(m2, infos) := Mig.assignLoop req (Mig.pr_Memory profile) avail m1 in Ret (m2, Ok infos)) = Ret (m', res) ->
    is_Some (Mig.mm_pools m' !! q)).
  { intros m1 avail Hm1 Hb. apply outcome_bind_Ret in Hb as ([] & _ & Hb). pose proof (assignLoop_pools req (Mig.pr_Memory profile) avail m1) as Hp.
    destruct (Mig.assignLoop _ _ _ _) as [m2 infos]. injection Hb as <- <-. simpl in Hp. by rewrite Hp. }
  destruct (_ <? _).
  - destruct (Mig.createInstances _ _ _ _) as [m1 [created|e]]; [|injection Ha as <- <-; exact Hc].
    destruct (_ <? _); [injection Ha as <- <-; exact Hc|]. exact (Hfin _ _ Hc Ha).
  - destruct (Z.of_nat (length av) <? rq_GPUCount req); [by injection Ha as <- <- | exact (Hfin _ _ Hq Ha)].
Qed.
End facts.

(** * Properties *)
Section properties.
Context `{QO : QuantityOps} `{GR : GoRuntime}.

(** C22. In every state the manager reaches, [Allocate] on a configured pool
    and a known profile with a count that is not negative succeeds: it grants
    exactly that many distinct instances of the profile, none of which was
    in use, marks them with the service, reports their identifiers and the
    profile's memory, and changes no other instance. *)
Theorem mig_Allocate_grants seed (req : AllocationRequest) p config profile m :
  rtc migStep NewMIGManager m ->
  mm_pools m !! p = Some config -> migProfiles !! rq_MIGProfile req = Some profile -> 0 <= rq_GPUCount req ->
  exists m' infos ls, Allocate seed req p m = Ret (m', Ok infos) /\ granted req m m' ls infos.
Proof. intros Hr. by apply Allocate_granted, mig_reach_WF. Qed.

(** Instance identifiers are not unique: on a pool without instances, a
    first request for [2 * S n] instances gets the even numbers, and the next
    request for one instance of the profile, by any service, is given the
    identifier of an instance that the first still holds. *)
Theorem mig_id_collision seedA seedB (reqA reqB : AllocationRequest) p config profile m n :
  mm_pools m !! p = Some config -> mc_Instances config = ∅ ->
  migProfiles !! rq_MIGProfile reqA = Some profile -> rq_MIGProfile reqB = rq_MIGProfile reqA ->
  rq_GPUCount reqA = 2 * Z.of_nat (S n) -> rq_GPUCount reqB = 1 ->
  exists m1 m2 infosA infosB a b, Allocate seedA reqA p m = Ret (m1, Ok infosA) /\
    Allocate seedB reqB p m1 = Ret (m2, Ok infosB) /\ a ∈ infosA /\ infosB = [b] /\ ga_MIGInstance a = ga_MIGInstance b.
Proof.
  intros Hp Hemp Hprof HprofB HcA HcB.
  destruct (Allocate_new seedA reqA p config profile m (n + S n)%nat Hp Hprof) as
    (config1 & mc1 & m1 & infosA & Hcr & HA & Hp1 & HlenA & Hheap1 & HidA); [lia | by rewrite Hemp |].
  apply (createLoop_even _ _ _ 0) in Hcr as (news & Hnews & Hids & Hsz & _ & Hlocs);
    [ | by rewrite Hemp | intros id; rewrite Hemp; unfold even_ids; simpl; split; [by intros [? ?] | by intros ?%elem_of_nil]].
  destruct (Allocate_new seedB reqB p config1 profile m1 0 Hp1) as
    (config2 & mc2 & m2 & infosB & Hcr2 & HB & _ & HlenB & _ & HidB); [by rewrite HprofB | lia | |].
  { intros id l i Hl Hi. destruct (Hlocs id l Hl) as [He|Hin]; [by rewrite Hemp in He|].
    rewrite Hheap1, decide_True in Hi by (apply elem_of_seq; lia).
    apply fmap_Some in Hi as (i0 & _ & ->). done. }
  destruct infosB as [|b [|? ?]]; try done.
  destruct (lookup_lt_is_Some_2 infosA (S n)) as [a Ha]; [lia|].
  exists m1, m2, infosA, [b], a, b. split_and!; [done | done | by eapply list_elem_of_lookup_2 | done |].
  specialize (HidA (S n) ltac:(lia)). specialize (HidB 0%nat ltac:(lia)). rewrite Ha in HidA. simpl in HidA, HidB.
  rewrite Hnews, lookup_app_r in HidA by lia.
  replace (length (mm_heap m) + S n - length (mm_heap m))%nat with (S n) in HidA by lia.
  rewrite Hids in HidA by lia. simpl in Hcr2. injection Hcr2 as _ Hm2. rewrite Nat.add_0_r, <- Hm2 in HidB. simpl in HidB.
  rewrite lookup_app_r, Nat.sub_diag, Hsz, HprofB in HidB by lia. injection HidA as ->. injection HidB as ->.
  f_equal. lia.
Qed.

(** C23. In every state the manager reaches, [Release] frees every instance of
    the global index that the service has, keeps every other instance as it
    is, and leaves the pools and the index alone; an instance that no entry
    of the index names is never freed. *)
Theorem mig_Release_correct seed service namespace m : rtc migStep NewMIGManager m ->
  exists m', Release seed service namespace m = (m', Ok tt) /\ rtc migStep NewMIGManager m' /\
    mm_pools m' = mm_pools m /\ mm_instances m' = mm_instances m /\
    (forall id l, mm_instances m !! id = Some l -> exists i i', mm_heap m !! l = Some i /\ mm_heap m' !! l = Some i' /\
    ii_InstanceID i' = id /\ ii_Profile i' = ii_Profile i /\
    if owned_by service namespace i then ii_InUse i' = false /\ ii_AllocatedTo i' = "" /\ ii_Namespace i' = ""
       else i' = i) /\
    (forall l, (forall id, mm_instances m !! id <> Some l) -> mm_heap m' !! l = mm_heap m !! l).
Proof.
  intros Hr. exists (Release seed service namespace m).1.
  destruct (release_loop service namespace (range seed (mm_instances m)) m) as (Hp & Hi & _).
  split_and!; [done | eapply rtc_r; [exact Hr | constructor] | done | done | | apply Release_other].
  intros id l Hl. destruct (mwf_instances _ (mig_reach_WF m Hr) id l Hl) as (i & Hi' & Hid).
  exists i, (releaseOne service namespace i). rewrite (Release_indexed _ _ _ _ id) by done. rewrite Hi'.
  simpl. unfold releaseOne. destruct (owned_by service namespace i); split_and!; done.
Qed.

(** Identifiers are shared between pools too: cleaning up a pool whose own
    instance is free removes from the global index the instance of the same
    identifier that a service of another pool uses, and no [Release] of
    that service frees it any more. *)
Theorem mig_cleanup_leaks seed seed' a ca id la lb ib m : rtc migStep NewMIGManager m ->
  mm_pools m !! a = Some ca -> mc_Instances ca !! id = Some la ->
  (forall k l i, mc_Instances ca !! k = Some l -> mm_heap m !! l = Some i -> ii_InUse i = false) ->
  mm_instances m !! id = Some lb -> mm_heap m !! lb = Some ib -> ii_InUse ib = true ->
  exists m', CleanupPool seed a m = (m', Ok tt) /\ mm_instances m' !! id = None /\
    forall service namespace, mm_heap (Release seed' service namespace m').1 !! lb = Some ib.
Proof.
  intros Hr Ha Hid Hfree Hg Hb Huse. unfold CleanupPool. rewrite Ha.
  assert (Hnone : first_in_use m (range seed (mc_Instances ca)) = None).
  { unfold first_in_use. assert (H : forall x, x ∈ range seed (mc_Instances ca) -> mc_Instances ca !! x.1 = Some x.2)
      by (intros [k l]; apply range_elem).
    induction (range seed (mc_Instances ca)) as [|[k l] ls IH]; [done|]. simpl.
    assert (Hl : mc_Instances ca !! k = Some l) by (apply (H (k, l)); by left).
    destruct (mm_heap m !! l) as [i|] eqn:Hi; simpl; [rewrite (Hfree _ _ _ Hl Hi)|]; apply IH; intros x Hx; apply H; by right. }
  rewrite Hnone. eexists. split; [reflexivity|].
  assert (Hgone : forall ls (g : gmap string loc), (g !! id = None \/ (id, la) ∈ ls) ->
    fold_left (fun g '(k, _) => delete k g) ls g !! id = None).
  { induction ls as [|[k l] ls IH]; intros g Hin; simpl; [by destruct Hin as [?|?%elem_of_nil]|].
    apply IH. destruct Hin as [Hn|Hin]; [left; apply lookup_delete_None; by right|].
    apply elem_of_cons in Hin as [[= <- _]|Hin]; [left; apply lookup_delete_eq | by right]. }
  assert (Hrm : fold_left (fun g '(k, _) => delete k g) (range (S seed) (mc_Instances ca)) (mm_instances m) !! id = None).
  { apply Hgone. right. by apply range_elem. }
  split; [exact Hrm|]. intros service namespace. rewrite Release_other; [done|]. simpl. intros id' Hid'.
  pose proof (lookup_weaken _ _ _ _ Hid' (fold_delete_sub _ _)) as Hg'.
  destruct (mwf_instances _ (mig_reach_WF m Hr)) with id lb as (i & Hi & <-); [done|].
  destruct (mwf_instances _ (mig_reach_WF m Hr)) with id' lb as (i' & Hi' & <-); [done|].
  simplify_eq.
Qed.
End properties.

(** * Witnesses *)
Section witnesses.
#[local] Existing Instance ZQuantity.
#[local] Existing Instance stdRuntime.

Definition mprofile : string := "1g.5gb".
Definition mconfig : MIGPoolConfig := mkMIGPoolConfig "a" [] ∅.
Definition mpool (name : string) : GPUPool := example_pool name GPUSharingModeMIG [mkMIGProfileSpec mprofile 1] 0 0.
Definition mreq (service : string) (n : Z) : AllocationRequest :=
  mkAllocationRequest _ service "ns" "" n (0 : @Quantity ZQuantity) GPUSharingModeMIG mprofile "".
Definition mstart : MIGManager := (ConfigurePool (mpool "b") (ConfigurePool (mpool "a") NewMIGManager).1).1.
Definition mrun (service p : string) (m : MIGManager) : MIGManager :=
  match Allocate 0 (mreq service 1) p m with Ret (m', _) => m' | _ => m end.
Definition mfreed : MIGManager := (Release 0 "x" "ns" (mrun "x" "a" mstart)).1.
Definition mshared : MIGManager := mrun "y" "b" mfreed.

Lemma mstart_reach : rtc migStep NewMIGManager mstart.
Proof.
  eapply rtc_l; [apply (migStep_ConfigurePool (mpool "a"))|]. eapply rtc_l; [apply (migStep_ConfigurePool (mpool "b"))|].
  apply rtc_refl.
Qed.
Lemma mrun_reach service p m : rtc migStep NewMIGManager m -> rtc migStep NewMIGManager (mrun service p m).
Proof.
  intros Hr. unfold mrun. destruct (Allocate _ _ _ _) as [[m' r]| |] eqn:E; [|done|done].
  eapply rtc_r; [exact Hr | by eapply migStep_Allocate].
Qed.
Lemma mfreed_reach : rtc migStep NewMIGManager mfreed.
Proof. eapply rtc_r; [apply mrun_reach, mstart_reach | apply (migStep_Release 0 "x" "ns")]. Qed.

Definition mpconfig : MIGPoolConfig := mkMIGPoolConfig "a" [mkMIGProfileSpec mprofile 1] ∅.
Definition mprof : MIGProfile := mkMIGProfile _ mprofile (MustParse "5Gi") 1 1 7.

Lemma mprof_known : migProfiles !! mprofile = Some mprof.
Proof. vm_compute. reflexivity. Qed.
Lemma mstart_pool : mm_pools mstart !! "a" = Some mpconfig.
Proof. vm_compute. reflexivity. Qed.

Lemma mig_Allocate_grants_witness : exists m' infos ls,
  Allocate 0 (mreq "x" 2) "a" mstart = Ret (m', Ok infos) /\ granted (mreq "x" 2) mstart m' ls infos.
Proof.
  apply (mig_Allocate_grants 0 (mreq "x" 2) "a" mpconfig mprof mstart mstart_reach);
    [exact mstart_pool | exact mprof_known | discriminate].
Defined.

Lemma mig_id_collision_witness : exists m1 m2 infosA infosB a b,
  Allocate 0 (mreq "x" 2) "a" mstart = Ret (m1, Ok infosA) /\ Allocate 0 (mreq "y" 1) "a" m1 = Ret (m2, Ok infosB) /\
  a ∈ infosA /\ infosB = [b] /\ ga_MIGInstance a = ga_MIGInstance b.
Proof.
  apply (mig_id_collision 0 0 (mreq "x" 2) (mreq "y" 1) "a" mpconfig mprof mstart 0 mstart_pool eq_refl mprof_known eq_refl eq_refl eq_refl).
Defined.

Lemma mig_Release_correct_witness : exists m', Release 0 "y" "ns" mfreed = (m', Ok tt) /\ mm_pools m' = mm_pools mfreed.
Proof.
  destruct (mig_Release_correct 0 "y" "ns" mfreed mfreed_reach) as (m' & H & _ & Hp & _). exact (ex_intro _ m' (conj H Hp)).
Defined.

Lemma mig_cleanup_leaks_witness : exists m', CleanupPool 0 "a" mshared = (m', Ok tt) /\
  exists i, ii_AllocatedTo i = "y" /\ mm_heap (Release 0 "y" "ns" m').1 !! 1%nat = Some i.
Proof.
  destruct (mig_cleanup_leaks 0 0 "a" (mkMIGPoolConfig "a" [mkMIGProfileSpec mprofile 1] {["mig-1g.5gb-0" := 0%nat]})
    "mig-1g.5gb-0" 0%nat 1%nat (mkMIGInstanceInfo _ "mig-1g.5gb-0" "GPU-simulated-0" mprof "node-1" true "y" "ns") mshared)
    as (m' & Hc & _ & Hrel); [apply mrun_reach, mfreed_reach | vm_compute; reflexivity | reflexivity | | vm_compute; reflexivity
    | vm_compute; reflexivity | reflexivity |].
  - intros k l i Hk. cbn [mc_Instances] in Hk. apply lookup_singleton_Some in Hk as [_ <-].
    replace (mm_heap mshared !! 0%nat) with (Some (mkMIGInstanceInfo _ "mig-1g.5gb-0" "GPU-simulated-0" mprof "node-1" false "" ""))
      by (vm_compute; reflexivity). by intros [= <-].
  - exists m'. split; [exact Hc|]. eexists. split; [|apply Hrel]. reflexivity.
Defined.
End witnesses.
