(* ===== verification/Mps.v ===== *)
(** internal/gpu/mps.go: the MPS manager.  Daemons are heap objects that a
    pool's configuration and the global index both point to; a client belongs
    to one daemon. *)
From S2P Require Import Prelude GoFloat Api GpuTypes.
Local Open Scope Z_scope.

Record MPSClient `{QuantityOps} := mkMPSClient {
  cl_ClientID : string;
  cl_ServiceName : string;
  cl_Namespace : string;
  cl_NodeName : string;
  cl_DeviceID : string;
  cl_ActiveThreadPct : Z;
  cl_MemoryLimit : Quantity;
  cl_ConnectedAt : Z;
  cl_LastActivityTime : Z;
}.

Record MPSDaemon `{QuantityOps} := mkMPSDaemon {
  dm_NodeName : string;
  dm_DeviceID : string;
  dm_ProcessID : Z;
  dm_PipePath : string;
  dm_LogPath : string;
  dm_ActiveThreadPctLimit : Z;
  dm_DefaultMemoryLimit : Quantity;
  dm_Clients : gmap string MPSClient;
  dm_Started : Z;
  dm_Status : string;
}.

Record MPSPoolConfig `{QuantityOps} := mkMPSPoolConfig {
  pc_PoolName : string;
  pc_ActiveThreadPct : Z;
  pc_MemoryLimit : option Quantity;
  pc_Daemons : gmap string loc;
}.

(** [ms_stopClosed] tells whether the stop channel is closed. *)
Record MPSManager `{QuantityOps} := mkMPSManager {
  ms_heap : list MPSDaemon;
  ms_pools : gmap string MPSPoolConfig;
  ms_daemons : gmap string loc;
  ms_running : bool;
  ms_stopClosed : bool;
}.

Definition mpsset_heap `{QuantityOps} v (m : MPSManager) : MPSManager :=
  mkMPSManager _ v (ms_pools m) (ms_daemons m) (ms_running m) (ms_stopClosed m).
Definition mpsset_pools `{QuantityOps} v (m : MPSManager) : MPSManager :=
  mkMPSManager _ (ms_heap m) v (ms_daemons m) (ms_running m) (ms_stopClosed m).
Definition mpsset_daemons `{QuantityOps} v (m : MPSManager) : MPSManager :=
  mkMPSManager _ (ms_heap m) (ms_pools m) v (ms_running m) (ms_stopClosed m).
Definition with_daemons `{QuantityOps} (v : gmap string loc) (c : MPSPoolConfig) : MPSPoolConfig :=
  mkMPSPoolConfig _ (pc_PoolName c) (pc_ActiveThreadPct c) (pc_MemoryLimit c) v.
Definition with_clients `{QuantityOps} (f : gmap string MPSClient -> gmap string MPSClient) (d : MPSDaemon) : MPSDaemon :=
  mkMPSDaemon _ (dm_NodeName d) (dm_DeviceID d) (dm_ProcessID d) (dm_PipePath d) (dm_LogPath d) (dm_ActiveThreadPctLimit d)
    (dm_DefaultMemoryLimit d) (f (dm_Clients d)) (dm_Started d) (dm_Status d).
Definition with_status `{QuantityOps} (status : string) (d : MPSDaemon) : MPSDaemon :=
  mkMPSDaemon _ (dm_NodeName d) (dm_DeviceID d) (dm_ProcessID d) (dm_PipePath d) (dm_LogPath d) (dm_ActiveThreadPctLimit d)
    (dm_DefaultMemoryLimit d) (dm_Clients d) (dm_Started d) status.
Definition with_percentage `{QuantityOps} (pct : Z) (c : MPSClient) : MPSClient :=
  mkMPSClient _ (cl_ClientID c) (cl_ServiceName c) (cl_Namespace c) (cl_NodeName c) (cl_DeviceID c) pct (cl_MemoryLimit c)
    (cl_ConnectedAt c) (cl_LastActivityTime c).
(** The map of [GetStats]. *)
Record MPSStats := mkMPSStats {
  mst_nodeName : string;
  mst_deviceId : string;
  mst_processId : Z;
  mst_status : string;
  mst_clientCount : nat;
  mst_started : Z;
  mst_uptime : Z;
  mst_threadLimit : Z;
}.

Section operations.
Context `{QuantityOps} `{GoRuntime}.
Implicit Type m : MPSManager.

Definition NewMPSManager : MPSManager := mkMPSManager _ [] ∅ ∅ false false.
Definition Start m : MPSManager := mkMPSManager _ (ms_heap m) (ms_pools m) (ms_daemons m) true (ms_stopClosed m).
Definition Stop m : outcome MPSManager :=
  if ms_stopClosed m then Panic "close of closed channel"
  else Ret (mkMPSManager _ (ms_heap m) (ms_pools m) (ms_daemons m) false true).

Definition no_mps_daemon (key : string) : error := "MPS daemon not found: " +:+ key.

Definition ConfigurePool (pool : GPUPool) m : MPSManager * result unit :=
  match has_mode GPUSharingModeMPS pool with
  | None => (m, Err ("pool " +:+ pool_name pool +:+ " is not configured for MPS mode"))
  | Some sh =>
      let pct := if gss_MPSActiveThreadPercentage sh =? 0 then 100 else gss_MPSActiveThreadPercentage sh in
      (mpsset_pools (<[pool_name pool := mkMPSPoolConfig _ (pool_name pool) pct (gss_MPSMemoryLimit sh) ∅]> (ms_pools m)) m, Ok tt)
  end.

Definition stopDaemon (l : loc) m : MPSManager := mpsset_heap (alter (with_status "Stopped") l (ms_heap m)) m.

(** The key of the first daemon of a range that has clients. *)
Definition first_with_clients m (ls : list (string * loc)) : option string :=
  head (omap (fun '(key, l) => d ← ms_heap m !! l; if (0 <? size (dm_Clients d))%nat then Some key else None) ls).

Definition CleanupPool (seed : nat) (poolName : string) m : MPSManager * result unit :=
  match ms_pools m !! poolName with
  | None => (m, Ok tt)
  | Some config =>
      match first_with_clients m (range seed (pc_Daemons config)) with
      | Some key => (m, Err ("cannot cleanup pool " +:+ poolName +:+ ": daemon " +:+ key +:+ " has active clients"))
      | None =>
          let m := fold_left (fun m '(key, l) => let m := stopDaemon l m in mpsset_daemons (delete key (ms_daemons m)) m)
                     (range (S seed) (pc_Daemons config)) m in
          (mpsset_pools (delete poolName (ms_pools m)) m, Ok tt)
      end
  end.

Definition newDaemon (now : Z) (nodeName deviceID : string) (config : MPSPoolConfig) : MPSDaemon :=
  mkMPSDaemon _ nodeName deviceID 12345 ("/tmp/nvidia-mps-" +:+ deviceID) ("/var/log/nvidia-mps-" +:+ deviceID +:+ ".log")
    (pc_ActiveThreadPct config) (default Quantity_zero (pc_MemoryLimit config)) ∅ now "Running".

(** [startDaemon] on the configuration [config] of the pool [poolName]. *)
Definition startDaemon (now : Z) (nodeName deviceID poolName : string) (config : MPSPoolConfig) m : MPSManager * loc :=
  let key := slash_key nodeName deviceID in
  let l := length (ms_heap m) in
  let m := mpsset_heap (ms_heap m ++ [newDaemon now nodeName deviceID config]) m in
  let m := mpsset_pools (<[poolName := with_daemons (<[key := l]> (pc_Daemons config)) config]> (ms_pools m)) m in
  (mpsset_daemons (<[key := l]> (ms_daemons m)) m, l).

(** A running daemon with room for a client. *)
Definition has_capacity (d : MPSDaemon) : bool := bool_decide (dm_Status d = "Running") && (size (dm_Clients d) <? 48)%nat.

Definition findOrCreateDaemon (now : Z) (seed : nat) (poolName : string) (config : MPSPoolConfig) (gpus : list GPUInfo) m
    : MPSManager * result loc :=
  match head (filter (fun l => match ms_heap m !! l with Some d => has_capacity d | None => false end = true)
                (range seed (pc_Daemons config)).*2) with
  | Some l => (m, Ok l)
  | None =>
      match head (filter (fun g => pc_Daemons config !! gpu_key g = None) gpus) with
      | Some g => let '(m, l) := startDaemon now (gi_NodeName g) (gi_DeviceID g) poolName config m in (m, Ok l)
      | None => (m, Err "no available GPUs for MPS daemon")
      end
  end.

Definition is_client (serviceName namespace : string) (c : MPSClient) : bool :=
  bool_decide (cl_ServiceName c = serviceName) && bool_decide (cl_Namespace c = namespace).
(** The inner loop of [releaseClient], over one daemon's clients. *)
Definition dropClients (seed : nat) (serviceName namespace : string) (clients : gmap string MPSClient)
    : gmap string MPSClient :=
  fold_left (fun cs '(clientID, c) => if is_client serviceName namespace c then delete clientID cs else cs)
    (range seed clients) clients.
Definition releaseClient (seed : nat) (serviceName namespace : string) m : MPSManager :=
  fold_left (fun m '(_, l) => mpsset_heap (alter (with_clients (dropClients (S seed) serviceName namespace)) l (ms_heap m)) m)
    (range seed (ms_daemons m)) m.

Definition client_id (req : AllocationRequest) (i : nat) : string :=
  slash_key (rq_Namespace req) (rq_ServiceName req +:+ "-" +:+ print_Z (Z.of_nat i)).
Definition newClient (now : Z) (req : AllocationRequest) (i : nat) (config : MPSPoolConfig) (d : MPSDaemon) : MPSClient :=
  mkMPSClient _ (client_id req i) (rq_ServiceName req) (rq_Namespace req) (dm_NodeName d) (dm_DeviceID d)
    (pc_ActiveThreadPct config) (default Quantity_zero (pc_MemoryLimit config)) now now.

(** [k] iterations of the allocation loop are left, at index [i]; the
    configuration is the one the pool points to. *)
Fixpoint allocLoop (now : Z) (seed : nat) (req : AllocationRequest) (poolName : string) (gpus : list GPUInfo) (k i : nat) m
    : MPSManager * result (list GPUAllocationInfo) :=
  match k with
  | O => (m, Ok [])
  | S k' =>
      match ms_pools m !! poolName with
      | None => (m, Ok [])
      | Some config =>
          match findOrCreateDaemon now (seed + i) poolName config gpus m with
          | (m, Err e) =>
              (Nat.iter i (releaseClient (seed + i) (rq_ServiceName req) (rq_Namespace req)) m, Err e)
          | (m, Ok l) =>
              match ms_heap m !! l with
              | None => (m, Ok [])
              | Some d =>
                  let client := newClient now req i config d in
                  let m := mpsset_heap (alter (with_clients (<[client_id req i := client]>)) l (ms_heap m)) m in
                  match allocLoop now seed req poolName gpus k' (S i) m with
                  | (m, Ok infos) =>
                      (m, Ok (mkGPUAllocationInfo _ (dm_NodeName d) (dm_DeviceID d) "" (cl_MemoryLimit client) :: infos))
                  | (m, Err e) => (m, Err e)
                  end
              end
          end
      end
  end.

Definition Allocate (now : Z) (seed : nat) (req : AllocationRequest) (poolName : string) (gpus : list GPUInfo) m
    : outcome (MPSManager * result (list GPUAllocationInfo)) :=
  match ms_pools m !! poolName with
  | None => Ret (m, Err ("MPS pool not found: " +:+ poolName))
  | Some _ =>
      _ ← make_cap (rq_GPUCount req);
      Ret (allocLoop now seed req poolName gpus (Z.to_nat (rq_GPUCount req)) 0 m)
  end.

Definition Release (seed : nat) (serviceName namespace : string) m : MPSManager * result unit :=
  (releaseClient seed serviceName namespace m, Ok tt).

Definition GetDaemonStatus (nodeName deviceID : string) m : result loc :=
  match ms_daemons m !! slash_key nodeName deviceID with
  | Some l => Ok l
  | None => Err (no_mps_daemon (slash_key nodeName deviceID))
  end.

Definition ListClients (seed : nat) (nodeName deviceID : string) m : result (list MPSClient) :=
  match ms_daemons m !! slash_key nodeName deviceID ≫= (ms_heap m !!.) with
  | Some d => Ok (range seed (dm_Clients d)).*2
  | None => Err (no_mps_daemon (slash_key nodeName deviceID))
  end.

Definition SetActiveThreadPercentage (seed : nat) (clientID : string) (percentage : Z) m : MPSManager * result unit :=
  if (percentage <? 1) || (100 <? percentage)
  then (m, Err ("invalid percentage: " +:+ print_Z percentage +:+ " (must be 1-100)"))
  else
    match head (filter (fun l => is_Some (d ← ms_heap m !! l; dm_Clients d !! clientID)) (range seed (ms_daemons m)).*2) with
    | Some l => (mpsset_heap (alter (with_clients (alter (with_percentage percentage) clientID)) l (ms_heap m)) m, Ok tt)
    | None => (m, Err ("client not found: " +:+ clientID))
    end.

Definition RestartDaemon (now : Z) (seed : nat) (nodeName deviceID : string) m : MPSManager * result unit :=
  let key := slash_key nodeName deviceID in
  match ms_daemons m !! key with
  | None => (m, Err (no_mps_daemon key))
  | Some l =>
      match ms_heap m !! l with
      | None => (m, Err (no_mps_daemon key))
      | Some d =>
          if (0 <? size (dm_Clients d))%nat then (m, Err "cannot restart daemon with active clients")
          else
            match head (filter (fun x : string * MPSPoolConfig => is_Some (pc_Daemons x.2 !! key)) (range seed (ms_pools m))) with
            | None => (m, Err ("pool config not found for daemon: " +:+ key))
            | Some (poolName, config) =>
                let m := stopDaemon l m in
                let m := mpsset_daemons (delete key (ms_daemons m)) m in
                let config := with_daemons (delete key (pc_Daemons config)) config in
                ((startDaemon now nodeName deviceID poolName config m).1, Ok tt)
            end
      end
  end.

(** [checkDaemonHealth] only logs: key and status of the daemons that do not run. *)
Definition checkDaemonHealth (seed : nat) m : list (string * string) :=
  range seed (ms_daemons m) ≫= fun '(key, l) =>
    match ms_heap m !! l with
    | Some d => if decide (dm_Status d = "Running") then [] else [(key, dm_Status d)]
    | None => []
    end.

(** The uptime as a duration, which the code renders. *)
Definition GetStats (now : Z) (nodeName deviceID : string) m : result MPSStats :=
  let key := slash_key nodeName deviceID in
  match l ← ms_daemons m !! key; ms_heap m !! l with
  | None => Err (no_mps_daemon key)
  | Some d => Ok (mkMPSStats (dm_NodeName d) (dm_DeviceID d) (dm_ProcessID d) (dm_Status d) (size (dm_Clients d))
                    (dm_Started d) (int64 (now - dm_Started d)) (dm_ActiveThreadPctLimit d))
  end.
End operations.
