(* ===== verification/MpsProps.v ===== *)
(** Properties of the MPS manager (mps.go): the client limit and the indexes,
    when [Allocate] succeeds and what it registers, what its rollback drops,
    and the daemons that [Release] no longer sees. *)
From S2P Require Import Prelude GoFloat Api GpuTypes Mps.
Local Open Scope Z_scope.

(** A daemon serves at most 48 clients, filed under their identifiers and
    marked with the daemon's device. *)
Record daemon_ok `{QuantityOps} (d : MPSDaemon) : Prop := {
  dok_size : (size (dm_Clients d) <= 48)%nat;
  dok_clients : forall k c, dm_Clients d !! k = Some c ->
    cl_ClientID c = k /\ cl_NodeName c = dm_NodeName d /\ cl_DeviceID c = dm_DeviceID d;
}.
Definition daemon_key `{QuantityOps} (d : MPSDaemon) : string := slash_key (dm_NodeName d) (dm_DeviceID d).
Definition keys_ok `{QuantityOps} (heap : list MPSDaemon) (idx : gmap string loc) : Prop :=
  forall key l, idx !! key = Some l -> exists d, heap !! l = Some d /\ daemon_key d = key.

(** The manager's invariant: the limit, both indexes, and that the global
    index names running daemons only. *)
Record MPSInv `{QuantityOps} (m : MPSManager) : Prop := {
  mpi_heap : forall l d, ms_heap m !! l = Some d -> daemon_ok d;
  mpi_pools : forall p c, ms_pools m !! p = Some c -> keys_ok (ms_heap m) (pc_Daemons c);
  mpi_daemons : keys_ok (ms_heap m) (ms_daemons m);
  mpi_running : forall key l d, ms_daemons m !! key = Some l -> ms_heap m !! l = Some d -> dm_Status d = "Running";
}.

(** A completed call of the manager. *)
Inductive mpsStep `{QuantityOps} `{GoRuntime} : MPSManager -> MPSManager -> Prop :=
| mpsStep_Start m : mpsStep m (Start m)
| mpsStep_Stop m m' : Stop m = Ret m' -> mpsStep m m'
| mpsStep_ConfigurePool pool m : mpsStep m (ConfigurePool pool m).1
| mpsStep_CleanupPool seed p m : mpsStep m (CleanupPool seed p m).1
| mpsStep_Allocate now seed req p gpus m m' r : Allocate now seed req p gpus m = Ret (m', r) -> mpsStep m m'
| mpsStep_Release seed service namespace m : mpsStep m (Release seed service namespace m).1
| mpsStep_SetActiveThreadPercentage seed id pct m : mpsStep m (SetActiveThreadPercentage seed id pct m).1
| mpsStep_RestartDaemon now seed node dev m : mpsStep m (RestartDaemon now seed node dev m).1.

Section facts.
Context `{QO : QuantityOps} `{GR : GoRuntime}.
Implicit Types (m : MPSManager) (l : loc) (d : MPSDaemon).

(** ** Releasing clients *)
Lemma dropClients_lookup seed s n (cs : gmap string MPSClient) k :
  dropClients seed s n cs !! k = c ← cs !! k; if is_client s n c then None else Some c.
Proof.
  unfold dropClients.
  assert (Hgen : forall ls (acc : gmap string MPSClient), (forall x, x ∈ ls -> cs !! x.1 = Some x.2) ->
    fold_left (fun cs '(clientID, c) => if is_client s n c then delete clientID cs else cs) ls acc !! k =
    if decide (k ∈ ls.*1) then c ← cs !! k; (if is_client s n c then None else acc !! k) else acc !! k).
  { induction ls as [|[k' c'] ls IH]; intros acc Hin; csimpl; [done|].
    rewrite IH by (intros x Hx; apply Hin; by right). specialize (Hin (k', c') ltac:(by left)). simpl in Hin.
    destruct (decide (k = k')) as [->|Hne].
    - rewrite (decide_True (P := k' ∈ k' :: ls.*1)) by (by left). rewrite Hin. simpl.
      destruct (is_client s n c'); [rewrite lookup_delete_eq; by destruct (decide _) | by destruct (decide _)].
    - replace ((if is_client s n c' then delete k' acc else acc) !! k) with (acc !! k)
        by (destruct (is_client s n c'); [by rewrite lookup_delete_ne | done]).
      destruct (decide (k ∈ ls.*1)); [by rewrite decide_True by (by right)|].
      rewrite decide_False; [done|]. rewrite elem_of_cons. tauto. }
  rewrite Hgen by (intros [k' c']; apply range_elem). destruct (cs !! k) as [c|] eqn:E.
  - rewrite decide_True; [done|]. apply list_elem_of_fmap. exists (k, c). by rewrite range_elem.
  - by destruct (decide _).
Qed.

Lemma dropClients_sub seed s n cs : dropClients seed s n cs ⊆ cs.
Proof.
  apply map_subseteq_spec. intros k c. rewrite dropClients_lookup. destruct (cs !! k) as [c'|]; [|done]. simpl.
  by destruct (is_client s n c').
Qed.
Lemma dropClients_idem seed s n cs : dropClients seed s n (dropClients seed s n cs) = dropClients seed s n cs.
Proof.
  apply map_eq. intros k. rewrite !dropClients_lookup. destruct (cs !! k) as [c|]; [|done]. simpl.
  destruct (is_client s n c) eqn:E; [done|]. simpl. by rewrite E.
Qed.

Definition released (seed : nat) (s n : string) (d : MPSDaemon) : MPSDaemon := with_clients (dropClients (S seed) s n) d.
Lemma released_idem seed s n d : released seed s n (released seed s n d) = released seed s n d.
Proof. unfold released, with_clients. simpl. by rewrite dropClients_idem. Qed.

Lemma releaseClient_spec seed s n m :
  let m' := releaseClient seed s n m in
  ms_pools m' = ms_pools m /\ ms_daemons m' = ms_daemons m /\
  (forall key l, ms_daemons m !! key = Some l -> ms_heap m' !! l = released seed s n <$> ms_heap m !! l) /\
  (forall l, (forall key, ms_daemons m !! key <> Some l) -> ms_heap m' !! l = ms_heap m !! l).
Proof.
  unfold releaseClient. fold (released seed s n).
  assert (Hgen : forall (ls : list (string * loc)) m0,
    let m1 := fold_left (fun m '(_, l) => mpsset_heap (alter (released seed s n) l (ms_heap m)) m) ls m0 in
    ms_pools m1 = ms_pools m0 /\ ms_daemons m1 = ms_daemons m0 /\
    forall l, ms_heap m1 !! l = (if decide (l ∈ ls.*2) then released seed s n else id) <$> ms_heap m0 !! l).
  { induction ls as [|[k l0] ls IH]; intros m0; simpl.
    - split_and!; [done | done |]. intros l. by destruct (ms_heap m0 !! l).
    - destruct (IH (mpsset_heap (alter (released seed s n) l0 (ms_heap m0)) m0)) as (Hp & Hd & Hh).
      split_and!; [done | done |]. intros l. rewrite Hh. csimpl. destruct (decide (l = l0)) as [->|Hne].
      + rewrite list_lookup_alter_eq, (decide_True (P := l0 ∈ l0 :: ls.*2)) by (by left).
        destruct (ms_heap m0 !! l0) as [d|]; [|done]. simpl. f_equal. destruct (decide _); [apply released_idem | done].
      + rewrite list_lookup_alter_ne by done. destruct (decide (l ∈ ls.*2)).
        * by rewrite decide_True by (by right).
        * rewrite decide_False; [done|]. rewrite elem_of_cons. tauto. }
  destruct (Hgen (range seed (ms_daemons m)) m) as (Hp & Hd & Hh). split_and!; [done | done | |].
  - intros key l Hl. rewrite Hh, decide_True; [done|]. apply list_elem_of_fmap. exists (key, l). by rewrite range_elem.
  - intros l Hl. rewrite Hh, decide_False; [by destruct (ms_heap m !! l)|].
    intros ([key l'] & -> & Hin)%list_elem_of_fmap. apply range_elem in Hin. by apply (Hl key).
Qed.

(** ** The invariant *)
Lemma keys_ok_app h h' idx : keys_ok h idx -> keys_ok (h ++ h') idx.
Proof. intros H key l Hl. destruct (H key l Hl) as (d & Hd & ?). exists d. split; [by apply lookup_app_l_Some|done]. Qed.
Lemma keys_ok_sub h (idx idx' : gmap string loc) : idx' ⊆ idx -> keys_ok h idx -> keys_ok h idx'.
Proof. intros Hs H key l Hl. apply (H key l). by eapply lookup_weaken. Qed.
Lemma keys_ok_insert h idx d : keys_ok h idx -> keys_ok (h ++ [d]) (<[daemon_key d := length h]> idx).
Proof.
  intros H key l Hl. apply lookup_insert_Some in Hl as [[<- <-]|[_ Hl]]; [|by apply (keys_ok_app _ [d] _ H)].
  exists d. by rewrite lookup_app_r, Nat.sub_diag by lia.
Qed.
(** Indexes stay correct when daemons change but keep their device. *)
Lemma keys_ok_update h h' idx : keys_ok h idx ->
  (forall l d, h !! l = Some d -> exists d', h' !! l = Some d' /\ daemon_key d' = daemon_key d) -> keys_ok h' idx.
Proof. intros H Hu key l Hl. destruct (H key l Hl) as (d & Hd & <-). by apply Hu. Qed.
(** One location has one key. *)
Lemma keys_ok_inj h idx key key' l : keys_ok h idx -> idx !! key = Some l -> idx !! key' = Some l -> key = key'.
Proof. intros H H1 H2. destruct (H _ _ H1) as (d & Hd & <-). destruct (H _ _ H2) as (d' & Hd' & <-). congruence. Qed.

(** The invariant is kept by replacing daemons by ones of the same device and
    status, and the indexes by smaller ones. *)
Record update_ok (d d' : MPSDaemon) : Prop := {
  uo_node : dm_NodeName d' = dm_NodeName d;
  uo_dev : dm_DeviceID d' = dm_DeviceID d;
  uo_status : dm_Status d' = dm_Status d;
  uo_ok : daemon_ok d -> daemon_ok d';
}.
Lemma update_ok_refl d : update_ok d d.
Proof. by constructor. Qed.
Lemma MPSInv_update m m' : MPSInv m -> ms_pools m' = ms_pools m -> ms_daemons m' = ms_daemons m ->
  length (ms_heap m') = length (ms_heap m) ->
  (forall l d d', ms_heap m !! l = Some d -> ms_heap m' !! l = Some d' -> update_ok d d') -> MPSInv m'.
Proof.
  intros [Hh Hp Hd Hr] E1 E2 Hlen Hu.
  assert (Hback : forall l d', ms_heap m' !! l = Some d' -> exists d, ms_heap m !! l = Some d).
  { intros l d' Hl. apply lookup_lt_Some in Hl. rewrite Hlen in Hl. by apply lookup_lt_is_Some. }
  assert (Hfwd : forall l d, ms_heap m !! l = Some d -> exists d', ms_heap m' !! l = Some d' /\ daemon_key d' = daemon_key d).
  { intros l d Hl. pose proof (lookup_lt_Some _ _ _ Hl) as Hlt. rewrite <- Hlen in Hlt.
    apply lookup_lt_is_Some in Hlt as [d' Hd']. exists d'. split; [done|].
    unfold daemon_key. by rewrite (uo_node d d'), (uo_dev d d') by eauto. }
  constructor.
  - intros l d' Hl. destruct (Hback l d' Hl) as [d Hd0]. eapply uo_ok; eauto.
  - intros p c. rewrite E1. intros Hc. eapply keys_ok_update; eauto.
  - rewrite E2. eapply keys_ok_update; eauto.
  - intros key l d' Hl Hd'. rewrite E2 in Hl. destruct (Hback l d' Hd') as [d Hd0].
    rewrite (uo_status d d') by eauto. eauto.
Qed.

Lemma update_ok_released seed s n d : update_ok d (released seed s n d).
Proof.
  constructor; [done..|]. intros [Hs Hc]. pose proof (dropClients_sub (S seed) s n (dm_Clients d)) as Hsub.
  constructor; simpl; [by etrans; [apply map_subseteq_size|]|]. intros k c Hk. eapply Hc, lookup_weaken; eauto.
Qed.
Lemma releaseClient_heap seed s n m l d d' : ms_heap m !! l = Some d -> ms_heap (releaseClient seed s n m) !! l = Some d' ->
  d' = d \/ d' = released seed s n d.
Proof.
  intros Hl Hl'. destruct (releaseClient_spec seed s n m) as (_ & _ & Hin & Hout).
  destruct (decide (l ∈ (map_to_list (ms_daemons m)).*2)) as [H|H].
  - apply list_elem_of_fmap in H as ([key l'] & -> & Hk). apply elem_of_map_to_list in Hk. simpl in *.
    rewrite (Hin key l' Hk), Hl in Hl'. simplify_eq/=. by right.
  - rewrite Hout, Hl in Hl'; [simplify_eq; by left|]. intros key Hk. apply H, list_elem_of_fmap.
    exists (key, l). by rewrite elem_of_map_to_list.
Qed.
Lemma releaseClient_length seed s n m : length (ms_heap (releaseClient seed s n m)) = length (ms_heap m).
Proof.
  unfold releaseClient. generalize (range seed (ms_daemons m)). intros ls. revert m.
  induction ls as [|[k l] ls IH]; intros m; simpl; [done|]. rewrite IH. simpl. apply length_alter.
Qed.
Lemma releaseClient_Inv seed s n m : MPSInv m -> MPSInv (releaseClient seed s n m).
Proof.
  intros HI. destruct (releaseClient_spec seed s n m) as (Hp & Hd & _).
  eapply MPSInv_update; [exact HI | done | done | apply releaseClient_length |].
  intros l d d' Hl Hl'. destruct (releaseClient_heap _ _ _ _ _ _ _ Hl Hl') as [->| ->]; [apply update_ok_refl | apply update_ok_released].
Qed.

Lemma MPSInv_alter f l m : MPSInv m -> (forall d, ms_heap m !! l = Some d -> update_ok d (f d)) ->
  MPSInv (mpsset_heap (alter f l (ms_heap m)) m).
Proof.
  intros HI Hf. eapply MPSInv_update; [exact HI | done | done | apply length_alter |]. simpl.
  intros l' d d' Hd Hd'. destruct (decide (l' = l)) as [->|Hne].
  - rewrite list_lookup_alter_eq, Hd in Hd'. simplify_eq/=. by apply Hf.
  - rewrite list_lookup_alter_ne in Hd' by done. simplify_eq. apply update_ok_refl.
Qed.

Lemma newDaemon_ok now node dev config : daemon_ok (newDaemon now node dev config).
Proof. constructor; simpl; [by rewrite map_size_empty; lia | done]. Qed.
Lemma startDaemon_Inv now node dev p config m : MPSInv m -> keys_ok (ms_heap m) (pc_Daemons config) ->
  MPSInv (startDaemon now node dev p config m).1.
Proof.
  intros [Hh Hp Hd Hr] Hc. set (d0 := newDaemon now node dev config).
  assert (Hk : slash_key node dev = daemon_key d0) by done. unfold startDaemon. fold d0. rewrite Hk.
  constructor; simpl.
  - intros l d [Hl|[_ Hl]]%lookup_app_Some; [by eapply Hh|]. apply list_lookup_singleton_Some in Hl as [_ <-].
    apply newDaemon_ok.
  - intros q c [[_ <-]|[_ Hq]]%lookup_insert_Some; [by apply keys_ok_insert | by eapply keys_ok_app, Hp].
  - by apply keys_ok_insert.
  - intros key l d [[_ <-]|[_ Hl]]%lookup_insert_Some Hl'.
    + rewrite lookup_app_r, Nat.sub_diag in Hl' by lia. by injection Hl' as <-.
    + destruct (Hd key l Hl) as (d' & Hd' & _). rewrite (lookup_app_l_Some _ _ _ _ Hd') in Hl'. simplify_eq. by eapply Hr.
Qed.

Lemma stopDelete_Inv key l d m : MPSInv m -> ms_heap m !! l = Some d -> daemon_key d = key ->
  MPSInv (mpsset_daemons (delete key (ms_daemons (stopDaemon l m))) (stopDaemon l m)).
Proof.
  intros [Hh Hp Hd Hr] Hl <-. unfold stopDaemon.
  assert (Hu : forall l' d', ms_heap m !! l' = Some d' -> exists d'',
    alter (with_status "Stopped") l (ms_heap m) !! l' = Some d'' /\ daemon_key d'' = daemon_key d').
  { intros l' d' Hl'. destruct (decide (l' = l)) as [->|Hne].
    - exists (with_status "Stopped" d'). by rewrite list_lookup_alter_eq, Hl'.
    - exists d'. by rewrite list_lookup_alter_ne. }
  constructor; simpl.
  - intros l' d' Hl'. destruct (decide (l' = l)) as [->|Hne].
    + rewrite list_lookup_alter_eq, Hl in Hl'. simplify_eq/=. by destruct (Hh l d Hl) as [? ?].
    + rewrite list_lookup_alter_ne in Hl' by done. eauto.
  - intros p c Hc. eapply keys_ok_update; eauto.
  - eapply keys_ok_update; [|exact Hu]. eapply keys_ok_sub; [apply delete_subseteq | done].
  - intros key l' d' [Hne Hl']%lookup_delete_Some Hd'. destruct (decide (l' = l)) as [->|Hne'].
    + destruct (Hd key l Hl') as (d2 & Hd2 & <-). simplify_eq.
    + rewrite list_lookup_alter_ne in Hd' by done. eauto.
Qed.

Lemma CleanupPool_Inv seed p m : MPSInv m -> MPSInv (CleanupPool seed p m).1.
Proof.
  intros HI. unfold CleanupPool. destruct (ms_pools m !! p) as [config|] eqn:Hp; [|done].
  destruct (first_with_clients _ _); [done|]. simpl.
  assert (Hin : forall x, x ∈ range (S seed) (pc_Daemons config) ->
    exists d, ms_heap m !! x.2 = Some d /\ daemon_key d = x.1).
  { intros [key l] Hx. apply range_elem in Hx. by apply (mpi_pools m HI p config Hp key l). }
  assert (Hgoal : forall ls m0, MPSInv m0 -> (forall x : string * loc, x ∈ ls -> exists d, ms_heap m0 !! x.2 = Some d /\ daemon_key d = x.1) ->
    MPSInv (fold_left (fun m '(key, l) => let m := stopDaemon l m in mpsset_daemons (delete key (ms_daemons m)) m) ls m0)).
  { induction ls as [|[key l] ls IH]; intros m0 H0 Hx; simpl; [done|].
    destruct (Hx (key, l)) as (d & Hd & Hk); [by left|]. apply IH; [by eapply stopDelete_Inv|].
    intros y Hy. destruct (Hx y) as (d' & Hd' & Hk'); [by right|]. simpl. destruct (decide (y.2 = l)) as [E|Hne].
    - exists (with_status "Stopped" d'). by rewrite E, list_lookup_alter_eq, <- E, Hd'.
    - exists d'. by rewrite list_lookup_alter_ne. }
  destruct (Hgoal _ m HI Hin) as [H1 H2 H3 H4]. constructor; simpl; [done | | done | done].
  intros q c [_ Hq]%lookup_delete_Some. eauto.
Qed.

Lemma RestartDaemon_Inv now seed node dev m : MPSInv m -> MPSInv (RestartDaemon now seed node dev m).1.
Proof.
  intros HI. unfold RestartDaemon. destruct (ms_daemons m !! _) as [l|] eqn:Hl; [|done].
  destruct (mpi_daemons m HI _ _ Hl) as (d & Hd & Hk). rewrite Hd. destruct (0 <? _)%nat; [done|].
  destruct (head (filter _ _)) as [[p config]|] eqn:Hf; [|done]. cbv zeta. cbn [fst].
  apply head_filter_Some in Hf as [_ Hp%range_elem].
  pose proof (stopDelete_Inv _ _ _ _ HI Hd Hk) as HI'.
  apply (startDaemon_Inv now node dev p (with_daemons (delete (slash_key node dev) (pc_Daemons config)) config) _ HI').
  simpl. eapply keys_ok_sub; [apply delete_subseteq|]. exact (mpi_pools _ HI' p config Hp).
Qed.

Lemma SetActiveThreadPercentage_Inv seed id pct m : MPSInv m -> MPSInv (SetActiveThreadPercentage seed id pct m).1.
Proof.
  intros HI. unfold SetActiveThreadPercentage. destruct (_ || _); [done|].
  destruct (head (filter _ _)) as [l|]; [|done]. simpl. apply MPSInv_alter; [done|]. intros d _.
  constructor; [done..|]. intros [Hs Hc]. constructor; simpl.
  - by rewrite <- size_dom, dom_alter_L, size_dom.
  - intros k c. destruct (decide (k = id)) as [->|Hne]; [|rewrite lookup_alter_ne by done; apply Hc].
    rewrite lookup_alter_eq. intros (c0 & Hc0 & ->)%fmap_Some. by destruct (Hc id c0 Hc0) as (? & ? & ?).
Qed.

(** ** findOrCreateDaemon *)
Definition no_gpu : error := "no available GPUs for MPS daemon".

(** What both calls keep of the daemons a manager has. *)
Definition heap_ext m m' : Prop := forall l d, ms_heap m !! l = Some d -> ms_heap m' !! l = Some d.
Record pool_ext (p : string) (config : MPSPoolConfig) m' (config' : MPSPoolConfig) : Prop := {
  pe_pool : ms_pools m' !! p = Some config';
  pe_pct : pc_ActiveThreadPct config' = pc_ActiveThreadPct config;
  pe_mem : pc_MemoryLimit config' = pc_MemoryLimit config;
  pe_daemons : pc_Daemons config ⊆ pc_Daemons config';
}.
Definition full m (config : MPSPoolConfig) : Prop :=
  forall key l d, pc_Daemons config !! key = Some l -> ms_heap m !! l = Some d -> has_capacity d = false.

Lemma findOrCreateDaemon_spec now seed p config gpus m m' r : MPSInv m -> ms_pools m !! p = Some config ->
  findOrCreateDaemon now seed p config gpus m = (m', r) ->
  match r with
  | Err e => m' = m /\ e = no_gpu /\ full m config /\ forall g, g ∈ gpus -> pc_Daemons config !! gpu_key g <> None
  | Ok l => MPSInv m' /\ heap_ext m m' /\ exists config' d key, pool_ext p config m' config' /\
      pc_Daemons config' !! key = Some l /\ ms_heap m' !! l = Some d /\ has_capacity d = true /\
      (config' = config \/ dm_Clients d = ∅)
  end.
Proof.
  intros HI Hp. unfold findOrCreateDaemon. destruct (head (filter _ (range _ _).*2)) as [l|] eqn:Hf.
  - intros [= <- <-]. apply head_filter_Some in Hf as [Hc ([key l'] & -> & Hl)%list_elem_of_fmap].
    apply range_elem in Hl. simpl in *. destruct (ms_heap m !! l') as [d|] eqn:Hd; [|done].
    split_and!; [done | by intros ? ? ? |]. exists config, d, key. split_and!; try done. by left.
  - assert (Hfull : full m config).
    { intros key l d Hk Hd. rewrite head_filter_None in Hf. specialize (Hf l). rewrite Hd in Hf.
      destruct (has_capacity d); [|done]. exfalso. apply Hf; [|done]. apply list_elem_of_fmap.
      exists (key, l). by rewrite range_elem. }
    destruct (head (filter _ gpus)) as [g|] eqn:Hg.
    + apply head_filter_Some in Hg as [Hfree _].
      pose proof (startDaemon_Inv now (gi_NodeName g) (gi_DeviceID g) p config m HI (mpi_pools m HI p config Hp)) as HI'.
      unfold startDaemon in *. intros [= <- <-]. split_and!; [exact HI' | by intros l d Hl; apply lookup_app_l_Some |].
      eexists _, _, (gpu_key g). split_and!.
      * constructor; simpl; [apply lookup_insert_eq | done | done | by apply insert_subseteq].
      * apply lookup_insert_eq.
      * simpl. by rewrite lookup_app_r, Nat.sub_diag by lia.
      * unfold has_capacity. simpl. by rewrite map_size_empty.
      * by right.
    + intros [= <- <-]. split_and!; [done | done | done |]. intros g Hin Hn.
      rewrite head_filter_None in Hg. by apply (Hg g).
Qed.

Lemma findOrCreateDaemon_fresh now seed p config g m : pc_Daemons config = ∅ ->
  findOrCreateDaemon now seed p config [g] m =
  let '(m, l) := startDaemon now (gi_NodeName g) (gi_DeviceID g) p config m in (m, Ok l).
Proof.
  intros Hemp. unfold findOrCreateDaemon. rewrite Hemp, range_empty. cbn [fmap list_fmap].
  change (filter _ []) with (@nil loc). cbn [head].
  rewrite filter_cons_True by apply lookup_empty. done.
Qed.

(** ** The allocation loop *)
Lemma slash_key_inj a b c : slash_key a b = slash_key a c -> b = c.
Proof.
  unfold slash_key. intros E. assert (Hinj : forall x y z : string, x +:+ y = x +:+ z -> y = z).
  { induction x as [|ch x IH]; intros y z Hxy; [done|]. apply IH. by injection Hxy. }
  by do 2 apply Hinj in E.
Qed.
Lemma client_id_inj req i j : client_id req i = client_id req j -> i = j.
Proof.
  unfold client_id. intros E. apply slash_key_inj in E.
  assert (Hinj : forall x y z : string, x +:+ y = x +:+ z -> y = z).
  { induction x as [|ch x IH]; intros y z Hxy; [done|]. apply IH. by injection Hxy. }
  apply Hinj, Hinj, pretty_Z_inj in E. lia.
Qed.

Lemma insert_client_ok now req i config d : has_capacity d = true ->
  update_ok d (with_clients (<[client_id req i := newClient now req i config d]>) d).
Proof.
  intros Hc. constructor; [done..|]. intros [Hs Hcl]. apply andb_prop in Hc as [_ Hc%Nat.ltb_lt]. constructor; simpl.
  - rewrite map_size_insert. destruct (_ !! _); simpl; lia.
  - intros k c [[<- <-]|[_ Hk]]%lookup_insert_Some; [done | by apply Hcl].
Qed.

(** A client of the request, as the loop registers it on a daemon. *)
Definition registered now req (config : MPSPoolConfig) m (i : nat) (info : GPUAllocationInfo) : Prop :=
  exists key l d, pc_Daemons config !! key = Some l /\ ms_heap m !! l = Some d /\
    dm_Clients d !! client_id req i = Some (newClient now req i config d) /\ dm_Status d = "Running" /\
    info = mkGPUAllocationInfo _ (dm_NodeName d) (dm_DeviceID d) "" (default Quantity_zero (pc_MemoryLimit config)).

(** What an iteration at index [i] or later leaves of a daemon's clients. *)
Definition keeps req (i : nat) (d d' : MPSDaemon) : Prop :=
  dm_NodeName d' = dm_NodeName d /\ dm_DeviceID d' = dm_DeviceID d /\ dm_Status d' = dm_Status d /\
  forall k, (forall j, (i <= j)%nat -> k <> client_id req j) -> dm_Clients d' !! k = dm_Clients d !! k.
Lemma keeps_weaken req i j d d' d'' : (i <= j)%nat -> keeps req i d d' -> keeps req j d' d'' -> keeps req i d d''.
Proof.
  intros Hij (Hn & Hv & Hs & Hk) (Hn' & Hv' & Hs' & Hk'). split_and!; [congruence..|]. intros k Hfresh.
  rewrite Hk', Hk; [done | done |]. intros j' Hj'. apply Hfresh. lia.
Qed.

Lemma allocLoop_Ok now seed req p gpus k i m m' infos config : MPSInv m -> ms_pools m !! p = Some config ->
  allocLoop now seed req p gpus k i m = (m', Ok infos) ->
  exists config', MPSInv m' /\ pool_ext p config m' config' /\ length infos = k /\
    (forall l d, ms_heap m !! l = Some d -> exists d', ms_heap m' !! l = Some d' /\ keeps req i d d') /\
    (forall j info, infos !! j = Some info -> registered now req config' m' (i + j) info).
Proof.
  revert i m m' infos config. induction k as [|k IH]; intros i m m' infos config HI Hp Hr.
  - simpl in Hr. simplify_eq. exists config. split_and!; [done | by constructor | done | | done].
    intros l d Hl. exists d. by split_and!.
  - cbn [allocLoop] in Hr. rewrite Hp in Hr.
    destruct (findOrCreateDaemon _ _ _ _ _ _) as [m1 [l|e]] eqn:Ef; [|by simplify_eq].
    apply findOrCreateDaemon_spec in Ef as (HI1 & Hext & config1 & d & key & Hpe & Hkey & Hd & Hcap & Hnew); [|done|done].
    rewrite Hd in Hr. set (cl := newClient now req i config d) in *.
    assert (Hcl : cl = newClient now req i config1 d).
    { unfold cl, newClient. by rewrite (pe_pct _ _ _ _ Hpe), (pe_mem _ _ _ _ Hpe). }
    set (m2 := mpsset_heap _ m1) in *.
    assert (HI2 : MPSInv m2).
    { apply MPSInv_alter; [done|]. intros d' Hd'. rewrite Hd in Hd'. injection Hd' as <-. by apply insert_client_ok. }
    destruct (allocLoop _ _ _ _ _ _ _ _) as [m3 [infos'|e]] eqn:Er; [|discriminate Hr]. injection Hr as <- <-.
    apply (IH _ _ _ _ config1) in Er as (config' & HI' & Hpe' & Hlen & Hkeep & Hreg); [|done|by destruct Hpe].
    assert (Hpe2 : pool_ext p config m3 config').
    { destruct Hpe, Hpe'. constructor; [done | congruence | congruence | by etrans]. }
    exists config'. split_and!; [done | done | simpl; congruence | |].
    + intros l' d' Hl'. apply Hext in Hl'. destruct (decide (l' = l)) as [->|Hne].
      * rewrite Hd in Hl'. injection Hl' as <-. destruct (Hkeep l (with_clients (<[client_id req i := cl]>) d)) as (d2 & Hd2 & Hk2).
        { simpl. by rewrite list_lookup_alter_eq, Hd. }
        exists d2. split; [done|]. eapply (keeps_weaken _ i (S i)); [lia | | exact Hk2]. split_and!; [done..|].
        intros k' Hfresh. simpl. apply lookup_insert_ne. intros <-. by apply (Hfresh i).
      * destruct (Hkeep l' d') as (d2 & Hd2 & Hk2); [simpl; by rewrite list_lookup_alter_ne|].
        exists d2. split; [done|]. eapply (keeps_weaken _ i (S i)); [lia | | exact Hk2]. by split_and!.
    + intros [|j] info Hj; simpl in Hj; [|replace (i + S j)%nat with (S i + j)%nat by lia; by apply Hreg].
      injection Hj as <-. rewrite Nat.add_0_r.
      destruct (Hkeep l (with_clients (<[client_id req i := cl]>) d)) as (d2 & Hd2 & Hn & Hv & Hs & Hk2).
      { simpl. by rewrite list_lookup_alter_eq, Hd. }
      exists key, l, d2. simpl in *. split_and!; [| done | | |].
      * eapply lookup_weaken; [done | by destruct Hpe'].
      * rewrite Hk2; [rewrite lookup_insert_eq, Hcl|].
        -- unfold newClient. by rewrite Hn, Hv, (pe_pct _ _ _ _ Hpe'), (pe_mem _ _ _ _ Hpe').
        -- intros j Hj E. apply client_id_inj in E. lia.
      * rewrite Hs. by apply andb_prop in Hcap as [Hst%bool_decide_eq_true _].
      * by rewrite Hn, Hv, (pe_mem _ _ _ _ Hpe2).
Qed.

(** ** The rollback *)
(** No daemon of the global index has a client of the service. *)
Definition no_clients (s n : string) m : Prop :=
  forall key l d k c, ms_daemons m !! key = Some l -> ms_heap m !! l = Some d -> dm_Clients d !! k = Some c ->
  is_client s n c = false.
(** The clients of other services are kept. *)
Definition others_kept (s n : string) (d d' : MPSDaemon) : Prop :=
  forall k c, dm_Clients d !! k = Some c -> is_client s n c = false -> dm_Clients d' !! k = Some c.

Lemma releaseClient_none seed s n m : no_clients s n (releaseClient seed s n m).
Proof.
  intros key l d k c Hl Hd Hk. destruct (releaseClient_spec seed s n m) as (_ & Ed & Hin & _).
  rewrite Ed in Hl. rewrite (Hin key l Hl) in Hd. apply fmap_Some in Hd as (d0 & _ & ->). simpl in Hk.
  rewrite dropClients_lookup in Hk. destruct (dm_Clients d0 !! k) as [c0|]; [|done]. simpl in Hk.
  destruct (is_client s n c0) eqn:E; [done|]. by simplify_eq.
Qed.
Lemma releaseClient_others seed s n m l d : ms_heap m !! l = Some d ->
  exists d', ms_heap (releaseClient seed s n m) !! l = Some d' /\ others_kept s n d d'.
Proof.
  intros Hl. pose proof (lookup_lt_Some _ _ _ Hl) as Hlt. rewrite <- (releaseClient_length seed s n) in Hlt.
  apply lookup_lt_is_Some in Hlt as [d' Hd']. exists d'. split; [done|].
  destruct (releaseClient_heap _ _ _ _ _ _ _ Hl Hd') as [->| ->]; [by intros ? ?|].
  intros k c Hk Hc. simpl. by rewrite dropClients_lookup, Hk; simpl; rewrite Hc.
Qed.
Lemma rollback_spec n0 seed s n m : MPSInv m ->
  let m' := Nat.iter n0 (releaseClient seed s n) m in
  MPSInv m' /\ ((0 < n0)%nat -> no_clients s n m') /\
  forall l d, ms_heap m !! l = Some d -> exists d', ms_heap m' !! l = Some d' /\ others_kept s n d d'.
Proof.
  intros HI. induction n0 as [|n0 (IHI & _ & IHo)]; simpl.
  - split_and!; [done | lia |]. intros l d Hl. exists d. split; [done|]. by intros ? ?.
  - split_and!; [by apply releaseClient_Inv | intros _; apply releaseClient_none |].
    intros l d Hl. destruct (IHo l d Hl) as (d1 & Hd1 & Ho1).
    destruct (releaseClient_others seed s n _ l d1 Hd1) as (d2 & Hd2 & Ho2). exists d2. split; [done|].
    intros k c Hk Hc. by apply Ho2, Hc; apply Ho1.
Qed.

Lemma allocLoop_Err now seed req p gpus k i m m' e config : MPSInv m -> ms_pools m !! p = Some config ->
  allocLoop now seed req p gpus k i m = (m', Err e) ->
  e = no_gpu /\ MPSInv m' /\ (i = 0%nat /\ m' = m \/ no_clients (rq_ServiceName req) (rq_Namespace req) m') /\
  forall l d, ms_heap m !! l = Some d -> exists d1 d', ms_heap m' !! l = Some d' /\ keeps req i d d1 /\
    others_kept (rq_ServiceName req) (rq_Namespace req) d1 d'.
Proof.
  revert i m m' config. induction k as [|k IH]; intros i m m' config HI Hp Hr; [done|].
  cbn [allocLoop] in Hr. rewrite Hp in Hr. destruct (findOrCreateDaemon _ _ _ _ _ _) as [m1 [l|e1]] eqn:Ef.
  - apply findOrCreateDaemon_spec in Ef as (HI1 & Hext & config1 & d & key & Hpe & Hkey & Hd & Hcap & Hnew); [|done|done].
    rewrite Hd in Hr. set (cl := newClient now req i config d) in *. set (m2 := mpsset_heap _ m1) in *.
    assert (HI2 : MPSInv m2).
    { apply MPSInv_alter; [done|]. intros d' Hd'. rewrite Hd in Hd'. injection Hd' as <-. by apply insert_client_ok. }
    destruct (allocLoop _ _ _ _ _ _ _ _) as [m3 [infos'|e']] eqn:Er; [discriminate Hr|]. injection Hr as <- <-.
    apply (IH _ _ _ config1) in Er as (-> & HI' & Hno & Hkeep); [|done|by destruct Hpe].
    split_and!; [done | done | right; by destruct Hno as [[? _]|?] |].
    intros l' d' Hl'. apply Hext in Hl'. destruct (decide (l' = l)) as [->|Hne].
    + rewrite Hd in Hl'. injection Hl' as <-. destruct (Hkeep l (with_clients (<[client_id req i := cl]>) d)) as (d1 & d2 & Hd2 & Hk1 & Ho).
      { simpl. by rewrite list_lookup_alter_eq, Hd. }
      exists d1, d2. split_and!; [done | | done]. eapply (keeps_weaken _ i (S i)); [lia | | exact Hk1]. split_and!; [done..|].
      intros k' Hfresh. simpl. apply lookup_insert_ne. intros <-. by apply (Hfresh i).
    + destruct (Hkeep l' d') as (d1 & d2 & Hd2 & Hk1 & Ho); [simpl; by rewrite list_lookup_alter_ne|].
      exists d1, d2. split_and!; [done | | done]. eapply (keeps_weaken _ i (S i)); [lia | | exact Hk1]. by split_and!.
  - apply findOrCreateDaemon_spec in Ef as (-> & -> & _); [|done|done]. injection Hr as <- <-.
    destruct (rollback_spec i (seed + i) (rq_ServiceName req) (rq_Namespace req) m HI) as (HI' & Hno & Ho).
    split_and!; [done | done | |].
    + destruct i as [|i]; [by left | right; apply Hno; lia].
    + intros l d Hl. destruct (Ho l d Hl) as (d' & Hd' & Hk). exists d, d'. by split_and!.
Qed.

Lemma Allocate_Inv now seed req p gpus m m' r : MPSInv m -> Allocate now seed req p gpus m = Ret (m', r) -> MPSInv m'.
Proof.
  intros HI. unfold Allocate. destruct (ms_pools m !! p) as [config|] eqn:Hp; [|by intros [= <- _]].
  unfold make_cap. destruct (rq_GPUCount req <? 0); [done|]. cbn. intros [= Hr]. destruct r as [infos|e].
  - eapply allocLoop_Ok in Hr as (? & HI' & _); eauto.
  - eapply allocLoop_Err in Hr as (_ & HI' & _); eauto.
Qed.

Lemma mpsStep_Inv m m' : MPSInv m -> mpsStep m m' -> MPSInv m'.
Proof.
  intros HI Hs. destruct Hs as [m|m m' Hstop|pool m|seed p m|now seed req p gpus m m' r Ha|seed s n m|seed id pct m|now seed node dev m].
  - by destruct HI.
  - unfold Stop in Hstop. destruct (ms_stopClosed m); [done|]. injection Hstop as <-. by destruct HI.
  - unfold ConfigurePool. destruct (has_mode _ _) as [sh|]; [|done]. destruct HI as [H1 H2 H3 H4].
    constructor; simpl; [done | | done | done]. intros q c [[_ <-]|[_ Hq]]%lookup_insert_Some; [by intros ? ? | by eapply H2].
  - by apply CleanupPool_Inv.
  - by eapply Allocate_Inv.
  - by apply releaseClient_Inv.
  - by apply SetActiveThreadPercentage_Inv.
  - by apply RestartDaemon_Inv.
Qed.
Lemma NewMPSManager_Inv : MPSInv NewMPSManager.
Proof. by constructor; [intros ? ? ? | intros ? ? ? | intros ? ? | intros ? ? ?]. Qed.
Lemma mps_reach_Inv m : rtc mpsStep NewMPSManager m -> MPSInv m.
Proof. apply (rtc_invariant mpsStep MPSInv); [intros ? ?; apply mpsStep_Inv | apply NewMPSManager_Inv]. Qed.

(** ** Room for an allocation *)
(** A device without a daemon, or a running daemon of the pool with room for
    [k] more clients. *)
Definition room m (config : MPSPoolConfig) (gpus : list GPUInfo) (k : nat) : Prop :=
  (k <= 48)%nat /\ (exists g, g ∈ gpus /\ pc_Daemons config !! gpu_key g = None) \/
  exists key l d, pc_Daemons config !! key = Some l /\ ms_heap m !! l = Some d /\ dm_Status d = "Running" /\
    (size (dm_Clients d) + k <= 48)%nat.

Lemma size_insert_le (cs : gmap string MPSClient) k c : (size (<[k := c]> cs) <= S (size cs))%nat.
Proof. rewrite map_size_insert. destruct (_ !! _); simpl; lia. Qed.

Lemma allocLoop_room now seed req p gpus k i m config : MPSInv m -> ms_pools m !! p = Some config ->
  room m config gpus k -> exists m' infos, allocLoop now seed req p gpus k i m = (m', Ok infos).
Proof.
  revert i m config. induction k as [|k IH]; intros i m config HI Hp Hroom; [by eexists _, _|].
  cbn [allocLoop]. rewrite Hp. destruct (findOrCreateDaemon _ _ _ _ _ _) as [m1 [l|e1]] eqn:Ef.
  - apply findOrCreateDaemon_spec in Ef as (HI1 & Hext & config1 & d & key & Hpe & Hkey & Hd & Hcap & Hnew); [|done|done].
    rewrite Hd. set (cl := newClient now req i config d). set (m2 := mpsset_heap _ m1).
    assert (HI2 : MPSInv m2).
    { apply MPSInv_alter; [done|]. intros d' Hd'. rewrite Hd in Hd'. injection Hd' as <-. by apply insert_client_ok. }
    destruct (IH (S i) m2 config1) as (m' & infos & Hr); [done | by destruct Hpe | | by rewrite Hr; eexists _, _].
    apply andb_prop in Hcap as [Hst%bool_decide_eq_true _]. pose proof (size_insert_le (dm_Clients d) (client_id req i) cl) as Hsz.
    assert (Hl2 : ms_heap m2 !! l = Some (with_clients (<[client_id req i := cl]>) d)).
    { simpl. by rewrite list_lookup_alter_eq, Hd. }
    destruct Hroom as [[Hk Hg]|(key0 & l0 & d0 & Hk0 & Hd0 & Hst0 & Hs0)].
    + destruct Hnew as [->|Hemp]; [left; split; [lia | done]|]. right. exists key, l, (with_clients (<[client_id req i := cl]>) d).
      split_and!; [done | done | done |]. simpl. rewrite Hemp, map_size_empty in Hsz. simpl in *. rewrite Hemp. lia.
    + right. assert (Hk1 : pc_Daemons config1 !! key0 = Some l0) by (eapply lookup_weaken; [done | by destruct Hpe]).
      apply Hext in Hd0. destruct (decide (l0 = l)) as [->|Hne].
      * rewrite Hd in Hd0. injection Hd0 as <-. exists key0, l, (with_clients (<[client_id req i := cl]>) d).
        split_and!; [done | done | done |]. simpl. lia.
      * exists key0, l0, d0. split_and!; [done | | done | lia]. simpl. by rewrite list_lookup_alter_ne.
  - exfalso. apply findOrCreateDaemon_spec in Ef as (_ & _ & Hfull & Hgpu); [|done|done].
    destruct Hroom as [[_ (g & Hin & Hg)]|(key0 & l0 & d0 & Hk0 & Hd0 & Hst0 & Hs0)]; [by apply (Hgpu g)|].
    specialize (Hfull key0 l0 d0 Hk0 Hd0). unfold has_capacity in Hfull.
    rewrite bool_decide_eq_true_2 in Hfull by done. simpl in Hfull. apply Nat.ltb_ge in Hfull. lia.
Qed.
End facts.

(** * Properties *)
Section properties.
Context `{QO : QuantityOps} `{GR : GoRuntime}.

(** C24. In every state the manager reaches, each daemon serves at most 48
    clients, filed under their own identifiers and marked with the daemon's
    device; both indexes name each daemon by its device; and the daemons of
    the global index are running. *)
Theorem mps_reachable_Inv m : rtc mpsStep NewMPSManager m -> MPSInv m.
Proof. apply mps_reach_Inv. Qed.

(** C25. In every state the manager reaches, [Allocate] for at most 48 clients
    succeeds whenever a device of the pool has no daemon yet (and for any
    number that a running daemon of the pool has room for): it returns one
    entry per client, each client is registered with a running daemon of
    the pool under its own identifier and with the pool's limits, and no
    client with another identifier is touched. *)
Theorem mps_Allocate_room now seed (req : AllocationRequest) p gpus m config :
  rtc mpsStep NewMPSManager m -> ms_pools m !! p = Some config -> 0 <= rq_GPUCount req ->
  room m config gpus (Z.to_nat (rq_GPUCount req)) ->
  exists m' infos config', Allocate now seed req p gpus m = Ret (m', Ok infos) /\
    ms_pools m' !! p = Some config' /\ Z.of_nat (length infos) = rq_GPUCount req /\
    (forall j info, infos !! j = Some info -> registered now req config' m' j info) /\
    (forall l d, ms_heap m !! l = Some d -> exists d', ms_heap m' !! l = Some d' /\ keeps req 0 d d').
Proof.
  intros Hr%mps_reach_Inv Hp Hc Hroom. unfold Allocate. rewrite Hp. unfold make_cap.
  replace (rq_GPUCount req <? 0) with false by (symmetry; by apply Z.ltb_ge). cbn [mbind outcome_bind].
  destruct (allocLoop_room now seed req p gpus _ 0 m config Hr Hp Hroom) as (m' & infos & Ha).
  rewrite Ha. apply (allocLoop_Ok _ _ _ _ _ _ _ _ _ _ config) in Ha as (config' & _ & Hpe & Hlen & Hkeep & Hreg); [|done|done].
  exists m', infos, config'. split_and!; [done | by destruct Hpe | lia | exact Hreg | exact Hkeep].
Qed.

(** When [Allocate] runs out of daemons and devices, its rollback is not
    limited to what it allocated itself: unless it failed on its first client,
    no daemon of the global index keeps any client of the service, those of
    earlier successful calls included; the clients of other services stay. *)
Theorem mps_rollback_drops_earlier now seed (req : AllocationRequest) p gpus m m' config e :
  rtc mpsStep NewMPSManager m -> ms_pools m !! p = Some config ->
  Allocate now seed req p gpus m = Ret (m', Err e) ->
  e = no_gpu /\ (m' = m \/ no_clients (rq_ServiceName req) (rq_Namespace req) m') /\
  forall l d k c, ms_heap m !! l = Some d -> dm_Clients d !! k = Some c ->
    is_client (rq_ServiceName req) (rq_Namespace req) c = false -> (forall i, k <> client_id req i) ->
    exists d', ms_heap m' !! l = Some d' /\ dm_Clients d' !! k = Some c.
Proof.
  intros Hr%mps_reach_Inv Hp Ha. unfold Allocate in Ha. rewrite Hp in Ha. apply outcome_bind_Ret in Ha as ([] & _ & Ha).
  injection Ha as Ha. apply (allocLoop_Err _ _ _ _ _ _ _ _ _ _ config) in Ha as (-> & _ & Hno & Hkeep); [|done|done].
  split_and!; [done | by destruct Hno as [[_ ?]|?]; [left|right] |].
  intros l d k c Hl Hk Hc Hfresh. destruct (Hkeep l d Hl) as (d1 & d' & Hd' & (_ & _ & _ & Hk1) & Ho).
  exists d'. split; [done|]. apply Ho; [|done]. by rewrite Hk1.
Qed.

(** Two pools on one device shadow each other: when a second pool starts
    its daemon on the device, the first pool's daemon leaves the global index,
    and from then on [Release] never frees its clients. *)
Theorem mps_shadowed_daemon_leaks now seed seed' (req : AllocationRequest) a b ca cb g la da m :
  rtc mpsStep NewMPSManager m ->
  ms_pools m !! a = Some ca -> pc_Daemons ca !! gpu_key g = Some la -> ms_heap m !! la = Some da ->
  ms_pools m !! b = Some cb -> pc_Daemons cb = ∅ -> rq_GPUCount req = 1 ->
  exists m' info, Allocate now seed req b [g] m = Ret (m', Ok [info]) /\
    (forall key, ms_daemons m' !! key <> Some la) /\
    forall service namespace, ms_heap (Release seed' service namespace m').1 !! la = Some da.
Proof.
  intros Hr Ha Hk Hla Hb Hemp Hcount. assert (HI := mps_reach_Inv m Hr). unfold Allocate. rewrite Hb, Hcount. cbn [make_cap Z.ltb mbind outcome_bind].
  change (Z.to_nat 1) with 1%nat. cbn [allocLoop]. rewrite Hb, findOrCreateDaemon_fresh by done.
  unfold startDaemon. simpl. rewrite lookup_app_r, Nat.sub_diag by lia. simpl.
  eexists _, _. split; [reflexivity|].
  assert (Hne : la <> length (ms_heap m)) by (apply lookup_lt_Some in Hla; lia).
  assert (Hgone : forall key, <[slash_key (gi_NodeName g) (gi_DeviceID g) := length (ms_heap m)]> (ms_daemons m) !! key <> Some la).
  { intros key [[_ E]|[Hd Hl]]%lookup_insert_Some; [congruence|].
    destruct (mpi_daemons m HI key la Hl) as (d & Hd1 & <-). destruct (mpi_pools m HI a ca Ha _ la Hk) as (d2 & Hd2 & E).
    simplify_eq. }
  split; [exact Hgone|]. intros service namespace. unfold Release. cbn [fst].
  match goal with |- ms_heap (releaseClient _ _ _ ?m1) !! _ = _ =>
    destruct (releaseClient_spec seed' service namespace m1) as (_ & _ & _ & Hout) end.
  rewrite Hout by exact Hgone. simpl. rewrite list_lookup_alter_ne by done. by apply lookup_app_l_Some.
Qed.
End properties.

(** * Witnesses *)
Section witnesses.
#[local] Existing Instance ZQuantity.
#[local] Existing Instance stdRuntime.

Definition pgpu (dev : string) : GPUInfo := mkGPUInfo _ dev "" "" "n" (0 : @Quantity ZQuantity) 0 0 0 0 false [] [].
Definition ppool (name : string) : GPUPool := example_pool name GPUSharingModeMPS [] 0 50.
Definition preq (service : string) (n : Z) : AllocationRequest :=
  mkAllocationRequest _ service "ns" "" n (0 : @Quantity ZQuantity) GPUSharingModeMPS "" "".
Definition pconfig (name : string) (ds : gmap string loc) : MPSPoolConfig := mkMPSPoolConfig _ name 50 None ds.
Definition pstart : MPSManager := (ConfigurePool (ppool "b") (ConfigurePool (ppool "a") NewMPSManager).1).1.
Definition prun (service p : string) (n : Z) (gpus : list GPUInfo) (m : MPSManager) : MPSManager :=
  match Allocate 5 0 (preq service n) p gpus m with Ret (m', _) => m' | _ => m end.

Lemma pstart_reach : rtc mpsStep NewMPSManager pstart.
Proof.
  eapply rtc_l; [apply (mpsStep_ConfigurePool (ppool "a"))|]. eapply rtc_l; [apply (mpsStep_ConfigurePool (ppool "b"))|].
  apply rtc_refl.
Qed.
Lemma prun_reach service p n gpus m : rtc mpsStep NewMPSManager m -> rtc mpsStep NewMPSManager (prun service p n gpus m).
Proof.
  intros Hr. unfold prun. destruct (Allocate _ _ _ _ _ _) as [[m' r]| |] eqn:E; [|done|done].
  eapply rtc_r; [exact Hr | by eapply mpsStep_Allocate].
Qed.

Definition pone : MPSManager := prun "x" "a" 1 [pgpu "0"] pstart.
Lemma pone_reach : rtc mpsStep NewMPSManager pone.
Proof. apply prun_reach, pstart_reach. Qed.
Lemma pone_heap : ms_heap pone !! 0%nat = Some (mkMPSDaemon _ "n" "0" 12345 "/tmp/nvidia-mps-0" "/var/log/nvidia-mps-0.log" 50
  (0 : @Quantity ZQuantity) {["ns/x-0" := mkMPSClient _ "ns/x-0" "x" "ns" "n" "0" 50 (0 : @Quantity ZQuantity) 5 5]} 5 "Running").
Proof. vm_compute. reflexivity. Qed.
Lemma pone_a : ms_pools pone !! "a" = Some (pconfig "a" {["n/0" := 0%nat]}).
Proof. vm_compute. reflexivity. Qed.
Lemma pone_b : ms_pools pone !! "b" = Some (pconfig "b" ∅).
Proof. vm_compute. reflexivity. Qed.

Lemma mps_reachable_Inv_witness : rtc mpsStep NewMPSManager pone /\ MPSInv pone.
Proof. split; [exact pone_reach | exact (mps_reachable_Inv pone pone_reach)]. Defined.

Lemma mps_Allocate_room_witness : exists m' infos, Allocate 5 0 (preq "y" 2) "b" [pgpu "0"] pone = Ret (m', Ok infos) /\
  Z.of_nat (length infos) = 2.
Proof.
  destruct (mps_Allocate_room 5 0 (preq "y" 2) "b" [pgpu "0"] pone (pconfig "b" ∅) pone_reach pone_b)
    as (m' & infos & c & Ha & _ & Hl & _); [discriminate | left; split; [apply Nat.leb_le; reflexivity|] |].
  - exists (pgpu "0"). split; [left | apply lookup_empty].
  - exact (ex_intro _ m' (ex_intro _ infos (conj Ha Hl))).
Defined.

(** A pool with one device: the service has one client, asks for 49 more, and
    loses the first with the others. *)
Definition pmany : MPSManager := prun "x" "a" 49 [pgpu "0"] pone.
Lemma pmany_run : Allocate 5 0 (preq "x" 49) "a" [pgpu "0"] pone = Ret (pmany, Err no_gpu).
Proof. vm_compute. reflexivity. Qed.
Lemma pmany_kept : ms_heap pmany !! 0%nat <> ms_heap pone !! 0%nat.
Proof. vm_compute. discriminate. Qed.
Lemma mps_rollback_drops_earlier_witness : no_clients "x" "ns" pmany.
Proof.
  destruct (mps_rollback_drops_earlier 5 0 (preq "x" 49) "a" [pgpu "0"] pone pmany (pconfig "a" {["n/0" := 0%nat]}) no_gpu
    pone_reach pone_a pmany_run) as (_ & [E|H] & _); [|exact H].
  exfalso. apply pmany_kept. exact (f_equal (fun m => ms_heap m !! 0%nat) E).
Defined.

Lemma mps_shadowed_daemon_leaks_witness : exists m' info, Allocate 5 0 (preq "y" 1) "b" [pgpu "0"] pone = Ret (m', Ok [info]) /\
  ms_heap (Release 0 "x" "ns" m').1 !! 0%nat = ms_heap pone !! 0%nat.
Proof.
  destruct (mps_shadowed_daemon_leaks 5 0 0 (preq "y" 1) "a" "b" (pconfig "a" {["n/0" := 0%nat]}) (pconfig "b" ∅) (pgpu "0") 0%nat
    _ pone pone_reach pone_a (lookup_singleton_eq "n/0" 0%nat) pone_heap pone_b eq_refl eq_refl) as (m' & info & Ha & _ & Hr).
  exists m', info. split; [exact Ha|]. rewrite pone_heap. apply Hr.
Defined.
End witnesses.
