(* ===== verification/Timeslice.v ===== *)
(** internal/gpu/timeslice.go: the time-slice manager.  Slots are heap objects,
    since [Allocate] keeps a pointer to its slot while [rebalanceSlots] sorts
    and rewrites them; a device belongs to one pool's configuration. *)
From S2P Require Import Prelude GoFloat Api GpuTypes.
Local Open Scope Z_scope.

Record TimeSlot := mkTimeSlot {
  sl_SlotID : string;
  sl_ServiceName : string;
  sl_Namespace : string;
  sl_StartOffset : Z;
  sl_Duration : Z;
  sl_Priority : Z;
  sl_Active : bool;
}.

Record TimesliceGPU := mkTimesliceGPU {
  tg_NodeName : string;
  tg_DeviceID : string;
  tg_SlotInterval : Z;
  tg_Slots : list loc;
  tg_MaxSlots : Z;
  tg_CurrentSlotIdx : Z;
  tg_LastScheduled : Z;
  tg_TotalAllocated : Z;
}.

Record TimeslicePoolConfig := mkTimeslicePoolConfig {
  tc_PoolName : string;
  tc_SlotInterval : Z;
  tc_MaxSlots : Z;
  tc_GPUs : gmap string TimesliceGPU;
}.

Record TimesliceAllocation := mkTimesliceAllocation {
  ta_ServiceName : string;
  ta_Namespace : string;
  ta_NodeName : string;
  ta_DeviceID : string;
  ta_SlotID : string;
  ta_SlotDuration : Z;
  ta_SlotFraction : float64;
  ta_AllocatedAt : Z;
}.

(** [tm_schedulerCh] tells whether the one-element channel holds a signal,
    [tm_stopClosed] whether the stop channel is closed. *)
Record TimesliceManager := mkTimesliceManager {
  tm_heap : list TimeSlot;
  tm_pools : gmap string TimeslicePoolConfig;
  tm_allocations : gmap string (list TimesliceAllocation);
  tm_schedulerCh : bool;
  tm_running : bool;
  tm_stopClosed : bool;
}.

Definition tsset_heap v m := mkTimesliceManager v (tm_pools m) (tm_allocations m) (tm_schedulerCh m) (tm_running m) (tm_stopClosed m).
Definition tsset_pools v m := mkTimesliceManager (tm_heap m) v (tm_allocations m) (tm_schedulerCh m) (tm_running m) (tm_stopClosed m).
Definition tsset_allocations v m := mkTimesliceManager (tm_heap m) (tm_pools m) v (tm_schedulerCh m) (tm_running m) (tm_stopClosed m).
Definition tsset_schedulerCh v m := mkTimesliceManager (tm_heap m) (tm_pools m) (tm_allocations m) v (tm_running m) (tm_stopClosed m).
Definition with_gpus (v : gmap string TimesliceGPU) (c : TimeslicePoolConfig) : TimeslicePoolConfig :=
  mkTimeslicePoolConfig (tc_PoolName c) (tc_SlotInterval c) (tc_MaxSlots c) v.
Definition with_slots (slots : list loc) (g : TimesliceGPU) : TimesliceGPU :=
  mkTimesliceGPU (tg_NodeName g) (tg_DeviceID g) (tg_SlotInterval g) slots (tg_MaxSlots g) (tg_CurrentSlotIdx g)
    (tg_LastScheduled g) (tg_TotalAllocated g).
Definition with_total (total : Z) (g : TimesliceGPU) : TimesliceGPU :=
  mkTimesliceGPU (tg_NodeName g) (tg_DeviceID g) (tg_SlotInterval g) (tg_Slots g) (tg_MaxSlots g) (tg_CurrentSlotIdx g)
    (tg_LastScheduled g) total.
Definition with_current (idx now : Z) (g : TimesliceGPU) : TimesliceGPU :=
  mkTimesliceGPU (tg_NodeName g) (tg_DeviceID g) (tg_SlotInterval g) (tg_Slots g) (tg_MaxSlots g) idx now (tg_TotalAllocated g).
Definition with_duration (offset duration : Z) (s : TimeSlot) : TimeSlot :=
  mkTimeSlot (sl_SlotID s) (sl_ServiceName s) (sl_Namespace s) offset duration (sl_Priority s) (sl_Active s).
Definition with_priority (priority : Z) (s : TimeSlot) : TimeSlot :=
  mkTimeSlot (sl_SlotID s) (sl_ServiceName s) (sl_Namespace s) (sl_StartOffset s) (sl_Duration s) priority (sl_Active s).
Definition with_active (active : bool) (s : TimeSlot) : TimeSlot :=
  mkTimeSlot (sl_SlotID s) (sl_ServiceName s) (sl_Namespace s) (sl_StartOffset s) (sl_Duration s) (sl_Priority s) active.
(** The maps of [GetGPUStats]. *)
Record SlotDetail := mkSlotDetail {
  sd_slotId : string;
  sd_serviceName : string;
  sd_namespace : string;
  sd_duration : Z;
  sd_priority : Z;
  sd_active : bool;
}.
Record TimesliceStats := mkTimesliceStats {
  tst_nodeName : string;
  tst_deviceId : string;
  tst_slotInterval : Z;
  tst_slotCount : nat;
  tst_maxSlots : Z;
  tst_currentSlot : Z;
  tst_lastScheduled : Z;
  tst_totalAllocated : Z;
  tst_utilization : float64;
  tst_slots : list SlotDetail;
}.

Section operations.
Context `{QuantityOps} `{GoRuntime}.
Implicit Types (m : TimesliceManager) (l : loc) (heap : list TimeSlot).

Definition NewTimesliceManager : TimesliceManager := mkTimesliceManager [] ∅ ∅ false false false.
Definition Start m : TimesliceManager :=
  mkTimesliceManager (tm_heap m) (tm_pools m) (tm_allocations m) (tm_schedulerCh m) true (tm_stopClosed m).
Definition Stop m : outcome TimesliceManager :=
  if tm_stopClosed m then Panic "close of closed channel"
  else Ret (mkTimesliceManager (tm_heap m) (tm_pools m) (tm_allocations m) (tm_schedulerCh m) false true).

(** One device's part of [scheduleSlots]. *)
Definition scheduleGPU (now : Z) (g : TimesliceGPU) : TimesliceGPU :=
  match tg_Slots g with
  | [] => g
  | slots =>
      let n := Z.of_nat (length slots) in
      if Z.quot (tg_SlotInterval g) n <=? now - tg_LastScheduled g
      then with_current (Z.rem (tg_CurrentSlotIdx g + 1) n) now g
      else g
  end.
Definition scheduleSlots (now : Z) m : TimesliceManager :=
  tsset_pools ((fun config => with_gpus (scheduleGPU now <$> tc_GPUs config) config) <$> tm_pools m) m.
(** The scheduler loop takes a signal from its channel. *)
Definition takeSignal (now : Z) m : option TimesliceManager :=
  if tm_schedulerCh m then Some (scheduleSlots now (tsset_schedulerCh false m)) else None.

Definition ConfigurePool (pool : GPUPool) m : TimesliceManager * result unit :=
  match has_mode GPUSharingModeTimeslice pool with
  | None => (m, Err ("pool " +:+ pool_name pool +:+ " is not configured for time-slice mode"))
  | Some sh =>
      let slotInterval := int64 (gss_TimeSliceInterval sh * Millisecond) in
      let slotInterval := if slotInterval =? 0 then 100 * Millisecond else slotInterval in
      (tsset_pools (<[pool_name pool := mkTimeslicePoolConfig (pool_name pool) slotInterval 10 ∅]> (tm_pools m)) m, Ok tt)
  end.

Definition CleanupPool (seed : nat) (poolName : string) m : TimesliceManager * result unit :=
  match tm_pools m !! poolName with
  | None => (m, Ok tt)
  | Some config =>
      match head (filter (fun x : string * TimesliceGPU => tg_Slots x.2 <> []) (range seed (tc_GPUs config))) with
      | Some (key, _) => (m, Err ("cannot cleanup pool " +:+ poolName +:+ ": GPU " +:+ key +:+ " has active slots"))
      | None => (tsset_pools (delete poolName (tm_pools m)) m, Ok tt)
      end
  end.

(** The priority of the slot at an address. *)
Definition priority_of heap l : Z := from_option sl_Priority 0 (heap !! l).

(** The duration [rebalanceSlots] gives to a slot of some priority. *)
Definition slotDuration (totalInterval totalPriority priority : Z) : Z :=
  let weight := f64_div (float64_of_int (int32 (priority + 1))) (float64_of_int totalPriority) in
  let d := int64_of_float64 (f64_mul (float64_of_int totalInterval) weight) in
  if d <? 10 * Millisecond then 10 * Millisecond else d.

(** The loop that lays the slots out, from an offset on. *)
Fixpoint layoutLoop (totalInterval totalPriority : Z) (slots : list loc) (offset : Z) heap : list TimeSlot * Z :=
  match slots with
  | [] => (heap, offset)
  | l :: rest =>
      let d := slotDuration totalInterval totalPriority (priority_of heap l) in
      layoutLoop totalInterval totalPriority rest (int64 (offset + d)) (alter (with_duration offset d) l heap)
  end.

Definition rebalanceSlots (totalInterval : Z) (g : TimesliceGPU) heap : TimesliceGPU * list TimeSlot :=
  match tg_Slots g with
  | [] => (g, heap)
  | _ =>
      let slots := sort_slice (fun i j => priority_of heap j <? priority_of heap i) (tg_Slots g) in
      let totalPriority := fold_left (fun t l => int32 (t + int32 (priority_of heap l + 1))) slots 0 in
      let '(heap, offset) := layoutLoop totalInterval totalPriority slots 0 heap in
      let heap :=
        if offset <? totalInterval then
          match last slots with
          | Some l => alter (fun s => with_duration (sl_StartOffset s) (int64 (sl_Duration s + (totalInterval - offset))) s) l heap
          | None => heap
          end
        else heap in
      (with_total offset (with_slots slots g), heap)
  end.

Definition findOrCreateTimesliceGPU (now : Z) (seed : nat) (config : TimeslicePoolConfig) (gpus : list GPUInfo)
    : result (string * TimesliceGPU) :=
  match head (filter (fun x : string * TimesliceGPU => int32 (Z.of_nat (length (tg_Slots x.2))) < tg_MaxSlots x.2)
                (range seed (tc_GPUs config))) with
  | Some x => Ok x
  | None =>
      match head (filter (fun g => tc_GPUs config !! gpu_key g = None) gpus) with
      | Some g => Ok (gpu_key g, mkTimesliceGPU (gi_NodeName g) (gi_DeviceID g) (tc_SlotInterval config) [] (tc_MaxSlots config) 0 now 0)
      | None => Err "no available GPUs for time-slicing"
      end
  end.

Definition owns (serviceName namespace : string) heap l : bool :=
  match heap !! l with
  | Some s => bool_decide (sl_ServiceName s = serviceName) && bool_decide (sl_Namespace s = namespace)
  | None => false
  end.
(** One device's part of [releaseSlots]. *)
Definition releaseGPU (serviceName namespace : string) (interval : Z) (g : TimesliceGPU) heap : TimesliceGPU * list TimeSlot :=
  let newSlots := filter (fun l => owns serviceName namespace heap l = false) (tg_Slots g) in
  if (length newSlots =? length (tg_Slots g))%nat then (g, heap)
  else rebalanceSlots interval (with_slots newSlots g) heap.
Definition releasePool (seed : nat) (serviceName namespace : string) (config : TimeslicePoolConfig) heap
    : TimeslicePoolConfig * list TimeSlot :=
  fold_left (fun '(c, heap) '(key, g) =>
      let '(g, heap) := releaseGPU serviceName namespace (tc_SlotInterval config) g heap in
      (with_gpus (<[key := g]> (tc_GPUs c)) c, heap))
    (range seed (tc_GPUs config)) (config, heap).
Definition releaseSlots (seed : nat) (serviceName namespace : string) m : TimesliceManager :=
  let m := fold_left (fun m '(p, config) =>
      let '(config, heap) := releasePool (S seed) serviceName namespace config (tm_heap m) in
      tsset_pools (<[p := config]> (tm_pools m)) (tsset_heap heap m))
    (range seed (tm_pools m)) m in
  tsset_allocations (delete (slash_key namespace serviceName) (tm_allocations m)) m.

Definition slot_id (req : AllocationRequest) (n : nat) : string :=
  "slot-" +:+ rq_ServiceName req +:+ "-" +:+ rq_Namespace req +:+ "-" +:+ print_Z (Z.of_nat n).
Definition newSlot (req : AllocationRequest) (interval : Z) (n : nat) : TimeSlot :=
  mkTimeSlot (slot_id req n) (rq_ServiceName req) (rq_Namespace req) 0 (Z.quot interval (Z.of_nat n + 1)) 0 true.

(** One iteration of the allocation loop, once a device is found. *)
Definition addSlot (now : Z) (req : AllocationRequest) (poolName : string) (config : TimeslicePoolConfig) (key : string)
    (g : TimesliceGPU) m : TimesliceManager * GPUAllocationInfo :=
  let l := length (tm_heap m) in
  let slot := newSlot req (tc_SlotInterval config) (length (tg_Slots g)) in
  let '(g', heap) := rebalanceSlots (tc_SlotInterval config) (with_slots (tg_Slots g ++ [l]) g) (tm_heap m ++ [slot]) in
  let duration := from_option sl_Duration 0 (heap !! l) in
  let allocation := mkTimesliceAllocation (rq_ServiceName req) (rq_Namespace req) (tg_NodeName g) (tg_DeviceID g)
    (sl_SlotID slot) duration (f64_div (float64_of_int duration) (float64_of_int (tc_SlotInterval config))) now in
  let serviceKey := slash_key (rq_Namespace req) (rq_ServiceName req) in
  let m := tsset_pools (<[poolName := with_gpus (<[key := g']> (tc_GPUs config)) config]> (tm_pools m)) (tsset_heap heap m) in
  (tsset_allocations (<[serviceKey := default [] (tm_allocations m !! serviceKey) ++ [allocation]]> (tm_allocations m)) m,
   mkGPUAllocationInfo _ (tg_NodeName g) (tg_DeviceID g) "" (rq_Memory req)).

(** [k] iterations are left. *)
Fixpoint allocLoop (now : Z) (seed : nat) (req : AllocationRequest) (poolName : string) (gpus : list GPUInfo) (k : nat) m
    : TimesliceManager * result (list GPUAllocationInfo) :=
  match k with
  | O => (m, Ok [])
  | S k' =>
      match tm_pools m !! poolName with
      | None => (m, Ok [])
      | Some config =>
          match findOrCreateTimesliceGPU now (seed + k) config gpus with
          | Err e => (releaseSlots seed (rq_ServiceName req) (rq_Namespace req) m, Err e)
          | Ok (key, g) =>
              let '(m, info) := addSlot now req poolName config key g m in
              match allocLoop now seed req poolName gpus k' m with
              | (m, Ok infos) => (m, Ok (info :: infos))
              | (m, Err e) => (m, Err e)
              end
          end
      end
  end.

Definition Allocate (now : Z) (seed : nat) (req : AllocationRequest) (poolName : string) (gpus : list GPUInfo) m
    : outcome (TimesliceManager * result (list GPUAllocationInfo)) :=
  match tm_pools m !! poolName with
  | None => Ret (m, Err ("time-slice pool not found: " +:+ poolName))
  | Some _ =>
      _ ← make_cap (rq_GPUCount req);
      match allocLoop now seed req poolName gpus (Z.to_nat (rq_GPUCount req)) m with
      | (m, Ok infos) => Ret (tsset_schedulerCh true m, Ok infos)
      | (m, Err e) => Ret (m, Err e)
      end
  end.

Definition Release (seed : nat) (serviceName namespace : string) m : TimesliceManager * result unit :=
  (tsset_schedulerCh true (releaseSlots seed serviceName namespace m), Ok tt).

(** The first slot with an identifier, in the order of the three loops. *)
Definition has_id heap (slotID : string) l : Prop := sl_SlotID <$> heap !! l = Some slotID.
#[export] Instance has_id_dec heap slotID l : Decision (has_id heap slotID l) := decide (_ = _).
Definition findSlot (seed : nat) (slotID : string) m : option (string * string * loc) :=
  head (p ← range seed (tm_pools m); g ← range (S seed) (tc_GPUs p.2);
        l ← filter (has_id (tm_heap m) slotID) (tg_Slots g.2); [(p.1, g.1, l)]).
Definition slot_not_found (slotID : string) : error := "slot not found: " +:+ slotID.

Definition GetSlotInfo (seed : nat) (slotID : string) m : result loc :=
  match findSlot seed slotID m with Some (_, _, l) => Ok l | None => Err (slot_not_found slotID) end.

Definition SetSlotPriority (seed : nat) (slotID : string) (priority : Z) m : TimesliceManager * result unit :=
  match findSlot seed slotID m with
  | Some (p, key, l) =>
      let m := tsset_heap (alter (with_priority priority) l (tm_heap m)) m in
      match tm_pools m !! p with
      | Some config =>
          match tc_GPUs config !! key with
          | Some g =>
              let '(g, heap) := rebalanceSlots (tc_SlotInterval config) g (tm_heap m) in
              (tsset_pools (<[p := with_gpus (<[key := g]> (tc_GPUs config)) config]> (tm_pools m)) (tsset_heap heap m), Ok tt)
          | None => (m, Ok tt)
          end
      | None => (m, Ok tt)
      end
  | None => (m, Err (slot_not_found slotID))
  end.

Definition setActive (seed : nat) (active : bool) (slotID : string) m : TimesliceManager * result unit :=
  match findSlot seed slotID m with
  | Some (_, _, l) => (tsset_heap (alter (with_active active) l (tm_heap m)) m, Ok tt)
  | None => (m, Err (slot_not_found slotID))
  end.
Definition PauseSlot (seed : nat) (slotID : string) m : TimesliceManager * result unit := setActive seed false slotID m.
Definition ResumeSlot (seed : nat) (slotID : string) m : TimesliceManager * result unit := setActive seed true slotID m.

Definition GetAllocations (serviceName namespace : string) m : result (list TimesliceAllocation) :=
  match tm_allocations m !! slash_key namespace serviceName with
  | Some allocs => Ok allocs
  | None => Err ("no allocations found for " +:+ slash_key namespace serviceName)
  end.

(** The first pool that has the device answers; durations as they are before
    the code renders them. *)
Definition slotDetail (s : TimeSlot) : SlotDetail :=
  mkSlotDetail (sl_SlotID s) (sl_ServiceName s) (sl_Namespace s) (sl_Duration s) (sl_Priority s) (sl_Active s).
Definition utilization (g : TimesliceGPU) : float64 :=
  f64_mul (f64_div (float64_of_int (tg_TotalAllocated g)) (float64_of_int (tg_SlotInterval g))) (float64_of_int 100).
Definition GetGPUStats (seed : nat) (nodeName deviceID : string) m : result TimesliceStats :=
  let key := slash_key nodeName deviceID in
  match head (omap (fun p : string * TimeslicePoolConfig => tc_GPUs p.2 !! key) (range seed (tm_pools m))) with
  | None => Err ("GPU not found: " +:+ key)
  | Some g => Ok (mkTimesliceStats (tg_NodeName g) (tg_DeviceID g) (tg_SlotInterval g) (length (tg_Slots g)) (tg_MaxSlots g)
                    (tg_CurrentSlotIdx g) (tg_LastScheduled g) (tg_TotalAllocated g) (utilization g)
                    (slotDetail <$> omap (fun l => tm_heap m !! l) (tg_Slots g)))
  end.
End operations.
