(* ===== verification/TimesliceProps.v ===== *)
(** Properties of the time-slice manager (timeslice.go): the layout of the
    slots, what [Allocate] grants and its rollback destroys, and the order in
    which the scheduler visits the slots. *)
From S2P Require Import Prelude GoFloat Api GpuTypes Timeslice.
Local Open Scope Z_scope.

(** Slots laid out one after the other from an offset on, each for at least
    10ms; the last one is stretched when they end before the interval. *)
Fixpoint laid (heap : list TimeSlot) (interval total : Z) (slots : list loc) (offset : Z) : Prop :=
  match slots with
  | [] => total = offset
  | l :: rest => exists s d, heap !! l = Some s /\ sl_StartOffset s = offset /\ 10 * Millisecond <= d /\
      laid heap interval total rest (int64 (offset + d)) /\
      sl_Duration s = match rest with
                      | [] => if total <? interval then int64 (d + (interval - total)) else d
                      | _ => d
                      end
  end.

(** A device's slots: different objects, at most ten, of falling priority, and
    laid out over the pool's interval. *)
Record gpu_ok (heap : list TimeSlot) (interval : Z) (g : TimesliceGPU) : Prop := {
  gk_NoDup : NoDup (tg_Slots g);
  gk_max : tg_MaxSlots g = 10 /\ (length (tg_Slots g) <= 10)%nat;
  gk_valid : forall l, l ∈ tg_Slots g -> is_Some (heap !! l);
  gk_sorted : StronglySorted (fun i j => priority_of heap j <= priority_of heap i) (tg_Slots g);
  gk_laid : tg_Slots g <> [] -> laid heap interval (tg_TotalAllocated g) (tg_Slots g) 0;
}.

(** A device of a pool. *)
Definition gpu_at (m : TimesliceManager) (p : string) (c : TimeslicePoolConfig) (key : string) (g : TimesliceGPU) : Prop :=
  tm_pools m !! p = Some c /\ tc_GPUs c !! key = Some g.

Record TSInv (m : TimesliceManager) : Prop := {
  ti_max : forall p c, tm_pools m !! p = Some c -> tc_MaxSlots c = 10;
  ti_gpu : forall p c key g, gpu_at m p c key g -> gpu_ok (tm_heap m) (tc_SlotInterval c) g;
  ti_disjoint : forall p c key g p' c' key' g' l, gpu_at m p c key g -> gpu_at m p' c' key' g' ->
    l ∈ tg_Slots g -> l ∈ tg_Slots g' -> p = p' /\ key = key';
}.

(** A completed call of the manager, or a tick of its scheduler. *)
Inductive tsStep `{QuantityOps} `{GoRuntime} : TimesliceManager -> TimesliceManager -> Prop :=
| tsStep_Start m : tsStep m (Start m)
| tsStep_Stop m m' : Stop m = Ret m' -> tsStep m m'
| tsStep_tick now m : tsStep m (scheduleSlots now m)
| tsStep_signal now m m' : takeSignal now m = Some m' -> tsStep m m'
| tsStep_ConfigurePool pool m : tsStep m (ConfigurePool pool m).1
| tsStep_CleanupPool seed p m : tsStep m (CleanupPool seed p m).1
| tsStep_Allocate now seed req p gpus m m' r : Allocate now seed req p gpus m = Ret (m', r) -> tsStep m m'
| tsStep_Release seed s n m : tsStep m (Release seed s n m).1
| tsStep_SetSlotPriority seed id priority m : tsStep m (SetSlotPriority seed id priority m).1
| tsStep_PauseSlot seed id m : tsStep m (PauseSlot seed id m).1
| tsStep_ResumeSlot seed id m : tsStep m (ResumeSlot seed id m).1.

(** Slots that agree on what a layout depends on, and on the rest. *)
Definition same_layout (s s' : TimeSlot) : Prop :=
  sl_StartOffset s' = sl_StartOffset s /\ sl_Duration s' = sl_Duration s /\ sl_Priority s' = sl_Priority s.
Definition same_slot (s s' : TimeSlot) : Prop :=
  sl_SlotID s' = sl_SlotID s /\ sl_ServiceName s' = sl_ServiceName s /\ sl_Namespace s' = sl_Namespace s /\
  sl_Priority s' = sl_Priority s /\ sl_Active s' = sl_Active s.
(** Every slot of a heap is still there, related by [R]. *)
Definition heap_rel (R : TimeSlot -> TimeSlot -> Prop) (heap heap' : list TimeSlot) : Prop :=
  forall l s, heap !! l = Some s -> exists s', heap' !! l = Some s' /\ R s s'.

(** What releasing a service's slots keeps of a manager. *)
Record shrunk (serviceName namespace : string) (m m' : TimesliceManager) : Prop := {
  sh_heap : heap_rel same_slot (tm_heap m) (tm_heap m');
  sh_length : length (tm_heap m') = length (tm_heap m);
  sh_gpu : forall p c key g, gpu_at m p c key g -> exists c' g', gpu_at m' p c' key g' /\
    tc_SlotInterval c' = tc_SlotInterval c /\ (forall l, l ∈ tg_Slots g' -> l ∈ tg_Slots g) /\
    (forall l, l ∈ tg_Slots g -> owns serviceName namespace (tm_heap m) l = false -> l ∈ tg_Slots g');
  sh_back : forall p c' key g', gpu_at m' p c' key g' -> exists c g, gpu_at m p c key g;
}.
(** What granting slots keeps of a manager. *)
Record grew (m m' : TimesliceManager) : Prop := {
  gw_heap : heap_rel same_slot (tm_heap m) (tm_heap m');
  gw_gpu : forall p c key g, gpu_at m p c key g -> exists c' g', gpu_at m' p c' key g' /\
    tg_NodeName g' = tg_NodeName g /\ tg_DeviceID g' = tg_DeviceID g /\ (forall l, l ∈ tg_Slots g -> l ∈ tg_Slots g');
}.
(** A slot that a request was granted on a device of a pool. *)
Definition granted `{QuantityOps} (m : TimesliceManager) (p : string) (req : AllocationRequest) (l : loc)
    (info : GPUAllocationInfo) : Prop :=
  exists c key g s, gpu_at m p c key g /\ l ∈ tg_Slots g /\ tm_heap m !! l = Some s /\
    sl_ServiceName s = rq_ServiceName req /\ sl_Namespace s = rq_Namespace req /\ sl_Active s = true /\ sl_Priority s = 0 /\
    info = mkGPUAllocationInfo _ (tg_NodeName g) (tg_DeviceID g) "" (rq_Memory req).
(** A device without slots yet, or one of the pool with room for [k] more. *)
Definition room `{QuantityOps} (c : TimeslicePoolConfig) (gpus : list GPUInfo) (k : nat) : Prop :=
  (k <= 10)%nat /\ (exists g, g ∈ gpus /\ tc_GPUs c !! gpu_key g = None) \/
  exists key g, tc_GPUs c !! key = Some g /\ (length (tg_Slots g) + k <= 10)%nat.
(** No slot of the device belongs to the service. *)
Definition cleared (serviceName namespace : string) (heap : list TimeSlot) (g : TimesliceGPU) : Prop :=
  forall l, l ∈ tg_Slots g -> owns serviceName namespace heap l = false.

Section facts.
Context `{QO : QuantityOps} `{GR : GoRuntime}.
Implicit Types (m : TimesliceManager) (l : loc) (heap : list TimeSlot) (g : TimesliceGPU) (c : TimeslicePoolConfig).

Lemma same_slot_refl s : same_slot s s.
Proof. by split_and!. Qed.
Lemma same_slot_duration o d s : same_slot s (with_duration o d s).
Proof. by repeat split. Qed.
Lemma heap_rel_refl heap : heap_rel same_slot heap heap.
Proof. intros l s Hl. exists s. split; [done | apply same_slot_refl]. Qed.
Lemma heap_rel_trans h1 h2 h3 : heap_rel same_slot h1 h2 -> heap_rel same_slot h2 h3 -> heap_rel same_slot h1 h3.
Proof.
  intros H12 H23 l s Hl. destruct (H12 l s Hl) as (s2 & Hs2 & ? & ? & ? & ? & ?).
  destruct (H23 l s2 Hs2) as (s3 & Hs3 & ? & ? & ? & ? & ?). exists s3. split; [done|]. split_and!; congruence.
Qed.
Lemma heap_rel_alter (R : TimeSlot -> TimeSlot -> Prop) f l heap : (forall s, R s s) -> (forall s, R s (f s)) ->
  heap_rel R heap (alter f l heap).
Proof.
  intros Hr Hf l' s Hl. destruct (decide (l' = l)) as [->|Hne].
  - exists (f s). by rewrite list_lookup_alter_eq, Hl.
  - exists s. by rewrite list_lookup_alter_ne.
Qed.
Lemma priority_of_rel heap heap' l : heap_rel same_slot heap heap' -> is_Some (heap !! l) ->
  priority_of heap' l = priority_of heap l.
Proof.
  intros Hr [s Hs]. destruct (Hr l s Hs) as (s' & Hs' & _ & _ & _ & Hp & _). unfold priority_of. by rewrite Hs, Hs'.
Qed.

(** ** Layouts *)
Lemma laid_frame heap heap' interval total slots offset :
  (forall l s, l ∈ slots -> heap !! l = Some s -> exists s', heap' !! l = Some s' /\ same_layout s s') ->
  laid heap interval total slots offset -> laid heap' interval total slots offset.
Proof.
  revert offset. induction slots as [|l slots IH]; intros offset Hf; simpl; [done|].
  intros (s & d & Hs & Ho & Hd & Hl & Hdur). destruct (Hf l s) as (s' & Hs' & E1 & E2 & _); [by left | done |].
  exists s', d. split_and!; [done | congruence | done | | congruence].
  apply IH; [|done]. intros l' s0 Hl'. apply Hf. by right.
Qed.

(** The layout before the last slot is stretched. *)
Fixpoint laid0 heap (total : Z) (slots : list loc) (offset : Z) : Prop :=
  match slots with
  | [] => total = offset
  | l :: rest => exists s, heap !! l = Some s /\ sl_StartOffset s = offset /\ 10 * Millisecond <= sl_Duration s /\
      laid0 heap total rest (int64 (offset + sl_Duration s))
  end.
Lemma laid0_frame heap heap' total slots offset :
  (forall l, l ∈ slots -> heap' !! l = heap !! l) -> laid0 heap total slots offset -> laid0 heap' total slots offset.
Proof.
  revert offset. induction slots as [|l slots IH]; intros offset Hf; simpl; [done|].
  intros (s & Hs & Ho & Hd & Hl). exists s. rewrite Hf by (by left). split_and!; [done..|].
  apply IH; [|done]. intros l' Hl'. apply Hf. by right.
Qed.

Lemma slotDuration_min interval tp priority : 10 * Millisecond <= slotDuration interval tp priority.
Proof. unfold slotDuration. generalize (int64_of_float64 (f64_mul (float64_of_int interval)
  (f64_div (float64_of_int (int32 (priority + 1))) (float64_of_int tp)))). intros d. destruct (Z.ltb_spec d (10 * Millisecond)); lia. Qed.

Lemma layoutLoop_spec interval tp slots offset heap heap' total :
  NoDup slots -> (forall l, l ∈ slots -> is_Some (heap !! l)) ->
  layoutLoop interval tp slots offset heap = (heap', total) ->
  length heap' = length heap /\ heap_rel same_slot heap heap' /\ (forall l, l ∉ slots -> heap' !! l = heap !! l) /\
  laid0 heap' total slots offset.
Proof.
  revert offset heap. induction slots as [|l slots IH]; intros offset heap Hnd Hv Hr; simpl in Hr.
  - simplify_eq. split_and!; [done | apply heap_rel_refl | done | done].
  - apply NoDup_cons in Hnd as [Hl Hnd]. set (d := slotDuration _ _ _) in Hr.
    apply IH in Hr as (Hlen & Hrel & Hout & Hlaid); [|done|].
    + split_and!; [by rewrite Hlen, length_alter | | |].
      * eapply heap_rel_trans; [|exact Hrel]. apply heap_rel_alter; [apply same_slot_refl | intros; apply same_slot_duration].
      * intros l' [Hne Hl']%not_elem_of_cons. by rewrite Hout, list_lookup_alter_ne.
      * destruct (Hv l) as [s Hs]; [by left|]. exists (with_duration offset d s).
        split_and!; [by rewrite Hout, list_lookup_alter_eq, Hs by done | done | apply slotDuration_min | done].
    + intros l' Hl'. rewrite list_lookup_alter_ne by (intros ->; done). apply Hv. by right.
Qed.

(** Stretching the last slot to the end of the interval. *)
Definition stretch (interval total : Z) (s : TimeSlot) : TimeSlot :=
  with_duration (sl_StartOffset s) (int64 (sl_Duration s + (interval - total))) s.
Lemma laid0_long heap interval total slots offset : (total <? interval) = false ->
  laid0 heap total slots offset -> laid heap interval total slots offset.
Proof.
  intros Ht. revert offset. induction slots as [|l slots IH]; intros offset; simpl; [done|].
  intros (s & Hs & Ho & Hd & Hl). exists s, (sl_Duration s). split_and!; [done..|by apply IH|]. rewrite Ht. by destruct slots.
Qed.
Lemma laid0_stretch heap interval total slots offset l0 : NoDup slots -> (total <? interval) = true -> last slots = Some l0 ->
  laid0 heap total slots offset -> laid (alter (stretch interval total) l0 heap) interval total slots offset.
Proof.
  intros Hnd Ht. revert offset. induction slots as [|l slots IH]; intros offset Hlast; [done|].
  apply NoDup_cons in Hnd as [Hl Hnd]. simpl. intros (s & Hs & Ho & Hd & Hlaid). destruct slots as [|l1 slots].
  - simpl in Hlast. injection Hlast as <-. exists (stretch interval total s), (sl_Duration s).
    split_and!; [by rewrite list_lookup_alter_eq, Hs | done | done | done | by rewrite Ht].
  - assert (Hne : l <> l0). { intros ->. apply Hl. apply last_Some_elem_of. exact Hlast. }
    exists s, (sl_Duration s). split_and!; [by rewrite list_lookup_alter_ne | done | done | by apply IH | done].
Qed.

(** ** rebalanceSlots *)
(** What rebalancing keeps of a device. *)
Definition same_gpu g g' : Prop :=
  tg_NodeName g' = tg_NodeName g /\ tg_DeviceID g' = tg_DeviceID g /\ tg_SlotInterval g' = tg_SlotInterval g /\
  tg_MaxSlots g' = tg_MaxSlots g /\ tg_CurrentSlotIdx g' = tg_CurrentSlotIdx g /\ tg_LastScheduled g' = tg_LastScheduled g.

Lemma rebalanceSlots_spec interval g heap g' heap' :
  NoDup (tg_Slots g) -> (length (tg_Slots g) <= 10)%nat -> tg_MaxSlots g = 10 -> (forall l, l ∈ tg_Slots g -> is_Some (heap !! l)) ->
  rebalanceSlots interval g heap = (g', heap') ->
  length heap' = length heap /\ heap_rel same_slot heap heap' /\ (forall l, l ∉ tg_Slots g -> heap' !! l = heap !! l) /\
  same_gpu g g' /\ tg_Slots g' ≡ₚ tg_Slots g /\ gpu_ok heap' interval g'.
Proof.
  intros Hnd Hmax Hm Hv. unfold rebalanceSlots. destruct (tg_Slots g) as [|l0 ls] eqn:Eg.
  { intros [= <- <-]. split_and!; try done; [apply heap_rel_refl | by rewrite Eg |].
    constructor; rewrite Eg; [done | split; [done | simpl; lia] | done | constructor | done]. }
  rewrite <- Eg in *. set (less := fun i j => priority_of heap j <? priority_of heap i).
  pose proof (sort_slice_perm _ less (tg_Slots g)) as Hperm. set (slots := sort_slice less (tg_Slots g)) in *.
  assert (Hsort : StronglySorted (fun i j => less j i = false) slots).
  { apply sort_slice_sorted; unfold less; intros; lia. }
  destruct (layoutLoop _ _ _ _ _) as [h1 total] eqn:El.
  assert (Hnd' : NoDup slots) by (by rewrite Hperm).
  assert (Hv' : forall l, l ∈ slots -> is_Some (heap !! l)) by (intros l Hl; apply Hv; by rewrite <- Hperm).
  apply layoutLoop_spec in El as (Hlen & Hrel & Hout & Hlaid); [|done|done].
  intros [= <- <-].
  assert (Hne : is_Some (last slots)).
  { apply last_is_Some. intros E. rewrite E in Hperm. apply Permutation_nil_l in Hperm. rewrite <- Hperm in Eg. done. }
  destruct Hne as [la Hla]. rewrite Hla.
  set (h2 := if total <? interval then alter (stretch interval total) la h1 else h1).
  change (if total <? interval then alter _ la h1 else h1) with h2.
  assert (Hrel2 : heap_rel same_slot h1 h2).
  { unfold h2. destruct (total <? interval); [|apply heap_rel_refl]. apply heap_rel_alter; [apply same_slot_refl | intros; apply same_slot_duration]. }
  pose proof (heap_rel_trans _ _ _ Hrel Hrel2) as Hrel3.
  assert (Hlen2 : length h2 = length h1) by (unfold h2; destruct (total <? interval); [apply length_alter | done]).
  split_and!; [congruence | done | | by split_and! | done |].
  - intros l Hl. assert (Hl' : l ∉ slots) by (by rewrite Hperm). rewrite <- Hout by done. unfold h2.
    destruct (total <? interval); [|done]. apply list_lookup_alter_ne. intros ->. by apply Hl', last_Some_elem_of.
  - constructor; simpl.
    + done.
    + by rewrite Hperm.
    + intros l Hl. destruct (Hv' l Hl) as [s Hs]. destruct (Hrel3 l s Hs) as (s' & Hs' & _). eauto.
    + assert (Heq : forall l, l ∈ slots -> priority_of h2 l = priority_of heap l) by (intros l Hl; apply priority_of_rel; auto).
      clear -Hsort Heq. induction Hsort as [|l slots Hs IH Hall]; constructor.
      * apply IH. intros l' Hl'. apply Heq. by right.
      * apply Forall_forall. intros l' Hl'. rewrite Forall_forall in Hall. specialize (Hall l' Hl').
        rewrite !Heq by (by left || by right). unfold less in Hall. lia.
    + intros _. unfold h2. destruct (total <? interval) eqn:Et; [by apply laid0_stretch | by apply laid0_long].
Qed.

(** ** The invariant *)
Lemma gpu_ok_frame heap heap' interval g :
  (forall l s, l ∈ tg_Slots g -> heap !! l = Some s -> exists s', heap' !! l = Some s' /\ same_layout s s') ->
  gpu_ok heap interval g -> gpu_ok heap' interval g.
Proof.
  intros Hf [Hnd Hmax Hv Hs Hl]. constructor; [done | done | | | ].
  - intros l Hin. destruct (Hv l Hin) as [s Hs']. destruct (Hf l s Hin Hs') as (s' & Hs2 & _). eauto.
  - assert (Heq : forall l, l ∈ tg_Slots g -> priority_of heap' l = priority_of heap l).
    { intros l Hin. destruct (Hv l Hin) as [s Hs']. destruct (Hf l s Hin Hs') as (s' & Hs2 & _ & _ & E).
      unfold priority_of. by rewrite Hs2, Hs'. }
    clear -Hs Heq. induction Hs as [|l slots Hs IH Hall]; constructor.
    + apply IH. intros l' Hl'. apply Heq. by right.
    + apply Forall_forall. intros l' Hl'. rewrite Forall_forall in Hall. rewrite !Heq by (by left || by right). by apply Hall.
  - intros Hne. eapply laid_frame; [exact Hf | by apply Hl].
Qed.

(** The slots of a device, none when the pool does not have it. *)
Definition slots_at c key : list loc := from_option tg_Slots [] (tc_GPUs c !! key).
(** Installs a device's new state. *)
Definition install (p : string) c key g heap m : TimesliceManager :=
  tsset_pools (<[p := with_gpus (<[key := g]> (tc_GPUs c)) c]> (tm_pools m)) (tsset_heap heap m).

Lemma gpu_at_install p c key g heap m q d k g1 : tm_pools m !! p = Some c -> gpu_at (install p c key g heap m) q d k g1 ->
  (q = p /\ k = key /\ g1 = g /\ tc_SlotInterval d = tc_SlotInterval c) \/
  ((q, k) <> (p, key) /\ exists d0, gpu_at m q d0 k g1 /\ tc_SlotInterval d = tc_SlotInterval d0).
Proof.
  intros Hp [Hq Hk]. simpl in Hq. apply lookup_insert_Some in Hq as [[<- <-]|[Hne Hq]].
  - simpl in Hk. apply lookup_insert_Some in Hk as [[<- <-]|[Hne Hk]]; [by left|]. right. split; [congruence|].
    exists c. by split_and!.
  - right. split; [congruence|]. exists d. by split_and!.
Qed.

Lemma TSInv_install p c key g' heap' m : TSInv m -> tm_pools m !! p = Some c ->
  (forall l s, tm_heap m !! l = Some s -> l ∉ slots_at c key -> heap' !! l = Some s) ->
  (forall l, l ∈ tg_Slots g' -> l ∈ slots_at c key \/ tm_heap m !! l = None) ->
  gpu_ok heap' (tc_SlotInterval c) g' -> TSInv (install p c key g' heap' m).
Proof.
  intros [Hmax Hgpu Hdis] Hp Hframe Hslots Hok.
  assert (Hsep : forall q d k g l, gpu_at m q d k g -> (q, k) <> (p, key) -> l ∈ tg_Slots g -> l ∉ slots_at c key).
  { intros q d k g l Hat Hne Hl Hin. unfold slots_at in Hin. destruct (tc_GPUs c !! key) as [g0|] eqn:E; simpl in Hin;
      [|by apply elem_of_nil in Hin]. destruct (Hdis q d k g p c key g0 l) as [-> ->]; done. }
  constructor.
  - simpl. intros q d [[<- <-]|[_ Hq]]%lookup_insert_Some; [exact (Hmax p c Hp) | by eapply Hmax].
  - intros q d k g [(-> & -> & -> & ->)|(Hne & d0 & Hat & ->)]%gpu_at_install; [done | | done].
    eapply gpu_ok_frame; [|by eapply Hgpu]. intros l s Hl Hs. exists s. split; [|done]. apply Hframe; [done|]. by eapply Hsep.
  - intros q d k ga q' d' k' gb l H1 H2 Hl Hl'. apply gpu_at_install in H1, H2; [|done..].
    destruct H1 as [(-> & -> & -> & _)|(Hne & d0 & Hat & _)], H2 as [(-> & -> & -> & _)|(Hne' & d0' & Hat' & _)].
    + done.
    + exfalso. destruct (Hslots l Hl) as [Hin|Hnone]; [by eapply Hsep|].
      destruct (gk_valid _ _ _ (Hgpu _ _ _ _ Hat') l Hl') as [s Hs]. congruence.
    + exfalso. destruct (Hslots l Hl') as [Hin|Hnone]; [by eapply Hsep|].
      destruct (gk_valid _ _ _ (Hgpu _ _ _ _ Hat) l Hl) as [s Hs]. congruence.
    + by eapply Hdis.
Qed.

(** Changes of slots that keep their layout, with the pools as they are. *)
Lemma TSInv_heap heap' m : TSInv m -> heap_rel same_layout (tm_heap m) heap' -> TSInv (tsset_heap heap' m).
Proof.
  intros [Hmax Hgpu Hdis] Hr. constructor; [done | | done]. intros p c key g Hat. eapply gpu_ok_frame; [|by eapply Hgpu].
  intros l s _ Hs. by apply Hr.
Qed.

(** Rebalancing a device of a pool, from a heap whose slots may have new
    priorities on that device and with slots taken off it. *)
Lemma TSInv_rebalance p c key g0 g1 g' heap1 heap' m : TSInv m -> gpu_at m p c key g0 ->
  tg_Slots g1 `sublist_of` tg_Slots g0 -> tg_MaxSlots g1 = tg_MaxSlots g0 ->
  length heap1 = length (tm_heap m) -> (forall l, l ∉ tg_Slots g0 -> heap1 !! l = tm_heap m !! l) ->
  rebalanceSlots (tc_SlotInterval c) g1 heap1 = (g', heap') -> TSInv (install p c key g' heap' m).
Proof.
  intros HI Hat Hsub Hm Hlen Hout Hr. destruct (ti_gpu m HI _ _ _ _ Hat) as [Hnd [Hmax Hle] Hv _ _].
  assert (Hin : forall l, l ∈ tg_Slots g1 -> l ∈ tg_Slots g0).
  { intros l Hl. eapply elem_of_submseteq; [exact Hl | by apply sublist_submseteq]. }
  apply rebalanceSlots_spec in Hr as (Hlen' & Hrel & Hout' & _ & Hperm & Hok).
  - destruct Hat as [Hp Hk]. apply TSInv_install; [done | done | | | done]; unfold slots_at; rewrite Hk; simpl.
    + intros l s Hs Hl. rewrite Hout', Hout; [done | done |]. intros H1. by apply Hl, Hin.
    + intros l Hl. left. apply Hin. by rewrite <- Hperm.
  - by eapply sublist_NoDup.
  - etrans; [by apply sublist_length | done].
  - by rewrite Hm.
  - intros l Hl. apply lookup_lt_is_Some. rewrite Hlen. by apply lookup_lt_is_Some, Hv, Hin.
Qed.

(** ** Releasing slots *)
Lemma owns_rel s n heap heap' l : heap_rel same_slot heap heap' -> length heap' = length heap ->
  owns s n heap' l = owns s n heap l.
Proof.
  intros Hr Hlen. unfold owns. destruct (heap !! l) as [sl|] eqn:E.
  - destruct (Hr l sl E) as (sl' & -> & _ & -> & -> & _). done.
  - apply lookup_ge_None in E. rewrite <- Hlen in E. apply lookup_ge_None in E. by rewrite E.
Qed.

Lemma shrunk_refl s n m : shrunk s n m m.
Proof. constructor; [apply heap_rel_refl | done | | eauto]. intros p c key g Hat. exists c, g. by split_and!. Qed.
Lemma shrunk_trans s n m1 m2 m3 : shrunk s n m1 m2 -> shrunk s n m2 m3 -> shrunk s n m1 m3.
Proof.
  intros [Hh Hl Hg Hb] [Hh' Hl' Hg' Hb']. constructor; [by eapply heap_rel_trans | congruence | |].
  - intros p c key g Hat. destruct (Hg p c key g Hat) as (c2 & g2 & Hat2 & Hi & Hs & Ho).
    destruct (Hg' p c2 key g2 Hat2) as (c3 & g3 & Hat3 & Hi' & Hs' & Ho').
    exists c3, g3. split_and!; [done | congruence | auto |]. intros l Hin Hown. apply Ho'; [by apply Ho|].
    by rewrite (owns_rel s n (tm_heap m1)).
  - intros p c' key g' Hat. destruct (Hb' _ _ _ _ Hat) as (c2 & g2 & Hat2). eauto.
Qed.

(** Installing the slots of a device that the service does not own. *)
Lemma shrunk_install s n p c key g g' heap' m : gpu_at m p c key g ->
  heap_rel same_slot (tm_heap m) heap' -> length heap' = length (tm_heap m) ->
  (forall l, l ∈ tg_Slots g' <-> owns s n (tm_heap m) l = false /\ l ∈ tg_Slots g) ->
  shrunk s n m (install p c key g' heap' m) /\ cleared s n heap' g'.
Proof.
  intros Hat Hrel Hlen Hsl. split.
  - constructor; [done | done | |].
    + intros q d k ga Hq. destruct (decide (q = p)) as [->|Hqp].
      * destruct Hat as [Hp Hk], Hq as [Hq Hk']. simplify_eq. destruct (decide (k = key)) as [->|Hne].
        -- simplify_eq. exists (with_gpus (<[key := g']> (tc_GPUs c)) c), g'.
           split_and!; [split; simpl; apply lookup_insert_eq | done | |]; intros l; rewrite Hsl; tauto.
        -- exists (with_gpus (<[key := g']> (tc_GPUs c)) c), ga. split_and!; try done.
           split; simpl; [apply lookup_insert_eq | by rewrite lookup_insert_ne].
      * exists d, ga. split_and!; try done. destruct Hq as [Hq Hk']. split; simpl; [by rewrite lookup_insert_ne | done].
    + intros q d k ga [(-> & -> & _)|(_ & d0 & Hq & _)]%gpu_at_install; [eauto | eauto | apply Hat].
  - intros l Hl. apply Hsl in Hl as [Ho _]. by rewrite (owns_rel s n (tm_heap m)).
Qed.

Lemma releaseGPU_step s n p c key g g' heap' m : TSInv m -> gpu_at m p c key g ->
  releaseGPU s n (tc_SlotInterval c) g (tm_heap m) = (g', heap') ->
  TSInv (install p c key g' heap' m) /\ shrunk s n m (install p c key g' heap' m) /\ cleared s n heap' g'.
Proof.
  intros HI Hat. pose proof (ti_gpu m HI _ _ _ _ Hat) as Hok. unfold releaseGPU. set (ns := filter _ (tg_Slots g)).
  assert (Hsub : ns `sublist_of` tg_Slots g) by apply sublist_filter.
  assert (Hns : forall l, l ∈ ns <-> owns s n (tm_heap m) l = false /\ l ∈ tg_Slots g) by (intros l; unfold ns; by rewrite list_elem_of_filter).
  destruct (Nat.eqb_spec (length ns) (length (tg_Slots g))) as [Heq|Hne].
  - intros [= <- <-]. split; [|apply (shrunk_install s n p c key g); [done | apply heap_rel_refl | done |]].
    2: { intros l. split; [|tauto]. intros Hl. split; [|done]. destruct (owns s n (tm_heap m) l) eqn:Eo; [|done].
         assert (Hlt : (length ns < length (tg_Slots g))%nat); [|lia].
         apply length_filter_lt with l; [done | by rewrite Eo]. }
    apply TSInv_install; [done | apply Hat | done | | done]. intros l Hl. left. unfold slots_at. destruct Hat as [_ ->]. done.
  - intros Hr. split; [by eapply (TSInv_rebalance p c key g (with_slots ns g))|].
    apply rebalanceSlots_spec in Hr as (Hlen & Hrel & _ & _ & Hperm & _).
    + apply (shrunk_install s n p c key g); [done | done | done |]. intros l. rewrite Hperm. apply Hns.
    + eapply sublist_NoDup; [apply Hok | done].
    + etrans; [by apply sublist_length | apply Hok].
    + apply Hok.
    + intros l Hl. apply Hns in Hl as [_ Hl]. by apply (gk_valid _ _ _ Hok).
Qed.

(** A pool's configuration and the slots, put into a manager. *)
Definition putPool (p : string) c heap m : TimesliceManager := tsset_pools (<[p := c]> (tm_pools m)) (tsset_heap heap m).
Lemma install_putPool p c c' key g heap heap' m :
  install p c key g heap' (putPool p c' heap m) = putPool p (with_gpus (<[key := g]> (tc_GPUs c)) c) heap' m.
Proof. unfold install, putPool, tsset_pools, tsset_heap. simpl. by rewrite insert_insert_eq. Qed.

Lemma cleared_shrunk s n m m' g : shrunk s n m m' -> cleared s n (tm_heap m) g -> cleared s n (tm_heap m') g.
Proof. intros [Hh Hl _ _] Hc l Hin. rewrite (owns_rel s n (tm_heap m)) by done. by apply Hc. Qed.

Lemma releasePool_step seed s n p c c' heap' m : TSInv m -> tm_pools m !! p = Some c ->
  releasePool seed s n c (tm_heap m) = (c', heap') ->
  TSInv (putPool p c' heap' m) /\ shrunk s n m (putPool p c' heap' m) /\
  (forall key g, tc_GPUs c' !! key = Some g -> cleared s n heap' g).
Proof.
  intros HI Hp. unfold releasePool.
  assert (Hgen : forall (ls : list (string * TimesliceGPU)) c1 h1 c2 h2,
    NoDup ls.*1 -> (forall x, x ∈ ls -> tc_GPUs c1 !! x.1 = Some x.2) -> tc_SlotInterval c1 = tc_SlotInterval c ->
    TSInv (putPool p c1 h1 m) -> shrunk s n m (putPool p c1 h1 m) ->
    (forall key g, tc_GPUs c1 !! key = Some g -> key ∉ ls.*1 -> cleared s n h1 g) ->
    fold_left (fun '(c, heap) '(key, g) =>
      let '(g, heap) := releaseGPU s n (tc_SlotInterval c1) g heap in (with_gpus (<[key := g]> (tc_GPUs c)) c, heap)) ls (c1, h1) = (c2, h2) ->
    TSInv (putPool p c2 h2 m) /\ shrunk s n m (putPool p c2 h2 m) /\ (forall key g, tc_GPUs c2 !! key = Some g -> cleared s n h2 g)).
  { induction ls as [|[key g] ls IH]; intros c1 h1 c2 h2 Hnd Hin Hint HI1 Hsh Hcl; simpl.
    - intros [= <- <-]. split_and!; [done..|]. intros key g Hk. eapply Hcl; [done | by intros ?%elem_of_nil].
    - destruct (releaseGPU s n (tc_SlotInterval c1) g h1) as [g' h'] eqn:Er. csimpl in Hnd.
      apply NoDup_cons in Hnd as [Hkey Hnd].
      assert (Hk : tc_GPUs c1 !! key = Some g) by (apply (Hin (key, g)); by left).
      assert (Hat : gpu_at (putPool p c1 h1 m) p c1 key g) by (split; simpl; [apply lookup_insert_eq | done]).
      destruct (releaseGPU_step s n p c1 key g g' h' _ HI1 Hat Er) as (HI2 & Hsh2 & Hcl2).
      rewrite install_putPool in HI2, Hsh2.
      change (tc_SlotInterval c1) with (tc_SlotInterval (with_gpus (<[key := g']> (tc_GPUs c1)) c1)).
      apply IH; [done | | done | done | by eapply shrunk_trans |].
      + intros [k1 g1] Hx. simpl. rewrite lookup_insert_ne; [apply (Hin (k1, g1)); by right|].
        intros ->. apply Hkey, list_elem_of_fmap. by exists (k1, g1).
      + intros k1 g1 Hk1 Hout. simpl in Hk1. apply lookup_insert_Some in Hk1 as [[<- <-]|[Hne Hk1]]; [done|].
        refine (cleared_shrunk s n _ _ g1 Hsh2 _). apply (Hcl k1); [done|].
        csimpl. by rewrite not_elem_of_cons. }
  assert (Hid : putPool p c (tm_heap m) m = m).
  { unfold putPool. rewrite insert_id by done. by destruct m. }
  apply Hgen; [apply range_NoDup | intros [k g]; apply range_elem | done | by rewrite Hid | rewrite Hid; apply shrunk_refl |].
  intros key g Hk Hout. exfalso. apply Hout, list_elem_of_fmap. exists (key, g). by rewrite range_elem.
Qed.

Lemma releaseSlots_spec seed s n m : TSInv m ->
  let m' := releaseSlots seed s n m in
  TSInv m' /\ shrunk s n m m' /\ (forall p c key g, gpu_at m' p c key g -> cleared s n (tm_heap m') g) /\
  tm_allocations m' !! slash_key n s = None.
Proof.
  intros HI. unfold releaseSlots. set (f := fun m '(p, config) => _).
  assert (Hgen : forall (ls : list (string * TimeslicePoolConfig)) m1,
    NoDup ls.*1 -> (forall x, x ∈ ls -> tm_pools m1 !! x.1 = Some x.2) -> TSInv m1 -> shrunk s n m m1 ->
    (forall p c key g, gpu_at m1 p c key g -> p ∉ ls.*1 -> cleared s n (tm_heap m1) g) ->
    let m2 := fold_left f ls m1 in
    TSInv m2 /\ shrunk s n m m2 /\ (forall p c key g, gpu_at m2 p c key g -> cleared s n (tm_heap m2) g)).
  { induction ls as [|[p c] ls IH]; intros m1 Hnd Hin HI1 Hsh Hcl; simpl.
    - split_and!; [done..|]. intros p c key g Hat. eapply Hcl; [done | by intros ?%elem_of_nil].
    - destruct (releasePool (S seed) s n c (tm_heap m1)) as [c' h'] eqn:Er. csimpl in Hnd. apply NoDup_cons in Hnd as [Hp Hnd].
      assert (Hc : tm_pools m1 !! p = Some c) by (apply (Hin (p, c)); by left).
      apply (releasePool_step _ _ _ p) in Er as (HI2 & Hsh2 & Hcl2); [|done|done]. apply IH; [done | | done | by eapply shrunk_trans |].
      + intros [q d] Hx. simpl. rewrite lookup_insert_ne; [apply (Hin (q, d)); by right|].
        intros ->. apply Hp, list_elem_of_fmap. by exists (q, d).
      + intros q d key g [Hq Hk] Hout. simpl in Hq. apply lookup_insert_Some in Hq as [[<- <-]|[Hne Hq]]; [by eapply Hcl2|].
        refine (cleared_shrunk s n _ _ g Hsh2 _). apply (Hcl q d key); [done|]. csimpl. by rewrite not_elem_of_cons. }
  destruct (Hgen (range seed (tm_pools m)) m) as (HI2 & Hsh & Hcl);
    [apply range_NoDup | intros [k c]; apply range_elem | done | apply shrunk_refl | |].
  { intros p c key g [Hp _] Hout. exfalso. apply Hout, list_elem_of_fmap. exists (p, c). by rewrite range_elem. }
  fold f. set (m2 := fold_left f _ m) in *. split_and!.
  - by destruct HI2.
  - by destruct Hsh.
  - done.
  - apply lookup_delete_eq.
Qed.

(** ** Granting slots *)
Lemma TSInv_same m m' : tm_pools m' = tm_pools m -> tm_heap m' = tm_heap m -> TSInv m -> TSInv m'.
Proof.
  intros Ep Eh [Hmax Hgpu Hdis]. constructor; unfold gpu_at in *; rewrite ?Ep, ?Eh; done.
Qed.
Lemma grew_refl m : grew m m.
Proof. constructor; [apply heap_rel_refl|]. intros p c key g Hat. exists c, g. by split_and!. Qed.
Lemma grew_trans m1 m2 m3 : grew m1 m2 -> grew m2 m3 -> grew m1 m3.
Proof.
  intros [Hh Hg] [Hh' Hg']. constructor; [by eapply heap_rel_trans|]. intros p c key g Hat.
  destruct (Hg p c key g Hat) as (c2 & g2 & Hat2 & E1 & E2 & Hs). destruct (Hg' p c2 key g2 Hat2) as (c3 & g3 & Hat3 & E3 & E4 & Hs').
  exists c3, g3. split_and!; [done | congruence | congruence | auto].
Qed.
Lemma granted_grew m m' p req l info : grew m m' -> granted m p req l info -> granted m' p req l info.
Proof.
  intros [Hh Hg] (c & key & g & s & Hat & Hl & Hs & E1 & E2 & E3 & E4 & ->).
  destruct (Hg p c key g Hat) as (c' & g' & Hat' & <- & <- & Hsub). destruct (Hh l s Hs) as (s' & Hs' & _ & F1 & F2 & F3 & F4).
  exists c', key, g', s'. split_and!; try congruence; auto.
Qed.

Definition no_ts_gpu : error := "no available GPUs for time-slicing".
Lemma findOrCreate_spec now seed c gpus p m r : TSInv m -> tm_pools m !! p = Some c ->
  findOrCreateTimesliceGPU now seed c gpus = r ->
  match r with
  | Ok (key, g) => slots_at c key = tg_Slots g /\ (length (tg_Slots g) < 10)%nat /\ tg_MaxSlots g = 10 /\ NoDup (tg_Slots g) /\
      (forall l, l ∈ tg_Slots g -> is_Some (tm_heap m !! l)) /\
      (tc_GPUs c !! key = Some g \/ tc_GPUs c !! key = None /\ tg_Slots g = [])
  | Err e => e = no_ts_gpu /\ forall k, ~ room c gpus (S k)
  end.
Proof.
  intros HI Hp <-. unfold findOrCreateTimesliceGPU.
  assert (Hlen : forall key g, tc_GPUs c !! key = Some g -> int32 (Z.of_nat (length (tg_Slots g))) = Z.of_nat (length (tg_Slots g)) /\
    tg_MaxSlots g = 10).
  { intros key g Hk. assert (Hat : gpu_at m p c key g) by (by split). destruct (gk_max _ _ _ (ti_gpu m HI _ _ _ _ Hat)) as [Hm Hle].
    split; [|done]. apply int32_id. unfold in_int32. lia. }
  destruct (head (filter _ (range _ _))) as [[key g]|] eqn:Hf.
  - apply head_filter_Some in Hf as [Hlt Hk%range_elem]. destruct (Hlen key g Hk) as [E Hm]. simpl in Hlt. rewrite E, Hm in Hlt.
    assert (Hat : gpu_at m p c key g) by (by split). destruct (ti_gpu m HI _ _ _ _ Hat) as [Hnd _ Hv _ _].
    unfold slots_at. rewrite Hk. split_and!; [done | lia | done | done | done | by left].
  - assert (Hfull : forall key g, tc_GPUs c !! key = Some g -> (10 <= length (tg_Slots g))%nat).
    { intros key g Hk. rewrite head_filter_None in Hf. specialize (Hf (key, g)). rewrite range_elem in Hf.
      destruct (Hlen key g Hk) as [E Hm]. simpl in Hf. rewrite E, Hm in Hf. specialize (Hf Hk). lia. }
    destruct (head (filter _ gpus)) as [g|] eqn:Hg.
    + apply head_filter_Some in Hg as [Hn _]. unfold slots_at. rewrite Hn. simpl.
      split_and!; [done | lia | by apply (ti_max m HI p) | constructor | by intros l ?%elem_of_nil | by right].
    + split; [done|]. intros k [[_ (g & Hin & Hn)]|(key & g & Hk & Hle)].
      * rewrite head_filter_None in Hg. by apply (Hg g).
      * specialize (Hfull key g Hk). lia.
Qed.

Lemma addSlot_spec now req p c key g m m' info : TSInv m -> tm_pools m !! p = Some c ->
  slots_at c key = tg_Slots g -> (length (tg_Slots g) < 10)%nat -> tg_MaxSlots g = 10 -> NoDup (tg_Slots g) ->
  (forall l, l ∈ tg_Slots g -> is_Some (tm_heap m !! l)) ->
  (tc_GPUs c !! key = Some g \/ tc_GPUs c !! key = None /\ tg_Slots g = []) ->
  addSlot now req p c key g m = (m', info) ->
  TSInv m' /\ grew m m' /\ length (tm_heap m') = S (length (tm_heap m)) /\ granted m' p req (length (tm_heap m)) info /\
  exists c' g', gpu_at m' p c' key g' /\ length (tg_Slots g') = S (length (tg_Slots g)) /\
    (forall k, k <> key -> tc_GPUs c' !! k = tc_GPUs c !! k).
Proof.
  intros HI Hp Hsl Hlen Hmax Hnd Hv Hcase. unfold addSlot. set (slot := newSlot req _ _).
  destruct (rebalanceSlots _ _ _) as [g' heap'] eqn:Er. intros [= <- <-].
  assert (Hfresh : tm_heap m !! length (tm_heap m) = None) by (by apply lookup_ge_None).
  assert (Hl : length (tm_heap m) ∉ tg_Slots g) by (intros Hin; destruct (Hv _ Hin); congruence).
  apply rebalanceSlots_spec in Er as (Hh & Hrel & Hout & (En & Ed & _) & Hperm & Hok).
  - simpl in *. assert (HI' : TSInv (install p c key g' heap' m)).
    { apply TSInv_install; [done | done | | | exact Hok].
      - rewrite Hsl. intros l s Hs Hnot. rewrite Hout; [by apply lookup_app_l_Some|].
        rewrite not_elem_of_app, list_elem_of_singleton. split; [done|]. intros ->. congruence.
      - rewrite Hsl. intros l. rewrite Hperm, elem_of_app, list_elem_of_singleton. intros [?| ->]; [by left | by right]. }
    assert (Hrel' : heap_rel same_slot (tm_heap m) heap').
    { intros l s Hs. apply Hrel. by apply lookup_app_l_Some. }
    assert (Hat' : gpu_at (install p c key g' heap' m) p (with_gpus (<[key := g']> (tc_GPUs c)) c) key g')
      by (split; simpl; apply lookup_insert_eq).
    split_and!.
    + by eapply TSInv_same; [| |exact HI'].
    + constructor; [exact Hrel'|]. intros q d k ga Hq. destruct (decide (q = p)) as [->|Hqp].
      * destruct Hq as [Hq Hk]. simplify_eq. destruct (decide (k = key)) as [->|Hne].
        -- destruct Hcase as [Hc|[Hc _]]; simplify_eq. eexists _, g'. split_and!; [exact Hat' | done | done |].
           intros l Hin. rewrite Hperm. apply elem_of_app. by left.
        -- eexists _, ga. split_and!; [split; [apply lookup_insert_eq | simpl; by rewrite lookup_insert_ne] | done..].
      * exists d, ga. destruct Hq as [Hq Hk]. split_and!; [split; simpl; [by rewrite lookup_insert_ne | done] | done..].
    + rewrite Hh, length_app. simpl. lia.
    + destruct (Hrel (length (tm_heap m)) slot) as (s' & Hs' & _ & E1 & E2 & E3 & E4).
      { by rewrite lookup_app_r, Nat.sub_diag by lia. }
      eexists _, key, g', s'. split_and!; [exact Hat' | | exact Hs' | done.. |].
      * rewrite Hperm. apply elem_of_app. right. by apply list_elem_of_singleton.
      * by rewrite En, Ed.
    + eexists _, g'. split_and!; [exact Hat' | by rewrite Hperm, length_app, Nat.add_comm |].
      intros k Hne. simpl. by apply lookup_insert_ne.
  - simpl. apply NoDup_app. split_and!; [done | | apply NoDup_singleton]. intros l Hin ->%list_elem_of_singleton. done.
  - simpl. rewrite length_app. simpl. lia.
  - done.
  - simpl. intros l [Hin|Hin]%elem_of_app.
    + destruct (Hv l Hin) as [s Hs]. exists s. by apply lookup_app_l_Some.
    + apply list_elem_of_singleton in Hin as ->. exists slot. by rewrite lookup_app_r, Nat.sub_diag by lia.
Qed.

(** ** The allocation loop *)
Lemma allocLoop_spec now seed req p gpus k m m' r c : TSInv m -> tm_pools m !! p = Some c ->
  allocLoop now seed req p gpus k m = (m', r) ->
  TSInv m' /\
  match r with
  | Ok infos => grew m m' /\ length infos = k /\ length (tm_heap m') = (length (tm_heap m) + k)%nat /\
      (forall j info, infos !! j = Some info -> granted m' p req (length (tm_heap m) + j)%nat info)
  | Err e => e = no_ts_gpu /\ ~ room c gpus k /\
      (forall q d key g, gpu_at m' q d key g -> cleared (rq_ServiceName req) (rq_Namespace req) (tm_heap m') g) /\
      tm_allocations m' !! slash_key (rq_Namespace req) (rq_ServiceName req) = None /\
      (forall l s, tm_heap m !! l = Some s -> exists s', tm_heap m' !! l = Some s' /\ same_slot s s') /\
      (forall q d key g l, gpu_at m q d key g -> l ∈ tg_Slots g ->
        owns (rq_ServiceName req) (rq_Namespace req) (tm_heap m) l = false ->
        exists d' g', gpu_at m' q d' key g' /\ l ∈ tg_Slots g')
  end.
Proof.
  revert m m' r c. induction k as [|k IH]; intros m m' r c HI Hp Hr.
  - simpl in Hr. simplify_eq. split; [done|]. split_and!; [apply grew_refl | done | lia | done].
  - cbn [allocLoop] in Hr. rewrite Hp in Hr.
    destruct (findOrCreateTimesliceGPU _ _ _ _) as [[key g]|e] eqn:Ef.
    + pose proof (findOrCreate_spec _ _ _ _ _ _ _ HI Hp Ef) as (Hsl & Hlen & Hmax & Hnd & Hv & Hcase).
      destruct (addSlot _ _ _ _ _ _ _) as [m1 info] eqn:Ea.
      pose proof (addSlot_spec _ _ _ _ _ _ _ _ _ HI Hp Hsl Hlen Hmax Hnd Hv Hcase Ea)
        as (HI1 & Hgrew & Hh1 & Hgr & c1 & g1 & Hat1 & Hlen1 & Hoth).
      destruct (allocLoop _ _ _ _ _ _ _) as [m2 r2] eqn:El.
      apply (IH _ _ _ c1) in El as (HI2 & H2); [|done|apply Hat1]. destruct r2 as [infos|e]; simplify_eq.
      * destruct H2 as (Hgrew2 & Hli & Hh2 & Hall). split; [done|]. split_and!; [by eapply grew_trans | simpl; congruence | lia |].
        intros [|j] info' Hj; simpl in Hj.
        -- injection Hj as <-. rewrite Nat.add_0_r. by eapply granted_grew.
        -- replace (length (tm_heap m) + S j)%nat with (length (tm_heap m1) + j)%nat by lia. by apply Hall.
      * destruct H2 as (-> & Hroom & Hcl & Hal & Hheap & Hoth2). split; [done|]. split_and!; [done | | done | done | |].
        -- intros Hr. apply Hroom. destruct Hr as [[Hk (ga & Hin & Hn)]|(key0 & g0 & Hk0 & Hle)].
           ++ destruct (decide (gpu_key ga = key)) as [<-|Hne].
              ** right. destruct Hcase as [Hc|[_ Hemp]]; [congruence|]. exists (gpu_key ga), g1.
                 split; [apply Hat1|]. rewrite Hlen1, Hemp. simpl. lia.
              ** left. split; [lia|]. exists ga. split; [done|]. by rewrite Hoth.
           ++ right. destruct (decide (key0 = key)) as [->|Hne].
              ** destruct Hcase as [Hc|[Hc _]]; [|congruence]. simplify_eq. exists key, g1. split; [apply Hat1|]. lia.
              ** exists key0, g0. split; [by rewrite Hoth | lia].
        -- intros l s Hs. destruct (gw_heap _ _ Hgrew l s Hs) as (s1 & Hs1 & F). destruct (Hheap l s1 Hs1) as (s2 & Hs2 & F2).
           exists s2. split; [done|]. destruct F as (? & ? & ? & ? & ?), F2 as (? & ? & ? & ? & ?). split_and!; congruence.
        -- intros q d k0 ga l Hat Hl Ho. destruct (gw_gpu _ _ Hgrew _ _ _ _ Hat) as (d' & ga' & Hat' & _ & _ & Hsub).
           apply (Hoth2 q d' k0 ga'); [done | by apply Hsub |].
           destruct (gk_valid _ _ _ (ti_gpu m HI _ _ _ _ Hat) l Hl) as [s Hs].
           destruct (gw_heap _ _ Hgrew l s Hs) as (s1 & Hs1 & _ & E1 & E2 & _). revert Ho. unfold owns. rewrite Hs, Hs1, E1, E2. done.
    + apply (findOrCreate_spec _ _ _ _ p m) in Ef as [-> Hroom]; [|done|done]. simplify_eq.
      destruct (releaseSlots_spec seed (rq_ServiceName req) (rq_Namespace req) m HI) as (HI' & Hsh & Hcl & Hal).
      split; [done|]. split_and!; [done | by apply Hroom | done | done | apply (sh_heap _ _ _ _ Hsh) |].
      intros q d key g l Hat Hl Ho. destruct (sh_gpu _ _ _ _ Hsh _ _ _ _ Hat) as (d' & g' & Hat' & _ & _ & Hk). eauto.
Qed.

Lemma Allocate_loop now seed req p gpus m m' r : Allocate now seed req p gpus m = Ret (m', r) ->
  (tm_pools m !! p = None /\ m' = m) \/
  exists c m1, tm_pools m !! p = Some c /\ allocLoop now seed req p gpus (Z.to_nat (rq_GPUCount req)) m = (m1, r) /\
    0 <= rq_GPUCount req /\ tm_pools m' = tm_pools m1 /\ tm_heap m' = tm_heap m1 /\ tm_allocations m' = tm_allocations m1.
Proof.
  unfold Allocate. destruct (tm_pools m !! p) as [c|] eqn:Hp; [|intros [= <- _]; by left]. intros Ha. right. exists c.
  unfold make_cap in Ha. destruct (Z.ltb_spec (rq_GPUCount req) 0); [done|]. cbn [mbind outcome_bind] in Ha.
  destruct (allocLoop _ _ _ _ _ _ _) as [m1 [infos|e]]; injection Ha as <- <-; exists m1; by split_and!.
Qed.

(** ** The scheduler *)
Lemma scheduleGPU_slots now g : tg_Slots (scheduleGPU now g) = tg_Slots g /\ tg_MaxSlots (scheduleGPU now g) = tg_MaxSlots g /\
  tg_TotalAllocated (scheduleGPU now g) = tg_TotalAllocated g /\ tg_SlotInterval (scheduleGPU now g) = tg_SlotInterval g.
Proof. unfold scheduleGPU. destruct (tg_Slots g) eqn:E; [done|]. destruct (_ <=? _); by rewrite ?E. Qed.
Lemma gpu_at_schedule now m p c key g : gpu_at (scheduleSlots now m) p c key g ->
  exists c0 g0, gpu_at m p c0 key g0 /\ g = scheduleGPU now g0 /\ tc_SlotInterval c = tc_SlotInterval c0.
Proof.
  intros [Hp Hk]. simpl in Hp. apply lookup_fmap_Some in Hp as (c0 & <- & Hp). simpl in Hk.
  apply lookup_fmap_Some in Hk as (g0 & <- & Hk). exists c0, g0. by split_and!.
Qed.
Lemma scheduleSlots_Inv now m : TSInv m -> TSInv (scheduleSlots now m).
Proof.
  intros [Hmax Hgpu Hdis]. constructor.
  - intros p c Hp. simpl in Hp. apply lookup_fmap_Some in Hp as (c0 & <- & Hp). by apply (Hmax p c0).
  - intros p c key g (c0 & g0 & Hat & -> & ->)%gpu_at_schedule. destruct (scheduleGPU_slots now g0) as (E1 & E2 & E3 & _).
    destruct (Hgpu _ _ _ _ Hat) as [H1 H2 H3 H4 H5]. constructor; rewrite ?E1, ?E2, ?E3; done.
  - intros p c key g p' c' key' g' l (c0 & g0 & Hat & -> & _)%gpu_at_schedule (c1 & g1 & Hat' & -> & _)%gpu_at_schedule.
    destruct (scheduleGPU_slots now g0) as (-> & _), (scheduleGPU_slots now g1) as (-> & _). by eapply Hdis.
Qed.

Lemma findSlot_Some seed id m p key l : findSlot seed id m = Some (p, key, l) ->
  exists c g, gpu_at m p c key g /\ l ∈ tg_Slots g /\ has_id (tm_heap m) id l.
Proof.
  unfold findSlot. intros Hf%head_Some_elem_of. apply list_elem_of_bind in Hf as ([p' c] & Hf & Hp).
  apply list_elem_of_bind in Hf as ([key' g] & Hf & Hk). apply list_elem_of_bind in Hf as (l' & Hf & Hl).
  apply list_elem_of_singleton in Hf. simpl in *. simplify_eq. apply range_elem in Hp, Hk.
  apply list_elem_of_filter in Hl as [Hid Hl]. by exists c, g.
Qed.

Lemma SetSlotPriority_Inv seed id priority m : TSInv m -> TSInv (SetSlotPriority seed id priority m).1.
Proof.
  intros HI. unfold SetSlotPriority. destruct (findSlot seed id m) as [[[p key] l]|] eqn:Ef; [|done].
  apply findSlot_Some in Ef as (c & g & Hat & Hl & _). pose proof Hat as [Hp Hk]. cbn [tm_pools tsset_heap].
  rewrite Hp, Hk. cbn [tm_heap tsset_heap]. destruct (rebalanceSlots _ _ _) as [g' heap'] eqn:Er. cbn [fst].
  eapply TSInv_same; [| |eapply (TSInv_rebalance p c key g g g' (alter (with_priority priority) l (tm_heap m)) heap' m)];
    [done | done | done | done | done | done | apply length_alter | | exact Er].
  intros l' Hl'. apply list_lookup_alter_ne. intros ->. done.
Qed.

Lemma setActive_Inv seed b id m : TSInv m -> TSInv (setActive seed b id m).1.
Proof.
  intros HI. unfold setActive. destruct (findSlot seed id m) as [[[p key] l]|]; [|done]. simpl.
  apply TSInv_heap; [done|]. apply heap_rel_alter; by repeat split.
Qed.

(** Dropping devices keeps the invariant. *)
Lemma TSInv_sub m m' : TSInv m -> tm_heap m' = tm_heap m -> (forall p c, tm_pools m' !! p = Some c -> tc_MaxSlots c = 10) ->
  (forall p c key g, gpu_at m' p c key g -> gpu_at m p c key g) -> TSInv m'.
Proof.
  intros [_ Hgpu Hdis] Eh Hmax Hsub. constructor; [done | |].
  - intros p c key g Hat. rewrite Eh. by eapply Hgpu, Hsub.
  - intros p c key g p' c' key' g' l H1%Hsub H2%Hsub. by eapply Hdis.
Qed.

Lemma tsStep_Inv m m' : TSInv m -> tsStep m m' -> TSInv m'.
Proof.
  intros HI Hs. destruct Hs as [m|m m' Hstop|now m|now m m' Hsig|pool m|seed p m|now seed req p gpus m m' r Ha|seed s n m|seed id pr m|seed id m|seed id m].
  - by eapply TSInv_same; [| |exact HI].
  - unfold Stop in Hstop. destruct (tm_stopClosed m); [done|]. injection Hstop as <-. by eapply TSInv_same; [| |exact HI].
  - by apply scheduleSlots_Inv.
  - unfold takeSignal in Hsig. destruct (tm_schedulerCh m); [|done]. injection Hsig as <-. apply scheduleSlots_Inv.
    by eapply TSInv_same; [| |exact HI].
  - unfold ConfigurePool. destruct (has_mode _ _) as [sh|]; [|done]. apply (TSInv_sub m); [done | done | |].
    + simpl. intros q d [[_ <-]|[_ Hq]]%lookup_insert_Some; [done | by apply (ti_max m HI q)].
    + intros q d key g [Hq Hk]. simpl in Hq. apply lookup_insert_Some in Hq as [[_ <-]|[_ Hq]]; [|done].
      simpl in Hk. by rewrite lookup_empty in Hk.
  - unfold CleanupPool. destruct (tm_pools m !! p) as [c|]; [|done]. destruct (head _) as [[? ?]|]; [done|].
    apply (TSInv_sub m); [done | done | |].
    + simpl. intros q d [_ Hq]%lookup_delete_Some. by apply (ti_max m HI q).
    + intros q d key g [Hq Hk]. simpl in Hq. by apply lookup_delete_Some in Hq as [_ Hq].
  - apply Allocate_loop in Ha as [[_ ->]|(c & m1 & Hp & Hl & _ & E1 & E2 & _)]; [done|].
    apply (allocLoop_spec _ _ _ _ _ _ _ _ _ c) in Hl as [HI1 _]; [|done|done]. by eapply TSInv_same; [| |exact HI1].
  - destruct (releaseSlots_spec seed s n m HI) as [HI' _]. by eapply TSInv_same; [| |exact HI'].
  - by apply SetSlotPriority_Inv.
  - by apply setActive_Inv.
  - by apply setActive_Inv.
Qed.
Lemma NewTimesliceManager_Inv : TSInv NewTimesliceManager.
Proof. by constructor; [intros ? ? ? | intros ? ? ? ? [? ?] | intros ? ? ? ? ? ? ? ? ? [? ?]]. Qed.
Lemma ts_reach_Inv m : rtc tsStep NewTimesliceManager m -> TSInv m.
Proof. apply (rtc_invariant tsStep TSInv); [intros ? ?; apply tsStep_Inv | apply NewTimesliceManager_Inv]. Qed.

(** [k] ticks of the scheduler, at the times of a clock. *)
Fixpoint ticks (clock : nat -> Z) (k : nat) m : TimesliceManager :=
  match k with O => m | S k' => scheduleSlots (clock k') (ticks clock k' m) end.
(** A clock that ticks no faster than a device's slots last. *)
Definition slow_clock (clock : nat -> Z) g : Prop :=
  let d := Z.quot (tg_SlotInterval g) (Z.of_nat (length (tg_Slots g))) in
  d <= clock 0%nat - tg_LastScheduled g /\ forall i, d <= clock (S i) - clock i.

Lemma ticks_idx clock m p c key g k : gpu_at m p c key g -> tg_Slots g <> [] -> 0 <= tg_CurrentSlotIdx g -> slow_clock clock g ->
  exists c' g', gpu_at (ticks clock (S k) m) p c' key g' /\ tg_Slots g' = tg_Slots g /\ tg_SlotInterval g' = tg_SlotInterval g /\
    tg_LastScheduled g' = clock k /\
    tg_CurrentSlotIdx g' = (tg_CurrentSlotIdx g + Z.of_nat (S k)) `mod` Z.of_nat (length (tg_Slots g)).
Proof.
  intros Hat Hne Hidx [Hc0 Hc]. set (n := Z.of_nat (length (tg_Slots g))) in *.
  assert (Hn : 0 < n) by (unfold n; destruct (tg_Slots g); [done | simpl; lia]).
  assert (Hstep : forall now m1 c1 g1, gpu_at m1 p c1 key g1 -> tg_Slots g1 = tg_Slots g -> 0 <= tg_CurrentSlotIdx g1 ->
    tg_SlotInterval g1 = tg_SlotInterval g -> Z.quot (tg_SlotInterval g) n <= now - tg_LastScheduled g1 ->
    exists c2, gpu_at (scheduleSlots now m1) p c2 key (with_current ((tg_CurrentSlotIdx g1 + 1) `mod` n) now g1)).
  { intros now m1 c1 g1 [Hp Hk] Es Hi Ei Hle. exists (with_gpus (scheduleGPU now <$> tc_GPUs c1) c1). split; simpl; [by rewrite lookup_fmap, Hp|].
    rewrite lookup_fmap, Hk. simpl. f_equal. unfold scheduleGPU. rewrite Es. destruct (tg_Slots g) as [|l0 ls]; [done|].
    fold n. rewrite Ei, (proj2 (Z.leb_le _ _) Hle). f_equal. apply Z.rem_mod_nonneg; lia. }
  induction k as [|k (c' & g' & Hat' & Es & Ei & El & Ex)].
  - destruct (Hstep (clock 0%nat) m c g) as [c2 H2]; [done..|]. exists c2. eexists. split_and!; [exact H2 | done..].
  - assert (Hmod : 0 <= tg_CurrentSlotIdx g') by (rewrite Ex; apply Z.mod_pos_bound; lia).
    destruct (Hstep (clock (S k)) _ c' g' Hat') as [c2 H2]; [done | done | done | rewrite El; apply Hc |].
    exists c2. eexists. split_and!; [exact H2 | done | done | done |]. simpl. rewrite Ex, Zplus_mod_idemp_l. f_equal. lia.
Qed.
End facts.

(** * Properties *)
Section properties.
Context `{QO : QuantityOps} `{GR : GoRuntime}.

(** C26. In every state the manager reaches, each device has at most ten
    slots, each on one device only, in order of falling priority, laid out
    one after the other from the start of the interval, for at least 10ms each,
    and up to the end of the interval when they end before it. *)
Theorem ts_reachable_Inv m : rtc tsStep NewTimesliceManager m -> TSInv m.
Proof. apply ts_reach_Inv. Qed.

(** In every state the manager reaches, [Allocate] for at most ten slots
    succeeds when a device of the pool has none yet (and for any number an
    existing one has room for): it makes exactly that many new slots for the
    service, active and of priority 0, each on the device reported for it,
    and every earlier slot stays on its device. *)
Theorem ts_Allocate_room now seed (req : AllocationRequest) p gpus m c :
  rtc tsStep NewTimesliceManager m -> tm_pools m !! p = Some c -> 0 <= rq_GPUCount req ->
  room c gpus (Z.to_nat (rq_GPUCount req)) ->
  exists m' infos, Allocate now seed req p gpus m = Ret (m', Ok infos) /\ Z.of_nat (length infos) = rq_GPUCount req /\
    tm_schedulerCh m' = true /\ grew m m' /\
    (forall j info, infos !! j = Some info -> granted m' p req (length (tm_heap m) + j)%nat info).
Proof.
  intros Hr%ts_reach_Inv Hp Hc Hroom. unfold Allocate. rewrite Hp. unfold make_cap.
  replace (rq_GPUCount req <? 0) with false by (symmetry; by apply Z.ltb_ge). cbn [mbind outcome_bind].
  destruct (allocLoop _ _ _ _ _ _ _) as [m1 r] eqn:El.
  apply (allocLoop_spec _ _ _ _ _ _ _ _ _ c) in El as [_ H1]; [|done|done]. destruct r as [infos|e].
  - destruct H1 as (Hg & Hlen & _ & Hall). exists (tsset_schedulerCh true m1), infos. split_and!; [done | lia | done | | exact Hall].
    destruct Hg. by constructor.
  - destruct H1 as (_ & Hno & _). done.
Qed.

(** When [Allocate] on a configured pool fails, it has released every slot
    the service had on any device of any pool, not only those of the failed
    call, and dropped its record of allocations, even when it failed before
    making a single slot; the slots of other services stay. *)
Theorem ts_Allocate_error_releases_all now seed (req : AllocationRequest) p gpus m m' c e :
  rtc tsStep NewTimesliceManager m -> tm_pools m !! p = Some c -> Allocate now seed req p gpus m = Ret (m', Err e) ->
  e = no_ts_gpu /\ ~ room c gpus (Z.to_nat (rq_GPUCount req)) /\
  (forall q d key g, gpu_at m' q d key g -> cleared (rq_ServiceName req) (rq_Namespace req) (tm_heap m') g) /\
  GetAllocations (rq_ServiceName req) (rq_Namespace req) m' =
    Err ("no allocations found for " +:+ slash_key (rq_Namespace req) (rq_ServiceName req)) /\
  (forall q d key g l, gpu_at m q d key g -> l ∈ tg_Slots g ->
    owns (rq_ServiceName req) (rq_Namespace req) (tm_heap m) l = false ->
    exists d' g', gpu_at m' q d' key g' /\ l ∈ tg_Slots g').
Proof.
  intros Hr%ts_reach_Inv Hp Ha. apply Allocate_loop in Ha as [[Hn _]|(c1 & m1 & Hp1 & Hl & _ & E1 & E2 & E3)]; [congruence|].
  apply (allocLoop_spec _ _ _ _ _ _ _ _ _ c) in Hl as [_ (-> & Hno & Hcl & Hal & _ & Hoth)]; [|done|done].
  assert (Hat : forall q d key g, gpu_at m' q d key g <-> gpu_at m1 q d key g) by (intros; unfold gpu_at; by rewrite E1).
  split_and!; [done | done | | unfold GetAllocations; by rewrite E3, Hal |].
  - intros q d key g Hq%Hat. rewrite E2. by eapply Hcl.
  - intros q d key g l Hq Hin Ho. destruct (Hoth q d key g l Hq Hin Ho) as (d' & g' & Hq' & Hin'). exists d', g'. by rewrite Hat.
Qed.

(** C27. The scheduler is a plain round robin: on a clock that ticks no faster
    than a slot lasts, every slot of a device, of any priority and any duration,
    paused or not, becomes the current one within as many ticks as
    the device has slots. *)
Theorem ts_round_robin clock m p c key g l : gpu_at m p c key g -> 0 <= tg_CurrentSlotIdx g -> slow_clock clock g ->
  l ∈ tg_Slots g ->
  exists k c' g', (1 <= k <= length (tg_Slots g))%nat /\ gpu_at (ticks clock k m) p c' key g' /\ tg_Slots g' = tg_Slots g /\
    tg_Slots g' !! Z.to_nat (tg_CurrentSlotIdx g') = Some l.
Proof.
  intros Hat Hidx Hclk Hl. apply list_elem_of_lookup in Hl as [j Hj]. pose proof (lookup_lt_Some _ _ _ Hj) as Hlt.
  set (n := Z.of_nat (length (tg_Slots g))). assert (Hn : 0 < n) by lia.
  pose proof (Z.mod_pos_bound (Z.of_nat j - tg_CurrentSlotIdx g - 1) n Hn) as Hb.
  set (k := Z.to_nat ((Z.of_nat j - tg_CurrentSlotIdx g - 1) `mod` n)).
  destruct (ticks_idx clock m p c key g k Hat) as (c' & g' & Hat' & Es & _ & _ & Ex);
    [intros E; by rewrite E in Hj | done | done |].
  exists (S k), c', g'. split_and!; [lia | unfold k, n in *; lia | done | done |]. rewrite Es, Ex. fold n.
  replace ((tg_CurrentSlotIdx g + Z.of_nat (S k)) `mod` n) with (Z.of_nat j); [by rewrite Nat2Z.id|].
  replace (tg_CurrentSlotIdx g + Z.of_nat (S k)) with (tg_CurrentSlotIdx g + 1 + (Z.of_nat j - tg_CurrentSlotIdx g - 1) `mod` n)
    by (unfold k; lia).
  rewrite Zplus_mod_idemp_r. replace (tg_CurrentSlotIdx g + 1 + (Z.of_nat j - tg_CurrentSlotIdx g - 1)) with (Z.of_nat j) by lia.
  symmetry. apply Z.mod_small. unfold n. lia.
Qed.
End properties.

(** * Witnesses *)
Section witnesses.
#[local] Existing Instance ZQuantity.
#[local] Existing Instance stdRuntime.

Definition tdev (dev : string) : GPUInfo := mkGPUInfo _ dev "" "" "n" (0 : @Quantity ZQuantity) 0 0 0 0 false [] [].
Definition treq (service : string) (n : Z) : AllocationRequest :=
  mkAllocationRequest _ service "ns" "" n (0 : @Quantity ZQuantity) GPUSharingModeTimeslice "" "".
Definition tstart : TimesliceManager := (ConfigurePool (example_pool "a" GPUSharingModeTimeslice [] 100 0) NewTimesliceManager).1.
Definition tconfig : TimeslicePoolConfig := mkTimeslicePoolConfig "a" (100 * Millisecond) 10 ∅.
Definition trun (service : string) (n : Z) (m : TimesliceManager) : TimesliceManager :=
  match Allocate 5 0 (treq service n) "a" [tdev "0"] m with Ret (m', _) => m' | _ => m end.
Definition ttwo : TimesliceManager := trun "x" 2 tstart.

Lemma tstart_reach : rtc tsStep NewTimesliceManager tstart.
Proof. apply rtc_once, (tsStep_ConfigurePool (example_pool "a" GPUSharingModeTimeslice [] 100 0)). Qed.
Lemma tstart_pool : tm_pools tstart !! "a" = Some tconfig.
Proof. vm_compute. reflexivity. Qed.
Lemma trun_reach service n m : rtc tsStep NewTimesliceManager m -> rtc tsStep NewTimesliceManager (trun service n m).
Proof.
  intros Hr. unfold trun. destruct (Allocate _ _ _ _ _ _) as [[m' r]| |] eqn:E; [|done|done].
  eapply rtc_r; [exact Hr | by eapply tsStep_Allocate].
Qed.
Lemma ttwo_reach : rtc tsStep NewTimesliceManager ttwo.
Proof. apply trun_reach, tstart_reach. Qed.

Definition tgpu : TimesliceGPU := mkTimesliceGPU "n" "0" (100 * Millisecond) [0%nat; 1%nat] 10 0 5 (100 * Millisecond).
Definition tconfig2 : TimeslicePoolConfig := with_gpus {["n/0" := tgpu]} tconfig.
Lemma ttwo_pool : tm_pools ttwo !! "a" = Some tconfig2.
Proof. vm_compute. reflexivity. Qed.
Lemma ttwo_gpu : gpu_at ttwo "a" tconfig2 "n/0" tgpu.
Proof. split; [exact ttwo_pool | apply lookup_singleton_eq]. Qed.

Lemma ts_reachable_Inv_witness : rtc tsStep NewTimesliceManager ttwo /\ TSInv ttwo.
Proof. split; [exact ttwo_reach | exact (ts_reachable_Inv ttwo ttwo_reach)]. Defined.

Lemma ts_Allocate_room_witness : exists m' infos, Allocate 5 0 (treq "y" 3) "a" [tdev "0"] tstart = Ret (m', Ok infos) /\
  Z.of_nat (length infos) = 3.
Proof.
  destruct (ts_Allocate_room 5 0 (treq "y" 3) "a" [tdev "0"] tstart tconfig tstart_reach tstart_pool)
    as (m' & infos & Ha & Hl & _); [discriminate | left; split; [apply Nat.leb_le; reflexivity|] |].
  - exists (tdev "0"). split; [left | apply lookup_empty].
  - exact (ex_intro _ m' (ex_intro _ infos (conj Ha Hl))).
Defined.

(** The service has two slots, asks for nine more, and loses all. *)
Definition tlost : TimesliceManager := trun "x" 9 ttwo.
Lemma tlost_run : Allocate 5 0 (treq "x" 9) "a" [tdev "0"] ttwo = Ret (tlost, Err no_ts_gpu).
Proof. vm_compute. reflexivity. Qed.
Lemma ts_Allocate_error_releases_all_witness :
  is_ok (GetAllocations "x" "ns" ttwo) = true /\ GetAllocations "x" "ns" tlost = Err ("no allocations found for " +:+ slash_key "ns" "x").
Proof.
  destruct (ts_Allocate_error_releases_all 5 0 (treq "x" 9) "a" [tdev "0"] ttwo tlost tconfig2 no_ts_gpu
    ttwo_reach ttwo_pool tlost_run) as (_ & _ & _ & Hc & _). split; [vm_compute; reflexivity | exact Hc].
Defined.

Definition tclock (i : nat) : Z := (Z.of_nat i + 1) * Second.
Lemma tclock_slow : slow_clock tclock tgpu.
Proof.
  unfold slow_clock. replace (Z.quot _ _) with 50000000 by reflexivity. split; [vm_compute; discriminate|].
  intros i. unfold tclock, Second, Millisecond. lia.
Qed.
Lemma ts_round_robin_witness : exists k c' g', (1 <= k <= 2)%nat /\ gpu_at (ticks tclock k ttwo) "a" c' "n/0" g' /\
  tg_Slots g' = tg_Slots tgpu /\ tg_Slots g' !! Z.to_nat (tg_CurrentSlotIdx g') = Some 1%nat.
Proof.
  apply (ts_round_robin tclock ttwo "a" tconfig2 "n/0" tgpu 1%nat ttwo_gpu); [discriminate | exact tclock_slow |].
  right. left.
Defined.
End witnesses.
