(* ===== verification/GpuManager.v ===== *)
(** internal/gpu/manager.go: the GPU manager, which owns the devices and the
    pools and hands requests to the three sharing managers. *)
From S2P Require Import Prelude GoFloat Api GpuTypes.
From S2P Require Mig Mps Timeslice.
Local Open Scope Z_scope.

(** [fmt.Sscanf(s, "%f", &x)]: the float a string starts with, if any. *)
Class RatioScanner := { Sscanf_f : string -> option float64 }.

(** Devices are heap objects; [gm_gpus] and the pools point to them. *)
Record Manager `{QuantityOps} := mkManager {
  gm_heap : list GPUInfo;
  gm_gpus : gmap string loc;
  gm_pools : gmap string PoolInfo;
  gm_mig : Mig.MIGManager;
  gm_mps : Mps.MPSManager;
  gm_timeslice : Timeslice.TimesliceManager;
  gm_stopClosed : bool;
}.

Definition gmset_heap `{QuantityOps} v (m : Manager) : Manager :=
  mkManager _ v (gm_gpus m) (gm_pools m) (gm_mig m) (gm_mps m) (gm_timeslice m) (gm_stopClosed m).
Definition gmset_pools `{QuantityOps} v (m : Manager) : Manager :=
  mkManager _ (gm_heap m) (gm_gpus m) v (gm_mig m) (gm_mps m) (gm_timeslice m) (gm_stopClosed m).
Definition gmset_mig `{QuantityOps} v (m : Manager) : Manager :=
  mkManager _ (gm_heap m) (gm_gpus m) (gm_pools m) v (gm_mps m) (gm_timeslice m) (gm_stopClosed m).
Definition gmset_mps `{QuantityOps} v (m : Manager) : Manager :=
  mkManager _ (gm_heap m) (gm_gpus m) (gm_pools m) (gm_mig m) v (gm_timeslice m) (gm_stopClosed m).
Definition gmset_timeslice `{QuantityOps} v (m : Manager) : Manager :=
  mkManager _ (gm_heap m) (gm_gpus m) (gm_pools m) (gm_mig m) (gm_mps m) v (gm_stopClosed m).
Definition with_allocations `{QuantityOps} (f : list Allocation -> list Allocation) (g : GPUInfo) : GPUInfo :=
  mkGPUInfo _ (gi_DeviceID g) (gi_UUID g) (gi_Model g) (gi_NodeName g) (gi_TotalMemory g) (gi_AvailableMemory g)
    (gi_Utilization g) (gi_Temperature g) (gi_PowerUsage g) (gi_MIGEnabled g) (gi_MIGInstances g) (f (gi_Allocations g)).

Section operations.
Context `{QuantityOps} `{GoRuntime} `{RatioScanner}.
Implicit Type m : Manager.

Definition NewManager : Manager :=
  mkManager _ [] ∅ ∅ Mig.NewMIGManager Mps.NewMPSManager Timeslice.NewTimesliceManager false.

(** [discoverGPUs] only refreshes metrics; the manager stays as it is. *)
Definition discoverGPUs m : Manager := m.
Definition Start m : Manager :=
  let m := discoverGPUs m in
  let m := gmset_mps (Mps.Start (gm_mps m)) m in
  gmset_timeslice (Timeslice.Start (gm_timeslice m)) m.
Definition Stop m : outcome Manager :=
  if gm_stopClosed m then Panic "close of closed channel"
  else
    mps ← Mps.Stop (gm_mps m);
    ts ← Timeslice.Stop (gm_timeslice m);
    Ret (mkManager _ (gm_heap m) (gm_gpus m) (gm_pools m) (gm_mig m) mps ts true).

Definition newPoolInfo (pool : GPUPool) : PoolInfo :=
  let spec := gp_Spec pool in
  mkPoolInfo (pool_name pool) (gps_NodeSelector spec) (gps_GPUType spec)
    (match gps_Sharing spec with Some sh => gss_Mode sh | None => GPUSharingModeExclusive end)
    (match gps_Sharing spec with Some sh => gss_Profiles sh | None => [] end)
    (match gps_Oversubscription spec with
     | Some os => if os_Enabled os then default f64_one (Sscanf_f (os_Ratio os)) else f64_one
     | None => f64_one
     end) 0 0 [].

(** [fmt.Errorf(prefix + ": %w", err)] *)
Definition wrap_err {A} (prefix : string) (r : result A) : result A :=
  match r with Ok a => Ok a | Err e => Err (prefix +:+ ": " +:+ e) end.

Definition RegisterPool (pool : GPUPool) m : Manager * result unit :=
  let info := newPoolInfo pool in
  let m := gmset_pools (<[pool_name pool := info]> (gm_pools m)) m in
  let mode := pi_SharingMode info in
  if bool_decide (mode = GPUSharingModeMIG) then
    let '(mig, r) := Mig.ConfigurePool pool (gm_mig m) in
    (gmset_mig mig m, wrap_err "failed to configure MIG for pool" r)
  else if bool_decide (mode = GPUSharingModeMPS) then
    let '(mps, r) := Mps.ConfigurePool pool (gm_mps m) in
    (gmset_mps mps m, wrap_err "failed to configure MPS for pool" r)
  else if bool_decide (mode = GPUSharingModeTimeslice) then
    let '(ts, r) := Timeslice.ConfigurePool pool (gm_timeslice m) in
    (gmset_timeslice ts m, wrap_err "failed to configure time-slicing for pool" r)
  else (m, Ok tt).

(** The errors of the sharing managers are only logged. *)
Definition UnregisterPool (seed : nat) (poolName : string) m : Manager * result unit :=
  match gm_pools m !! poolName with
  | None => (m, Ok tt)
  | Some pool =>
      let mode := pi_SharingMode pool in
      let m :=
        if bool_decide (mode = GPUSharingModeMIG) then gmset_mig (Mig.CleanupPool seed poolName (gm_mig m)).1 m
        else if bool_decide (mode = GPUSharingModeMPS) then gmset_mps (Mps.CleanupPool seed poolName (gm_mps m)).1 m
        else if bool_decide (mode = GPUSharingModeTimeslice)
          then gmset_timeslice (Timeslice.CleanupPool seed poolName (gm_timeslice m)).1 m
        else m in
      (gmset_pools (delete poolName (gm_pools m)) m, Ok tt)
  end.

(** The loop of [findAvailableGPUs]. *)
Fixpoint collectGPUs m (count : Z) (ls : list loc) (available : list loc) : list loc :=
  match ls with
  | [] => available
  | l :: rest =>
      match gi_Allocations <$> gm_heap m !! l with
      | Some [] =>
          let available := available ++ [l] in
          if count <=? Z.of_nat (length available) then available else collectGPUs m count rest available
      | _ => collectGPUs m count rest available
      end
  end.
Definition findAvailableGPUs (pool : PoolInfo) (count : Z) m : list loc := collectGPUs m count (pi_GPUs pool) [].

Definition exclusiveAllocation (now : Z) (req : AllocationRequest) (g : GPUInfo) : Allocation :=
  mkAllocation _ (rq_ServiceName req) (rq_Namespace req) (gi_TotalMemory g) now GPUSharingModeExclusive.
Fixpoint grantLoop (now : Z) (req : AllocationRequest) (ls : list loc) m : Manager * list GPUAllocationInfo :=
  match ls with
  | [] => (m, [])
  | l :: rest =>
      match gm_heap m !! l with
      | Some g =>
          let m := gmset_heap (alter (with_allocations (fun al => al ++ [exclusiveAllocation now req g])) l (gm_heap m)) m in
          let '(m, infos) := grantLoop now req rest m in
          (m, mkGPUAllocationInfo _ (gi_NodeName g) (gi_DeviceID g) "" (gi_TotalMemory g) :: infos)
      | None => grantLoop now req rest m
      end
  end.
Definition allocateExclusive (now : Z) (req : AllocationRequest) (pool : PoolInfo) m
    : outcome (Manager * result (list GPUAllocationInfo)) :=
  let count := rq_GPUCount req in
  _ ← make_cap count;
  let availableGPUs := findAvailableGPUs pool count m in
  if Z.of_nat (length availableGPUs) <? count
  then Ret (m, Err ("insufficient GPUs: requested " +:+ print_Z count +:+ ", available "
                    +:+ print_Z (Z.of_nat (length availableGPUs))))
  else
    let '(m, infos) := grantLoop now req (take (Z.to_nat count) availableGPUs) m in
    Ret (m, Ok infos).

Definition suitable (req : AllocationRequest) (pool : PoolInfo) : bool :=
  negb (negb (bool_decide (pi_GPUType pool = "")) && negb (bool_decide (pi_GPUType pool = rq_GPUType req)))
  && bool_decide (pi_SharingMode pool = rq_SharingMode req) && (rq_GPUCount req <=? pi_AvailableGPUs pool).
Definition findSuitablePool (seed : nat) (req : AllocationRequest) m : option PoolInfo :=
  head (filter (fun p => suitable req p = true) (range seed (gm_pools m)).*2).

(** The devices a pool points to. *)
Definition pool_devices (pool : PoolInfo) m : list GPUInfo := omap (gm_heap m !!.) (pi_GPUs pool).

(** Installs what a sharing manager made of its state. *)
Definition via {S A} (set : S -> Manager -> Manager) m (o : outcome (S * A)) : outcome (Manager * A) :=
  '(s, a) ← o; Ret (set s m, a).

Definition allocateFrom (now : Z) (seed : nat) (req : AllocationRequest) (pool : PoolInfo) m
    : outcome (Manager * result (list GPUAllocationInfo)) :=
  let mode := rq_SharingMode req in
  if bool_decide (mode = GPUSharingModeMIG) then via gmset_mig m (Mig.Allocate seed req (pi_Name pool) (gm_mig m))
  else if bool_decide (mode = GPUSharingModeMPS)
    then via gmset_mps m (Mps.Allocate now seed req (pi_Name pool) (pool_devices pool m) (gm_mps m))
  else if bool_decide (mode = GPUSharingModeTimeslice)
    then via gmset_timeslice m (Timeslice.Allocate now seed req (pi_Name pool) (pool_devices pool m) (gm_timeslice m))
  else allocateExclusive now req pool m.

Definition Allocate (now : Z) (seed : nat) (req : AllocationRequest) m : outcome (Manager * AllocationResult) :=
  match match gm_pools m !! rq_PoolName req with
        | Some pool => Some pool
        | None => findSuitablePool seed req m
        end with
  | None => Ret (m, mkAllocationResult _ false [] (Some "no suitable GPU pool found"))
  | Some pool =>
      '(m, r) ← allocateFrom now (S seed) req pool m;
      match r with
      | Err e => Ret (m, mkAllocationResult _ false [] (Some e))
      | Ok allocations => Ret (m, mkAllocationResult _ true allocations None)
      end
  end.

Definition not_of (serviceName namespace : string) (a : Allocation) : Prop :=
  al_ServiceRef a <> serviceName \/ al_Namespace a <> namespace.
#[export] Instance not_of_dec s n a : Decision (not_of s n a) := decide (_ \/ _).
Definition Release (seed : nat) (serviceName namespace : string) m : Manager * result unit :=
  (fold_left (fun m '(_, l) => gmset_heap (alter (with_allocations (filter (not_of serviceName namespace))) l (gm_heap m)) m)
     (range seed (gm_gpus m)) m, Ok tt).

(** The devices of a pool by node, as the map [nodeGPUs] has them. *)
Definition nodeGPUs (devices : list GPUInfo) : gmap string (list GPUInfo) :=
  fold_left (fun acc g => <[gi_NodeName g := default [] (acc !! gi_NodeName g) ++ [g]]> acc) devices ∅.
Definition deviceStatus (g : GPUInfo) : GPUDeviceStatus :=
  mkGPUDeviceStatus _ (gi_DeviceID g) (gi_UUID g) (gi_Model g) (gi_TotalMemory g) (gi_AvailableMemory g)
    (gi_Utilization g) (gi_Temperature g) (gi_PowerUsage g) (gi_MIGEnabled g) [] [].
Definition nodeStatus (x : string * list GPUInfo) : GPUNodeStatus :=
  mkGPUNodeStatus _ x.1 (int32 (Z.of_nat (length x.2)))
    (fold_left (fun n g => match gi_Allocations g with [] => int32 (n + 1) | _ => n end) x.2 0) (deviceStatus <$> x.2).
Definition GetPoolStatus (seed : nat) (poolName : string) m : result GPUPoolStatus :=
  match gm_pools m !! poolName with
  | None => Err ("pool not found: " +:+ poolName)
  | Some pool =>
      Ok (mkGPUPoolStatus _ GPUPoolPhaseReady (pi_TotalGPUs pool) (pi_AvailableGPUs pool)
            (int32 (pi_TotalGPUs pool - pi_AvailableGPUs pool)) Quantity_zero Quantity_zero
            (nodeStatus <$> range seed (nodeGPUs (pool_devices pool m))) [] None 0)
  end.

Definition GetGPUInfo (nodeName deviceID : string) m : result loc :=
  match gm_gpus m !! slash_key nodeName deviceID with
  | Some l => Ok l
  | None => Err ("GPU not found: " +:+ slash_key nodeName deviceID)
  end.
Definition ListGPUs (seed : nat) m : list loc := (range seed (gm_gpus m)).*2.

(** The warning about hot devices is only logged. *)
Definition HealthCheck (seed : nat) m : result unit :=
  match head (filter (fun x : string * loc => from_option (fun g => Quantity_Value (gi_AvailableMemory g) <? 0) false (gm_heap m !! x.2) = true)
                (range seed (gm_gpus m))) with
  | Some (key, _) => Err ("GPU " +:+ key +:+ " has invalid memory state")
  | None => Ok tt
  end.
End operations.
