(* ===== verification/GpuProps.v ===== *)
(** Properties of the GPU manager (gpu/manager.go): that it never learns of a
    device, what exclusive allocation grants, and what registering a pool
    again and releasing a service do to the sharing managers. *)
From S2P Require Import Prelude GoFloat Api GpuTypes.
From S2P Require Mig MigProps Mps MpsProps Timeslice TimesliceProps.
From S2P Require Import GpuManager.
Local Open Scope Z_scope.

(** A completed call of the manager, or a tick of the time-slice scheduler. *)
Inductive gmStep `{QuantityOps} `{GoRuntime} `{RatioScanner} : Manager -> Manager -> Prop :=
| gmStep_Start m : gmStep m (Start m)
| gmStep_Stop m m' : Stop m = Ret m' -> gmStep m m'
| gmStep_discoverGPUs m : gmStep m (discoverGPUs m)
| gmStep_tick now m : gmStep m (gmset_timeslice (Timeslice.scheduleSlots now (gm_timeslice m)) m)
| gmStep_RegisterPool pool m : gmStep m (RegisterPool pool m).1
| gmStep_UnregisterPool seed p m : gmStep m (UnregisterPool seed p m).1
| gmStep_Allocate now seed req m m' r : Allocate now seed req m = Ret (m', r) -> gmStep m m'
| gmStep_Release seed s n m : gmStep m (Release seed s n m).1.

(** No device is known, to the manager or to the sharing managers. *)
Record NoDevices `{QuantityOps} (m : Manager) : Prop := {
  nd_gpus : gm_gpus m = ∅;
  nd_pools : forall p pool, gm_pools m !! p = Some pool -> pi_GPUs pool = [] /\ pi_AvailableGPUs pool = 0 /\ pi_TotalGPUs pool = 0;
  nd_mps : forall p c, Mps.ms_pools (gm_mps m) !! p = Some c -> Mps.pc_Daemons c = ∅;
  nd_timeslice : forall p c, Timeslice.tm_pools (gm_timeslice m) !! p = Some c -> Timeslice.tc_GPUs c = ∅;
}.

Section facts.
Context `{QO : QuantityOps} `{GR : GoRuntime} `{RS : RatioScanner}.
Implicit Type l : loc.

(** ** Without devices *)
Lemma mps_no_devices now seed (req : AllocationRequest) p (m m' : Mps.MPSManager) r :
  (forall q c, Mps.ms_pools m !! q = Some c -> Mps.pc_Daemons c = ∅) ->
  Mps.Allocate now seed req p [] m = Ret (m', r) -> m' = m /\ (1 <= rq_GPUCount req -> exists e, r = Err e).
Proof.
  intros Hno Ha. unfold Mps.Allocate in Ha. destruct (Mps.ms_pools m !! p) as [c|] eqn:Hp; [|simplify_eq; eauto].
  apply outcome_bind_Ret in Ha as ([] & _ & Ha). injection Ha as Ha. destruct (Z.to_nat (rq_GPUCount req)) as [|k] eqn:Ek.
  - simpl in Ha. simplify_eq. split; [done | lia].
  - cbn [Mps.allocLoop] in Ha. rewrite Hp in Ha. unfold Mps.findOrCreateDaemon in Ha.
    rewrite (Hno p c Hp), range_empty in Ha. simpl in Ha. simplify_eq. eauto.
Qed.

Lemma fold_empty_pool seed s n (c : Timeslice.TimeslicePoolConfig) h : Timeslice.tc_GPUs c = ∅ ->
  Timeslice.releasePool seed s n c h = (c, h).
Proof. intros E. unfold Timeslice.releasePool. by rewrite E, range_empty. Qed.
Lemma ts_release_no_devices seed s n (m : Timeslice.TimesliceManager) :
  (forall q c, Timeslice.tm_pools m !! q = Some c -> Timeslice.tc_GPUs c = ∅) ->
  forall q c, Timeslice.tm_pools (Timeslice.releaseSlots seed s n m) !! q = Some c -> Timeslice.tc_GPUs c = ∅.
Proof.
  intros Hno. unfold Timeslice.releaseSlots. simpl.
  assert (Hin : forall x, x ∈ range seed (Timeslice.tm_pools m) -> Timeslice.tc_GPUs x.2 = ∅).
  { intros [q c] Hx. apply range_elem in Hx. by eapply Hno. }
  revert Hin Hno. generalize (range seed (Timeslice.tm_pools m)) as ls. intros ls. revert m.
  induction ls as [|[p c] ls IH]; intros m0 Hin Hno; simpl; [exact Hno|].
  rewrite fold_empty_pool by (apply (Hin (p, c)); by left). apply IH; [intros x Hx; apply Hin; by right|]. simpl.
  intros q d [[_ <-]|[_ Hq]]%lookup_insert_Some; [apply (Hin (p, c)); by left | by eapply Hno].
Qed.
Lemma ts_no_devices now seed (req : AllocationRequest) p (m m' : Timeslice.TimesliceManager) r :
  (forall q c, Timeslice.tm_pools m !! q = Some c -> Timeslice.tc_GPUs c = ∅) ->
  Timeslice.Allocate now seed req p [] m = Ret (m', r) ->
  (forall q c, Timeslice.tm_pools m' !! q = Some c -> Timeslice.tc_GPUs c = ∅) /\ (1 <= rq_GPUCount req -> exists e, r = Err e).
Proof.
  intros Hno Ha. unfold Timeslice.Allocate in Ha. destruct (Timeslice.tm_pools m !! p) as [c|] eqn:Hp; [|simplify_eq; eauto].
  apply outcome_bind_Ret in Ha as ([] & _ & Ha). destruct (Z.to_nat (rq_GPUCount req)) as [|k] eqn:Ek.
  - simpl in Ha. simplify_eq. split; [done | lia].
  - cbn [Timeslice.allocLoop] in Ha. rewrite Hp in Ha. unfold Timeslice.findOrCreateTimesliceGPU in Ha.
    rewrite (Hno p c Hp), range_empty in Ha. simpl in Ha. simplify_eq. split; [by apply ts_release_no_devices | eauto].
Qed.
Lemma scheduleSlots_no_devices now (m : Timeslice.TimesliceManager) :
  (forall q c, Timeslice.tm_pools m !! q = Some c -> Timeslice.tc_GPUs c = ∅) ->
  forall q c, Timeslice.tm_pools (Timeslice.scheduleSlots now m) !! q = Some c -> Timeslice.tc_GPUs c = ∅.
Proof.
  intros Hno q c. simpl. intros (c0 & <- & Hq)%lookup_fmap_Some. simpl. by rewrite (Hno q c0 Hq), fmap_empty.
Qed.

Lemma findSuitablePool_spec seed req (m : Manager) pool : findSuitablePool seed req m = Some pool ->
  suitable req pool = true /\ exists p, gm_pools m !! p = Some pool.
Proof.
  unfold findSuitablePool. intros [Hs ([p pool'] & -> & Hp)%list_elem_of_fmap]%head_filter_Some. apply range_elem in Hp. eauto.
Qed.

Lemma allocateFrom_no_devices now seed req pool (m m' : Manager) r : NoDevices m -> pi_GPUs pool = [] ->
  allocateFrom now seed req pool m = Ret (m', r) ->
  NoDevices m' /\ (rq_SharingMode req <> GPUSharingModeMIG -> 1 <= rq_GPUCount req -> exists e, r = Err e).
Proof.
  intros [Hg Hp Hm Ht] Hpool. unfold allocateFrom, pool_devices. rewrite Hpool. simpl.
  destruct (bool_decide_reflect (rq_SharingMode req = GPUSharingModeMIG)) as [E1|E1];
    [|destruct (bool_decide_reflect (rq_SharingMode req = GPUSharingModeMPS)) as [E2|E2];
    [|destruct (bool_decide_reflect (rq_SharingMode req = GPUSharingModeTimeslice)) as [E3|E3]]].
  - unfold via. intros Ha. inv_ret. by split.
  - unfold via. intros Ha. inv_ret. apply mps_no_devices in H as [-> Herr]; [|done]. split; [by constructor | auto].
  - unfold via. intros Ha. inv_ret. apply ts_no_devices in H as [Hno Herr]; [|done]. split; [by constructor | auto].
  - unfold allocateExclusive, findAvailableGPUs. rewrite Hpool. intros Ha. apply outcome_bind_Ret in Ha as ([] & _ & Ha).
    simpl in Ha. destruct (Z.ltb_spec (Z.of_nat 0) (rq_GPUCount req)) as [Hlt|Hge]; [simplify_eq; split; eauto; by constructor|].
    rewrite firstn_nil in Ha. simpl in Ha. simplify_eq. split; [by constructor | lia].
Qed.

Lemma Allocate_no_devices now seed req (m m' : Manager) r : NoDevices m -> Allocate now seed req m = Ret (m', r) ->
  NoDevices m' /\ (rq_SharingMode req <> GPUSharingModeMIG -> 1 <= rq_GPUCount req ->
    exists e, r = mkAllocationResult _ false [] (Some e)).
Proof.
  intros Hno. unfold Allocate.
  assert (Hpool : forall pool, match gm_pools m !! rq_PoolName req with Some pool => Some pool | None => findSuitablePool seed req m end
    = Some pool -> pi_GPUs pool = []).
  { intros pool. destruct (gm_pools m !! rq_PoolName req) as [pool'|] eqn:Hp.
    - intros [= <-]. by apply (nd_pools m Hno) in Hp as [? _].
    - intros (_ & p & Hp')%findSuitablePool_spec. by apply (nd_pools m Hno) in Hp' as [? _]. }
  destruct (match gm_pools m !! rq_PoolName req with Some pool => Some pool | None => findSuitablePool seed req m end)
    as [pool|]; [|intros [= <- <-]; eauto].
  intros Ha. apply outcome_bind_Ret in Ha as ([m1 r1] & Hf & Ha).
  apply allocateFrom_no_devices in Hf as [Hno' Herr]; [|done | by apply Hpool].
  destruct r1 as [al|e]; simplify_eq; split; try done; intros H1 H2.
  - by destruct (Herr H1 H2).
  - eauto.
Qed.

Lemma RegisterPool_no_devices pool m : NoDevices m -> NoDevices (RegisterPool pool m).1.
Proof.
  intros [Hg Hp Hm Ht].
  assert (Hp' : forall p pl, <[pool_name pool := newPoolInfo pool]> (gm_pools m) !! p = Some pl ->
    pi_GPUs pl = [] /\ pi_AvailableGPUs pl = 0 /\ pi_TotalGPUs pl = 0).
  { intros p pl [[_ <-]|[_ Hq]]%lookup_insert_Some; [done | by eapply Hp]. }
  unfold RegisterPool. destruct (bool_decide _); [|destruct (bool_decide _); [|destruct (bool_decide _)]]; simpl.
  - destruct (Mig.ConfigurePool _ _) as [mig r]. by constructor.
  - unfold Mps.ConfigurePool. destruct (has_mode _ _); [|by constructor]. constructor; try done. simpl.
    intros p c [[_ <-]|[_ Hq]]%lookup_insert_Some; [done | by eapply Hm].
  - unfold Timeslice.ConfigurePool. destruct (has_mode _ _); [|by constructor]. constructor; try done. simpl.
    intros p c [[_ <-]|[_ Hq]]%lookup_insert_Some; [done | by eapply Ht].
  - by constructor.
Qed.
Lemma mps_cleanup_no_devices seed p (m : Mps.MPSManager) :
  (forall q c, Mps.ms_pools m !! q = Some c -> Mps.pc_Daemons c = ∅) ->
  forall q c, Mps.ms_pools (Mps.CleanupPool seed p m).1 !! q = Some c -> Mps.pc_Daemons c = ∅.
Proof.
  intros Hno. unfold Mps.CleanupPool. destruct (Mps.ms_pools m !! p) as [c|] eqn:Hp; [|exact Hno].
  rewrite (Hno p c Hp), !range_empty. simpl. intros q d [_ Hq]%lookup_delete_Some. by eapply Hno.
Qed.
Lemma ts_cleanup_no_devices seed p (m : Timeslice.TimesliceManager) :
  (forall q c, Timeslice.tm_pools m !! q = Some c -> Timeslice.tc_GPUs c = ∅) ->
  forall q c, Timeslice.tm_pools (Timeslice.CleanupPool seed p m).1 !! q = Some c -> Timeslice.tc_GPUs c = ∅.
Proof.
  intros Hno. unfold Timeslice.CleanupPool. destruct (Timeslice.tm_pools m !! p) as [c|] eqn:Hp; [|exact Hno].
  rewrite (Hno p c Hp), !range_empty. simpl. intros q d [_ Hq]%lookup_delete_Some. by eapply Hno.
Qed.
Lemma UnregisterPool_no_devices seed p m : NoDevices m -> NoDevices (UnregisterPool seed p m).1.
Proof.
  intros HN. unfold UnregisterPool. destruct (gm_pools m !! p) as [pool|]; [|done]. destruct HN as [Hg Hp Hm Ht]. simpl.
  constructor.
  - by repeat destruct (bool_decide _).
  - intros q pl. assert (E : gm_pools (if bool_decide (pi_SharingMode pool = GPUSharingModeMIG) then gmset_mig (Mig.CleanupPool seed p (gm_mig m)).1 m
      else if bool_decide (pi_SharingMode pool = GPUSharingModeMPS) then gmset_mps (Mps.CleanupPool seed p (gm_mps m)).1 m
      else if bool_decide (pi_SharingMode pool = GPUSharingModeTimeslice) then gmset_timeslice (Timeslice.CleanupPool seed p (gm_timeslice m)).1 m
      else m) = gm_pools m) by (by repeat destruct (bool_decide _)).
    simpl. rewrite E. intros [_ Hq]%lookup_delete_Some. by eapply Hp.
  - destruct (bool_decide _); [done|]. destruct (bool_decide _); [by apply mps_cleanup_no_devices|]. by destruct (bool_decide _).
  - destruct (bool_decide _); [done|]. destruct (bool_decide _); [done|]. destruct (bool_decide _); [by apply ts_cleanup_no_devices | done].
Qed.

Lemma gmStep_NoDevices m m' : NoDevices m -> gmStep m m' -> NoDevices m'.
Proof.
  intros HN Hs. destruct Hs as [m|m m' Hstop|m|now m|pool m|seed p m|now seed req m m' r Ha|seed s n m].
  - by destruct HN.
  - unfold Stop in Hstop. destruct (gm_stopClosed m); [done|]. inv_ret. destruct HN as [Hg Hp Hm Ht].
    unfold Mps.Stop in H. unfold Timeslice.Stop in H0. destruct (Mps.ms_stopClosed _), (Timeslice.tm_stopClosed _); simplify_eq.
    by constructor.
  - done.
  - destruct HN as [Hg Hp Hm Ht]. constructor; try done. by apply scheduleSlots_no_devices.
  - by apply RegisterPool_no_devices.
  - by apply UnregisterPool_no_devices.
  - by eapply Allocate_no_devices in Ha as [? _].
  - unfold Release. simpl. destruct HN as [Hg Hp Hm Ht]. rewrite Hg, range_empty. by constructor.
Qed.
Lemma gm_reach_NoDevices m : rtc gmStep NewManager m -> NoDevices m.
Proof.
  apply (rtc_invariant gmStep NoDevices); [intros ? ?; apply gmStep_NoDevices|].
  constructor; try done; intros p c; simpl; by rewrite lookup_empty.
Qed.

(** ** Exclusive allocation *)
Definition unallocated (m : Manager) l : Prop := gi_Allocations <$> gm_heap m !! l = Some [].
#[export] Instance unallocated_dec m l : Decision (unallocated m l).
Proof. unfold unallocated. destruct (gi_Allocations <$> gm_heap m !! l) as [[|]|]; [left|right|right]; done. Defined.

Lemma collectGPUs_spec (m : Manager) count ls av : exists n, collectGPUs m count ls av = av ++ take n (filter (unallocated m) ls) /\
  ((length (filter (unallocated m) ls) <= n)%nat \/ count <= Z.of_nat (length av + n)%nat).
Proof.
  revert av. induction ls as [|l ls IH]; intros av; simpl; [exists 0%nat; split; [by rewrite app_nil_r | simpl; lia]|].
  destruct (gi_Allocations <$> gm_heap m !! l) as [[|a al]|] eqn:E.
  - rewrite filter_cons_True by exact E. destruct (Z.leb_spec count (Z.of_nat (length (av ++ [l])))) as [Hle|Hlt].
    + exists 1%nat. rewrite length_app in Hle. simpl in *. split; [done | lia].
    + destruct (IH (av ++ [l])) as (n & -> & Hn). exists (S n). rewrite <- app_assoc, length_app in *. simpl in *.
      split; [done | lia].
  - rewrite filter_cons_False by (unfold unallocated; by rewrite E). apply IH.
  - rewrite filter_cons_False by (unfold unallocated; by rewrite E). apply IH.
Qed.
(** As far as the request goes, the devices found are the first free ones. *)
Lemma findAvailableGPUs_spec (m : Manager) pool count : 0 <= count ->
  let free := filter (unallocated m) (pi_GPUs pool) in
  let found := findAvailableGPUs pool count m in
  take (Z.to_nat count) found = take (Z.to_nat count) free /\
  (Z.of_nat (length found) < count <-> Z.of_nat (length free) < count) /\
  (Z.of_nat (length found) < count -> length found = length free).
Proof.
  intros Hc free found. destruct (collectGPUs_spec m count (pi_GPUs pool) []) as (n & E & Hn). simpl in *.
  unfold found, findAvailableGPUs. rewrite E. fold free in Hn |- *. rewrite length_take. split; [|lia].
  rewrite take_take. destruct Hn as [Hn|Hn]; [|by rewrite Nat.min_l by lia].
  destruct (decide (Z.to_nat count <= n)%nat); [by rewrite Nat.min_l | by rewrite !take_ge by lia].
Qed.

Lemma grantLoop_spec now req ls (m : Manager) : NoDup ls -> (forall l, l ∈ ls -> is_Some (gm_heap m !! l)) ->
  exists m' infos, grantLoop now req ls m = (m', infos) /\
    gm_gpus m' = gm_gpus m /\ gm_pools m' = gm_pools m /\ gm_mig m' = gm_mig m /\ gm_mps m' = gm_mps m /\ gm_timeslice m' = gm_timeslice m /\
    (forall l g, gm_heap m !! l = Some g -> gm_heap m' !! l =
       Some (if decide (l ∈ ls) then with_allocations (fun al => al ++ [exclusiveAllocation now req g]) g else g)) /\
    infos = omap (fun l => (fun g => mkGPUAllocationInfo _ (gi_NodeName g) (gi_DeviceID g) "" (gi_TotalMemory g)) <$> gm_heap m !! l) ls.
Proof.
  revert m. induction ls as [|l ls IH]; intros m Hnd Hv; simpl.
  - exists m, []. split_and!; done.
  - apply NoDup_cons in Hnd as [Hl Hnd]. destruct (Hv l) as [g Hg]; [by left|]. rewrite Hg.
    set (f := with_allocations (fun al => al ++ [exclusiveAllocation now req g])).
    assert (Hne : forall l', l' <> l -> alter f l (gm_heap m) !! l' = gm_heap m !! l') by (intros; by apply list_lookup_alter_ne).
    destruct (IH (gmset_heap (alter f l (gm_heap m)) m) Hnd) as (m' & infos & -> & E1 & E2 & E3 & E4 & E5 & Hh & ->).
    { intros l' Hl'. simpl. rewrite Hne by (intros ->; done). apply Hv. by right. }
    eexists _, _. split; [reflexivity|]. split_and!; [done.. | |].
    + intros l' g' Hg'. destruct (decide (l' = l)) as [->|Hn].
      * rewrite (Hh l (f g)) by (simpl; by rewrite list_lookup_alter_eq, Hg). rewrite decide_False by done.
        rewrite decide_True by (by left). simplify_eq. done.
      * rewrite (Hh l' g') by (simpl; by rewrite Hne). f_equal. destruct (decide (l' ∈ ls)).
        -- by rewrite decide_True by (by right).
        -- rewrite decide_False; [done|]. rewrite elem_of_cons. tauto.
    + simpl. f_equal. apply list_omap_ext, Forall_Forall2_diag, Forall_forall. intros l' Hl'. by rewrite Hne by (intros ->; done).
Qed.

(** ** Registering a MIG pool *)
Lemma newPoolInfo_mode mode pool sh : has_mode mode pool = Some sh -> pi_SharingMode (newPoolInfo pool) = mode.
Proof.
  unfold has_mode, newPoolInfo. simpl. destruct (gps_Sharing (gp_Spec pool)) as [sh'|]; [|done].
  by destruct (bool_decide_reflect (gss_Mode sh' = mode)).
Qed.

Lemma RegisterPool_mig pool sh (m : Manager) : has_mode GPUSharingModeMIG pool = Some sh ->
  (forall p, p ∈ gss_Profiles sh -> Mig.migProfiles !! mps_Name p <> None) ->
  exists m', RegisterPool pool m = (m', Ok tt) /\ gm_pools m' !! pool_name pool = Some (newPoolInfo pool) /\
    Mig.mm_pools (gm_mig m') !! pool_name pool = Some (Mig.mkMIGPoolConfig (pool_name pool) (gss_Profiles sh) ∅) /\
    Mig.mm_heap (gm_mig m') = Mig.mm_heap (gm_mig m) /\ Mig.mm_instances (gm_mig m') = Mig.mm_instances (gm_mig m).
Proof.
  intros Hmode Hprof. unfold RegisterPool. cbv zeta.
  rewrite (bool_decide_eq_true_2 (pi_SharingMode (newPoolInfo pool) = _)) by (by eapply newPoolInfo_mode).
  unfold Mig.ConfigurePool. rewrite Hmode.
  destruct (list_find _ (gss_Profiles sh)) as [[i p]|] eqn:Ef.
  { exfalso. apply list_find_Some in Ef as (Hi & Hn & _). apply (Hprof p); [by eapply list_elem_of_lookup_2 | done]. }
  eexists. split; [reflexivity|]. simpl. split_and!; [apply lookup_insert_eq | apply lookup_insert_eq | done | done].
Qed.

Lemma Allocate_mig now seed req pool (m : Manager) : gm_pools m !! rq_PoolName req = Some pool -> rq_SharingMode req = GPUSharingModeMIG ->
  forall mig infos, Mig.Allocate (S seed) req (pi_Name pool) (gm_mig m) = Ret (mig, Ok infos) ->
  Allocate now seed req m = Ret (gmset_mig mig m, mkAllocationResult _ true infos None).
Proof.
  intros Hp Hmode mig infos Ha. unfold Allocate. rewrite Hp. unfold allocateFrom. rewrite Hmode, bool_decide_eq_true_2 by done.
  unfold via. by rewrite Ha.
Qed.
End facts.

(** * Properties *)
Section properties.
Context `{QO : QuantityOps} `{GR : GoRuntime} `{RS : RatioScanner}.

(** Nothing ever tells the manager of a device: in every state it reaches,
    no pool has one, and so every request for a device outside MIG, of any
    pool and mode, fails with an error. *)
Theorem gm_no_devices now seed (req : AllocationRequest) m m' r : rtc gmStep NewManager m ->
  rq_SharingMode req <> GPUSharingModeMIG -> 1 <= rq_GPUCount req -> Allocate now seed req m = Ret (m', r) ->
  exists e, r = mkAllocationResult _ false [] (Some e).
Proof. intros Hr%gm_reach_NoDevices Hmode Hc Ha. by eapply Allocate_no_devices in Ha as [_ Herr]; eauto. Qed.

(** C28. Exclusive allocation from a pool of different devices grants the first
    free ones, as many as asked for, each of which then has this service's
    allocation and no other, and touches nothing else; with too few free
    devices it reports how many there are and changes nothing. *)
Theorem gm_allocateExclusive now (req : AllocationRequest) pool m :
  NoDup (pi_GPUs pool) -> (forall l, l ∈ pi_GPUs pool -> is_Some (gm_heap m !! l)) -> 0 <= rq_GPUCount req ->
  let free := filter (unallocated m) (pi_GPUs pool) in
  if Z.of_nat (length free) <? rq_GPUCount req then
    allocateExclusive now req pool m = Ret (m, Err ("insufficient GPUs: requested " +:+ print_Z (rq_GPUCount req) +:+ ", available "
                                                    +:+ print_Z (Z.of_nat (length free))))
  else exists m' infos, allocateExclusive now req pool m = Ret (m', Ok infos) /\ Z.of_nat (length infos) = rq_GPUCount req /\
    (forall l g, gm_heap m !! l = Some g -> exists g', gm_heap m' !! l = Some g' /\
       if decide (l ∈ take (Z.to_nat (rq_GPUCount req)) free)
       then gi_Allocations g' = [exclusiveAllocation now req g] /\
         mkGPUAllocationInfo _ (gi_NodeName g) (gi_DeviceID g) "" (gi_TotalMemory g) ∈ infos
       else g' = g).
Proof.
  intros Hnd Hv Hc free. destruct (findAvailableGPUs_spec m pool (rq_GPUCount req) Hc) as (Htake & Hiff & Heq).
  fold free in Htake, Hiff, Heq. unfold allocateExclusive, make_cap.
  replace (rq_GPUCount req <? 0) with false by (symmetry; by apply Z.ltb_ge). cbn [mbind outcome_bind].
  destruct (Z.ltb_spec (Z.of_nat (length free)) (rq_GPUCount req)) as [Hlt|Hge].
  - apply Hiff in Hlt. rewrite (proj2 (Z.ltb_lt _ _) Hlt). by rewrite (Heq Hlt).
  - replace (Z.of_nat _ <? rq_GPUCount req) with false by (symmetry; apply Z.ltb_ge; lia). rewrite Htake.
    set (ls := take (Z.to_nat (rq_GPUCount req)) free).
    assert (Hin : forall l, l ∈ ls -> unallocated m l /\ l ∈ pi_GPUs pool).
    { intros l Hl. by apply subseteq_take, list_elem_of_filter in Hl. }
    destruct (grantLoop_spec now req ls m) as (m' & infos & -> & _ & _ & _ & _ & _ & Hh & Hinfos).
    { eapply sublist_NoDup; [exact Hnd|]. etrans; [apply sublist_take | apply sublist_filter]. }
    { intros l Hl. apply Hv. by apply Hin. }
    exists m', infos. split; [done|]. split.
    + rewrite Hinfos. assert (Hlen : length (omap (fun l => (fun g => mkGPUAllocationInfo _ (gi_NodeName g) (gi_DeviceID g) "" (gi_TotalMemory g)) <$> gm_heap m !! l) ls) = length ls).
      { clear -Hin Hv. induction ls as [|l ls IH]; [done|]. simpl. destruct (Hv l) as [g Hg]; [by apply Hin; left|]. rewrite Hg. simpl.
        f_equal. apply IH. intros l' Hl'. apply Hin. by right. }
      rewrite Hlen. unfold ls. rewrite length_take. lia.
    + intros l g Hg. eexists. split; [by apply Hh|]. destruct (decide (l ∈ ls)) as [Hl|]; [|done]. split.
      * destruct (Hin l Hl) as [Hu _]. unfold unallocated in Hu. rewrite Hg in Hu. simpl in *. injection Hu as ->. done.
      * rewrite Hinfos. apply list_elem_of_omap. exists l. split; [done|]. by rewrite Hg.
Qed.

(** Registering a MIG pool again, as every reconciliation does, forgets the
    pool's instances: the next allocation gets the identifier of an
    instance that an earlier one was given and still holds. *)
Theorem gm_reregister_duplicates now seedA seedB (reqA reqB : AllocationRequest) pool sh profile m :
  has_mode GPUSharingModeMIG pool = Some sh -> (forall p, p ∈ gss_Profiles sh -> Mig.migProfiles !! mps_Name p <> None) ->
  Mig.migProfiles !! rq_MIGProfile reqA = Some profile -> rq_MIGProfile reqB = rq_MIGProfile reqA ->
  rq_SharingMode reqA = GPUSharingModeMIG -> rq_SharingMode reqB = GPUSharingModeMIG ->
  rq_PoolName reqA = pool_name pool -> rq_PoolName reqB = pool_name pool -> rq_GPUCount reqA = 1 -> rq_GPUCount reqB = 1 ->
  let m0 := (RegisterPool pool m).1 in
  exists m1 m3 a b, Allocate now seedA reqA m0 = Ret (m1, mkAllocationResult _ true [a] None) /\
    Allocate now seedB reqB (RegisterPool pool m1).1 = Ret (m3, mkAllocationResult _ true [b] None) /\
    ga_MIGInstance a = ga_MIGInstance b.
Proof.
  intros Hmode Hprofs HprofA HB HmA HmB HpA HpB HcA HcB m0. unfold m0. clear m0.
  assert (Hgo : forall (req : AllocationRequest) seed mm, Mig.migProfiles !! rq_MIGProfile req = Some profile ->
    rq_SharingMode req = GPUSharingModeMIG -> rq_PoolName req = pool_name pool -> rq_GPUCount req = 1 ->
    exists m1 a, Allocate now seed req (RegisterPool pool mm).1 = Ret (m1, mkAllocationResult _ true [a] None) /\
      ga_MIGInstance a = Mig.instance_id (rq_MIGProfile req) 0).
  { intros req seed mm Hprof Hm Hp Hc. destruct (RegisterPool_mig pool sh mm Hmode Hprofs) as (m' & -> & Hpool & Hcfg & _). cbn [fst].
    destruct (MigProps.Allocate_new (S seed) req (pool_name pool) _ profile (gm_mig m') 0 Hcfg Hprof) as
      (c' & mm1 & mig & infos & Hcr & Ha & _ & Hlen & _ & Hid); [by rewrite Hc | intros id l i Hid; simpl in Hid; by rewrite lookup_empty in Hid |].
    destruct infos as [|a [|? ?]]; try done. exists (gmset_mig mig m'), a. split.
    - apply (Allocate_mig now seed req (newPoolInfo pool)); [by rewrite Hp | done | done].
    - specialize (Hid 0%nat ltac:(lia)). simpl in Hid, Hcr. injection Hcr as _ <-. rewrite Nat.add_0_r in Hid. simpl in Hid.
      rewrite lookup_app_r, Nat.sub_diag in Hid by lia. by injection Hid as ->. }
  destruct (Hgo reqA seedA m) as (m1 & a & HA & Ea); [done..|].
  destruct (Hgo reqB seedB m1) as (m3 & b & HB' & Eb); [by rewrite HB | done..|].
  exists m1, m3, a, b. split_and!; [done | done | by rewrite Ea, Eb, HB].
Qed.

(** [Release] only looks at the devices: what a service was granted in MIG
    mode stays granted, every instance still in use by it, and the MPS and
    time-slice managers are untouched as well. *)
Theorem gm_Release_keeps_mig now seed seed' (req : AllocationRequest) pool config profile m :
  rtc MigProps.migStep Mig.NewMIGManager (gm_mig m) -> gm_pools m !! rq_PoolName req = Some pool ->
  rq_SharingMode req = GPUSharingModeMIG -> Mig.mm_pools (gm_mig m) !! pi_Name pool = Some config ->
  Mig.migProfiles !! rq_MIGProfile req = Some profile -> 0 <= rq_GPUCount req ->
  exists m1 infos ls, Allocate now seed req m = Ret (m1, mkAllocationResult _ true infos None) /\
    let m2 := (Release seed' (rq_ServiceName req) (rq_Namespace req) m1).1 in
    MigProps.granted req (gm_mig m) (gm_mig m2) ls infos /\ gm_mps m2 = gm_mps m /\ gm_timeslice m2 = gm_timeslice m.
Proof.
  intros Hr Hp Hmode Hcfg Hprof Hc.
  destruct (MigProps.Allocate_granted (S seed) req (pi_Name pool) config profile (gm_mig m)) as (mig & infos & ls & Ha & Hg);
    [by apply MigProps.mig_reach_WF | done..|].
  exists (gmset_mig mig m), infos, ls. split; [by apply (Allocate_mig now seed req pool)|].
  assert (Hkeep : forall ls0 (mm : Manager),
    let m2 := fold_left (fun (m : Manager) '(_, l) => gmset_heap (alter (with_allocations (filter (not_of (rq_ServiceName req) (rq_Namespace req)))) l (gm_heap m)) m)
       (ls0 : list (string * loc)) mm in
    gm_mig m2 = gm_mig mm /\ gm_mps m2 = gm_mps mm /\ gm_timeslice m2 = gm_timeslice mm).
  { induction ls0 as [|[k l] ls0 IH]; intros mm; simpl; [done|]. destruct (IH (gmset_heap
      (alter (with_allocations (filter (not_of (rq_ServiceName req) (rq_Namespace req)))) l (gm_heap mm)) mm)) as (-> & -> & ->). done. }
  unfold Release. simpl. destruct (Hkeep (range seed' (gm_gpus m)) (gmset_mig mig m)) as (E1 & E2 & E3).
  rewrite E1, E2, E3. done.
Qed.
End properties.

(** * Witnesses *)
Section witnesses.
#[local] Existing Instance ZQuantity.
#[local] Existing Instance stdRuntime.
#[local] Instance noScanner : RatioScanner := {| Sscanf_f _ := None |}.

Definition gpool : GPUPool := example_pool "p" GPUSharingModeMIG [mkMIGProfileSpec "1g.5gb" 1] 0 0.
Definition greq (mode : GPUSharingMode) (service : string) (n : Z) : AllocationRequest :=
  mkAllocationRequest _ service "ns" "" n (0 : @Quantity ZQuantity) mode "1g.5gb" "p".
Definition gstart : Manager := (RegisterPool gpool NewManager).1.
Lemma gstart_reach : rtc gmStep NewManager gstart.
Proof. apply rtc_once, (gmStep_RegisterPool gpool). Qed.
Lemma gpool_mode : has_mode GPUSharingModeMIG gpool = Some (mkGPUSharingSpec _ GPUSharingModeMIG [mkMIGProfileSpec "1g.5gb" 1] 0 0 None).
Proof. reflexivity. Qed.
Lemma gpool_profiles p : p ∈ [mkMIGProfileSpec "1g.5gb" 1] -> Mig.migProfiles !! mps_Name p <> None.
Proof. intros ->%list_elem_of_singleton. vm_compute. discriminate. Qed.

Lemma gm_no_devices_witness : exists e,
  mkAllocationResult _ false [] (Some "MPS pool not found: p") = mkAllocationResult _ false [] (Some e).
Proof.
  apply (gm_no_devices 0 0 (greq GPUSharingModeMPS "x" 1) gstart gstart); [exact gstart_reach | discriminate.. | reflexivity].
Defined.

Definition gdevice (id : string) (al : list Allocation) : GPUInfo :=
  mkGPUInfo _ id id "" "n" (80 : @Quantity ZQuantity) 80 0 0 0 false [] al.
Definition gdevices : Manager := gmset_heap [gdevice "0" []; gdevice "1" []] NewManager.
Definition gpoolinfo : PoolInfo := mkPoolInfo "p" ∅ "" GPUSharingModeExclusive [] f64_one 2 2 [0%nat; 1%nat].
Lemma gm_allocateExclusive_witness :
  exists m' infos, allocateExclusive 7 (greq GPUSharingModeExclusive "x" 1) gpoolinfo gdevices = Ret (m', Ok infos) /\
    Z.of_nat (length infos) = 1.
Proof.
  destruct (gm_allocateExclusive 7 (greq GPUSharingModeExclusive "x" 1) gpoolinfo gdevices) as (m' & infos & Ha & Hl & _);
    [apply (NoDup_seq 0 2) | | discriminate |].
  - intros l Hl. apply lookup_lt_is_Some. change (l ∈ [0%nat; 1%nat]) in Hl. rewrite !elem_of_cons in Hl. cbn [length gm_heap gdevices gmset_heap]. destruct Hl as [->|[->|Hl%elem_of_nil]]; [lia | lia | done].
  - exact (ex_intro _ m' (ex_intro _ infos (conj Ha Hl))).
Defined.

Lemma gm_reregister_duplicates_witness : exists m1 m3 a b,
  Allocate 0 0 (greq GPUSharingModeMIG "x" 1) gstart = Ret (m1, mkAllocationResult _ true [a] None) /\
  Allocate 0 0 (greq GPUSharingModeMIG "y" 1) (RegisterPool gpool m1).1 = Ret (m3, mkAllocationResult _ true [b] None) /\
  ga_MIGInstance a = ga_MIGInstance b.
Proof.
  exact (gm_reregister_duplicates 0 0 0 (greq GPUSharingModeMIG "x" 1) (greq GPUSharingModeMIG "y" 1) gpool _ MigProps.mprof NewManager
    gpool_mode gpool_profiles MigProps.mprof_known eq_refl eq_refl eq_refl eq_refl eq_refl eq_refl eq_refl).
Defined.

Lemma gm_Release_keeps_mig_witness : exists m1 infos,
  Allocate 0 0 (greq GPUSharingModeMIG "x" 1) gstart = Ret (m1, mkAllocationResult _ true infos None).
Proof.
  destruct (gm_Release_keeps_mig 0 0 0 (greq GPUSharingModeMIG "x" 1) (newPoolInfo gpool)
    (Mig.mkMIGPoolConfig "p" [mkMIGProfileSpec "1g.5gb" 1] ∅) MigProps.mprof gstart) as (m1 & infos & _ & Ha & _);
    [apply rtc_once, (MigProps.migStep_ConfigurePool gpool) | reflexivity | reflexivity | reflexivity | exact MigProps.mprof_known | discriminate |].
  exact (ex_intro _ m1 (ex_intro _ infos Ha)).
Defined.
End witnesses.
