(* ===== verification/ServiceApi.v ===== *)
(** The InferenceService of api/v1alpha1/inferenceservice_types.go, with the
    Kubernetes types that its fields and the backends use. *)
From S2P Require Import Prelude GoFloat Api.
Local Open Scope Z_scope.

(** Kubernetes data that the operator passes on without looking inside, and
    the fields of an object that it never writes. *)
Class CoreTypes := {
  Toleration : Type;
  OwnerReference : Type;
  Unwritten : Type;
  Unwritten_zero : Unwritten;
}.

(** * Fields of core/v1 that the operator reads or writes *)
Record LocalObjectReference := mkLocalObjectReference { lor_Name : string }.
(** A [ResourceList] is a map; a nil one is empty. *)
Record ResourceRequirements `{QuantityOps} := mkResourceRequirements {
  rr_Limits : gmap string Quantity;
  rr_Requests : gmap string Quantity;
}.

(** * inferenceservice_types.go *)
Definition BackendType : Type := string.
Definition BackendTypeVLLM : BackendType := "vllm".
Definition BackendTypeTriton : BackendType := "triton".
Definition BackendTypeTensorRT : BackendType := "tensorrt".

Definition CacheStrategy : Type := string.
Definition CacheStrategyHybrid : CacheStrategy := "hybrid".
Definition CacheStrategyPrefix : CacheStrategy := "prefix".
Definition CacheStrategyDistributed : CacheStrategy := "distributed".
Definition CacheStrategyLocal : CacheStrategy := "local".
Definition CacheStrategyNone : CacheStrategy := "none".

Definition ModelSource : Type := string.
Definition ModelSourceHuggingFace : ModelSource := "huggingface".
Definition ModelSourceS3 : ModelSource := "s3".
Definition ModelSourceGCS : ModelSource := "gcs".
Definition ModelSourcePVC : ModelSource := "pvc".
Definition ModelSourceLocal : ModelSource := "local".

Record ModelSpec := mkModelSpec {
  md_Name : string;
  md_Source : ModelSource;
  md_Revision : string;
  md_SecretRef : option LocalObjectReference;
  md_StoragePath : string;
}.

Record GPUSpec `{QuantityOps} := mkGPUSpec {
  gs_Type : string;
  gs_Count : Z;
  gs_Sharing : GPUSharingMode;
  gs_MIGProfile : string;
  gs_Memory : option Quantity;
  gs_GPUPoolRef : option LocalObjectReference;
}.

Record CacheSpec `{QuantityOps} := mkCacheSpec {
  cs_Enabled : bool;
  cs_Strategy : CacheStrategy;
  cs_PrefixCacheSize : option Quantity;
  cs_TokenCacheRef : option LocalObjectReference;
  cs_TTL : option Z;
}.

Record AutoscalingMetric := mkAutoscalingMetric {
  am_Type : string;
  am_Target : Z;
}.

Record AutoscalingSpec := mkAutoscalingSpec {
  as_MinReplicas : Z;
  as_MaxReplicas : Z;
  as_Metrics : list AutoscalingMetric;
  as_ScaleDownStabilizationSeconds : Z;
  as_ScaleUpStabilizationSeconds : Z;
}.

Record BackendConfig := mkBackendConfig {
  bc_MaxBatchSize : Z;
  bc_MaxSeqLen : Z;
  bc_TensorParallelism : Z;
  bc_PipelineParallelism : Z;
  bc_Quantization : string;
  bc_ExtraArgs : gmap string string;
}.

Record InferenceServiceSpec `{QuantityOps} `{CoreTypes} := mkInferenceServiceSpec {
  iss_Model : ModelSpec;
  iss_Backend : BackendType;
  iss_BackendConfig : option BackendConfig;
  iss_Replicas : Z;
  iss_GPU : GPUSpec;
  iss_Cache : option CacheSpec;
  iss_Autoscaling : option AutoscalingSpec;
  iss_Resources : option ResourceRequirements;
  iss_NodeSelector : gmap string string;
  iss_Tolerations : list Toleration;
  iss_ServiceAccountName : string;
  iss_ImagePullSecrets : list LocalObjectReference;
}.

Definition InferenceServicePhase : Type := string.
Definition InferenceServicePhasePending : InferenceServicePhase := "Pending".
Definition InferenceServicePhaseInitializing : InferenceServicePhase := "Initializing".
Definition InferenceServicePhaseRunning : InferenceServicePhase := "Running".
Definition InferenceServicePhaseScaling : InferenceServicePhase := "Scaling".
Definition InferenceServicePhaseFailed : InferenceServicePhase := "Failed".
Definition InferenceServicePhaseTerminating : InferenceServicePhase := "Terminating".

Record GPUAllocation `{QuantityOps} := mkGPUAllocation {
  gal_NodeName : string;
  gal_DeviceID : string;
  gal_MIGInstance : string;
  gal_MemoryAllocated : Quantity;
  gal_Utilization : Z;
}.

Record CacheStatus `{QuantityOps} := mkCacheStatus {
  cst_HitRate : float64;
  cst_Size : Quantity;
  cst_Entries : Z;
}.

Record InferenceServiceStatus `{QuantityOps} := mkInferenceServiceStatus {
  ist_Phase : InferenceServicePhase;
  ist_ReadyReplicas : Z;
  ist_AvailableReplicas : Z;
  ist_URL : string;
  ist_GPUAllocations : list GPUAllocation;
  ist_CacheStatus : option CacheStatus;
  ist_Conditions : list Condition;
  ist_LastScaleTime : option Z;
  ist_ObservedGeneration : Z;
}.

Record InferenceService `{QuantityOps} `{CoreTypes} := mkInferenceService {
  is_ObjectMeta : ObjectMeta;
  is_Spec : InferenceServiceSpec;
  is_Status : InferenceServiceStatus;
}.

Section accessors.
Context `{QuantityOps} `{CoreTypes}.
Implicit Type svc : InferenceService.

Definition svc_Name svc : string := om_Name (is_ObjectMeta svc).
Definition svc_Namespace svc : string := om_Namespace (is_ObjectMeta svc).
Definition svc_Model svc : ModelSpec := iss_Model (is_Spec svc).
Definition svc_GPU svc : GPUSpec := iss_GPU (is_Spec svc).
(** A field of the backend's configuration when it is there and positive. *)
Definition config_positive (field : BackendConfig -> Z) (above : Z) svc : option Z :=
  match iss_BackendConfig (is_Spec svc) with
  | Some c => if above <? field c then Some (field c) else None
  | None => None
  end.
Definition svc_Quantization svc : option string :=
  match iss_BackendConfig (is_Spec svc) with
  | Some c => if decide (bc_Quantization c = "") then None else Some (bc_Quantization c)
  | None => None
  end.
Definition svc_ExtraArgs svc : gmap string string :=
  match iss_BackendConfig (is_Spec svc) with Some c => bc_ExtraArgs c | None => ∅ end.
End accessors.

(** * A concrete [CoreTypes] and services to evaluate with *)
Definition textTypes : CoreTypes :=
  {| Toleration := string; OwnerReference := string; Unwritten := bool; Unwritten_zero := false |}.

Definition example_service `{QuantityOps} `{CoreTypes} (name : string) (model : string) (backend : BackendType)
    (gpus : Z) (config : option BackendConfig) : InferenceService :=
  mkInferenceService _ _ (mkObjectMeta name "default" 1 None ["inference.ai/finalizer"])
    (mkInferenceServiceSpec _ _ (mkModelSpec model ModelSourceHuggingFace "" None "") backend config 1
       (mkGPUSpec _ "" gpus GPUSharingModeExclusive "" None None) None None None ∅ [] "" [])
    (mkInferenceServiceStatus _ "" 0 0 "" [] None [] None 0).
