(* ===== verification/Backend.v ===== *)
(** internal/backends/interface.go: what a backend is, the deployment and
    service it describes, and the factory of backends. *)
From S2P Require Import Prelude GoFloat Api ServiceApi.
From Stdlib Require Import Ascii.
Local Open Scope Z_scope.

(** * Fields of core/v1 that the backends write *)
Record SecretKeySelector := mkSecretKeySelector {
  sks_Ref : LocalObjectReference;
  sks_Key : string;
}.
Record EnvVar := mkEnvVar {
  ev_Name : string;
  ev_Value : string;
  ev_ValueFrom : option SecretKeySelector;
}.
Definition ProtocolTCP : string := "TCP".
Record ContainerPort := mkContainerPort {
  cp_Name : string;
  cp_ContainerPort : Z;
  cp_Protocol : string;
}.
#[export] Instance ContainerPort_eq_dec : EqDecision ContainerPort.
Proof. solve_decision. Defined.
(** [ProbeHandler] is a struct of pointers, of which one is set. *)
Inductive ProbeHandler :=
| HTTPGet (path : string) (port : Z)
| TCPSocket (port : Z).
Definition handler_Port (h : ProbeHandler) : Z := match h with HTTPGet _ port | TCPSocket port => port end.
Record Probe := mkProbe {
  prb_Handler : ProbeHandler;
  prb_InitialDelaySeconds : Z;
  prb_PeriodSeconds : Z;
  prb_TimeoutSeconds : Z;
  prb_FailureThreshold : Z;
}.
Definition StorageMediumDefault : string := "".
Definition StorageMediumMemory : string := "Memory".
(** A volume on an empty directory. *)
Record Volume `{QuantityOps} := mkVolume {
  vol_Name : string;
  vol_Medium : string;
  vol_SizeLimit : option Quantity;
}.
Record VolumeMount := mkVolumeMount {
  vm_Name : string;
  vm_MountPath : string;
}.
Record Container `{QuantityOps} := mkContainer {
  ct_Name : string;
  ct_Image : string;
  ct_Command : list string;
  ct_Args : list string;
  ct_Env : list EnvVar;
  ct_Ports : list ContainerPort;
  ct_Resources : ResourceRequirements;
  ct_VolumeMounts : list VolumeMount;
  ct_ReadinessProbe : option Probe;
  ct_LivenessProbe : option Probe;
  ct_StartupProbe : option Probe;
}.
Record PodSecurityContext := mkPodSecurityContext {
  psc_RunAsUser : Z;
  psc_RunAsGroup : Z;
}.
Record ServicePort := mkServicePort {
  sp_Name : string;
  sp_Port : Z;
  sp_TargetPort : Z;
  sp_Protocol : string;
}.

(** * interface.go *)
Record DeploymentSpec `{QuantityOps} `{CoreTypes} := mkDeploymentSpec {
  ds_Name : string;
  ds_Namespace : string;
  ds_Image : string;
  ds_Command : list string;
  ds_Args : list string;
  ds_Env : list EnvVar;
  ds_Ports : list ContainerPort;
  ds_Resources : ResourceRequirements;
  ds_VolumeMounts : list VolumeMount;
  ds_Volumes : list Volume;
  ds_NodeSelector : gmap string string;
  ds_Tolerations : list Toleration;
  ds_Replicas : Z;
  ds_Labels : gmap string string;
  ds_Annotations : gmap string string;
  ds_ServiceAccountName : string;
  ds_InitContainers : list Container;
  ds_ReadinessProbe : option Probe;
  ds_LivenessProbe : option Probe;
  ds_StartupProbe : option Probe;
  ds_SecurityContext : option PodSecurityContext;
}.

Record ServiceSpec := mkServiceSpec {
  ss_Name : string;
  ss_Namespace : string;
  ss_Type : string;
  ss_Ports : list ServicePort;
  ss_Selector : gmap string string;
  ss_Labels : gmap string string;
  ss_Annotations : gmap string string;
}.

Record HealthStatus := mkHealthStatus {
  hs_Healthy : bool;
  hs_Ready : bool;
  hs_Message : string;
  hs_LastChecked : Z;
  hs_ModelLoaded : bool;
  hs_GPUAvailable : bool;
  hs_Details : gmap string string;
}.

Record BackendMetrics `{QuantityOps} := mkBackendMetrics {
  bm_RequestsTotal : Z;
  bm_RequestsPerSecond : float64;
  bm_AverageLatency : Z;
  bm_P50Latency : Z;
  bm_P90Latency : Z;
  bm_P99Latency : Z;
  bm_QueueDepth : Z;
  bm_BatchSize : float64;
  bm_TokensPerSecond : float64;
  bm_GPUUtilization : float64;
  bm_GPUMemoryUsed : Quantity;
  bm_GPUMemoryTotal : Quantity;
  bm_CacheHitRate : float64;
  bm_ActiveRequests : Z;
  bm_PendingRequests : Z;
  bm_Errors : Z;
  bm_Custom : gmap string float64;
}.

(** * Text of the scripts: a line break, and a text in which every backquote
    stands for a double quote (the scripts have no backquote of their own). *)
Definition newline : string := String "010"%char "".
Definition double_quote : Ascii.ascii := "034"%char.
Fixpoint quoted (s : string) : string :=
  match s with
  | "" => ""
  | String c s' => String (if decide (c = "`"%char) then double_quote else c) (quoted s')
  end%string.

Definition unlines (l : list string) : string := foldr (fun line rest => line +:+ newline +:+ rest) "" l.

(** * HTTP requests: what [http.Client.Do] and [io.ReadAll] came back with *)
Inductive http_reply :=
| BadURL (e : error)
| NoReply (e : error)
| Reply (status : Z) (body : result bytes).

(** The metrics both parsers return: the body is read and dropped. *)
Definition emptyMetrics `{QuantityOps} : BackendMetrics :=
  mkBackendMetrics _ 0 f64_zero 0 0 0 0 0 f64_zero f64_zero f64_zero Quantity_zero Quantity_zero f64_zero 0 0 0 ∅.

(** The interface: [GenerateDeployment] takes the seed of its map loops, and
    requests go through a network that answers URLs. *)
Record Backend `{QuantityOps} `{CoreTypes} := mkBackend {
  bk_Name : string;
  bk_Type : BackendType;
  bk_Version : string;
  bk_GenerateDeployment : nat -> InferenceService -> result DeploymentSpec;
  bk_GenerateService : InferenceService -> result ServiceSpec;
  bk_HealthCheck : Z -> (string -> http_reply) -> string -> result HealthStatus;
  bk_GetMetrics : (string -> http_reply) -> string -> result BackendMetrics;
  bk_Scale : string -> Z -> result unit;
  bk_Configure : string -> gmap string string -> result unit;
  bk_Validate : InferenceService -> result unit;
}.

Section operations.
Context `{QuantityOps} `{CoreTypes} `{GoRuntime}.

(** * The factory *)
Definition BackendFactory : Type := gmap BackendType Backend.
Definition NewBackendFactory : BackendFactory := ∅.
Definition Register (backend : Backend) (f : BackendFactory) : BackendFactory := <[bk_Type backend := backend]> f.
Definition Get (backendType : BackendType) (f : BackendFactory) : option Backend := f !! backendType.
Definition List (seed : nat) (f : BackendFactory) : list Backend := (range seed f).*2.

(** * Code that the three backends share word for word *)
Definition plainEnv (name value : string) : EnvVar := mkEnvVar name value None.
(** The HuggingFace token, if a secret is named. *)
Definition tokenEnv (service : InferenceService) : list EnvVar :=
  match md_SecretRef (svc_Model service) with
  | Some ref => [mkEnvVar "HF_TOKEN" "" (Some (mkSecretKeySelector ref "token"))]
  | None => []
  end.
(** The copies of the service's limits and requests over those of the GPUs,
    or the defaults for CPU and memory. *)
Definition overlayResources (service : InferenceService) (gpus : gmap string Quantity)
    (cpuLimit memLimit cpuRequest memRequest : string) : ResourceRequirements :=
  match iss_Resources (is_Spec service) with
  | Some r => mkResourceRequirements _ (rr_Limits r ∪ gpus) (rr_Requests r ∪ gpus)
  | None =>
      mkResourceRequirements _ (<["memory" := MustParse memLimit]> (<["cpu" := MustParse cpuLimit]> gpus))
        (<["memory" := MustParse memRequest]> (<["cpu" := MustParse cpuRequest]> gpus))
  end.
(** The check on tensor parallelism of the backends that need GPUs. *)
Definition checkTensorParallelism (service : InferenceService) : result unit :=
  match config_positive bc_TensorParallelism 0 service with
  | Some tp =>
      let count := gs_Count (svc_GPU service) in
      if count <? tp
      then Err ("tensor parallelism (" +:+ print_Z tp +:+ ") cannot exceed GPU count (" +:+ print_Z count +:+ ")")
      else Ok tt
  | None => Ok tt
  end.
Definition endpointURL (endpoint path : string) : string := "http://" +:+ endpoint +:+ path.
Definition gpuResource (service : InferenceService) : gmap string Quantity :=
  {["nvidia.com/gpu" := NewQuantity (gs_Count (svc_GPU service)) DecimalSI]}.
Definition deploymentLabels (service : InferenceService) (backend : string) : gmap string string :=
  <["app.kubernetes.io/name" := svc_Name service]> (<["app.kubernetes.io/component" := "inference"]>
    (<["app.kubernetes.io/managed-by" := "inference-operator"]> {["inference.ai/backend" := backend]})).
Definition clusterService (service : InferenceService) (ports : list ServicePort) : ServiceSpec :=
  mkServiceSpec (svc_Name service) (svc_Namespace service) "ClusterIP" ports
    {["app.kubernetes.io/name" := svc_Name service]}
    (<["app.kubernetes.io/name" := svc_Name service]> {["app.kubernetes.io/managed-by" := "inference-operator"]}) ∅.
Definition httpHealth (now : Z) (reply : http_reply) : result HealthStatus :=
  match reply with
  | BadURL e => Err ("failed to create request: " +:+ e)
  | NoReply e => Ok (mkHealthStatus false false e now false false ∅)
  | Reply status _ =>
      let healthy := status =? 200 in
      Ok (mkHealthStatus healthy healthy ("HTTP " +:+ print_Z status) now healthy healthy ∅)
  end.
Definition httpMetrics (reply : http_reply) : result BackendMetrics :=
  match reply with
  | BadURL e => Err ("failed to create request: " +:+ e)
  | NoReply e => Err ("failed to fetch metrics: " +:+ e)
  | Reply _ (Err e) => Err ("failed to read response: " +:+ e)
  | Reply _ (Ok _) => Ok emptyMetrics
  end.
End operations.
