(* ===== verification/Vllm.v ===== *)
(** The vLLM backend (internal/backends/vllm.go). *)
From S2P Require Import Prelude GoFloat Api ServiceApi Backend.
Local Open Scope Z_scope.

Definition vllmDefaultImage : string := "vllm/vllm-openai:latest".
Definition vllmAPIPort : Z := 8000.
Definition vllmMetricsPort : Z := 9090.
Definition vllmHealthEndpoint : string := "/health".
Definition vllmMetricsEndpoint : string := "/metrics".

Section vllm.
Context `{QuantityOps} `{CoreTypes} `{GoRuntime}.
Implicit Type service : InferenceService.

Definition Name : string := "vllm".
Definition Type_ : BackendType := BackendTypeVLLM.
Definition Version : string := "0.4.0".

Definition Validate service : result unit :=
  if decide (md_Name (svc_Model service) = "") then Err "model name is required"
  else if gs_Count (svc_GPU service) <? 1 then Err "at least 1 GPU is required"
  else checkTensorParallelism service.

(** The fixed head of the arguments, before those of the user. *)
Definition baseArgs service : list string :=
  ["--model"; md_Name (svc_Model service); "--host"; "0.0.0.0"; "--port"; print_Z vllmAPIPort] ++
  ["--tensor-parallel-size"; print_Z (default 1 (config_positive bc_TensorParallelism 0 service))] ++
  match config_positive bc_PipelineParallelism 1 service with
  | Some pp => ["--pipeline-parallel-size"; print_Z pp]
  | None => []
  end ++
  match config_positive bc_MaxSeqLen 0 service with
  | Some len => ["--max-model-len"; print_Z len]
  | None => []
  end ++
  match svc_Quantization service with
  | Some q => ["--quantization"; q]
  | None => []
  end ++
  match iss_Cache (is_Spec service) with
  | Some c => if cs_Enabled c then ["--enable-prefix-caching"] else []
  | None => []
  end.

(** The flag and its value are two arguments. *)
Definition flagArgs (kv : string * string) : list string := ["--" +:+ kv.1; kv.2].
Definition buildArgs (seed : nat) service : list string :=
  baseArgs service ++ (range seed (svc_ExtraArgs service) ≫= flagArgs).

Definition buildEnv service : list EnvVar :=
  [plainEnv "VLLM_USAGE_STATS" "0"] ++ tokenEnv service ++
  (if decide (gs_Sharing (svc_GPU service) = GPUSharingModeMIG)
   then [plainEnv "CUDA_MPS_PIPE_DIRECTORY" "/tmp/nvidia-mps"] else []).

Definition buildResources service : ResourceRequirements :=
  overlayResources service (gpuResource service) "8" "32Gi" "4" "16Gi".

Definition GenerateDeployment (seed : nat) service : result DeploymentSpec :=
  match Validate service with
  | Err e => Err e
  | Ok _ => Ok {|
      ds_Name := svc_Name service;
      ds_Namespace := svc_Namespace service;
      ds_Image := vllmDefaultImage;
      ds_Command := [];
      ds_Args := buildArgs seed service;
      ds_Env := buildEnv service;
      ds_Ports := [mkContainerPort "http" vllmAPIPort ProtocolTCP; mkContainerPort "metrics" vllmMetricsPort ProtocolTCP];
      ds_Resources := buildResources service;
      ds_VolumeMounts := [mkVolumeMount "model-cache" "/root/.cache/huggingface"; mkVolumeMount "shm" "/dev/shm"];
      ds_Volumes := [mkVolume _ "model-cache" StorageMediumDefault None;
        mkVolume _ "shm" StorageMediumMemory (Some (NewQuantity (10*1024*1024*1024) BinarySI))];
      ds_NodeSelector := iss_NodeSelector (is_Spec service);
      ds_Tolerations := iss_Tolerations (is_Spec service);
      ds_Replicas := iss_Replicas (is_Spec service);
      ds_Labels := deploymentLabels service "vllm";
      ds_Annotations := {["inference.ai/model" := md_Name (svc_Model service)]};
      ds_ServiceAccountName := iss_ServiceAccountName (is_Spec service);
      ds_InitContainers := [];
      ds_ReadinessProbe := Some (mkProbe (HTTPGet vllmHealthEndpoint vllmAPIPort) 30 10 5 3);
      ds_LivenessProbe := Some (mkProbe (HTTPGet vllmHealthEndpoint vllmAPIPort) 60 30 10 3);
      ds_StartupProbe := Some (mkProbe (HTTPGet vllmHealthEndpoint vllmAPIPort) 10 10 5 60);
      ds_SecurityContext := None;
    |}
  end.

Definition GenerateService service : result ServiceSpec :=
  Ok (clusterService service
    [mkServicePort "http" 80 vllmAPIPort ProtocolTCP; mkServicePort "metrics" 9090 vllmMetricsPort ProtocolTCP]).

Definition HealthCheck (now : Z) (net : string -> http_reply) (endpoint : string) : result HealthStatus :=
  httpHealth now (net (endpointURL endpoint vllmHealthEndpoint)).
Definition GetMetrics (net : string -> http_reply) (endpoint : string) : result BackendMetrics :=
  httpMetrics (net (endpointURL endpoint vllmMetricsEndpoint)).
Definition Scale (endpoint : string) (replicas : Z) : result unit := Ok tt.
Definition Configure (endpoint : string) (config : gmap string string) : result unit := Ok tt.

Definition VLLMBackend : Backend := {|
  bk_Name := Name; bk_Type := Type_; bk_Version := Version;
  bk_GenerateDeployment := GenerateDeployment; bk_GenerateService := GenerateService;
  bk_HealthCheck := HealthCheck; bk_GetMetrics := GetMetrics;
  bk_Scale := Scale; bk_Configure := Configure; bk_Validate := Validate;
|}.
End vllm.
