(* ===== verification/Triton.v ===== *)
(** The Triton backend (internal/backends/triton.go). *)
From S2P Require Import Prelude GoFloat Api ServiceApi Backend.
Local Open Scope Z_scope.

Definition tritonDefaultImage : string := "nvcr.io/nvidia/tritonserver:24.01-py3".
Definition tritonHTTPPort : Z := 8000.
Definition tritonGRPCPort : Z := 8001.
Definition tritonMetricsPort : Z := 8002.
Definition tritonHealthEndpoint : string := "/v2/health/ready".
Definition tritonMetricsEndpoint : string := "/metrics".

Section triton.
Context `{QuantityOps} `{CoreTypes} `{GoRuntime}.
Implicit Type service : InferenceService.

Definition Name : string := "triton".
Definition Type_ : BackendType := BackendTypeTriton.
Definition Version : string := "24.01".

Definition Validate service : result unit :=
  if decide (md_Name (svc_Model service) = "") then Err "model name is required" else Ok tt.

(** The arguments before those of the user. *)
Definition baseArgs service : list string :=
  ["--model-repository=/models"; "--http-port=" +:+ print_Z tritonHTTPPort; "--grpc-port=" +:+ print_Z tritonGRPCPort;
   "--metrics-port=" +:+ print_Z tritonMetricsPort; "--allow-http=true"; "--allow-grpc=true"; "--allow-metrics=true"] ++
  ["--model-control-mode=explicit"] ++
  (if 0 <? gs_Count (svc_GPU service) then ["--cuda-memory-pool-byte-size=0:4294967296"] else []).
(** The flag and its value are one argument. *)
Definition flagArg (kv : string * string) : string := "--" +:+ kv.1 +:+ "=" +:+ kv.2.
Definition buildArgs (seed : nat) service : list string :=
  baseArgs service ++ (flagArg <$> range seed (svc_ExtraArgs service)).

Definition buildEnv service : list EnvVar := [plainEnv "TRITON_SERVER_CPU_ONLY" "0"] ++ tokenEnv service.

Definition buildResources service : ResourceRequirements :=
  overlayResources service (if 0 <? gs_Count (svc_GPU service) then gpuResource service else ∅) "8" "32Gi" "4" "16Gi".

Definition getMaxBatchSize service : Z := default 32 (config_positive bc_MaxBatchSize 0 service).

Definition generateModelLoaderScript service : string :=
  unlines (
    ["";
      "import os";
      "import shutil";
      ""] ++
    ["model_name = '" +:+ md_Name (svc_Model service) +:+ "'"] ++
    map quoted ["model_path = '/models/' + model_name.replace('/', '_')";
      "";
      "os.makedirs(model_path + '/1', exist_ok=True)";
      "";
      "# Create config.pbtxt for the model";
      "config = '''";
      "name: `{name}`";
      "backend: `python`";
      "max_batch_size: {batch_size}";
      "input [";
      "  {{";
      "    name: `prompt`";
      "    data_type: TYPE_STRING";
      "    dims: [ 1 ]";
      "  }}";
      "]";
      "output [";
      "  {{";
      "    name: `generated_text`";
      "    data_type: TYPE_STRING";
      "    dims: [ 1 ]";
      "  }}";
      "]";
      "instance_group [";
      "  {{";
      "    count: 1";
      "    kind: KIND_GPU";
      "  }}";
      "]"] ++
    ["'''.format(name=model_name.replace('/', '_'), batch_size=" +:+ print_Z (getMaxBatchSize service) +:+ ")"] ++
    ["";
      "with open(model_path + '/config.pbtxt', 'w') as f:";
      "    f.write(config)";
      "";
      "print(f'Model config created at {model_path}')"]).

Definition modelLoader service : Container := {|
  ct_Name := "model-loader";
  ct_Image := "python:3.10-slim";
  ct_Command := ["python"; "-c"; generateModelLoaderScript service];
  ct_Args := [];
  ct_Env := buildEnv service;
  ct_Ports := [];
  ct_Resources := mkResourceRequirements _ ∅ ∅;
  ct_VolumeMounts := [mkVolumeMount "model-repository" "/models"];
  ct_ReadinessProbe := None;
  ct_LivenessProbe := None;
  ct_StartupProbe := None;
|}.

Definition GenerateDeployment (seed : nat) service : result DeploymentSpec :=
  match Validate service with
  | Err e => Err e
  | Ok _ => Ok {|
      ds_Name := svc_Name service;
      ds_Namespace := svc_Namespace service;
      ds_Image := tritonDefaultImage;
      ds_Command := ["tritonserver"];
      ds_Args := buildArgs seed service;
      ds_Env := buildEnv service;
      ds_Ports := [mkContainerPort "http" tritonHTTPPort ProtocolTCP; mkContainerPort "grpc" tritonGRPCPort ProtocolTCP;
        mkContainerPort "metrics" tritonMetricsPort ProtocolTCP];
      ds_Resources := buildResources service;
      ds_VolumeMounts := [mkVolumeMount "model-repository" "/models"; mkVolumeMount "shm" "/dev/shm"];
      ds_Volumes := [mkVolume _ "model-repository" StorageMediumDefault None;
        mkVolume _ "shm" StorageMediumMemory (Some (NewQuantity (10*1024*1024*1024) BinarySI))];
      ds_NodeSelector := iss_NodeSelector (is_Spec service);
      ds_Tolerations := iss_Tolerations (is_Spec service);
      ds_Replicas := iss_Replicas (is_Spec service);
      ds_Labels := deploymentLabels service "triton";
      ds_Annotations := {["inference.ai/model" := md_Name (svc_Model service)]};
      ds_ServiceAccountName := iss_ServiceAccountName (is_Spec service);
      ds_InitContainers := [modelLoader service];
      ds_ReadinessProbe := Some (mkProbe (HTTPGet tritonHealthEndpoint tritonHTTPPort) 30 10 5 3);
      ds_LivenessProbe := Some (mkProbe (HTTPGet "/v2/health/live" tritonHTTPPort) 60 30 10 3);
      ds_StartupProbe := Some (mkProbe (HTTPGet tritonHealthEndpoint tritonHTTPPort) 10 10 5 60);
      ds_SecurityContext := None;
    |}
  end.

Definition GenerateService service : result ServiceSpec :=
  Ok (clusterService service
    [mkServicePort "http" 80 tritonHTTPPort ProtocolTCP; mkServicePort "grpc" 8001 tritonGRPCPort ProtocolTCP;
     mkServicePort "metrics" 9090 tritonMetricsPort ProtocolTCP]).

Definition HealthCheck (now : Z) (net : string -> http_reply) (endpoint : string) : result HealthStatus :=
  httpHealth now (net (endpointURL endpoint tritonHealthEndpoint)).
Definition GetMetrics (net : string -> http_reply) (endpoint : string) : result BackendMetrics :=
  httpMetrics (net (endpointURL endpoint tritonMetricsEndpoint)).
Definition Scale (endpoint : string) (replicas : Z) : result unit := Ok tt.
Definition Configure (endpoint : string) (config : gmap string string) : result unit := Ok tt.

Definition TritonBackend : Backend := {|
  bk_Name := Name; bk_Type := Type_; bk_Version := Version;
  bk_GenerateDeployment := GenerateDeployment; bk_GenerateService := GenerateService;
  bk_HealthCheck := HealthCheck; bk_GetMetrics := GetMetrics;
  bk_Scale := Scale; bk_Configure := Configure; bk_Validate := Validate;
|}.
End triton.
