(* ===== verification/TensorRT.v ===== *)
(** The TensorRT-LLM backend (internal/backends/tensorrt.go). *)
From S2P Require Import Prelude GoFloat Api ServiceApi Backend.
Local Open Scope Z_scope.

Definition tensorrtDefaultImage : string := "nvcr.io/nvidia/tritonserver:24.01-trtllm-python-py3".
Definition tensorrtHTTPPort : Z := 8000.
Definition tensorrtGRPCPort : Z := 8001.
Definition tensorrtMetricsPort : Z := 8002.
Definition tensorrtHealthEndpoint : string := "/v2/health/ready".
Definition tensorrtMetricsEndpoint : string := "/metrics".

Section tensorrt.
Context `{QuantityOps} `{CoreTypes}.
Implicit Type service : InferenceService.

Definition Name : string := "tensorrt-llm".
Definition Type_ : BackendType := BackendTypeTensorRT.
Definition Version : string := "0.8.0".

Definition Validate service : result unit :=
  if decide (md_Name (svc_Model service) = "") then Err "model name is required"
  else if gs_Count (svc_GPU service) <? 1 then Err "at least 1 GPU is required for TensorRT-LLM"
  else checkTensorParallelism service.

Definition buildArgs service : list string :=
  ["-m"; "tensorrt_llm_triton_backend.server"; "--model-repository=/engines";
   "--http-port=" +:+ print_Z tensorrtHTTPPort; "--grpc-port=" +:+ print_Z tensorrtGRPCPort;
   "--metrics-port=" +:+ print_Z tensorrtMetricsPort].

Definition buildEnv service : list EnvVar :=
  [plainEnv "CUDA_VISIBLE_DEVICES" "all"; plainEnv "NCCL_DEBUG" "WARN"] ++ tokenEnv service ++
  [plainEnv "TENSOR_PARALLEL_SIZE" (print_Z (default 1 (config_positive bc_TensorParallelism 0 service)))] ++
  [plainEnv "PIPELINE_PARALLEL_SIZE" (print_Z (default 1 (config_positive bc_PipelineParallelism 0 service)))].

Definition buildResources service : ResourceRequirements :=
  overlayResources service (gpuResource service) "16" "64Gi" "8" "32Gi".

Definition buildScript service : string :=
  let tp := default 1 (config_positive bc_TensorParallelism 0 service) in
  let pp := default 1 (config_positive bc_PipelineParallelism 0 service) in
  let maxSeqLen := default 4096 (config_positive bc_MaxSeqLen 0 service) in
  let maxBatchSize := default 32 (config_positive bc_MaxBatchSize 0 service) in
  let quantization := default "float16" (svc_Quantization service) in
  unlines (
    ["";
      "set -e";
      ""] ++
    [quoted "MODEL_NAME=`" +:+ md_Name (svc_Model service) +:+ quoted "`"] ++
    ["TP_SIZE=" +:+ print_Z tp] ++
    ["PP_SIZE=" +:+ print_Z pp] ++
    ["MAX_SEQ_LEN=" +:+ print_Z maxSeqLen] ++
    ["MAX_BATCH_SIZE=" +:+ print_Z maxBatchSize] ++
    [quoted "QUANTIZATION=`" +:+ quantization +:+ quoted "`"] ++
    map quoted ["";
      "echo `Building TensorRT-LLM engine for $MODEL_NAME`";
      "echo `TP=$TP_SIZE, PP=$PP_SIZE, MaxSeqLen=$MAX_SEQ_LEN, MaxBatch=$MAX_BATCH_SIZE`";
      "";
      "# Download model if from HuggingFace";
      "if [[ `$MODEL_NAME` == *`/`* ]]; then";
      "    echo `Downloading model from HuggingFace...`";
      "    python3 -c `";
      "from huggingface_hub import snapshot_download";
      "import os";
      "token = os.environ.get('HF_TOKEN', None)";
      "snapshot_download(repo_id='$MODEL_NAME', local_dir='/models/hf_model', token=token)";
      "`";
      "    MODEL_PATH=`/models/hf_model`";
      "else";
      "    MODEL_PATH=`$MODEL_NAME`";
      "fi";
      "";
      "# Convert to TensorRT-LLM format";
      "echo `Converting model to TensorRT-LLM format...`";
      "python3 /opt/tensorrtllm_backend/scripts/convert_checkpoint.py \";
      "    --model_dir `$MODEL_PATH` \";
      "    --output_dir /models/trt_ckpt \";
      "    --dtype $QUANTIZATION \";
      "    --tp_size $TP_SIZE \";
      "    --pp_size $PP_SIZE";
      "";
      "# Build TensorRT engine";
      "echo `Building TensorRT engine...`";
      "trtllm-build \";
      "    --checkpoint_dir /models/trt_ckpt \";
      "    --output_dir /engines/model \";
      "    --max_batch_size $MAX_BATCH_SIZE \";
      "    --max_input_len $MAX_SEQ_LEN \";
      "    --max_output_len $MAX_SEQ_LEN \";
      "    --gemm_plugin auto \";
      "    --gpt_attention_plugin auto";
      "";
      "echo `Engine build complete!`"]).

(** The three resources of the init container. *)
Definition builderResources service (cpu memory : string) : gmap string Quantity :=
  <["nvidia.com/gpu" := MustParse (print_Z (gs_Count (svc_GPU service)))]>
    (<["cpu" := MustParse cpu]> {["memory" := MustParse memory]}).

Definition buildEngineBuilderContainer service (env : list EnvVar) : Container := {|
  ct_Name := "engine-builder";
  ct_Image := tensorrtDefaultImage;
  ct_Command := ["bash"; "-c"];
  ct_Args := [buildScript service];
  ct_Env := env;
  ct_Ports := [];
  ct_Resources := mkResourceRequirements _ (builderResources service "16" "128Gi") (builderResources service "8" "64Gi");
  ct_VolumeMounts := [mkVolumeMount "model-cache" "/models"; mkVolumeMount "engine-cache" "/engines";
    mkVolumeMount "shm" "/dev/shm"];
  ct_ReadinessProbe := None;
  ct_LivenessProbe := None;
  ct_StartupProbe := None;
|}.

Definition GenerateDeployment service : result DeploymentSpec :=
  match Validate service with
  | Err e => Err e
  | Ok _ => Ok {|
      ds_Name := svc_Name service;
      ds_Namespace := svc_Namespace service;
      ds_Image := tensorrtDefaultImage;
      ds_Command := ["python3"];
      ds_Args := buildArgs service;
      ds_Env := buildEnv service;
      ds_Ports := [mkContainerPort "http" tensorrtHTTPPort ProtocolTCP; mkContainerPort "grpc" tensorrtGRPCPort ProtocolTCP;
        mkContainerPort "metrics" tensorrtMetricsPort ProtocolTCP];
      ds_Resources := buildResources service;
      ds_VolumeMounts := [mkVolumeMount "model-cache" "/models"; mkVolumeMount "engine-cache" "/engines"; mkVolumeMount "shm" "/dev/shm"];
      ds_Volumes := [mkVolume _ "model-cache" StorageMediumDefault None; mkVolume _ "engine-cache" StorageMediumDefault None;
        mkVolume _ "shm" StorageMediumMemory (Some (NewQuantity (16*1024*1024*1024) BinarySI))];
      ds_NodeSelector := iss_NodeSelector (is_Spec service);
      ds_Tolerations := iss_Tolerations (is_Spec service);
      ds_Replicas := iss_Replicas (is_Spec service);
      ds_Labels := deploymentLabels service "tensorrt-llm";
      ds_Annotations := <["container.apparmor.security.beta.kubernetes.io/" +:+ svc_Name service := "unconfined"]>
        {["inference.ai/model" := md_Name (svc_Model service)]};
      ds_ServiceAccountName := iss_ServiceAccountName (is_Spec service);
      ds_InitContainers := [buildEngineBuilderContainer service (buildEnv service)];
      ds_ReadinessProbe := Some (mkProbe (HTTPGet tensorrtHealthEndpoint tensorrtHTTPPort) 60 10 5 3);
      ds_LivenessProbe := Some (mkProbe (HTTPGet "/v2/health/live" tensorrtHTTPPort) 120 30 10 3);
      ds_StartupProbe := Some (mkProbe (HTTPGet tensorrtHealthEndpoint tensorrtHTTPPort) 30 15 5 80);
      ds_SecurityContext := Some (mkPodSecurityContext 0 0);
    |}
  end.

Definition GenerateService service : result ServiceSpec :=
  Ok (clusterService service
    [mkServicePort "http" 80 tensorrtHTTPPort ProtocolTCP; mkServicePort "grpc" 8001 tensorrtGRPCPort ProtocolTCP;
     mkServicePort "metrics" 9090 tensorrtMetricsPort ProtocolTCP]).

Definition HealthCheck (now : Z) (net : string -> http_reply) (endpoint : string) : result HealthStatus :=
  httpHealth now (net (endpointURL endpoint tensorrtHealthEndpoint)).
Definition GetMetrics (net : string -> http_reply) (endpoint : string) : result BackendMetrics :=
  httpMetrics (net (endpointURL endpoint tensorrtMetricsEndpoint)).
Definition Scale (endpoint : string) (replicas : Z) : result unit := Ok tt.
Definition Configure (endpoint : string) (config : gmap string string) : result unit := Ok tt.

Definition TensorRTBackend : Backend := {|
  bk_Name := Name; bk_Type := Type_; bk_Version := Version;
  bk_GenerateDeployment := fun seed => GenerateDeployment; bk_GenerateService := GenerateService;
  bk_HealthCheck := HealthCheck; bk_GetMetrics := GetMetrics;
  bk_Scale := Scale; bk_Configure := Configure; bk_Validate := Validate;
|}.
End tensorrt.
