(* ===== verification/Backends.v ===== *)
(** The three backends behind their interface: the default factory, what a
    backend promises to the controller ([BackendLaws]), and that each of the
    three keeps it. *)
From S2P Require Import Prelude GoFloat Api ServiceApi Backend.
From S2P Require Vllm Triton TensorRT.
Local Open Scope Z_scope.

Section laws.
Context `{QuantityOps} `{CoreTypes}.
Implicit Types (service : InferenceService) (d : DeploymentSpec) (b : Backend).

(** ** What Kubernetes asks of a deployment *)

Definition portsOk (ports : list ContainerPort) : Prop :=
  NoDup (cp_Name <$> ports) /\ NoDup (cp_ContainerPort <$> ports) /\
  Forall (fun p => 1 <= cp_ContainerPort p <= 65535) ports.
Definition probeOk (ports : list ContainerPort) (probe : option Probe) : Prop :=
  match probe with
  | Some p =>
      handler_Port (prb_Handler p) ∈ (cp_ContainerPort <$> ports) /\ 0 <= prb_InitialDelaySeconds p /\
      1 <= prb_TimeoutSeconds p <= prb_PeriodSeconds p /\ 1 <= prb_FailureThreshold p
  | None => True
  end.
Definition mountsOk (volumes : list Volume) (mounts : list VolumeMount) : Prop :=
  NoDup (vm_MountPath <$> mounts) /\ Forall (fun m => vm_Name m ∈ (vol_Name <$> volumes)) mounts.
Definition envOk (env : list EnvVar) : Prop :=
  NoDup (ev_Name <$> env) /\ Forall (fun e => ev_ValueFrom e <> None -> ev_Value e = "") env.

Record DeploymentOk d : Prop := {
  ok_Ports : portsOk (ds_Ports d);
  ok_Readiness : probeOk (ds_Ports d) (ds_ReadinessProbe d);
  ok_Liveness : probeOk (ds_Ports d) (ds_LivenessProbe d);
  ok_Startup : probeOk (ds_Ports d) (ds_StartupProbe d);
  ok_Volumes : NoDup (vol_Name <$> ds_Volumes d);
  ok_Mounts : mountsOk (ds_Volumes d) (ds_VolumeMounts d);
  ok_Env : envOk (ds_Env d);
  ok_Init : Forall (fun c => mountsOk (ds_Volumes d) (ct_VolumeMounts c) /\ envOk (ct_Env c)) (ds_InitContainers d);
}.

(** ** What a deployment takes over from its service *)
Record DeploymentOf service d : Prop := {
  of_Name : ds_Name d = svc_Name service;
  of_Namespace : ds_Namespace d = svc_Namespace service;
  of_Replicas : ds_Replicas d = iss_Replicas (is_Spec service);
  of_ServiceAccount : ds_ServiceAccountName d = iss_ServiceAccountName (is_Spec service);
  of_NodeSelector : ds_NodeSelector d = iss_NodeSelector (is_Spec service);
  of_Tolerations : ds_Tolerations d = iss_Tolerations (is_Spec service);
  of_Selector : ds_Labels d !! "app.kubernetes.io/name" = Some (svc_Name service);
  of_Model : ds_Annotations d !! "inference.ai/model" = Some (md_Name (svc_Model service));
  of_Token : forall ref, md_SecretRef (svc_Model service) = Some ref ->
    mkEnvVar "HF_TOKEN" "" (Some (mkSecretKeySelector ref "token")) ∈ ds_Env d;
}.

(** ** How a cluster service reaches the pods of a deployment *)
Record Routes d (s : ServiceSpec) : Prop := {
  rt_Name : ss_Name s = ds_Name d;
  rt_Namespace : ss_Namespace s = ds_Namespace d;
  rt_Selector : ss_Selector s ⊆ ds_Labels d;
  rt_Ports : NoDup (sp_Name <$> ss_Ports s) /\ NoDup (sp_Port <$> ss_Ports s);
  rt_Targets : Forall (fun p => exists cp, cp ∈ ds_Ports d /\ cp_Name cp = sp_Name p /\
    cp_ContainerPort cp = sp_TargetPort p /\ cp_Protocol cp = sp_Protocol p) (ss_Ports s);
}.

(** ** The interface *)
Class BackendLaws b : Prop := {
  bl_error : forall seed service e, bk_Validate b service = Err e -> bk_GenerateDeployment b seed service = Err e;
  bl_ok : forall seed service, bk_Validate b service = Ok tt -> exists d s,
    bk_GenerateDeployment b seed service = Ok d /\ bk_GenerateService b service = Ok s /\
    DeploymentOk d /\ DeploymentOf service d /\ Routes d s;
}.

(** ** Lemmas that the three instances share *)
Definition tokenNames service : list string :=
  match md_SecretRef (svc_Model service) with Some _ => ["HF_TOKEN"] | None => [] end.

Lemma tokenEnv_names service : ev_Name <$> tokenEnv service = tokenNames service.
Proof. unfold tokenEnv, tokenNames. by destruct (md_SecretRef _). Qed.

(** An environment around the token's is in order when its own names are. *)
Lemma envOk_token service l1 l2 :
  Forall (fun e => ev_ValueFrom e = None) (l1 ++ l2) -> NoDup ((ev_Name <$> l1) ++ ["HF_TOKEN"] ++ (ev_Name <$> l2)) ->
  envOk (l1 ++ tokenEnv service ++ l2).
Proof.
  intros Hplain Hnd. split.
  - rewrite !fmap_app, tokenEnv_names. unfold tokenNames. destruct (md_SecretRef _); [done|].
    eapply sublist_NoDup; [exact Hnd|]. apply sublist_app; [done|]. by apply sublist_inserts_l.
  - apply Forall_app in Hplain as [H1 H2]. rewrite !Forall_app. split_and!.
    + eapply Forall_impl; [exact H1|]. naive_solver.
    + unfold tokenEnv. destruct (md_SecretRef _); repeat constructor.
    + eapply Forall_impl; [exact H2|]. naive_solver.
Qed.

Lemma tokenEnv_elem service ref : md_SecretRef (svc_Model service) = Some ref ->
  mkEnvVar "HF_TOKEN" "" (Some (mkSecretKeySelector ref "token")) ∈ tokenEnv service.
Proof. intros Href. unfold tokenEnv. rewrite Href. by left. Qed.

Lemma deploymentLabels_name service backend :
  deploymentLabels service backend !! "app.kubernetes.io/name" = Some (svc_Name service).
Proof. apply lookup_insert_eq. Qed.

(** The cluster service reaches a deployment that names itself like the
    service, carries its label and has the target ports. *)
Lemma clusterService_routes service d ports :
  DeploymentOf service d -> NoDup (sp_Name <$> ports) -> NoDup (sp_Port <$> ports) ->
  Forall (fun p => mkContainerPort (sp_Name p) (sp_TargetPort p) (sp_Protocol p) ∈ ds_Ports d) ports ->
  Routes d (clusterService service ports).
Proof.
  intros Hof Hn Hp Ht. split; simpl.
  - by rewrite (of_Name _ _ Hof).
  - by rewrite (of_Namespace _ _ Hof).
  - apply map_singleton_subseteq_l, (of_Selector _ _ Hof).
  - done.
  - eapply Forall_impl; [exact Ht|]. intros p Hin. by exists (mkContainerPort (sp_Name p) (sp_TargetPort p) (sp_Protocol p)).
Qed.
End laws.


(** Closes facts about the constant ports, volumes and names. *)
Ltac constants := apply (bool_decide_unpack _); vm_compute; exact I.

(** Reads the fields of a deployment without evaluating its scripts. *)
Ltac fields := cbn [ds_Name ds_Namespace ds_Ports ds_Env ds_Volumes ds_VolumeMounts ds_InitContainers ds_ReadinessProbe
  ds_LivenessProbe ds_StartupProbe ds_Replicas ds_ServiceAccountName ds_NodeSelector ds_Tolerations ds_Labels ds_Annotations].

Section instances.
Context `{QuantityOps} `{CoreTypes} `{GoRuntime}.
Implicit Type service : InferenceService.

Lemma vllm_env_ok service : envOk (Vllm.buildEnv service).
Proof.
  apply (envOk_token _ [_]); unfold app; destruct (decide _); first [constants | repeat constructor].
Qed.
Lemma triton_env_ok service : envOk (Triton.buildEnv service).
Proof. unfold Triton.buildEnv. rewrite <- (app_nil_r (tokenEnv service)). apply (envOk_token _ [_] []); [repeat constructor | constants]. Qed.
Lemma tensorrt_env_ok service : envOk (TensorRT.buildEnv service).
Proof. apply (envOk_token _ [_; _] [_; _]); [repeat constructor | constants]. Qed.

(** A token is in an environment that has the token's part. *)
Lemma token_in_env service ref l1 l2 : md_SecretRef (svc_Model service) = Some ref ->
  mkEnvVar "HF_TOKEN" "" (Some (mkSecretKeySelector ref "token")) ∈ l1 ++ tokenEnv service ++ l2.
Proof. intros Href. apply elem_of_app. right. apply elem_of_app. left. by apply tokenEnv_elem. Qed.

(** A backend keeps the promises when its deployments do, and its service is
    a cluster service on some of their ports. *)
Lemma laws_of b (spec : nat -> InferenceService -> DeploymentSpec) ports :
  (forall seed service, bk_GenerateDeployment b seed service =
     match bk_Validate b service with Err e => Err e | Ok _ => Ok (spec seed service) end) ->
  (forall service, bk_GenerateService b service = Ok (clusterService service ports)) ->
  (forall seed service, DeploymentOk (spec seed service) /\ DeploymentOf service (spec seed service) /\
     Forall (fun p => mkContainerPort (sp_Name p) (sp_TargetPort p) (sp_Protocol p) ∈ ds_Ports (spec seed service)) ports) ->
  NoDup (sp_Name <$> ports) -> NoDup (sp_Port <$> ports) -> BackendLaws b.
Proof.
  intros Hd Hs Hok Hn Hp. split; intros seed service; rewrite Hd; [by intros e -> |]. intros ->.
  destruct (Hok seed service) as (? & Hof & Ht). eexists _, _. split_and!; [done | apply Hs | done | done |].
  by apply clusterService_routes.
Qed.

#[export] Instance vllm_laws : BackendLaws Vllm.VLLMBackend.
Proof.
  eapply laws_of; [done | done | | constants | constants]. intros seed service. split_and!; [| | fields; constants].
  - split; fields; try constants. apply vllm_env_ok.
  - split; fields; try done. intros ref Href. by apply (token_in_env _ _ [_]).
Qed.

#[export] Instance triton_laws : BackendLaws Triton.TritonBackend.
Proof.
  eapply laws_of; [done | done | | constants | constants]. intros seed service. split_and!; [| | fields; constants].
  - split; fields; [constants .. | apply triton_env_ok |].
    constructor; [split; [constants | apply triton_env_ok] | constructor].
  - split; fields; try done. intros ref Href.
    unfold Triton.buildEnv. rewrite <- (app_nil_r (tokenEnv service)). by apply (token_in_env _ _ [_] []).
Qed.

#[export] Instance tensorrt_laws : BackendLaws TensorRT.TensorRTBackend.
Proof.
  eapply laws_of; [done | done | | constants | constants]. intros seed service. split_and!; [| | fields; constants].
  - split; fields; [constants .. | apply tensorrt_env_ok |].
    constructor; [split; [constants | apply tensorrt_env_ok] | constructor].
  - split; fields; [reflexivity .. | apply deploymentLabels_name | |].
    + rewrite lookup_insert_ne by (intros Heq; discriminate Heq). apply lookup_singleton_eq.
    + intros ref Href. by apply (token_in_env _ _ [_; _]).
Qed.

(** ** The default factory: the [init] functions of the package run in the
    order of the file names, interface.go first. *)
Definition DefaultFactory : BackendFactory :=
  Register Vllm.VLLMBackend (Register Triton.TritonBackend (Register TensorRT.TensorRTBackend NewBackendFactory)).

Lemma DefaultFactory_Get ty b : Get ty DefaultFactory = Some b <->
  ty = BackendTypeVLLM /\ b = Vllm.VLLMBackend \/ ty = BackendTypeTriton /\ b = Triton.TritonBackend \/
  ty = BackendTypeTensorRT /\ b = TensorRT.TensorRTBackend.
Proof.
  unfold Get, DefaultFactory, Register, NewBackendFactory, BackendFactory, BackendType. cbn.
  rewrite !lookup_insert_Some, lookup_empty. unfold Vllm.Type_, Triton.Type_, TensorRT.Type_.
  split.
  - intros [[<- <-] | (_ & [[<- <-] | (_ & [[<- <-] | [_ [=]]])])]; tauto.
  - intros [[-> ->] | [[-> ->] | [-> ->]]]; [by left | right; split; [done | by left] |].
    right. split; [done|]. right. split; [done | by left].
Qed.

(** Every backend that the factory gives keeps the promises. *)
Lemma DefaultFactory_laws ty b : Get ty DefaultFactory = Some b -> BackendLaws b.
Proof. rewrite DefaultFactory_Get. intros [[_ ->] | [[_ ->] | [_ ->]]]; apply _. Qed.
End instances.
