(* ===== verification/BackendProps.v ===== *)
(** What the backends guarantee: the deployments and services of every
    backend of the default factory, the arguments of vLLM over the iteration
    orders of a map, the GPUs a deployment asks for, and what Triton loads. *)
From S2P Require Import Prelude GoFloat Api ServiceApi Backend Backends.
From S2P Require Vllm Triton TensorRT.
Local Open Scope Z_scope.

Section deployments.
Context `{QuantityOps} `{CoreTypes} `{GoRuntime}.

(** C29. A backend of the default factory refuses a service with the error of
    [Validate], and otherwise describes a deployment that Kubernetes accepts
    (distinct ports, probes on declared ports, mounts of declared volumes,
    distinct environment variables, in the init containers too), that takes
    name, namespace, replicas, placement and token from the service, and that
    the service it describes routes to. *)
Theorem backends_generate ty b seed service :
  Get ty DefaultFactory = Some b ->
  match bk_Validate b service with
  | Err e => bk_GenerateDeployment b seed service = Err e
  | Ok _ => exists d s, bk_GenerateDeployment b seed service = Ok d /\ bk_GenerateService b service = Ok s /\
      DeploymentOk d /\ DeploymentOf service d /\ Routes d s
  end.
Proof.
  intros Hget. pose proof (DefaultFactory_laws _ _ Hget) as Hb.
  destruct (bk_Validate b service) as [[]|e] eqn:Hv; [by apply bl_ok | by apply bl_error].
Qed.
End deployments.

(** ** The arguments of vLLM *)
Section vllm_args.
Context `{QuantityOps} `{CoreTypes}.

Definition withArgs (args : list string) (d : DeploymentSpec) : DeploymentSpec :=
  mkDeploymentSpec _ _ (ds_Name d) (ds_Namespace d) (ds_Image d) (ds_Command d) args (ds_Env d) (ds_Ports d)
    (ds_Resources d) (ds_VolumeMounts d) (ds_Volumes d) (ds_NodeSelector d) (ds_Tolerations d) (ds_Replicas d)
    (ds_Labels d) (ds_Annotations d) (ds_ServiceAccountName d) (ds_InitContainers d) (ds_ReadinessProbe d)
    (ds_LivenessProbe d) (ds_StartupProbe d) (ds_SecurityContext d).

Lemma flagArgs_inj (l1 l2 : list (string * string)) : (l1 ≫= Vllm.flagArgs) = (l2 ≫= Vllm.flagArgs) -> l1 = l2.
Proof.
  revert l2. induction l1 as [|[k v] l1 IH]; intros [|[k' v'] l2]; csimpl; try done.
  intros [= Hk -> Hl%IH]. change (k = k') in Hk. by rewrite Hk, Hl.
Qed.

(** A list without duplicates and its reverse differ from two elements on. *)
Lemma reverse_ne {A} (l : list A) : NoDup l -> (2 <= length l)%nat -> reverse l <> l.
Proof.
  intros Hnd Hlen Heq. destruct l as [|x l]; simpl in Hlen; [lia|].
  destruct l as [|y l _] using rev_ind; simpl in Hlen; [lia|].
  rewrite reverse_cons, reverse_snoc in Heq. injection Heq as -> _.
  apply NoDup_cons in Hnd as [Hno _]. apply Hno. apply elem_of_app. right. by left.
Qed.

Lemma vllm_Generate_args (R : GoRuntime) (seed : nat) service :
  Vllm.Validate service = Ok tt -> exists d, forall (R' : GoRuntime) seed',
    Vllm.GenerateDeployment (H1 := R') seed' service = Ok (withArgs (Vllm.buildArgs (H1 := R') seed' service) d).
Proof.
  intros Hv. destruct (Vllm.GenerateDeployment (H1 := R) seed service) as [d|e] eqn:Hd;
    unfold Vllm.GenerateDeployment in Hd; rewrite Hv in Hd; [|done].
  exists d. intros R' seed'. injection Hd as <-. unfold Vllm.GenerateDeployment. by rewrite Hv.
Qed.

(** C30. The deployments that vLLM can describe for a valid service differ only
    in the order of the extra arguments, every order is possible, and two calls
    may use different ones: from two extra arguments on, the deployment of one
    reconciliation can differ from that of the next although nothing changed. *)
Theorem vllm_args_outcomes service :
  Vllm.Validate service = Ok tt ->
  let extra := svc_ExtraArgs service in
  let args (l : list (string * string)) := Vllm.baseArgs service ++ (l ≫= Vllm.flagArgs) in
  exists d,
    (forall (R : GoRuntime) seed, exists l, l ≡ₚ map_to_list extra /\
       Vllm.GenerateDeployment (H1 := R) seed service = Ok (withArgs (args l) d)) /\
    (forall l1 l2, l1 ≡ₚ map_to_list extra -> l2 ≡ₚ map_to_list extra -> exists R : GoRuntime,
       Vllm.GenerateDeployment (H1 := R) 0 service = Ok (withArgs (args l1) d) /\
       Vllm.GenerateDeployment (H1 := R) 1 service = Ok (withArgs (args l2) d)) /\
    ((2 <= size extra)%nat -> exists R : GoRuntime,
       Vllm.GenerateDeployment (H1 := R) 0 service <> Vllm.GenerateDeployment (H1 := R) 1 service).
Proof.
  intros Hv extra args. destruct (vllm_Generate_args stdRuntime 0 service Hv) as [d Hd]. exists d.
  assert (Hany : forall l1 l2, l1 ≡ₚ map_to_list extra -> l2 ≡ₚ map_to_list extra -> exists R : GoRuntime,
    Vllm.GenerateDeployment (H1 := R) 0 service = Ok (withArgs (args l1) d) /\
    Vllm.GenerateDeployment (H1 := R) 1 service = Ok (withArgs (args l2) d)).
  { intros l1 l2 H1 H2. destruct (range_any_order extra l1 l2 H1 H2) as (R & <- & <-). exists R. by rewrite !Hd. }
  split_and!; [| exact Hany |].
  - intros R seed. exists (range seed extra). split; [apply range_perm | by rewrite Hd].
  - intros Hsize. destruct (Hany (map_to_list extra) (reverse (map_to_list extra))) as (R & H1 & H2);
      [done | apply reverse_Permutation |].
    exists R. rewrite H1, H2. intros [= Heq]. apply app_inv_head, flagArgs_inj in Heq.
    symmetry in Heq. revert Heq. apply reverse_ne; [apply NoDup_map_to_list | by rewrite length_map_to_list].
Qed.
End vllm_args.

(** ** The GPUs a deployment asks for *)
Section gpus.
Context `{QuantityOps} `{CoreTypes} `{GoRuntime}.
Implicit Type service : InferenceService.

Definition gpuLimit (d : DeploymentSpec) : option Quantity := rr_Limits (ds_Resources d) !! "nvidia.com/gpu".

(** What the user writes wins, key by key; the GPUs fill in. *)
Lemma overlayResources_limit service gpus cl ml cr mr k r : iss_Resources (is_Spec service) = Some r ->
  rr_Limits (overlayResources service gpus cl ml cr mr) !! k =
    match rr_Limits r !! k with Some q => Some q | None => gpus !! k end.
Proof.
  intros Hr. unfold overlayResources. rewrite Hr. simpl. rewrite lookup_union. by destruct (rr_Limits r !! k), (gpus !! k).
Qed.

Lemma overlayResources_gpu service gpus cl ml cr mr :
  (forall r, iss_Resources (is_Spec service) = Some r -> rr_Limits r !! "nvidia.com/gpu" = None) ->
  rr_Limits (overlayResources service gpus cl ml cr mr) !! "nvidia.com/gpu" = gpus !! "nvidia.com/gpu".
Proof.
  intros Hno. destruct (iss_Resources (is_Spec service)) as [r|] eqn:Hr.
  - by rewrite (overlayResources_limit _ _ _ _ _ _ _ r Hr), (Hno r eq_refl).
  - unfold overlayResources. rewrite Hr. simpl. by rewrite !lookup_insert_ne.
Qed.

Lemma gpuResource_lookup service : gpuResource service !! "nvidia.com/gpu" = Some (NewQuantity (gs_Count (svc_GPU service)) DecimalSI).
Proof. apply lookup_singleton_eq. Qed.

Lemma config_positive_Some (field : BackendConfig -> Z) above service c :
  iss_BackendConfig (is_Spec service) = Some c -> above < field c -> config_positive field above service = Some (field c).
Proof. intros Hc Hlt. unfold config_positive. by rewrite Hc, (proj2 (Z.ltb_lt _ _) Hlt). Qed.

Lemma checkTensorParallelism_ok service c : iss_BackendConfig (is_Spec service) = Some c ->
  bc_TensorParallelism c <= gs_Count (svc_GPU service) -> checkTensorParallelism service = Ok tt.
Proof.
  intros Hc Htp. unfold checkTensorParallelism, config_positive. rewrite Hc.
  destruct (_ <? _); [|done]. by rewrite (proj2 (Z.ltb_ge _ _) Htp).
Qed.

(** The two degrees stand next to each other in the arguments of vLLM. *)
Lemma vllm_args_degrees seed service tp pp :
  config_positive bc_TensorParallelism 0 service = Some tp -> config_positive bc_PipelineParallelism 1 service = Some pp ->
  exists pre rest, Vllm.buildArgs seed service =
    pre ++ ["--tensor-parallel-size"; print_Z tp; "--pipeline-parallel-size"; print_Z pp] ++ rest.
Proof.
  intros Htp Hpp. unfold Vllm.buildArgs, Vllm.baseArgs. rewrite Htp, Hpp. unfold default, from_option, id.
  match goal with
  | |- context [?head ++ ["--tensor-parallel-size"; _] ++ ["--pipeline-parallel-size"; _] ++ ?opts] =>
      exists head, (opts ++ (range seed (svc_ExtraArgs service) ≫= Vllm.flagArgs))
  end.
  rewrite <- !app_assoc. reflexivity.
Qed.

Lemma tensorrt_env_degrees service tp pp :
  config_positive bc_TensorParallelism 0 service = Some tp -> config_positive bc_PipelineParallelism 0 service = Some pp ->
  plainEnv "TENSOR_PARALLEL_SIZE" (print_Z tp) ∈ TensorRT.buildEnv service /\
  plainEnv "PIPELINE_PARALLEL_SIZE" (print_Z pp) ∈ TensorRT.buildEnv service.
Proof.
  intros Htp Hpp. unfold TensorRT.buildEnv. rewrite Htp, Hpp. unfold default, from_option, id.
  rewrite !elem_of_app, !list_elem_of_singleton. tauto.
Qed.

(** vLLM and TensorRT-LLM check the tensor parallelism against the GPUs of
    a replica and forget the pipeline: a service whose tensor times pipeline
    parallelism exceeds its GPUs is accepted, the server is told both degrees,
    and the pod gets the GPUs of the tensor dimension alone. *)
Theorem backends_underprovisioned service c :
  let count := gs_Count (svc_GPU service) in
  let tp := bc_TensorParallelism c in
  let pp := bc_PipelineParallelism c in
  iss_BackendConfig (is_Spec service) = Some c -> md_Name (svc_Model service) <> "" ->
  (forall r, iss_Resources (is_Spec service) = Some r -> rr_Limits r !! "nvidia.com/gpu" = None) ->
  0 < tp -> 1 < pp -> tp <= count < tp * pp -> in_int32 count ->
  (exists d q pre rest, Vllm.GenerateDeployment 0 service = Ok d /\ gpuLimit d = Some q /\ Quantity_Value q < tp * pp /\
     ds_Args d = pre ++ ["--tensor-parallel-size"; print_Z tp; "--pipeline-parallel-size"; print_Z pp] ++ rest) /\
  (exists d q, TensorRT.GenerateDeployment service = Ok d /\ gpuLimit d = Some q /\ Quantity_Value q < tp * pp /\
     plainEnv "TENSOR_PARALLEL_SIZE" (print_Z tp) ∈ ds_Env d /\ plainEnv "PIPELINE_PARALLEL_SIZE" (print_Z pp) ∈ ds_Env d).
Proof.
  intros count tp pp Hc Hname Hres Htp Hpp Hcount Hint.
  assert (Hq : Quantity_Value (NewQuantity count DecimalSI) = count).
  { apply Quantity_Value_New. unfold in_int32, in_int64 in *. lia. }
  assert (Hcheck : checkTensorParallelism service = Ok tt) by (eapply checkTensorParallelism_ok; [exact Hc | fold count tp; lia]).
  assert (H1c : (count <? 1) = false) by lia.
  assert (Hvv : Vllm.Validate service = Ok tt) by (unfold Vllm.Validate; fold count; by rewrite decide_False, H1c by done).
  assert (Hvt : TensorRT.Validate service = Ok tt) by (unfold TensorRT.Validate; fold count; by rewrite decide_False, H1c by done).
  pose proof (config_positive_Some bc_TensorParallelism 0 service c Hc Htp) as Ptp.
  pose proof (config_positive_Some bc_PipelineParallelism 1 service c Hc Hpp) as Ppp.
  pose proof (config_positive_Some bc_PipelineParallelism 0 service c Hc ltac:(fold pp; lia)) as Ppp0.
  split.
  - destruct (vllm_args_degrees 0 _ _ _ Ptp Ppp) as (pre & rest & Hargs).
    eexists _, (NewQuantity count DecimalSI), pre, rest. unfold Vllm.GenerateDeployment. rewrite Hvv.
    split_and!; [reflexivity | | lia | exact Hargs].
    etrans; [by apply overlayResources_gpu | apply gpuResource_lookup].
  - eexists _, (NewQuantity count DecimalSI). unfold TensorRT.GenerateDeployment. rewrite Hvt. split_and!; [reflexivity | | lia | |].
    + etrans; [by apply overlayResources_gpu | apply gpuResource_lookup].
    + apply (tensorrt_env_degrees _ _ _ Ptp Ppp0).
    + apply (tensorrt_env_degrees _ _ _ Ptp Ppp0).
Qed.
End gpus.

(** ** What Triton loads *)
Section triton.
Context `{QuantityOps} `{CoreTypes} `{GoRuntime}.

(** Triton is started in explicit model control, where it loads the models
    that a --load-model argument names, and the backend writes no such
    argument: one can only come from the user's extra arguments, so without
    them the server starts with no model. *)
Theorem triton_loads_no_model seed service d :
  Triton.GenerateDeployment seed service = Ok d ->
  "--model-control-mode=explicit" ∈ ds_Args d /\
  forall a, a ∈ ds_Args d -> String.prefix "--load-model" a = true ->
    exists k v, svc_ExtraArgs service !! k = Some v /\ a = "--" +:+ k +:+ "=" +:+ v.
Proof.
  unfold Triton.GenerateDeployment. destruct (Triton.Validate service) as [u|e]; [|done]. intros [= <-]. cbn [ds_Args].
  unfold Triton.buildArgs. assert (Hbase : Forall (fun a => String.prefix "--load-model" a = false) (Triton.baseArgs service)).
  { unfold Triton.baseArgs. destruct (0 <? _); repeat constructor. }
  split.
  - unfold Triton.baseArgs. rewrite !elem_of_app, list_elem_of_singleton. tauto.
  - intros a [Ha | Ha]%elem_of_app Hp.
    + rewrite Forall_forall in Hbase. by rewrite Hbase in Hp.
    + apply list_elem_of_fmap in Ha as ([k v] & -> & Hkv). exists k, v. split; [by apply range_elem in Hkv | done].
Qed.
End triton.

(** * Witnesses *)
Section witnesses.
Local Existing Instance ZQuantity.
Local Existing Instance textTypes.
Local Existing Instance stdRuntime.

(** Two tensor and two pipeline ranks on two GPUs, with two extra arguments. *)
Definition ex_config : BackendConfig := mkBackendConfig 8 0 2 2 "" (<["seed" := "1"]> {["dtype" := "half"]}).
Definition ex_service (ty : BackendType) : InferenceService := example_service "llm" "org/model" ty 2 (Some ex_config).

Lemma backends_generate_witness :
  exists d s, Triton.GenerateDeployment 0 (ex_service "triton") = Ok d /\ Triton.GenerateService (ex_service "triton") = Ok s /\
    DeploymentOk d /\ DeploymentOf (ex_service "triton") d /\ Routes d s.
Proof.
  exact (backends_generate "triton" Triton.TritonBackend 0 (ex_service "triton")
    (proj2 (DefaultFactory_Get _ _) (or_intror (or_introl (conj eq_refl eq_refl))))).
Defined.

Lemma vllm_args_outcomes_witness :
  exists R : GoRuntime, Vllm.GenerateDeployment (H1 := R) 0 (ex_service "vllm") <> Vllm.GenerateDeployment (H1 := R) 1 (ex_service "vllm").
Proof.
  destruct (vllm_args_outcomes (ex_service "vllm") eq_refl) as (d & _ & _ & Hne).
  apply Hne. apply (bool_decide_unpack _). vm_compute. exact I.
Defined.

Lemma backends_underprovisioned_witness :
  exists d q, TensorRT.GenerateDeployment (ex_service "tensorrt") = Ok d /\ gpuLimit d = Some q /\ q < 4 /\
    plainEnv "TENSOR_PARALLEL_SIZE" "2" ∈ ds_Env d /\ plainEnv "PIPELINE_PARALLEL_SIZE" "2" ∈ ds_Env d.
Proof.
  refine (proj2 (backends_underprovisioned (ex_service "tensorrt") ex_config eq_refl _ _ _ _ _ _)); cbn.
  - intros Heq. discriminate Heq.
  - intros r Hr. discriminate Hr.
  - lia.
  - lia.
  - lia.
  - unfold in_int32. lia.
Defined.

Lemma triton_loads_no_model_witness :
  exists d, Triton.GenerateDeployment 0 (example_service "llm" "org/model" "triton" 1 None) = Ok d /\
    "--model-control-mode=explicit" ∈ ds_Args d /\ forall a, a ∈ ds_Args d -> String.prefix "--load-model" a = true -> False.
Proof.
  eexists. split; [reflexivity|].
  destruct (triton_loads_no_model 0 (example_service "llm" "org/model" "triton" 1 None) _ eq_refl) as [Hmode Hload].
  split; [exact Hmode|]. intros a Ha Hp. destruct (Hload a Ha Hp) as (k & v & Hkv & _). discriminate Hkv.
Defined.
End witnesses.
