(* ===== verification/Kube.v ===== *)
(** The API server as the controllers see it: the objects they write, the
    calls they make, and programs over the answers of the server.

    A program is a finite tree of calls; a theorem about it ranges over every
    answer the server may give ([always]), and a witness runs it against a
    concrete server ([run]). *)
From S2P Require Import Prelude GoFloat Api ServiceApi Backend.
Local Open Scope Z_scope.

(** * Objects of apps/v1 and core/v1

    The fields the controllers write, and [Unwritten] for all the others: the
    server gives those defaults, and the controllers leave them zero. *)
Record PodSpec `{QuantityOps} `{CoreTypes} := mkPodSpec {
  ps_ServiceAccountName : string;
  ps_NodeSelector : gmap string string;
  ps_Tolerations : list Toleration;
  ps_SecurityContext : option PodSecurityContext;
  ps_InitContainers : list Container;
  ps_Containers : list Container;
  ps_Volumes : list Volume;
  ps_ImagePullSecrets : list LocalObjectReference;
}.
Record PodTemplateSpec `{QuantityOps} `{CoreTypes} := mkPodTemplateSpec {
  pts_Labels : gmap string string;
  pts_Annotations : gmap string string;
  pts_Spec : PodSpec;
}.
(** [ads_Replicas] is a pointer. *)
Record AppsDeploymentSpec `{QuantityOps} `{CoreTypes} := mkAppsDeploymentSpec {
  ads_Replicas : option Z;
  ads_Selector : gmap string string;
  ads_Template : PodTemplateSpec;
  ads_Unwritten : Unwritten;
}.
Record DeploymentStatus := mkDeploymentStatus {
  dst_ReadyReplicas : Z;
  dst_AvailableReplicas : Z;
  dst_UnavailableReplicas : Z;
}.
Record ChildMeta `{CoreTypes} := mkChildMeta {
  cm_Name : string;
  cm_Namespace : string;
  cm_Labels : gmap string string;
  cm_Annotations : gmap string string;
  cm_OwnerReferences : list OwnerReference;
}.
Record Deployment `{QuantityOps} `{CoreTypes} := mkDeployment {
  dp_Meta : ChildMeta;
  dp_Spec : AppsDeploymentSpec;
  dp_Status : DeploymentStatus;
}.
Record CoreServiceSpec `{CoreTypes} := mkCoreServiceSpec {
  css_ClusterIP : string;
  css_Type : string;
  css_Ports : list ServicePort;
  css_Selector : gmap string string;
  css_Unwritten : Unwritten;
}.
Record CoreService `{CoreTypes} := mkCoreService {
  csv_Meta : ChildMeta;
  csv_Spec : CoreServiceSpec;
}.
Definition ReadWriteOnce : string := "ReadWriteOnce".
(** [pvs_StorageClassName] is a pointer. *)
Record PersistentVolumeClaimSpec `{QuantityOps} `{CoreTypes} := mkPersistentVolumeClaimSpec {
  pvs_AccessModes : list string;
  pvs_Resources : ResourceRequirements;
  pvs_StorageClassName : option string;
  pvs_Unwritten : Unwritten;
}.
Record PersistentVolumeClaim `{QuantityOps} `{CoreTypes} := mkPersistentVolumeClaim {
  pvc_Meta : ChildMeta;
  pvc_Spec : PersistentVolumeClaimSpec;
}.
(** [sss_Replicas] is a pointer. *)
Record StatefulSetSpec `{QuantityOps} `{CoreTypes} := mkStatefulSetSpec {
  sss_ServiceName : string;
  sss_Replicas : option Z;
  sss_Selector : gmap string string;
  sss_Template : PodTemplateSpec;
  sss_VolumeClaimTemplates : list PersistentVolumeClaim;
  sss_Unwritten : Unwritten;
}.
Record StatefulSet `{QuantityOps} `{CoreTypes} := mkStatefulSet {
  sts_Meta : ChildMeta;
  sts_Spec : StatefulSetSpec;
}.

(** * Calls *)
Inductive kind :=
| KInferenceService | KGPUPool | KTokenCache
| KDeployment | KService | KStatefulSet | KPersistentVolumeClaim.
Definition NamespacedName : Type := string * string.

(** The value of a call may be anything. *)
Abbreviation anything := (fun _ => True) (only parsing).

Section programs.
Context `{QuantityOps} `{CoreTypes}.

Definition own (owners : list OwnerReference) (m : ChildMeta) : ChildMeta :=
  mkChildMeta _ (cm_Name m) (cm_Namespace m) (cm_Labels m) (cm_Annotations m) owners.
Definition meta_key (m : ChildMeta) : NamespacedName := (cm_Namespace m, cm_Name m).

Definition obj (k : kind) : Type :=
  match k with
  | KInferenceService => InferenceService
  | KGPUPool => GPUPool
  | KTokenCache => TokenCache
  | KDeployment => Deployment
  | KService => CoreService
  | KStatefulSet => StatefulSet
  | KPersistentVolumeClaim => PersistentVolumeClaim
  end.

(** What [client.Get] comes back with: [apierrors.IsNotFound] tells the two
    kinds of error apart. *)
Inductive got (A : Type) :=
| Found (a : A)
| NotFound
| Failed (e : error).
#[global] Arguments Found {_} _.
#[global] Arguments NotFound {_}.
#[global] Arguments Failed {_} _.

(** [CSetOwner] is [controllerutil.SetControllerReference] of an owner: it
    answers with the owner references of the object, or refuses.  [CListNodes] answers with the
    number of nodes that match.  [CNow] reads the clock. *)
Inductive call :=
| CGet (k : kind) (key : NamespacedName)
| CCreate (k : kind) (o : obj k)
| CUpdate (k : kind) (o : obj k)
| CUpdateStatus (k : kind) (o : obj k)
| CSetOwner (ok : kind) (owner : obj ok) (k : kind) (o : obj k)
| CListNodes (selector : gmap string string)
| CNow.

(** A successful write answers with the server's copy of the object. *)
Definition reply (c : call) : Type :=
  match c with
  | CGet k _ => got (obj k)
  | CCreate k _ | CUpdate k _ | CUpdateStatus k _ => result (obj k)
  | CSetOwner _ _ _ _ => result (list OwnerReference)
  | CListNodes _ => result nat
  | CNow => Z
  end.

Record event := Ev { ev_call : call; ev_reply : reply ev_call }.

(** * Programs *)
Inductive prog (A : Type) :=
| End (o : outcome A)
| Next (c : call) (k : reply c -> prog A).
#[global] Arguments End {_} _.
#[global] Arguments Next {_} _ _.

#[global] Instance prog_ret : MRet prog := fun A a => End (Ret a).
#[global] Instance prog_bind : MBind prog := fun A B f =>
  fix bind p :=
    match p with
    | End (Ret a) => f a
    | End (Panic w) => End (Panic w)
    | End Blocked => End Blocked
    | Next c k => Next c (fun r => bind (k r))
    end.
Definition ask (c : call) : prog (reply c) := Next c (fun r => End (Ret r)).
(** The calls, at their types. *)
Definition get (k : kind) (key : NamespacedName) : prog (got (obj k)) := ask (CGet k key).
Definition create (k : kind) (o : obj k) : prog (result (obj k)) := ask (CCreate k o).
Definition update (k : kind) (o : obj k) : prog (result (obj k)) := ask (CUpdate k o).
Definition updateStatusOf (k : kind) (o : obj k) : prog (result (obj k)) := ask (CUpdateStatus k o).
Definition SetControllerReference (ok : kind) (owner : obj ok) (k : kind) (o : obj k) : prog (result (list OwnerReference)) :=
  ask (CSetOwner ok owner k o).
Definition listNodes (selector : gmap string string) : prog (result nat) := ask (CListNodes selector).
Definition clock : prog Z := ask CNow.
Definition lift {A} (o : outcome A) : prog A := End o.

(** [x ←? p; q]: goes on with the value of [p], or ends with its error. *)
Definition on_ok {A B} (p : prog (result A)) (f : A -> prog (result B)) : prog (result B) :=
  r ← p; match r with Ok a => f a | Err e => mret (Err e) end.

(** [Q] holds of the calls and of the outcome whatever the server answers. *)
Fixpoint always {A} (p : prog A) (Q : list event -> outcome A -> Prop) : Prop :=
  match p with
  | End o => Q [] o
  | Next c k => forall r, always (k r) (fun tr o => Q (Ev c r :: tr) o)
  end.

(** A run against a server with a state. *)
Fixpoint run {S A} (server : forall c, S -> S * reply c) (s : S) (p : prog A) : S * list event * outcome A :=
  match p with
  | End o => (s, [], o)
  | Next c k =>
      let '(s, r) := server c s in
      let '(s, tr, o) := run server s (k r) in (s, Ev c r :: tr, o)
  end.

Lemma always_mono {A} (p : prog A) (P Q : list event -> outcome A -> Prop) :
  (forall tr o, P tr o -> Q tr o) -> always p P -> always p Q.
Proof.
  revert P Q. induction p as [o|c k IH]; intros P Q HPQ Hp; simpl in *; [by apply HPQ|].
  intros r. eapply IH; [|apply Hp]. intros tr o. apply HPQ.
Qed.

(** Binding is associative for all that [always] can tell. *)
Lemma always_assoc {A B C} (p : prog A) (f : A -> prog B) (g : B -> prog C) Q :
  always ((p ≫= f) ≫= g) Q <-> always (p ≫= (fun a => f a ≫= g)) Q.
Proof.
  revert Q. induction p as [[a|w|]|c k IH]; intros Q; simpl; [done..|]. split; intros Hp r; by apply IH, Hp.
Qed.
Lemma always_bind_ext {A B} (p : prog A) (f g : A -> prog B) Q : (forall a, f a = g a) ->
  always (p ≫= f) Q <-> always (p ≫= g) Q.
Proof.
  intros Hfg. revert Q. induction p as [[a|w|]|c k IH]; intros Q; simpl; [by rewrite Hfg | done..|].
  split; intros Hp r; by apply IH, Hp.
Qed.

Lemma always_bind {A B} (p : prog A) (f : A -> prog B) (Q : list event -> outcome B -> Prop) :
  always p (fun tr o => match o with
    | Ret a => always (f a) (fun tr' o' => Q (tr ++ tr') o')
    | Panic w => Q tr (Panic w)
    | Blocked => Q tr Blocked
    end) -> always (p ≫= f) Q.
Proof.
  revert Q. induction p as [o|c k IH]; intros Q Hp; simpl in *; [by destruct o|].
  intros r. apply IH. eapply always_mono; [|apply (Hp r)]. intros tr [a| |]; done.
Qed.

(** ** A logic of calls: every call satisfies [P], and the value returned, if
    one is, satisfies [Post]. *)
Definition calls {A} (P : call -> Prop) (Post : A -> Prop) (p : prog A) : Prop :=
  always p (fun tr o => Forall (fun e => P (ev_call e)) tr /\ forall a, o = Ret a -> Post a).

Lemma calls_mono {A} (P P' : call -> Prop) (Post Post' : A -> Prop) p :
  (forall c, P c -> P' c) -> (forall a, Post a -> Post' a) -> calls P Post p -> calls P' Post' p.
Proof.
  intros HP HPost. apply always_mono. intros tr o [Htr Ho]. split; [|by eauto].
  eapply Forall_impl; [exact Htr|]. intros e. apply HP.
Qed.
Lemma always_and {A} (p : prog A) (Q Q' : list event -> outcome A -> Prop) :
  always p Q -> always p Q' -> always p (fun tr o => Q tr o /\ Q' tr o).
Proof. revert Q Q'. induction p as [o|c k IH]; intros Q Q' HQ HQ'; simpl in *; [done|]. intros r. by apply IH. Qed.
Lemma calls_and {A} (P P' : call -> Prop) (Post Post' : A -> Prop) p : calls P Post p -> calls P' Post' p ->
  calls (fun c => P c /\ P' c) (fun a => Post a /\ Post' a) p.
Proof.
  intros Hp Hp'. eapply always_mono; [|exact (always_and p _ _ Hp Hp')]. intros tr o [[Htr Ho] [Htr' Ho']].
  split; [by apply Forall_and | by eauto].
Qed.
Lemma calls_forget {A} (P : call -> Prop) (Post : A -> Prop) p : calls P Post p -> calls P anything p.
Proof. by apply calls_mono. Qed.
Lemma calls_any {A} (p : prog A) : calls anything anything p.
Proof.
  unfold calls. induction p as [o|c k IH]; simpl; [by split|]. intros r. eapply always_mono; [|apply IH].
  intros tr o [Htr _]. split; [by constructor | done].
Qed.
Lemma calls_ret {A} P (Post : A -> Prop) a : Post a -> calls P Post (mret a).
Proof. intros Ha. split; [done|]. by intros ? [= <-]. Qed.
Lemma calls_lift {A} P (Post : A -> Prop) (o : outcome A) : (forall a, o = Ret a -> Post a) -> calls P Post (lift o).
Proof. intros Ho. by split. Qed.
Lemma calls_ask (P : call -> Prop) c (Post : reply c -> Prop) : P c -> (forall r, Post r) -> calls P Post (ask c).
Proof. intros Hc Hr r. split; [by repeat constructor|]. by intros a [= <-]. Qed.
Lemma calls_get (P : call -> Prop) k key : P (CGet k key) -> calls P anything (get k key).
Proof. intros HP. by apply (calls_ask P (CGet k key)). Qed.
Lemma calls_create (P : call -> Prop) k o : P (CCreate k o) -> calls P anything (create k o).
Proof. intros HP. by apply (calls_ask P (CCreate k o)). Qed.
Lemma calls_update (P : call -> Prop) k o : P (CUpdate k o) -> calls P anything (update k o).
Proof. intros HP. by apply (calls_ask P (CUpdate k o)). Qed.
Lemma calls_updateStatus (P : call -> Prop) k o : P (CUpdateStatus k o) -> calls P anything (updateStatusOf k o).
Proof. intros HP. by apply (calls_ask P (CUpdateStatus k o)). Qed.
Lemma calls_setOwner (P : call -> Prop) ok owner k o : P (CSetOwner ok owner k o) ->
  calls P anything (SetControllerReference ok owner k o).
Proof. intros HP. by apply (calls_ask P (CSetOwner ok owner k o)). Qed.
Lemma calls_listNodes (P : call -> Prop) sel : P (CListNodes sel) -> calls P anything (listNodes sel).
Proof. intros HP. by apply (calls_ask P (CListNodes sel)). Qed.
Lemma calls_clock (P : call -> Prop) : P CNow -> calls P anything clock.
Proof. intros HP. by apply (calls_ask P CNow). Qed.

Lemma calls_bind {A B} P (Mid : A -> Prop) (Post : B -> Prop) (p : prog A) (f : A -> prog B) :
  calls P Mid p -> (forall a, Mid a -> calls P Post (f a)) -> calls P Post (p ≫= f).
Proof.
  intros Hp Hf. apply always_bind. eapply always_mono; [|exact Hp]. intros tr [a| |] [Htr Ha]; [| by split | by split].
  eapply always_mono; [|apply (Hf a), Ha; done]. intros tr' o' [Htr' Ho']. split; [by apply Forall_app | done].
Qed.
(** Sequences whose first value does not matter. *)
Lemma calls_then {A B} P (Post : B -> Prop) (p : prog A) (f : A -> prog B) :
  calls P anything p -> (forall a, calls P Post (f a)) -> calls P Post (p ≫= f).
Proof. intros Hp Hf. apply (calls_bind P _ _ _ _ Hp). intros a _. apply Hf. Qed.
Lemma calls_then_ok {A B} P (p : prog (result A)) (f : A -> prog (result B)) :
  calls P anything p -> (forall a, calls P anything (f a)) -> calls P anything (on_ok p f).
Proof. intros Hp Hf. apply calls_then; [done|]. intros [a|e]; [apply Hf | by apply calls_ret]. Qed.

Lemma always_run {S A} (server : forall c, S -> S * reply c) (s : S) (p : prog A) Q :
  always p Q -> Q (run server s p).1.2 (run server s p).2.
Proof.
  revert s Q. induction p as [o|c k IH]; intros s Q Hp; simpl in *; [done|].
  destruct (server c s) as [s' r] eqn:Hs. specialize (IH r s' _ (Hp r)). simpl in IH.
  by destruct (run server s' (k r)) as [[s'' tr] o].
Qed.

(** ** Programs that return, whatever the server answers, with a value in [Post] *)
Definition returns {A} (Post : A -> Prop) (p : prog A) : Prop := always p (fun _ o => exists a, o = Ret a /\ Post a).
Lemma returns_ret {A} (Post : A -> Prop) a : Post a -> returns Post (mret a).
Proof. by exists a. Qed.
Lemma returns_ask c : returns anything (ask c).
Proof. intros r. by exists r. Qed.
Lemma returns_get k key : returns anything (get k key).
Proof. apply (returns_ask (CGet k key)). Qed.
Lemma returns_create k o : returns anything (create k o).
Proof. apply (returns_ask (CCreate k o)). Qed.
Lemma returns_update k o : returns anything (update k o).
Proof. apply (returns_ask (CUpdate k o)). Qed.
Lemma returns_updateStatus k o : returns anything (updateStatusOf k o).
Proof. apply (returns_ask (CUpdateStatus k o)). Qed.
Lemma returns_setOwner ok owner k o : returns anything (SetControllerReference ok owner k o).
Proof. apply (returns_ask (CSetOwner ok owner k o)). Qed.
Lemma returns_listNodes sel : returns anything (listNodes sel).
Proof. apply (returns_ask (CListNodes sel)). Qed.
Lemma returns_clock : returns anything clock.
Proof. apply (returns_ask CNow). Qed.
Lemma returns_bind {A B} (Mid : A -> Prop) (Post : B -> Prop) (p : prog A) (f : A -> prog B) :
  returns Mid p -> (forall a, Mid a -> returns Post (f a)) -> returns Post (p ≫= f).
Proof. intros Hp Hf. apply always_bind. eapply always_mono; [|exact Hp]. intros tr o (a & -> & Ha). by apply Hf. Qed.
Lemma returns_then {A B} (Post : B -> Prop) (p : prog A) (f : A -> prog B) :
  returns anything p -> (forall a, returns Post (f a)) -> returns Post (p ≫= f).
Proof. intros Hp Hf. eapply returns_bind; [exact Hp|]. intros a _. apply Hf. Qed.
Lemma returns_ok {A B} (p : prog (result A)) (f : A -> prog (result B)) :
  returns anything p -> (forall a, returns anything (f a)) -> returns anything (on_ok p f).
Proof. intros Hp Hf. apply returns_then; [done|]. intros [a|e]; [apply Hf | by apply returns_ret]. Qed.

(** ** The traces and outcomes that a program may have *)
Inductive may {A} : prog A -> list event -> outcome A -> Prop :=
| may_end o : may (End o) [] o
| may_next c k r tr o : may (k r) tr o -> may (Next c k) (Ev c r :: tr) o.

(** [always] is about all of them. *)
Lemma always_may {A} (p : prog A) Q : always p Q <-> forall tr o, may p tr o -> Q tr o.
Proof.
  split.
  - intros Hp tr o Hm. revert Q Hp. induction Hm as [o|c k r tr o Hm IH]; intros Q Hp; [exact Hp|]. exact (IH _ (Hp r)).
  - revert Q. induction p as [o|c k IH]; intros Q HQ; simpl; [apply HQ, may_end|].
    intros r. apply IH. intros tr o Hm. apply HQ. by apply may_next.
Qed.
Lemma calls_may {A} P (Post : A -> Prop) p tr a : calls P Post p -> may p tr (Ret a) -> Forall (fun e => P (ev_call e)) tr /\ Post a.
Proof. intros Hp Hm. destruct (proj1 (always_may p _) Hp tr (Ret a) Hm) as [Htr Ha]. split; [exact Htr | by apply Ha]. Qed.
Lemma run_may {S A} (server : forall c, S -> S * reply c) (s : S) (p : prog A) : may p (run server s p).1.2 (run server s p).2.
Proof. apply (always_run server s p (may p)), always_may. done. Qed.

(** Whenever the program returns, it has updated an object of the kind. *)
Definition updates (k : kind) {A} (p : prog A) : Prop := always p (fun tr o => forall a, o = Ret a -> exists x r, Ev (CUpdate k x) r ∈ tr).

(** ** What a program does as long as every answer satisfies [A] *)
Definition given {X} (A : event -> Prop) (p : prog X) (Q : list event -> outcome X -> Prop) : Prop :=
  always p (fun tr o => Forall A tr -> Q tr o).
Lemma always_if {X} (P : Prop) (p : prog X) Q : (P -> always p Q) -> always p (fun tr o => P -> Q tr o).
Proof.
  revert Q. induction p as [o|c k IH]; intros Q Hp; simpl; [exact Hp|]. intros r. apply IH. intros HP. exact (Hp HP r).
Qed.
Lemma given_end {X} A o (Q : list event -> outcome X -> Prop) : Q [] o -> given A (End o) Q.
Proof. by intros HQ _. Qed.
Lemma given_next {X} A c k (Q : list event -> outcome X -> Prop) :
  (forall r, A (Ev c r) -> given A (k r) (fun tr o => Q (Ev c r :: tr) o)) -> given A (Next c k) Q.
Proof.
  intros Hk r. eapply always_mono; [|apply (always_if _ _ _ (Hk r))].
  intros tr o Hq Htr. apply Forall_cons in Htr as [Hr Htr]. by apply Hq.
Qed.
Lemma given_bind {X Y} A (p : prog X) (f : X -> prog Y) Q :
  given A p (fun tr o => match o with
    | Ret a => given A (f a) (fun tr' o' => Q (tr ++ tr') o')
    | Panic w => Q tr (Panic w)
    | Blocked => Q tr Blocked
    end) -> given A (p ≫= f) Q.
Proof.
  intros Hp. apply always_bind. eapply always_mono; [|exact Hp]. intros tr [a|w|] Ha; [|exact Ha..].
  eapply always_mono; [|apply (always_if _ _ _ Ha)]. intros tr' o' Hq Htr. apply Forall_app in Htr as [Htr Htr']. by apply Hq.
Qed.
End programs.
#[export] Hint Resolve returns_get returns_create returns_update returns_updateStatus returns_setOwner returns_listNodes returns_clock : inference.
Notation "x '←?' p ; q" := (on_ok p (fun x => q)) (at level 20, p at level 100, q at level 200, right associativity) : op_scope.
