(* ===== verification/ControllerLib.v ===== *)
(** What the controllers share: the functions of controllerutil and of
    [equality.Semantic] that they use, their results, and the conditions of a
    status, which all three set by the same loop. *)
From S2P Require Import Prelude GoFloat Api ServiceApi Backend Kube.
Local Open Scope Z_scope.

(** What the controllers use of controllerutil and of
    [equality.Semantic.DeepEqual]: equal specs agree on the fields below. *)
Class ControllerLib `{QuantityOps} `{CoreTypes} := {
  ContainsFinalizer : list string -> string -> bool;
  AddFinalizer : list string -> string -> list string;
  RemoveFinalizer : list string -> string -> list string;
  deploymentSpecEqual : AppsDeploymentSpec -> AppsDeploymentSpec -> bool;
  serviceSpecEqual : CoreServiceSpec -> CoreServiceSpec -> bool;
  ContainsFinalizer_spec : forall fs f, ContainsFinalizer fs f = true <-> f ∈ fs;
  AddFinalizer_spec : forall fs f g, g ∈ AddFinalizer fs f <-> g ∈ fs \/ g = f;
  RemoveFinalizer_spec : forall fs f g, g ∈ RemoveFinalizer fs f <-> g ∈ fs /\ g <> f;
  deploymentSpecEqual_refl : forall s, deploymentSpecEqual s s = true;
  deploymentSpecEqual_fields : forall s t, deploymentSpecEqual s t = true ->
    ads_Replicas s = ads_Replicas t /\ ads_Unwritten s = ads_Unwritten t /\
    ct_Args <$> ps_Containers (pts_Spec (ads_Template s)) = ct_Args <$> ps_Containers (pts_Spec (ads_Template t));
  serviceSpecEqual_refl : forall s, serviceSpecEqual s s = true;
}.

Record Result := mkResult {
  res_Requeue : bool;
  res_RequeueAfter : Z;
  res_Error : option error;
}.
(** The controller manager queues the object again: at once, later, or, with
    back-off, after an error. *)
Definition requeues (r : Result) : Prop := res_Requeue r = true \/ 0 < res_RequeueAfter r \/ res_Error r <> None.


(** * Conditions *)
Definition ConditionTrue : string := "True".
Definition ConditionFalse : string := "False".

(** The loop of [setCondition], over the list. *)
Fixpoint upsertCondition (c : Condition) (cs : list Condition) : list Condition :=
  match cs with
  | [] => [c]
  | existing :: rest =>
      if decide (cond_Type existing = cond_Type c)
      then (if decide (cond_Status existing = cond_Status c) then existing else c) :: rest
      else existing :: upsertCondition c rest
  end.

Section conditions.
(** The condition of a type. *)
Definition conditionOf (ty : string) (cs : list Condition) : option Condition :=
  head (filter (fun c => cond_Type c = ty) cs).

Lemma conditionOf_upsert ty c cs :
  conditionOf ty (upsertCondition c cs) =
    if decide (ty = cond_Type c) then
      Some match conditionOf ty cs with
      | Some e => if decide (cond_Status e = cond_Status c) then e else c
      | None => c
      end
    else conditionOf ty cs.
Proof.
  unfold conditionOf. induction cs as [|e cs IH]; simpl.
  - rewrite filter_cons. by destruct (decide (cond_Type c = ty)), (decide (ty = cond_Type c)).
  - destruct (decide (cond_Type e = cond_Type c)) as [He|He].
    + destruct (decide (cond_Status e = cond_Status c)) as [Hs|Hs]; rewrite !filter_cons;
        destruct (decide (cond_Type e = ty)), (decide (ty = cond_Type c)), (decide (cond_Type c = ty));
        simpl; rewrite ?(decide_True _ _ Hs), ?(decide_False _ _ Hs); try done; exfalso; congruence.
    + rewrite !filter_cons. destruct (decide (cond_Type e = ty)) as [Ht|Ht]; [|exact IH].
      simpl. by rewrite decide_False by congruence.
Qed.

Lemma conditionOf_upsert_self c cs :
  exists c', conditionOf (cond_Type c) (upsertCondition c cs) = Some c' /\ cond_Status c' = cond_Status c.
Proof.
  rewrite conditionOf_upsert, decide_True by done. eexists. split; [done|].
  destruct (conditionOf _ _) as [e|]; [by case_decide | done].
Qed.

(** A condition that is there stays, or gets another status. *)
Lemma conditionOf_upsert_keeps ty c cs e : conditionOf ty cs = Some e ->
  exists e', conditionOf ty (upsertCondition c cs) = Some e' /\
    (e' = e \/ ty = cond_Type c /\ cond_Status e <> cond_Status e').
Proof.
  intros He. rewrite conditionOf_upsert, He. case_decide as Ht; [|by eauto]. eexists. split; [done|].
  case_decide as Hs; [by left | by right].
Qed.

(** Two conditions of different types: one of the list that keeps its status
    stays as it was, time and message included. *)
Lemma conditionOf_upsert2 ty c1 c2 cs c c' : cond_Type c1 <> cond_Type c2 -> conditionOf ty cs = Some c ->
  conditionOf ty (upsertCondition c2 (upsertCondition c1 cs)) = Some c' -> cond_Status c = cond_Status c' -> c' = c.
Proof.
  intros Hne Hc Hc' Heq. destruct (conditionOf_upsert_keeps ty c1 _ c Hc) as (d & Hd & H1).
  destruct (conditionOf_upsert_keeps ty c2 _ d Hd) as (d' & Hd' & H2). rewrite Hc' in Hd'. injection Hd' as <-.
  destruct H1 as [->|[Ht1 Hs1]], H2 as [->|[Ht2 Hs2]]; congruence.
Qed.

Lemma upsert_types c cs :
  cond_Type <$> upsertCondition c cs =
    if decide (cond_Type c ∈ cond_Type <$> cs) then cond_Type <$> cs else (cond_Type <$> cs) ++ [cond_Type c].
Proof.
  induction cs as [|e cs IH]; csimpl; [done|]. destruct (decide (cond_Type e = cond_Type c)) as [He|He].
  - destruct (decide (cond_Type c ∈ cond_Type e :: (cond_Type <$> cs))) as [_|Hno]; [|exfalso; apply Hno; rewrite He; by left].
    csimpl. by destruct (decide (cond_Status e = cond_Status c)); [|rewrite He].
  - csimpl. rewrite IH. destruct (decide (cond_Type c ∈ cond_Type <$> cs)) as [Hin|Hin].
    + by rewrite decide_True by (by right).
    + rewrite decide_False; [done|]. rewrite elem_of_cons. intros [?|?]; congruence.
Qed.

Lemma upsert_NoDup c cs : NoDup (cond_Type <$> cs) -> NoDup (cond_Type <$> upsertCondition c cs).
Proof.
  intros Hnd. rewrite upsert_types. case_decide as Hin; [done|]. apply NoDup_app. split_and!; [done | | apply NoDup_singleton].
  intros ty Hty ->%list_elem_of_singleton. done.
Qed.
End conditions.

