(* ===== verification/InferenceController.v ===== *)
(** The controller of inference services
    (internal/controller/inferenceservice_controller.go). *)
From S2P Require Import Prelude GoFloat Api GpuTypes ServiceApi Backend Kube ControllerLib.
From S2P Require GpuManager CacheManager.
Local Open Scope Z_scope.

Definition inferenceServiceFinalizer : string := "inference.ai/finalizer".
Definition requeueAfter : Z := 30 * Second.

Section controller.
Context `{QuantityOps} `{CoreTypes} `{!ControllerLib} `{GoRuntime} `{GpuManager.RatioScanner} {T : Type}.
Implicit Types (svc : InferenceService) (backend : Backend).

Record InferenceServiceReconciler := mkReconciler {
  GPUManager : GpuManager.Manager;
  CacheManager_ : CacheManager.Manager T;
  BackendFactory_ : BackendFactory;
}.
Implicit Type r : InferenceServiceReconciler.
Definition with_gpu gm r : InferenceServiceReconciler := mkReconciler gm (CacheManager_ r) (BackendFactory_ r).

(** ** Fields the controller writes *)
Definition set_finalizers (fs : list string) svc : InferenceService :=
  let m := is_ObjectMeta svc in
  mkInferenceService _ _ (mkObjectMeta (om_Name m) (om_Namespace m) (om_Generation m) (om_DeletionTimestamp m) fs)
    (is_Spec svc) (is_Status svc).
Definition with_status (f : InferenceServiceStatus -> InferenceServiceStatus) svc : InferenceService :=
  mkInferenceService _ _ (is_ObjectMeta svc) (is_Spec svc) (f (is_Status svc)).
Definition set_phase (phase : InferenceServicePhase) (s : InferenceServiceStatus) : InferenceServiceStatus :=
  mkInferenceServiceStatus _ phase (ist_ReadyReplicas s) (ist_AvailableReplicas s) (ist_URL s) (ist_GPUAllocations s)
    (ist_CacheStatus s) (ist_Conditions s) (ist_LastScaleTime s) (ist_ObservedGeneration s).
Definition set_generation (g : Z) (s : InferenceServiceStatus) : InferenceServiceStatus :=
  mkInferenceServiceStatus _ (ist_Phase s) (ist_ReadyReplicas s) (ist_AvailableReplicas s) (ist_URL s) (ist_GPUAllocations s)
    (ist_CacheStatus s) (ist_Conditions s) (ist_LastScaleTime s) g.
Definition set_replicas (ready available : Z) (s : InferenceServiceStatus) : InferenceServiceStatus :=
  mkInferenceServiceStatus _ (ist_Phase s) ready available (ist_URL s) (ist_GPUAllocations s)
    (ist_CacheStatus s) (ist_Conditions s) (ist_LastScaleTime s) (ist_ObservedGeneration s).
Definition set_url (url : string) (s : InferenceServiceStatus) : InferenceServiceStatus :=
  mkInferenceServiceStatus _ (ist_Phase s) (ist_ReadyReplicas s) (ist_AvailableReplicas s) url (ist_GPUAllocations s)
    (ist_CacheStatus s) (ist_Conditions s) (ist_LastScaleTime s) (ist_ObservedGeneration s).
Definition set_allocations (a : list GPUAllocation) (s : InferenceServiceStatus) : InferenceServiceStatus :=
  mkInferenceServiceStatus _ (ist_Phase s) (ist_ReadyReplicas s) (ist_AvailableReplicas s) (ist_URL s) a
    (ist_CacheStatus s) (ist_Conditions s) (ist_LastScaleTime s) (ist_ObservedGeneration s).
Definition set_conditions (cs : list Condition) (s : InferenceServiceStatus) : InferenceServiceStatus :=
  mkInferenceServiceStatus _ (ist_Phase s) (ist_ReadyReplicas s) (ist_AvailableReplicas s) (ist_URL s) (ist_GPUAllocations s)
    (ist_CacheStatus s) cs (ist_LastScaleTime s) (ist_ObservedGeneration s).

(** ** Conditions and status *)
Definition setCondition (c : Condition) svc : InferenceService :=
  with_status (fun s => set_conditions (upsertCondition c (ist_Conditions s)) s) svc.

(** A nil pointer that is read panics. *)
Definition deref {A} (p : option A) : outcome A :=
  match p with Some a => Ret a | None => Panic "nil pointer dereference" end.

Definition allReady (deployment : option Deployment) : outcome bool :=
  match deployment with
  | Some d => n ← deref (ads_Replicas (dp_Spec d)); Ret (dst_AvailableReplicas (dp_Status d) =? n)
  | None => Ret false
  end.
Definition readyCondition (now : Z) (ready : bool) : Condition :=
  if ready then mkCondition "Ready" ConditionTrue now "AllReplicasReady" "All replicas are ready"
  else mkCondition "Ready" ConditionFalse now "ReplicasNotReady" "Not all replicas are ready".
Definition modelCondition (now : Z) (phase : InferenceServicePhase) : Condition :=
  if decide (phase = InferenceServicePhaseRunning)
  then mkCondition "ModelLoaded" ConditionTrue now "ModelReady" "Model is loaded and ready"
  else mkCondition "ModelLoaded" ConditionFalse now "ModelLoading" "Model is being loaded".
Definition updateConditions (now : Z) svc (deployment : option Deployment) : outcome InferenceService :=
  ready ← allReady deployment;
  let svc := setCondition (readyCondition now ready) svc in
  Ret (setCondition (modelCondition now (ist_Phase (is_Status svc))) svc).

Definition deploymentPhase (deployment : option Deployment) : outcome InferenceServicePhase :=
  match deployment with
  | None => Ret InferenceServicePhasePending
  | Some d =>
      let st := dp_Status d in
      if 0 <? dst_AvailableReplicas st then
        n ← deref (ads_Replicas (dp_Spec d));
        Ret (if dst_AvailableReplicas st =? n then InferenceServicePhaseRunning else InferenceServicePhaseScaling)
      else if 0 <? dst_UnavailableReplicas st then Ret InferenceServicePhaseInitializing
      else Ret InferenceServicePhasePending
  end.

(** The status that [updateStatus] writes. *)
Definition newStatus (now : Z) svc (deployment : option Deployment) : outcome InferenceService :=
  phase ← deploymentPhase deployment;
  let svc := with_status (set_phase phase) svc in
  let svc := with_status (set_generation (om_Generation (is_ObjectMeta svc))) svc in
  let svc := match deployment with
    | Some d => with_status (set_replicas (dst_ReadyReplicas (dp_Status d)) (dst_AvailableReplicas (dp_Status d))) svc
    | None => svc
    end in
  let svc := with_status (set_url ("http://" +:+ svc_Name svc +:+ "." +:+ svc_Namespace svc +:+ ".svc.cluster.local")) svc in
  updateConditions now svc deployment.
Definition updateStatus svc (deployment : option Deployment) : prog (result InferenceService) :=
  now ← clock;
  svc ← lift (newStatus now svc deployment);
  updateStatusOf KInferenceService svc.

Definition errorCondition (now : Z) (e : error) : Condition :=
  mkCondition "Error" ConditionTrue now "ReconcileError" e.
Definition failedStatus (now : Z) (e : error) svc : InferenceService :=
  setCondition (errorCondition now e) (with_status (set_phase InferenceServicePhaseFailed) svc).
(** The outcome of the write is only logged. *)
Definition updateStatusWithError svc (e : error) : prog Result :=
  now ← clock;
  _ ← updateStatusOf KInferenceService (failedStatus now e svc);
  mret (mkResult false requeueAfter None).

(** ** Deletion *)
Definition handleDeletion (seed : nat) svc r : prog (InferenceServiceReconciler * Result) :=
  let svc := with_status (set_phase InferenceServicePhaseTerminating) svc in
  written ← updateStatusOf KInferenceService svc;
  let svc := match written with Ok svc => svc | Err _ => svc end in
  let r := with_gpu (GpuManager.Release seed (svc_Name svc) (svc_Namespace svc) (GPUManager r)).1 r in
  let svc := set_finalizers (RemoveFinalizer (om_Finalizers (is_ObjectMeta svc)) inferenceServiceFinalizer) svc in
  updated ← update KInferenceService svc;
  mret (r, mkResult false 0 (match updated with Ok _ => None | Err e => Some e end)).

Definition validateSpec svc : result unit :=
  if decide (md_Name (svc_Model svc) = "") then Err "model name is required"
  else if iss_Replicas (is_Spec svc) <? 0 then Err "replicas cannot be negative"
  else if gs_Count (svc_GPU svc) <? 1 then Err "at least 1 GPU is required"
  else Ok tt.

(** ** GPUs *)
Definition allocationRequest svc : AllocationRequest :=
  let g := svc_GPU svc in
  mkAllocationRequest _ (svc_Name svc) (svc_Namespace svc) (gs_Type g) (gs_Count g)
    (default Quantity_zero (gs_Memory g)) (gs_Sharing g) (gs_MIGProfile g)
    (match gs_GPUPoolRef g with Some ref => lor_Name ref | None => "" end).
Definition statusAllocation (a : GPUAllocationInfo) : GPUAllocation :=
  mkGPUAllocation _ (ga_NodeName a) (ga_DeviceID a) (ga_MIGInstance a) (ga_Memory a) 0.
Definition reconcileGPUAllocation (seed : nat) svc r : prog (InferenceServiceReconciler * result InferenceService) :=
  now ← clock;
  '(gm, res) ← lift (GpuManager.Allocate now seed (allocationRequest svc) (GPUManager r));
  mret (with_gpu gm r,
    match ar_Error res with
    | Some e => Err e
    | None =>
        Ok (if ar_Success res then with_status (set_allocations (statusAllocation <$> ar_Allocations res)) svc else svc)
    end).

(** Its error is only logged, and what it finds is not used. *)
Definition reconcileCacheConfiguration svc r : result unit :=
  match iss_Cache (is_Spec svc) with
  | Some c =>
      if cs_Enabled c then
        let cacheRef := match cs_TokenCacheRef c with Some ref => lor_Name ref | None => "" end in
        match CacheManager.GetCacheForService (svc_Name svc) (svc_Namespace svc) cacheRef (CacheManager_ r) with
        | Ok _ => Ok tt
        | Err e => Err e
        end
      else Ok tt
  | None => Ok tt
  end.

(** ** The deployment *)
Definition buildDeployment svc (spec : DeploymentSpec) : Deployment := {|
  dp_Meta := mkChildMeta _ (ds_Name spec) (ds_Namespace spec) (ds_Labels spec) (ds_Annotations spec) [];
  dp_Spec := {|
    ads_Replicas := Some (ds_Replicas spec);
    ads_Selector := {["app.kubernetes.io/name" := svc_Name svc]};
    ads_Template := {|
      pts_Labels := ds_Labels spec;
      pts_Annotations := ds_Annotations spec;
      pts_Spec := {|
        ps_ServiceAccountName := ds_ServiceAccountName spec;
        ps_NodeSelector := ds_NodeSelector spec;
        ps_Tolerations := ds_Tolerations spec;
        ps_SecurityContext := ds_SecurityContext spec;
        ps_InitContainers := ds_InitContainers spec;
        ps_Containers := [{|
          ct_Name := svc_Name svc; ct_Image := ds_Image spec; ct_Command := ds_Command spec; ct_Args := ds_Args spec;
          ct_Env := ds_Env spec; ct_Ports := ds_Ports spec; ct_Resources := ds_Resources spec;
          ct_VolumeMounts := ds_VolumeMounts spec; ct_ReadinessProbe := ds_ReadinessProbe spec;
          ct_LivenessProbe := ds_LivenessProbe spec; ct_StartupProbe := ds_StartupProbe spec |}];
        ps_Volumes := ds_Volumes spec;
        ps_ImagePullSecrets := iss_ImagePullSecrets (is_Spec svc);
      |};
    |};
    ads_Unwritten := Unwritten_zero;
  |};
  dp_Status := mkDeploymentStatus 0 0 0;
|}.

(** Creates the deployment, or brings the one that is there up to it. *)
Definition ensureDeployment svc (deployment : Deployment) : prog (result Deployment) :=
  owners ←? SetControllerReference KInferenceService svc KDeployment deployment;
  let deployment := mkDeployment _ _ (own owners (dp_Meta deployment)) (dp_Spec deployment) (dp_Status deployment) in
  found ← get KDeployment (meta_key (dp_Meta deployment));
  match found with
  | Failed e => mret (Err e)
  | NotFound => create KDeployment deployment
  | Found found =>
      if deploymentSpecEqual (dp_Spec found) (dp_Spec deployment) then mret (Ok found)
      else update KDeployment (mkDeployment _ _ (dp_Meta found) (dp_Spec deployment) (dp_Status found))
  end.
Definition reconcileDeployment (seed : nat) svc backend : prog (result Deployment) :=
  spec ←? lift (Ret (GpuManager.wrap_err "failed to generate deployment spec" (bk_GenerateDeployment backend seed svc)));
  ensureDeployment svc (buildDeployment svc spec).

(** ** The service *)
Definition buildService (spec : ServiceSpec) : CoreService := {|
  csv_Meta := mkChildMeta _ (ss_Name spec) (ss_Namespace spec) (ss_Labels spec) (ss_Annotations spec) [];
  csv_Spec := mkCoreServiceSpec _ "" (ss_Type spec) (ss_Ports spec) (ss_Selector spec) Unwritten_zero;
|}.
Definition set_clusterIP (ip : string) (s : CoreServiceSpec) : CoreServiceSpec :=
  mkCoreServiceSpec _ ip (css_Type s) (css_Ports s) (css_Selector s) (css_Unwritten s).

Definition ensureService svc (service : CoreService) : prog (result unit) :=
  owners ←? SetControllerReference KInferenceService svc KService service;
  let service := mkCoreService _ (own owners (csv_Meta service)) (csv_Spec service) in
  found ← get KService (meta_key (csv_Meta service));
  match found with
  | Failed e => mret (Err e)
  | NotFound => _ ←? create KService service; mret (Ok tt)
  | Found found =>
      let wanted := set_clusterIP (css_ClusterIP (csv_Spec found)) (csv_Spec service) in
      if serviceSpecEqual (csv_Spec found) wanted then mret (Ok tt)
      else _ ←? update KService (mkCoreService _ (csv_Meta found) wanted); mret (Ok tt)
  end.
Definition reconcileService svc backend : prog (result unit) :=
  spec ←? lift (Ret (GpuManager.wrap_err "failed to generate service spec" (bk_GenerateService backend svc)));
  ensureService svc (buildService spec).

(** ** The reconciler *)
Definition fail svc (e : error) r : prog (InferenceServiceReconciler * Result) :=
  res ← updateStatusWithError svc e; mret (r, res).

(** From the GPUs on, for a service and its backend. *)
Definition reconcileWith (allocSeed deploySeed : nat) svc backend r : prog (InferenceServiceReconciler * Result) :=
  '(r, allocated) ← reconcileGPUAllocation allocSeed svc r;
  match allocated with
  | Err e => fail svc e r
  | Ok svc =>
      let _ := reconcileCacheConfiguration svc r in
      deployed ← reconcileDeployment deploySeed svc backend;
      match deployed with
      | Err e => fail svc e r
      | Ok deployment =>
          served ← reconcileService svc backend;
          match served with
          | Err e => fail svc e r
          | Ok _ =>
              written ← updateStatus svc (Some deployment);
              mret (r, match written with
                | Ok _ => mkResult false requeueAfter None
                | Err e => mkResult false 0 (Some e)
                end)
          end
      end
  end.

(** The rest of [Reconcile], for the service that was fetched. *)
Definition reconcileObject (allocSeed deploySeed : nat) svc r : prog (InferenceServiceReconciler * Result) :=
  match om_DeletionTimestamp (is_ObjectMeta svc) with
  | Some _ => handleDeletion allocSeed svc r
  | None =>
      if ContainsFinalizer (om_Finalizers (is_ObjectMeta svc)) inferenceServiceFinalizer then
        match validateSpec svc with
        | Err e => fail svc e r
        | Ok _ =>
            match Backend.Get (iss_Backend (is_Spec svc)) (BackendFactory_ r) with
            | None => fail svc ("unsupported backend: " +:+ iss_Backend (is_Spec svc)) r
            | Some backend =>
                match bk_Validate backend svc with
                | Err e => fail svc e r
                | Ok _ => reconcileWith allocSeed deploySeed svc backend r
                end
            end
        end
      else
        updated ← update KInferenceService
          (set_finalizers (AddFinalizer (om_Finalizers (is_ObjectMeta svc)) inferenceServiceFinalizer) svc);
        mret (r, match updated with
          | Ok _ => mkResult true 0 None
          | Err e => mkResult false 0 (Some e)
          end)
  end.

Definition Reconcile (allocSeed deploySeed : nat) (key : NamespacedName) r : prog (InferenceServiceReconciler * Result) :=
  fetched ← get KInferenceService key;
  match fetched with
  | NotFound => mret (r, mkResult false 0 None)
  | Failed e => mret (r, mkResult false 0 (Some e))
  | Found svc => reconcileObject allocSeed deploySeed svc r
  end.
End controller.
