(* ===== verification/InferenceProps.v ===== *)
(** What the controller of inference services guarantees, whatever the API
    server answers. *)
From S2P Require Import Prelude GoFloat Api GpuTypes ServiceApi Backend Kube ControllerLib.
From S2P Require Import InferenceController.
From S2P Require GpuManager GpuProps CacheManager Mig MigProps Backends Vllm.
Local Open Scope Z_scope.

Section facts.
Context `{QuantityOps} `{CoreTypes} `{!ControllerLib} `{GoRuntime} `{GpuManager.RatioScanner} {T : Type}.
Implicit Types (svc : InferenceService) (r : InferenceServiceReconciler (T := T)) (d : Deployment).

(** What a call that writes the status of a service writes satisfies [Q]. *)
Definition on_status (Q : InferenceService -> Prop) (c : call) : Prop :=
  match c with
  | CUpdateStatus k o => match k return obj k -> Prop with KInferenceService => Q | _ => fun _ => True end o
  | _ => True
  end.

Definition svc_Conditions svc : list Condition := ist_Conditions (is_Status svc).

(** A failure only reads the clock and writes the status. *)
Lemma fail_calls_by (P : call -> Prop) svc e r : P CNow -> (forall now, P (CUpdateStatus KInferenceService (failedStatus now e svc))) ->
  calls P (fun x => x = (r, mkResult false requeueAfter None)) (fail svc e r).
Proof.
  intros Hnow Hst. unfold fail, updateStatusWithError. eapply (calls_bind _ (fun res => res = mkResult false requeueAfter None)).
  - apply calls_then; [by apply calls_clock|]. intros now.
    apply calls_then; [apply (calls_updateStatus _ KInferenceService), Hst|]. intros; by apply calls_ret.
  - intros res ->. by apply calls_ret.
Qed.

(** ** The calls of one reconciliation

    Besides reading, a reconciliation writes deployments and services, the
    finalizers of the service and its status.  A predicate on services that
    every step of the status keeps holds of what is written. *)
Definition childKinds : list kind := [KDeployment; KService].
Section status_writes.
Variables (P : call -> Prop) (Q : InferenceService -> Prop).
Hypothesis P_now : P CNow.
Hypothesis P_get : forall k key, P (CGet k key).
Hypothesis P_own : forall svc k o, P (CSetOwner KInferenceService svc k o).
Hypothesis P_create : forall k o, k ∈ childKinds -> P (CCreate k o).
Hypothesis P_update : forall k o, k ∈ KInferenceService :: childKinds -> P (CUpdate k o).
Hypothesis P_status : forall svc, Q svc -> P (CUpdateStatus KInferenceService svc).
Hypothesis Q_failed : forall now e svc, Q svc -> Q (failedStatus now e svc).
Hypothesis Q_terminating : forall svc, Q svc -> Q (with_status (set_phase InferenceServicePhaseTerminating) svc).
Hypothesis Q_allocations : forall al svc, Q svc -> Q (with_status (set_allocations al) svc).
Hypothesis Q_newStatus : forall now svc (d : option Deployment) svc', Q svc -> newStatus now svc d = Ret svc' -> Q svc'.

Lemma fail_calls svc e r : Q svc -> calls P anything (fail svc e r).
Proof. intros HQ. eapply calls_forget, fail_calls_by; [done | intros now; by apply P_status, Q_failed]. Qed.

Lemma reconcileDeployment_calls seed svc backend : calls P anything (reconcileDeployment seed svc backend).
Proof.
  unfold reconcileDeployment. apply calls_then_ok; [by apply calls_lift|]. intros spec. unfold ensureDeployment.
  apply calls_then_ok; [by apply (calls_setOwner _ KInferenceService _ KDeployment), P_own|]. intros owners. apply calls_then; [by apply (calls_get _ KDeployment), P_get|].
  intros [found| |e]; [destruct (deploymentSpecEqual _ _) | |];
    [by apply calls_ret | apply (calls_update _ KDeployment), P_update; set_solver | apply (calls_create _ KDeployment), P_create; set_solver | by apply calls_ret].
Qed.

Lemma reconcileService_calls svc backend : calls P anything (reconcileService svc backend).
Proof.
  unfold reconcileService. apply calls_then_ok; [by apply calls_lift|]. intros spec. unfold ensureService.
  apply calls_then_ok; [by apply (calls_setOwner _ KInferenceService _ KService), P_own|]. intros owners. apply calls_then; [by apply (calls_get _ KService), P_get|].
  intros [found| |e]; [destruct (serviceSpecEqual _ _); [by apply calls_ret|] | | by apply calls_ret];
    (apply calls_then_ok; [first [apply (calls_update _ KService), P_update; set_solver | apply (calls_create _ KService), P_create; set_solver]|]); intros; by apply calls_ret.
Qed.

Lemma reconcileGPUAllocation_calls seed svc r : Q svc ->
  calls P (fun x => forall svc', x.2 = Ok svc' -> Q svc') (reconcileGPUAllocation seed svc r).
Proof.
  intros HQ. unfold reconcileGPUAllocation. apply calls_then; [by apply calls_clock|]. intros now.
  apply calls_then; [by apply calls_lift|]. intros [gm res]. apply calls_ret. simpl.
  intros svc'. destruct (ar_Error res); [done|]. intros [= <-]. destruct (ar_Success res); auto.
Qed.

Lemma updateStatus_calls svc (d : option Deployment) : Q svc -> calls P anything (updateStatus svc d).
Proof.
  intros HQ. unfold updateStatus. apply calls_then; [by apply calls_clock|]. intros now.
  eapply (calls_bind _ Q); [apply calls_lift; intros svc' Hs; by eapply Q_newStatus|]. intros svc' HQ'.
  by apply (calls_updateStatus _ KInferenceService), P_status.
Qed.

Lemma reconcileObject_calls a b svc r : Q svc -> calls P anything (reconcileObject a b svc r).
Proof.
  intros HQ. unfold reconcileObject. destruct (om_DeletionTimestamp _).
  { unfold handleDeletion. apply calls_then; [by apply (calls_updateStatus _ KInferenceService), P_status, Q_terminating|].
    intros written. apply calls_then; [apply (calls_update _ KInferenceService), P_update; set_solver|]. intros; by apply calls_ret. }
  destruct (ContainsFinalizer _ _); [|apply calls_then; [apply (calls_update _ KInferenceService), P_update; set_solver | intros; by apply calls_ret]].
  destruct (validateSpec svc); [|by apply fail_calls]. destruct (Backend.Get _ _) as [backend|]; [|by apply fail_calls].
  destruct (bk_Validate backend svc); [|by apply fail_calls]. unfold reconcileWith.
  eapply calls_bind; [by apply reconcileGPUAllocation_calls|]. intros [r' [svc'|e]] Hsvc'; [|by apply fail_calls].
  simpl in Hsvc'. specialize (Hsvc' svc' eq_refl).
  apply calls_then; [apply reconcileDeployment_calls|]. intros [d|e]; [|by apply fail_calls].
  apply calls_then; [apply reconcileService_calls|]. intros [[]|e]; [|by apply fail_calls].
  apply calls_then; [by apply updateStatus_calls|]. intros; by apply calls_ret.
Qed.
End status_writes.

(** ** What [updateStatus] writes *)
Lemma newStatus_spec now svc (d : option Deployment) svc' : newStatus now svc d = Ret svc' ->
  exists phase ready, deploymentPhase d = Ret phase /\ allReady d = Ret ready /\
    is_ObjectMeta svc' = is_ObjectMeta svc /\ is_Spec svc' = is_Spec svc /\
    is_Status svc' = mkInferenceServiceStatus _ phase
      (from_option (fun d => dst_ReadyReplicas (dp_Status d)) (ist_ReadyReplicas (is_Status svc)) d)
      (from_option (fun d => dst_AvailableReplicas (dp_Status d)) (ist_AvailableReplicas (is_Status svc)) d)
      ("http://" +:+ svc_Name svc +:+ "." +:+ svc_Namespace svc +:+ ".svc.cluster.local")
      (ist_GPUAllocations (is_Status svc)) (ist_CacheStatus (is_Status svc))
      (upsertCondition (modelCondition now phase) (upsertCondition (readyCondition now ready) (svc_Conditions svc)))
      (ist_LastScaleTime (is_Status svc)) (om_Generation (is_ObjectMeta svc)).
Proof.
  unfold newStatus, updateConditions. intros (phase & Hp & Hn)%outcome_bind_Ret.
  apply outcome_bind_Ret in Hn as (ready & Hr & [= <-]). exists phase, ready. by destruct d.
Qed.

Definition hasError svc : Prop :=
  exists c, conditionOf "Error" (svc_Conditions svc) = Some c /\ cond_Status c = ConditionTrue.

Lemma hasError_upsert svc c : hasError svc -> cond_Type c <> "Error" \/ cond_Status c = ConditionTrue ->
  exists c', conditionOf "Error" (upsertCondition c (svc_Conditions svc)) = Some c' /\ cond_Status c' = ConditionTrue.
Proof.
  intros (e & He & Hs) Hc. rewrite conditionOf_upsert, He. case_decide as Ht; [|by exists e].
  destruct Hc as [?|Hc]; [congruence|]. exists e. by rewrite decide_True by congruence.
Qed.

Lemma hasError_newStatus now svc (d : option Deployment) svc' : hasError svc -> newStatus now svc d = Ret svc' -> hasError svc'.
Proof.
  intros He (phase & ready & _ & _ & _ & _ & Hst)%newStatus_spec. unfold hasError, svc_Conditions. rewrite Hst. cbn [ist_Conditions].
  rewrite conditionOf_upsert. unfold modelCondition. rewrite decide_False by (by case_decide).
  rewrite conditionOf_upsert. unfold readyCondition. rewrite decide_False by (by destruct ready). exact He.
Qed.

Lemma conditionTypes_newStatus now svc (d : option Deployment) svc' : NoDup (cond_Type <$> svc_Conditions svc) -> newStatus now svc d = Ret svc' ->
  NoDup (cond_Type <$> svc_Conditions svc').
Proof.
  intros Hnd (phase & ready & _ & _ & _ & _ & Hst)%newStatus_spec. unfold svc_Conditions. rewrite Hst. by apply upsert_NoDup, upsert_NoDup.
Qed.

(** ** GPUs *)
Lemma validateSpec_count svc : validateSpec svc = Ok tt -> 1 <= gs_Count (svc_GPU svc).
Proof.
  unfold validateSpec. case_decide; [done|]. destruct (_ <? 0); [done|]. destruct (Z.ltb_spec (gs_Count (svc_GPU svc)) 1); [done | lia].
Qed.

(** ** Loops of the controller: services as they were fetched, one after another *)
Fixpoint reconcileAll (fetched : list (nat * nat * InferenceService)) r : prog (InferenceServiceReconciler (T := T)) :=
  match fetched with
  | [] => mret r
  | (a, b, svc) :: rest => '(r, _) ← reconcileObject a b svc r; reconcileAll rest r
  end.

(** What a loop keeps when every reconciliation does. *)
Lemma reconcileAll_calls (P : call -> Prop) (Inv : nat -> InferenceServiceReconciler (T := T) -> Prop) fetched r n :
  (forall a b svc r n, (a, b, svc) ∈ fetched -> Inv n r -> calls P (fun x => Inv (S n) x.1) (reconcileObject a b svc r)) ->
  Inv n r -> calls P (Inv (n + length fetched)%nat) (reconcileAll fetched r).
Proof.
  revert r n. induction fetched as [|[[a b] svc] rest IH]; intros r n Hstep Hr; simpl.
  - apply calls_ret. by rewrite Nat.add_0_r.
  - eapply calls_bind; [apply Hstep; [by left | exact Hr]|]. intros [r' res] Hr'. rewrite <- Nat.add_succ_comm.
    apply IH; [|exact Hr']. intros a' b' svc' r'' n' Hin. apply Hstep. by right.
Qed.
(** What may be asked of the server while no GPU can be had: no object is
    created, no deployment or service is changed, and the phase written is
    Failed, or Terminating for a deletion. *)
Definition onlyFailure (c : call) : Prop :=
  match c with
  | CCreate _ _ => False
  | CUpdate KInferenceService _ => True
  | CUpdate _ _ => False
  | CUpdateStatus _ _ => on_status (fun svc => ist_Phase (is_Status svc) ∈
      [InferenceServicePhaseFailed; InferenceServicePhaseTerminating]) c
  | _ => True
  end.

Lemma unallocatable_calls a b svc r :
  rtc GpuProps.gmStep GpuManager.NewManager (GPUManager r) -> gs_Sharing (svc_GPU svc) <> GPUSharingModeMIG ->
  calls onlyFailure (fun x => rtc GpuProps.gmStep GpuManager.NewManager (GPUManager x.1)) (reconcileObject a b svc r).
Proof.
  intros Hr Hmode.
  assert (Hfail : forall svc' e r', rtc GpuProps.gmStep GpuManager.NewManager (GPUManager r') ->
    calls onlyFailure (fun x => rtc GpuProps.gmStep GpuManager.NewManager (GPUManager x.1)) (fail svc' e r')).
  { intros svc' e r' Hr'. eapply calls_mono; [done | | apply fail_calls_by; [done | intros now; by left]]. by intros x ->. }
  unfold reconcileObject. destruct (om_DeletionTimestamp _).
  { unfold handleDeletion. apply calls_then; [apply (calls_updateStatus _ KInferenceService); by right; left|].
    intros written. apply calls_then; [by apply (calls_update _ KInferenceService)|]. intros updated. apply calls_ret. simpl.
    eapply rtc_r; [exact Hr | apply GpuProps.gmStep_Release]. }
  destruct (ContainsFinalizer _ _); [|apply calls_then; [by apply (calls_update _ KInferenceService) | intros; by apply calls_ret]].
  destruct (validateSpec svc) as [[]|e] eqn:Hv; [|by apply Hfail]. apply validateSpec_count in Hv.
  destruct (Backend.Get _ _) as [backend|]; [|by apply Hfail]. destruct (bk_Validate backend svc); [|by apply Hfail].
  unfold reconcileWith, reconcileGPUAllocation.
  eapply (calls_bind _ (fun x => rtc GpuProps.gmStep GpuManager.NewManager (GPUManager x.1) /\ exists e, x.2 = Err e)).
  - apply calls_then; [by apply calls_clock|]. intros now.
    eapply (calls_bind _ (fun x => GpuManager.Allocate now a (allocationRequest svc) (GPUManager r) = Ret x)); [by apply calls_lift|].
    intros [gm res] Ha. apply calls_ret. cbn [fst snd GPUManager with_gpu]. split.
    + eapply rtc_r; [exact Hr | by eapply GpuProps.gmStep_Allocate].
    + destruct (GpuProps.Allocate_no_devices now a (allocationRequest svc) _ gm res (GpuProps.gm_reach_NoDevices _ Hr) Ha) as [_ He].
      destruct (He Hmode Hv) as [e ->]. by exists e.
  - intros [r' allocated] [Hr' [e He]]. simpl in He, Hr'. subst allocated. by apply Hfail.
Qed.

(** ** MIG instances held by a service *)
Definition holds (req : AllocationRequest) (m : Mig.MIGManager) (ls : list loc) : Prop :=
  NoDup ls /\ forall l, l ∈ ls -> exists i, Mig.mm_heap m !! l = Some i /\ Mig.ii_InUse i = true /\
    Mig.ii_AllocatedTo i = rq_ServiceName req /\ Mig.ii_Namespace i = rq_Namespace req.

Lemma granted_holds req (m m' : Mig.MIGManager) ls new infos : holds req m ls -> MigProps.granted req m m' new infos ->
  holds req m' (ls ++ new).
Proof.
  intros [Hnd Hheld] Hg. split.
  - apply NoDup_app. split_and!; [done | | by eapply MigProps.gr_NoDup]. intros l Hl Hnew.
    destruct (Hheld l Hl) as (i & Hi & Huse & _). rewrite (MigProps.gr_free _ _ _ _ _ Hg l i Hnew Hi) in Huse. done.
  - intros l Hl. destruct (decide (l ∈ new)) as [Hnew|Hnew].
    + apply list_elem_of_lookup in Hnew as [j Hj].
      destruct (MigProps.gr_owner _ _ _ _ _ Hg j l Hj) as (i & info & Hi & _ & Hu & Ha & Hn & _). by exists i.
    + apply elem_of_app in Hl as [Hl|?]; [|done]. destruct (Hheld l Hl) as (i & Hi & Hrest). exists i.
      split; [|exact Hrest]. by apply (MigProps.gr_frame _ _ _ _ _ Hg).
Qed.

(** A service that reconciliation takes past validation, with its request. *)
Record healthy (f : BackendFactory) (req : AllocationRequest) svc : Prop := {
  hl_DeletionTimestamp : om_DeletionTimestamp (is_ObjectMeta svc) = None;
  hl_Finalizers : ContainsFinalizer (om_Finalizers (is_ObjectMeta svc)) inferenceServiceFinalizer = true;
  hl_Spec : validateSpec svc = Ok tt;
  hl_Backend : exists backend, Backend.Get (iss_Backend (is_Spec svc)) f = Some backend /\ bk_Validate backend svc = Ok tt;
  hl_Request : allocationRequest svc = req;
}.

(** A pool of the manager whose MIG configuration is in place, and what the
    service holds of it. *)
Record migReady (f : BackendFactory) (pool : PoolInfo) (req : AllocationRequest) (n : nat) r : Prop := {
  mr_Reach : rtc MigProps.migStep Mig.NewMIGManager (GpuManager.gm_mig (GPUManager r));
  mr_Pool : GpuManager.gm_pools (GPUManager r) !! rq_PoolName req = Some pool;
  mr_Config : is_Some (Mig.mm_pools (GpuManager.gm_mig (GPUManager r)) !! pi_Name pool);
  mr_Factory : BackendFactory_ r = f;
  mr_Held : exists ls, holds req (GpuManager.gm_mig (GPUManager r)) ls /\
    Z.of_nat (length ls) = Z.of_nat n * rq_GPUCount req;
}.

(** Reconciling a healthy service is one allocation to the GPU manager. *)
Lemma reconcileObject_allocates f req a b svc r : healthy f req svc -> BackendFactory_ r = f ->
  calls anything (fun x => exists now gm res, GpuManager.Allocate now a req (GPUManager r) = Ret (gm, res) /\ x.1 = with_gpu gm r)
    (reconcileObject a b svc r).
Proof.
  intros Hs Hf. unfold reconcileObject. rewrite (hl_DeletionTimestamp _ _ _ Hs), (hl_Finalizers _ _ _ Hs), (hl_Spec _ _ _ Hs).
  destruct (hl_Backend _ _ _ Hs) as (backend & Hget & Hval). rewrite Hf, Hget, Hval. unfold reconcileWith.
  set (Done := fun r' => exists now gm res, GpuManager.Allocate now a req (GPUManager r) = Ret (gm, res) /\ r' = with_gpu gm r).
  assert (Hfail : forall svc' e r', Done r' -> calls anything (fun x => Done x.1) (fail svc' e r')).
  { intros svc' e r' Hr'. eapply calls_mono; [done | | by apply (fail_calls_by anything)]. by intros x ->. }
  eapply (calls_bind _ (fun x => Done x.1)).
  - unfold reconcileGPUAllocation. apply calls_then; [apply calls_any|]. intros now. rewrite (hl_Request _ _ _ Hs).
    eapply (calls_bind _ (fun x => GpuManager.Allocate now a req (GPUManager r) = Ret x)); [by apply calls_lift|].
    intros [gm res] Ha. apply calls_ret. by exists now, gm, res.
  - intros [r' [svc'|e]] Hr'; cbn [fst] in Hr'; [|by apply Hfail].
    apply calls_then; [apply calls_any|]. intros [d|e]; [|by apply Hfail].
    apply calls_then; [apply calls_any|]. intros [[]|e]; [|by apply Hfail].
    apply calls_then; [apply calls_any|]. intros; by apply calls_ret.
Qed.

Lemma reconcileObject_mig f pool req n a b svc r :
  healthy f req svc -> rq_SharingMode req = GPUSharingModeMIG -> is_Some (Mig.migProfiles !! rq_MIGProfile req) ->
  migReady f pool req n r -> calls anything (fun x => migReady f pool req (S n) x.1) (reconcileObject a b svc r).
Proof.
  intros Hs Hmode [profile Hprof] [Hr Hpool [config Hcfg] Hf (ls & Hheld & Hlen)].
  eapply calls_mono; [done | | by apply (reconcileObject_allocates f req)]. intros [r' res'] (now & gm & res & Ha & E).
  cbn [fst] in *. subst r'.
  assert (Hcount : 1 <= rq_GPUCount req).
  { rewrite <- (hl_Request _ _ _ Hs). apply validateSpec_count, (hl_Spec _ _ _ Hs). }
  destruct (MigProps.Allocate_granted (S a) req (pi_Name pool) config profile (GpuManager.gm_mig (GPUManager r)))
    as (mig & infos & new & Hmig & Hg); [by apply MigProps.mig_reach_WF | done | done | lia |].
  rewrite (GpuProps.Allocate_mig now a req pool _ Hpool Hmode mig infos Hmig) in Ha. injection Ha as <- _. constructor; cbn.
  - eapply rtc_r; [exact Hr | by eapply MigProps.migStep_Allocate].
  - done.
  - by eapply MigProps.mig_Allocate_pools.
  - done.
  - exists (ls ++ new). split; [by eapply granted_holds|]. rewrite length_app, Nat2Z.inj_add, Hlen, (MigProps.gr_count _ _ _ _ _ Hg). lia.
Qed.

(** Every status that such a reconciliation writes lists the instances of one
    allocation. *)
Definition listsOne (req : AllocationRequest) : call -> Prop :=
  on_status (fun svc => Z.of_nat (length (ist_GPUAllocations (is_Status svc))) = rq_GPUCount req).
Lemma reconcileObject_mig_lists f pool req n a b svc r :
  healthy f req svc -> rq_SharingMode req = GPUSharingModeMIG -> is_Some (Mig.migProfiles !! rq_MIGProfile req) ->
  migReady f pool req n r -> calls (listsOne req) anything (reconcileObject a b svc r).
Proof.
  intros Hs Hmode [profile Hprof] [Hr Hpool [config Hcfg] Hf _].
  assert (Hcount : 1 <= rq_GPUCount req) by (rewrite <- (hl_Request _ _ _ Hs); apply validateSpec_count, (hl_Spec _ _ _ Hs)).
  destruct (MigProps.Allocate_granted (S a) req (pi_Name pool) config profile (GpuManager.gm_mig (GPUManager r)))
    as (mig & infos & new & Hmig & Hg); [by apply MigProps.mig_reach_WF | done | done | lia |].
  unfold reconcileObject. rewrite (hl_DeletionTimestamp _ _ _ Hs), (hl_Finalizers _ _ _ Hs), (hl_Spec _ _ _ Hs).
  destruct (hl_Backend _ _ _ Hs) as (backend & Hget & Hval). rewrite Hf, Hget, Hval. unfold reconcileWith, listsOne.
  set (Q := fun svc : InferenceService => _).
  assert (Hfail : forall svc' e r', Q svc' -> calls (on_status Q) anything (fail svc' e r')).
  { intros svc' e r' HQ. by apply (fail_calls (on_status Q) Q). }
  apply (calls_bind _ (fun x => exists svc', x.2 = Ok svc' /\ Q svc')).
  - unfold reconcileGPUAllocation. apply calls_then; [by apply calls_clock|]. intros now.
    rewrite (hl_Request _ _ _ Hs), (GpuProps.Allocate_mig now a req pool _ Hpool Hmode mig infos Hmig).
    apply (calls_ret _ (fun x => exists svc', x.2 = Ok svc' /\ Q svc')). eexists. split; [reflexivity|].
    unfold Q. cbn. rewrite length_fmap, (MigProps.gr_infos _ _ _ _ _ Hg). by rewrite (MigProps.gr_count _ _ _ _ _ Hg).
  - intros [r' res] (svc' & E & HQ). cbn in E. subst res.
    apply calls_then; [by apply (reconcileDeployment_calls (on_status Q) (fun _ => False))|]. intros [d|e]; [|by apply Hfail].
    apply calls_then; [by apply (reconcileService_calls (on_status Q) (fun _ => False))|]. intros [[]|e]; [|by apply Hfail].
    apply calls_then; [|intros; by apply calls_ret]. apply (updateStatus_calls (on_status Q) Q); try done.
    intros now svc1 d1 svc2 HQ1 (phase & ready & _ & _ & _ & _ & Hst)%newStatus_spec. unfold Q. by rewrite Hst.
Qed.

(** ** Writes of the deployment *)
Inductive deploymentWrite := Created (d : Deployment) | Updated (d : Deployment).
Definition deploymentWriteOf (e : event) : option deploymentWrite :=
  match ev_call e with
  | CCreate k o => match k return obj k -> option deploymentWrite with KDeployment => fun d => Some (Created d) | _ => fun _ => None end o
  | CUpdate k o => match k return obj k -> option deploymentWrite with KDeployment => fun d => Some (Updated d) | _ => fun _ => None end o
  | _ => None
  end.
(** What the server answered when asked for the deployment. *)
Definition deploymentGot (e : event) : option (got Deployment) :=
  match e with
  | Ev c r =>
      match c return reply c -> option (got Deployment) with
      | CGet k _ => match k return got (obj k) -> option (got Deployment) with KDeployment => Some | _ => fun _ => None end
      | _ => fun _ => None
      end r
  end.

(** [ensureDeployment] writes at most once, and when it has to. *)
Definition ensured (dep : Deployment) (tr : list event) (o : outcome (result Deployment)) : Prop :=
  match omap deploymentWriteOf tr, omap deploymentGot tr with
  | [], [Found found] => deploymentSpecEqual (dp_Spec found) (dp_Spec dep) = true /\ o = Ret (Ok found)
  | [], _ => exists e, o = Ret (Err e)
  | [Created d], [NotFound] => dp_Spec d = dp_Spec dep /\ meta_key (dp_Meta d) = meta_key (dp_Meta dep)
  | [Updated d], [Found found] => deploymentSpecEqual (dp_Spec found) (dp_Spec dep) = false /\
      dp_Spec d = dp_Spec dep /\ dp_Meta d = dp_Meta found /\ dp_Status d = dp_Status found
  | _, _ => False
  end.
Lemma ensureDeployment_spec svc dep : always (ensureDeployment svc dep) (ensured dep).
Proof.
  unfold ensureDeployment, ensured. cbn. intros [owners|e]; cbn; [|by exists e].
  intros [found| |e]; cbn; [| done | by exists e].
  destruct (deploymentSpecEqual (dp_Spec found) (dp_Spec dep)) eqn:Heq; cbn; done.
Qed.
End facts.

Section properties.
Context `{QuantityOps} `{CoreTypes} `{!ControllerLib} `{GoRuntime} `{GpuManager.RatioScanner} {T : Type}.
Implicit Types (svc : InferenceService) (r : InferenceServiceReconciler (T := T)) (d : Deployment).

(** The Error condition is never taken back: a service that has it keeps
    it in every status that a reconciliation writes, whatever the reconciler's
    state and the answers of the API server, a successful reconciliation
    included. *)
Theorem isvc_error_sticks a b svc r :
  hasError svc -> calls (on_status hasError) anything (reconcileObject a b svc r).
Proof.
  apply (reconcileObject_calls (on_status hasError) hasError); try done.
  - intros now e svc' He. eapply hasError_upsert; [exact He | by right].
  - apply hasError_newStatus.
Qed.

(** The conditions of a service stay keyed by their type, as the API
    requires of them: every status that a reconciliation writes has at most one
    condition of a type if the service read had. *)
Theorem isvc_conditions_keyed a b svc r :
  NoDup (cond_Type <$> svc_Conditions svc) ->
  calls (on_status (fun svc => NoDup (cond_Type <$> svc_Conditions svc))) anything (reconcileObject a b svc r).
Proof.
  set (Q := fun svc => _). apply (reconcileObject_calls (on_status Q) Q); try done.
  - intros now e svc' Hnd. by apply upsert_NoDup.
  - apply conditionTypes_newStatus.
Qed.

(** C32. What [updateStatus] writes for a deployment that asks for [n]
    replicas: the phase is Running exactly when all of at least one replica are
    available, Scaling when some other positive number is, Initializing when
    none is and some are unavailable, else Pending; Ready says whether the
    available replicas are [n], so that a service scaled to zero is Ready while
    its phase is Pending, and ModelLoaded whether the phase is Running; a
    condition that keeps its status keeps its transition time. *)
Theorem isvc_status now svc d n :
  ads_Replicas (dp_Spec d) = Some n ->
  let available := dst_AvailableReplicas (dp_Status d) in
  exists svc', newStatus now svc (Some d) = Ret svc' /\
    ist_Phase (is_Status svc') =
      (if 0 <? available then if available =? n then InferenceServicePhaseRunning else InferenceServicePhaseScaling
       else if 0 <? dst_UnavailableReplicas (dp_Status d) then InferenceServicePhaseInitializing
       else InferenceServicePhasePending) /\
    ist_ReadyReplicas (is_Status svc') = dst_ReadyReplicas (dp_Status d) /\
    ist_AvailableReplicas (is_Status svc') = available /\
    ist_ObservedGeneration (is_Status svc') = om_Generation (is_ObjectMeta svc) /\
    (exists c, conditionOf "Ready" (svc_Conditions svc') = Some c /\ (cond_Status c = ConditionTrue <-> available = n)) /\
    (exists c, conditionOf "ModelLoaded" (svc_Conditions svc') = Some c /\
       (cond_Status c = ConditionTrue <-> ist_Phase (is_Status svc') = InferenceServicePhaseRunning)) /\
    (forall ty c c', conditionOf ty (svc_Conditions svc) = Some c -> conditionOf ty (svc_Conditions svc') = Some c' ->
       cond_Status c = cond_Status c' -> cond_LastTransitionTime c' = cond_LastTransitionTime c).
Proof.
  intros Hn available.
  assert (Hphase : deploymentPhase (Some d) = Ret
    (if 0 <? available then if available =? n then InferenceServicePhaseRunning else InferenceServicePhaseScaling
     else if 0 <? dst_UnavailableReplicas (dp_Status d) then InferenceServicePhaseInitializing else InferenceServicePhasePending)).
  { unfold deploymentPhase. fold available. rewrite Hn. destruct (0 <? available); [reflexivity|]. by destruct (0 <? _).  }
  assert (Hready : allReady (Some d) = Ret (available =? n)) by (unfold allReady; by rewrite Hn).
  destruct (newStatus now svc (Some d)) as [svc'|w|] eqn:Hs;
    [| exfalso; revert Hs; unfold newStatus, updateConditions; rewrite Hphase, Hready; discriminate ..].
  exists svc'. split; [done|]. apply newStatus_spec in Hs as (phase & ready & Hp & Hr & _ & _ & Hst).
  rewrite Hphase in Hp. rewrite Hready in Hr. injection Hp as Hp. injection Hr as Hr.
  unfold svc_Conditions at 1 2 4. rewrite Hst. cbn [ist_Phase ist_ReadyReplicas ist_AvailableReplicas ist_ObservedGeneration ist_Conditions from_option].
  assert (Tr : cond_Type (readyCondition now ready) = "Ready") by (by destruct ready).
  assert (Tm : cond_Type (modelCondition now phase) = "ModelLoaded") by (unfold modelCondition; by case_decide).
  split_and!; [by rewrite <- Hp | done.. | | |].
  - destruct (conditionOf_upsert_self (readyCondition now ready) (svc_Conditions svc)) as (c & Hc & Hcs). rewrite Tr in Hc.
    exists c. rewrite conditionOf_upsert, Tm, decide_False, Hc, Hcs by done. split; [done|]. subst ready. unfold readyCondition.
    destruct (Z.eqb_spec available n); by split.
  - destruct (conditionOf_upsert_self (modelCondition now phase) (upsertCondition (readyCondition now ready) (svc_Conditions svc)))
      as (c & Hc & Hcs). rewrite Tm in Hc. exists c. split; [done|]. rewrite Hcs. unfold modelCondition. by case_decide.
  - intros ty c c' Hc Hc' Heq. f_equal. refine (conditionOf_upsert2 ty _ _ _ c c' _ Hc Hc' Heq). by rewrite Tr, Tm.
Qed.

(** Since the GPU manager never learns of a device, no service outside MIG
    is ever deployed: however often such services are reconciled, in whatever
    state the manager has reached and whatever the server answers, the
    controller creates and changes no deployment and no service, and the only
    phases it writes are Failed and Terminating. *)
Theorem isvc_no_devices_no_deployment fetched r :
  rtc GpuProps.gmStep GpuManager.NewManager (GPUManager r) ->
  (forall a b svc, (a, b, svc) ∈ fetched -> gs_Sharing (svc_GPU svc) <> GPUSharingModeMIG) ->
  calls onlyFailure (fun r' => rtc GpuProps.gmStep GpuManager.NewManager (GPUManager r')) (reconcileAll fetched r).
Proof.
  intros Hr Hmode.
  apply (reconcileAll_calls onlyFailure (fun _ r => rtc GpuProps.gmStep GpuManager.NewManager (GPUManager r)) fetched r 0); [|done].
  clear r Hr. intros a b svc r _ Hin%Hmode Hr. by apply unallocatable_calls.
Qed.

(** C8. Every reconciliation of a healthy MIG service allocates again: after
    [k] reconciliations of it, whatever the server answers, the service holds [k]
    times the instances it asked for, all different and all in use; and every
    status that they write lists only as many as one reconciliation asked for. *)
Theorem isvc_mig_accumulates f pool req fetched r :
  rq_SharingMode req = GPUSharingModeMIG -> is_Some (Mig.migProfiles !! rq_MIGProfile req) ->
  migReady f pool req 0 r -> (forall a b svc, (a, b, svc) ∈ fetched -> healthy f req svc) ->
  calls (listsOne req) (fun r' => exists ls, holds req (GpuManager.gm_mig (GPUManager r')) ls /\
    Z.of_nat (length ls) = Z.of_nat (length fetched) * rq_GPUCount req) (reconcileAll fetched r).
Proof.
  intros Hmode Hprof Hr Hs.
  eapply calls_mono; [done | | apply (reconcileAll_calls (listsOne req) (migReady f pool req) fetched r 0); [|exact Hr]].
  - intros r' Hr'. exact (mr_Held _ _ _ _ _ Hr').
  - intros a b svc r' n Hin%Hs Hr'. eapply calls_mono; [| | eapply calls_and; [by eapply reconcileObject_mig | by eapply reconcileObject_mig_lists]];
      [by intros c [_ ?] | by intros x [? _]].
Qed.


(** C31. For a service whose backend describes a deployment, a reconciliation
    writes the deployment at most once: it creates the described one when the
    server has none, it replaces the spec, and nothing else, of one whose spec
    differs, and it writes nothing when the specs are equal.  Specs are compared
    whole, so one in which the server has filled in a field that the controller
    leaves empty always differs, and is written by every reconciliation. *)
Theorem isvc_deployment_writes seed svc backend spec :
  bk_GenerateDeployment backend seed svc = Ok spec ->
  always (reconcileDeployment seed svc backend) (fun tr o =>
    ensured (buildDeployment svc spec) tr o /\
    forall found, omap deploymentGot tr = [Found found] -> ads_Unwritten (dp_Spec found) <> Unwritten_zero ->
      exists d, omap deploymentWriteOf tr = [Updated d] /\ dp_Spec d = dp_Spec (buildDeployment svc spec)).
Proof.
  intros Hspec. unfold reconcileDeployment. rewrite Hspec. eapply always_mono; [|apply ensureDeployment_spec].
  intros tr o Hens. split; [exact Hens|]. intros found Hgot Hun. unfold ensured in Hens. rewrite Hgot in Hens.
  destruct (omap deploymentWriteOf tr) as [|[d|d] [|]]; try done; [|exists d; by destruct Hens as (_ & ? & _)].
  destruct Hens as [(_ & Hu & _)%deploymentSpecEqual_fields _]. by rewrite Hu in Hun.
Qed.

(** The life of a service begins with its finalizer and ends without it:
    a service that lacks it gets it, and nothing else happens before it is
    stored; one that is being deleted is marked Terminating, its GPUs are
    released, the finalizer goes, and nothing is created. *)
Theorem isvc_finalizer a b svc r :
  (om_DeletionTimestamp (is_ObjectMeta svc) = None -> inferenceServiceFinalizer ∉ om_Finalizers (is_ObjectMeta svc) ->
   calls (fun c => exists svc', c = CUpdate KInferenceService svc' /\ is_Spec svc' = is_Spec svc /\
       inferenceServiceFinalizer ∈ om_Finalizers (is_ObjectMeta svc') /\
       om_Finalizers (is_ObjectMeta svc) ⊆ om_Finalizers (is_ObjectMeta svc'))
     (fun x => x.1 = r) (reconcileObject a b svc r)) /\
  (is_Some (om_DeletionTimestamp (is_ObjectMeta svc)) ->
   calls (fun c => exists svc', c = CUpdateStatus KInferenceService svc' /\ ist_Phase (is_Status svc') = InferenceServicePhaseTerminating \/
       c = CUpdate KInferenceService svc' /\ inferenceServiceFinalizer ∉ om_Finalizers (is_ObjectMeta svc'))
     (fun x => exists name namespace, GPUManager x.1 = (GpuManager.Release a name namespace (GPUManager r)).1) (reconcileObject a b svc r) /\
   updates KInferenceService (reconcileObject a b svc r)).
Proof.
  unfold reconcileObject. split.
  - intros -> Hno. destruct (ContainsFinalizer _ _) eqn:Hc; [by apply ContainsFinalizer_spec in Hc|].
    apply calls_then; [|intros; by apply calls_ret]. apply (calls_update _ KInferenceService). eexists.
    split_and!; [done | done | by apply AddFinalizer_spec; right |]. intros f Hf. apply AddFinalizer_spec. by left.
  - intros [t ->]. unfold handleDeletion. split; [|intros written updated x _; eexists _, _; right; by left].
    apply calls_then; [apply (calls_updateStatus _ KInferenceService); eexists; by left|].
    intros written. apply calls_then; [apply (calls_update _ KInferenceService); eexists; right; split; [done|]|].
    + cbn [is_ObjectMeta set_finalizers om_Finalizers]. rewrite RemoveFinalizer_spec. tauto.
    + intros updated. apply calls_ret. by eexists _, _.
Qed.
End properties.

(** * Witnesses *)
Section witnesses.
Local Existing Instance ZQuantity.
Local Existing Instance textTypes.
Local Existing Instance stdRuntime.
Local Existing Instance GpuProps.noScanner.

(** A library whose equalities compare replicas, unwritten fields and
    arguments, and the ports of a service. *)
Definition deploymentFieldsEqual (s t : AppsDeploymentSpec) : bool :=
  bool_decide (ads_Replicas s = ads_Replicas t /\ ads_Unwritten s = ads_Unwritten t /\
    ct_Args <$> ps_Containers (pts_Spec (ads_Template s)) = ct_Args <$> ps_Containers (pts_Spec (ads_Template t))).
Definition exampleLib : ControllerLib.
Proof.
  refine {| ContainsFinalizer := fun fs f => bool_decide (f ∈ fs); AddFinalizer := fun fs f => fs ++ [f];
    RemoveFinalizer := fun fs f => filter (fun g => g <> f) fs; deploymentSpecEqual := deploymentFieldsEqual;
    serviceSpecEqual := fun s t => bool_decide (css_ClusterIP s = css_ClusterIP t) |}.
  - intros fs f. apply bool_decide_eq_true.
  - intros fs f g. by rewrite elem_of_app, list_elem_of_singleton.
  - intros fs f g. rewrite list_elem_of_filter. tauto.
  - intros s. by apply bool_decide_eq_true_2.
  - intros s t. by intros ?%bool_decide_eq_true.
  - intros s. by apply bool_decide_eq_true_2.
Defined.
Local Existing Instance exampleLib.

(** A service that failed before, of one GPU, and a reconciler that has seen the
    MIG pool of [GpuProps.gstart]. *)
Definition ex_isvc (sharing : GPUSharingMode) : InferenceService :=
  mkInferenceService _ _ (mkObjectMeta "llm" "default" 3 None [inferenceServiceFinalizer])
    (mkInferenceServiceSpec _ _ (mkModelSpec "org/m" ModelSourceHuggingFace "" None "") BackendTypeVLLM None 1
       (mkGPUSpec _ "" 1 sharing "1g.5gb" None (Some (mkLocalObjectReference "p"))) None None None ∅ [] "" [])
    (mkInferenceServiceStatus _ "Failed" 0 0 "" [] None [errorCondition 5 "no suitable GPU pool found"] None 0).
Definition ex_reconciler : InferenceServiceReconciler (T := unit) :=
  mkReconciler GpuProps.gstart CacheManager.NewManager Backends.DefaultFactory.
(** A server that has no deployment and no service, and takes all writes. *)
Definition emptyServer (c : call) (s : unit) : unit * reply c :=
  (s, match c return reply c with
      | CGet _ _ => NotFound
      | CCreate _ o | CUpdate _ o | CUpdateStatus _ o => Ok o
      | CSetOwner _ _ _ _ => Ok []
      | CListNodes _ => Ok 0%nat
      | CNow => 9
      end).
Definition ex_run (sharing : GPUSharingMode) : unit * list event * outcome (InferenceServiceReconciler * Result) :=
  run emptyServer tt (reconcileObject 0 0 (ex_isvc sharing) ex_reconciler).

(** The run with MIG succeeds: it creates the deployment and the service. *)
Definition run_result (x : unit * list event * outcome (InferenceServiceReconciler (T := unit) * Result)) : option (nat * Result) :=
  match x with (_, tr, Ret (_, res)) => Some (length tr, res) | _ => None end.
Example ex_run_succeeds : run_result (ex_run GPUSharingModeMIG) = Some (9%nat, mkResult false requeueAfter None).
Proof. vm_compute. reflexivity. Qed.

Lemma isvc_error_sticks_witness : Forall (fun e => on_status hasError (ev_call e)) (ex_run GPUSharingModeMIG).1.2.
Proof.
  refine (proj1 (always_run emptyServer tt _ _ (isvc_error_sticks 0 0 (ex_isvc GPUSharingModeMIG) ex_reconciler _))).
  exists (errorCondition 5 "no suitable GPU pool found"). split; reflexivity.
Defined.

Lemma isvc_conditions_keyed_witness :
  Forall (fun e => on_status (fun svc => NoDup (cond_Type <$> svc_Conditions svc)) (ev_call e)) (ex_run GPUSharingModeMIG).1.2.
Proof.
  refine (proj1 (always_run emptyServer tt _ _ (isvc_conditions_keyed 0 0 (ex_isvc GPUSharingModeMIG) ex_reconciler _))).
  exact (NoDup_singleton "Error").
Defined.

(** A deployment scaled to zero. *)
Definition ex_idle : Deployment :=
  mkDeployment _ _ (mkChildMeta _ "llm" "default" ∅ ∅ [])
    (mkAppsDeploymentSpec _ _ (Some 0) ∅ (mkPodTemplateSpec _ _ ∅ ∅ (mkPodSpec _ _ "" ∅ [] None [] [] [] [])) false)
    (mkDeploymentStatus 0 0 0).
Lemma isvc_status_witness : exists svc', newStatus 9 (ex_isvc GPUSharingModeMIG) (Some ex_idle) = Ret svc' /\
  ist_Phase (is_Status svc') = InferenceServicePhasePending /\
  exists c, conditionOf "Ready" (svc_Conditions svc') = Some c /\ cond_Status c = ConditionTrue.
Proof.
  destruct (isvc_status 9 (ex_isvc GPUSharingModeMIG) ex_idle 0 eq_refl) as (svc' & Hs & Hp & _ & _ & _ & (c & Hc & Hcs) & _).
  exists svc'. split; [exact Hs|]. split; [exact Hp|]. exists c. split; [exact Hc|]. apply Hcs. reflexivity.
Defined.

Lemma isvc_no_devices_no_deployment_witness :
  Forall (fun e => onlyFailure (ev_call e))
    (run emptyServer tt (reconcileAll [(0%nat, 0%nat, ex_isvc GPUSharingModeExclusive)] ex_reconciler)).1.2.
Proof.
  refine (proj1 (always_run emptyServer tt _ _ (isvc_no_devices_no_deployment _ ex_reconciler GpuProps.gstart_reach _))).
  intros a b svc Hin. apply list_elem_of_singleton in Hin. injection Hin as _ _ ->. discriminate.
Defined.

Definition ex_request : AllocationRequest := allocationRequest (ex_isvc GPUSharingModeMIG).
Lemma ex_ready : migReady Backends.DefaultFactory (GpuManager.newPoolInfo GpuProps.gpool) ex_request 0 ex_reconciler.
Proof.
  constructor.
  - apply rtc_once, (MigProps.migStep_ConfigurePool GpuProps.gpool).
  - reflexivity.
  - eexists. reflexivity.
  - reflexivity.
  - exists []. split; [split; [constructor | by intros ? ?%elem_of_nil] | reflexivity].
Qed.
Lemma ex_healthy : healthy Backends.DefaultFactory ex_request (ex_isvc GPUSharingModeMIG).
Proof.
  constructor; try reflexivity. exists Vllm.VLLMBackend. split; [apply Backends.DefaultFactory_Get; by left | reflexivity].
Qed.
(** Three reconciliations of one service of one instance hold three. *)
Definition ex_fetched : list (nat * nat * InferenceService) := repeat (0%nat, 0%nat, ex_isvc GPUSharingModeMIG) 3.
Lemma isvc_mig_accumulates_witness :
  calls (listsOne ex_request) (fun r' => exists ls, holds ex_request (GpuManager.gm_mig (GPUManager r')) ls /\ Z.of_nat (length ls) = 3)
    (reconcileAll ex_fetched ex_reconciler).
Proof.
  refine (isvc_mig_accumulates Backends.DefaultFactory _ ex_request ex_fetched ex_reconciler eq_refl _ ex_ready _).
  - eexists. reflexivity.
  - intros a b svc Hin. apply list_elem_of_In, repeat_spec in Hin. injection Hin as _ _ ->. exact ex_healthy.
Defined.

Lemma isvc_deployment_writes_witness : exists spec,
  always (reconcileDeployment 0 (ex_isvc GPUSharingModeMIG) Vllm.VLLMBackend) (fun tr o =>
    ensured (buildDeployment (ex_isvc GPUSharingModeMIG) spec) tr o /\
    forall found, omap deploymentGot tr = [Found found] -> ads_Unwritten (dp_Spec found) <> false ->
      exists d, omap deploymentWriteOf tr = [Updated d] /\ dp_Spec d = dp_Spec (buildDeployment (ex_isvc GPUSharingModeMIG) spec)).
Proof. eexists. apply (isvc_deployment_writes 0 (ex_isvc GPUSharingModeMIG) Vllm.VLLMBackend). reflexivity. Defined.

Lemma isvc_finalizer_witness :
  calls (fun c => exists svc', c = CUpdate KInferenceService svc' /\ is_Spec svc' = is_Spec (ex_isvc GPUSharingModeMIG) /\
      inferenceServiceFinalizer ∈ om_Finalizers (is_ObjectMeta svc') /\ [] ⊆ om_Finalizers (is_ObjectMeta svc'))
    (fun x => x.1 = ex_reconciler) (reconcileObject 0 0 (set_finalizers [] (ex_isvc GPUSharingModeMIG)) ex_reconciler).
Proof. refine (proj1 (isvc_finalizer 0 0 (set_finalizers [] (ex_isvc GPUSharingModeMIG)) ex_reconciler) eq_refl _). apply not_elem_of_nil. Defined.
End witnesses.
