(* ===== verification/DeployProps.v ===== *)
(** How a service gets deployed: the whole path through the controller of
    inference services, the GPU manager and a backend. *)
From S2P Require Import Prelude GoFloat Api GpuTypes ServiceApi Backend Kube ControllerLib.
From S2P Require Import InferenceController.
From S2P Require GpuManager GpuProps CacheManager Mig MigProps Backends Vllm.
From S2P Require Import InferenceProps.
Local Open Scope Z_scope.


Section properties.
Context `{QuantityOps} `{CoreTypes} `{!ControllerLib} `{GoRuntime} `{GpuManager.RatioScanner} {T : Type}.
Implicit Types (svc : InferenceService) (r : InferenceServiceReconciler (T := T)) (d : Deployment).




End properties.

(** ** A witness *)
Module DeployWitness.
Import InferenceProps.


End DeployWitness.
