(* ===== verification/PoolController.v ===== *)
(** The controller of GPU pools (internal/controller/gpupool_controller.go). *)
From S2P Require Import Prelude GoFloat Api GpuTypes ServiceApi Backend Kube ControllerLib.
From S2P Require GpuManager.
Local Open Scope Z_scope.

Definition gpuPoolFinalizer : string := "inference.ai/gpupool-finalizer".

Section controller.
Context `{QuantityOps} `{CoreTypes} `{!ControllerLib} `{GoRuntime} `{GpuManager.RatioScanner}.
Implicit Types (pool : GPUPool) (m : GpuManager.Manager).

(** ** Fields the controller writes *)
Definition set_finalizers (fs : list string) pool : GPUPool :=
  let o := gp_ObjectMeta pool in
  mkGPUPool _ (mkObjectMeta (om_Name o) (om_Namespace o) (om_Generation o) (om_DeletionTimestamp o) fs)
    (gp_Spec pool) (gp_Status pool).
Definition with_status (f : GPUPoolStatus -> GPUPoolStatus) pool : GPUPool :=
  mkGPUPool _ (gp_ObjectMeta pool) (gp_Spec pool) (f (gp_Status pool)).
Definition set_phase (phase : GPUPoolPhase) (s : GPUPoolStatus) : GPUPoolStatus :=
  mkGPUPoolStatus _ phase (gpst_TotalGPUs s) (gpst_AvailableGPUs s) (gpst_AllocatedGPUs s) (gpst_TotalMemory s)
    (gpst_AvailableMemory s) (gpst_Nodes s) (gpst_Conditions s) (gpst_LastSyncTime s) (gpst_ObservedGeneration s).
Definition set_conditions (cs : list Condition) (s : GPUPoolStatus) : GPUPoolStatus :=
  mkGPUPoolStatus _ (gpst_Phase s) (gpst_TotalGPUs s) (gpst_AvailableGPUs s) (gpst_AllocatedGPUs s) (gpst_TotalMemory s)
    (gpst_AvailableMemory s) (gpst_Nodes s) cs (gpst_LastSyncTime s) (gpst_ObservedGeneration s).
Definition set_sync (time generation : Z) (s : GPUPoolStatus) : GPUPoolStatus :=
  mkGPUPoolStatus _ (gpst_Phase s) (gpst_TotalGPUs s) (gpst_AvailableGPUs s) (gpst_AllocatedGPUs s) (gpst_TotalMemory s)
    (gpst_AvailableMemory s) (gpst_Nodes s) (gpst_Conditions s) (Some time) generation.
(** The fields that [updateStatus] copies from the manager's status. *)
Definition copy_status (from s : GPUPoolStatus) : GPUPoolStatus :=
  mkGPUPoolStatus _ (gpst_Phase from) (gpst_TotalGPUs from) (gpst_AvailableGPUs from) (gpst_AllocatedGPUs from)
    (gpst_TotalMemory from) (gpst_AvailableMemory from) (gpst_Nodes from) (gpst_Conditions s) (gpst_LastSyncTime s)
    (gpst_ObservedGeneration s).

Definition setCondition (c : Condition) pool : GPUPool :=
  with_status (fun s => set_conditions (upsertCondition c (gpst_Conditions s)) s) pool.

(** ** Validation *)
Definition validateSpec pool : result unit :=
  match gps_Sharing (gp_Spec pool) with
  | None => Ok tt
  | Some sh =>
      let mode := gss_Mode sh in
      if decide (mode = GPUSharingModeMIG) then
        match gss_Profiles sh with [] => Err "MIG mode requires at least one profile" | _ => Ok tt end
      else if decide (mode = GPUSharingModeMPS) then
        if (gss_MPSActiveThreadPercentage sh <? 1) || (100 <? gss_MPSActiveThreadPercentage sh)
        then Err "MPS active thread percentage must be between 1 and 100" else Ok tt
      else if decide (mode = GPUSharingModeTimeslice) then
        if gss_TimeSliceInterval sh <? 1 then Err "time slice interval must be positive" else Ok tt
      else Ok tt
  end.

(** Lists the nodes; what it finds is only logged. *)
Definition discoverGPUs pool : prog (result unit) :=
  listed ← listNodes (gps_NodeSelector (gp_Spec pool));
  mret (match listed with Ok _ => Ok tt | Err e => Err ("failed to list nodes: " +:+ e) end).

(** ** Status *)
Definition readyCondition (now : Z) pool : Condition :=
  if 0 <? gpst_TotalGPUs (gp_Status pool)
  then mkCondition "Ready" ConditionTrue now "GPUsAvailable" (print_Z (gpst_AvailableGPUs (gp_Status pool)) +:+ " GPUs available in pool")
  else mkCondition "Ready" ConditionFalse now "NoGPUs" "No GPUs discovered in pool".
Definition sharingCondition (now : Z) (sh : GPUSharingSpec) : Condition :=
  mkCondition "SharingConfigured" ConditionTrue now "SharingEnabled" ("GPU sharing mode " +:+ gss_Mode sh +:+ " configured").
Definition updateConditions (now : Z) pool : GPUPool :=
  let condition := readyCondition now pool in
  let pool := if 0 <? gpst_TotalGPUs (gp_Status pool) then with_status (set_phase GPUPoolPhaseReady) pool else pool in
  let pool := setCondition condition pool in
  match gps_Sharing (gp_Spec pool) with
  | Some sh => setCondition (sharingCondition now sh) pool
  | None => pool
  end.
Definition newStatus (seed : nat) (synced now : Z) pool m : GPUPool :=
  let pool := match GpuManager.GetPoolStatus seed (pool_name pool) m with
    | Err _ => with_status (set_phase GPUPoolPhasePending) pool
    | Ok status => with_status (copy_status status) pool
    end in
  updateConditions now (with_status (set_sync synced (om_Generation (gp_ObjectMeta pool))) pool).
Definition updateStatus (seed : nat) pool m : prog (result GPUPool) :=
  synced ← clock;
  now ← clock;
  updateStatusOf KGPUPool (newStatus seed synced now pool m).

Definition failedStatus (now : Z) (e : error) pool : GPUPool :=
  setCondition (mkCondition "Error" ConditionTrue now "ReconcileError" e) (with_status (set_phase GPUPoolPhaseFailed) pool).
Definition updateStatusWithError pool (e : error) : prog Result :=
  now ← clock;
  _ ← updateStatusOf KGPUPool (failedStatus now e pool);
  mret (mkResult false (30 * Second) None).

(** ** Deletion *)
Definition handleDeletion (seed : nat) pool m : prog (GpuManager.Manager * Result) :=
  if 0 <? gpst_AllocatedGPUs (gp_Status pool) then mret (m, mkResult false (10 * Second) None)
  else
    let m := (GpuManager.UnregisterPool seed (pool_name pool) m).1 in
    let pool := set_finalizers (RemoveFinalizer (om_Finalizers (gp_ObjectMeta pool)) gpuPoolFinalizer) pool in
    updated ← update KGPUPool pool;
    mret (m, mkResult false 0 (match updated with Ok _ => None | Err e => Some e end)).

(** ** The reconciler *)
Definition fail pool (e : error) m : prog (GpuManager.Manager * Result) :=
  res ← updateStatusWithError pool e; mret (m, res).

(** [Reconcile] gets at the manager twice, to register the pool and to read its
    status, and in between it asks the API server for nodes, while other
    controllers get at the manager too.  So it is cut in two: [register] and
    [report].  [register] ends the reconciliation with a result, or goes on
    ([None]). *)
Definition ends (p : prog (GpuManager.Manager * Result)) : prog (GpuManager.Manager * option Result) :=
  '(m, res) ← p; mret (m, Some res).
Definition register (seed : nat) pool m : prog (GpuManager.Manager * option Result) :=
  match om_DeletionTimestamp (gp_ObjectMeta pool) with
  | Some _ => ends (handleDeletion seed pool m)
  | None =>
      if ContainsFinalizer (om_Finalizers (gp_ObjectMeta pool)) gpuPoolFinalizer then
        match validateSpec pool with
        | Err e => ends (fail pool e m)
        | Ok _ =>
            match GpuManager.RegisterPool pool m with
            | (m, Err e) => ends (fail pool e m)
            | (m, Ok _) => mret (m, None)
            end
        end
      else
        updated ← update KGPUPool (set_finalizers (AddFinalizer (om_Finalizers (gp_ObjectMeta pool)) gpuPoolFinalizer) pool);
        mret (m, Some (match updated with
          | Ok _ => mkResult true 0 None
          | Err e => mkResult false 0 (Some e)
          end))
  end.
(** The nodes and the status; [m] is the manager when the status is read. *)
Definition report (seed : nat) pool m : prog (GpuManager.Manager * Result) :=
  _ ← discoverGPUs pool;
  written ← updateStatus seed pool m;
  mret (m, match written with
    | Ok _ => mkResult false (30 * Second) None
    | Err e => mkResult false 0 (Some e)
    end).

(** [Reconcile] up to [report]: its result, or the pool to report on. *)
Definition begin (seed : nat) (key : NamespacedName) m : prog (GpuManager.Manager * (Result + GPUPool)) :=
  fetched ← get KGPUPool key;
  match fetched with
  | NotFound => mret (m, inl (mkResult false 0 None))
  | Failed e => mret (m, inl (mkResult false 0 (Some e)))
  | Found pool => '(m, res) ← register seed pool m; mret (m, match res with Some res => inl res | None => inr pool end)
  end.
Definition Reconcile (seed : nat) (key : NamespacedName) m : prog (GpuManager.Manager * Result) :=
  '(m, r) ← begin seed key m;
  match r with inl res => mret (m, res) | inr pool => report seed pool m end.

(** The same for a pool that was fetched, with nobody else at the manager. *)
Definition reconcileObject (seed : nat) pool m : prog (GpuManager.Manager * Result) :=
  '(m, res) ← register seed pool m;
  match res with Some res => mret (m, res) | None => report seed pool m end.

(** ** The two parts together *)
Lemma pool_reconcileObject_eq seed pool m : reconcileObject seed pool m =
  match om_DeletionTimestamp (gp_ObjectMeta pool) with
  | Some _ => handleDeletion seed pool m
  | None =>
      if ContainsFinalizer (om_Finalizers (gp_ObjectMeta pool)) gpuPoolFinalizer then
        match validateSpec pool with
        | Err e => fail pool e m
        | Ok _ =>
            match GpuManager.RegisterPool pool m with
            | (m, Err e) => fail pool e m
            | (m, Ok _) => report seed pool m
            end
        end
      else
        updated ← update KGPUPool (set_finalizers (AddFinalizer (om_Finalizers (gp_ObjectMeta pool)) gpuPoolFinalizer) pool);
        mret (m, match updated with
          | Ok _ => mkResult true 0 None
          | Err e => mkResult false 0 (Some e)
          end)
  end.
Proof.
  unfold reconcileObject, register. destruct (om_DeletionTimestamp _).
  { unfold handleDeletion. by destruct (0 <? _). }
  destruct (ContainsFinalizer _ _); [|done]. destruct (validateSpec pool); [|done].
  by destruct (GpuManager.RegisterPool pool m) as [m' []].
Qed.
Lemma pool_Reconcile_always seed key m Q : always (Reconcile seed key m) Q <-> forall fetched : got GPUPool,
  always match fetched with
    | NotFound => mret (m, mkResult false 0 None)
    | Failed e => mret (m, mkResult false 0 (Some e))
    | Found pool => reconcileObject seed pool m
    end (fun tr o => Q (Ev (CGet KGPUPool key) fetched :: tr) o).
Proof.
  unfold Reconcile, begin. rewrite always_assoc. split; intros Hp [pool| |e].
  2, 5: exact (Hp NotFound).
  2, 4: exact (Hp (Failed e)).
  - specialize (Hp (Found pool)). apply always_assoc in Hp. eapply always_bind_ext; [|exact Hp]. by intros [m' []].
  - apply always_assoc. eapply always_bind_ext; [|exact (Hp (Found pool))]. by intros [m' []].
Qed.
End controller.
