(* ===== verification/PoolProps.v ===== *)
(** What the controller of GPU pools does, alone and together with the
    controller of inference services. *)
From S2P Require Import Prelude GoFloat Api GpuTypes ServiceApi Backend Kube ControllerLib.
From S2P Require GpuManager GpuProps Mig MigProps CacheManager InferenceController InferenceProps Backends Vllm.
From S2P Require Import PoolController.
Local Open Scope Z_scope.

Section facts.
Context `{QuantityOps} `{CoreTypes} `{!ControllerLib} `{GoRuntime} `{GpuManager.RatioScanner}.
Implicit Types (pool : GPUPool) (m : GpuManager.Manager).

(** The status that the manager has for a pool while it knows no device. *)
Lemma GetPoolStatus_no_devices seed p m info : GpuProps.NoDevices m -> GpuManager.gm_pools m !! p = Some info ->
  GpuManager.GetPoolStatus seed p m = Ok (mkGPUPoolStatus _ GPUPoolPhaseReady 0 0 0 Quantity_zero Quantity_zero [] [] None 0).
Proof.
  intros Hno Hp. unfold GpuManager.GetPoolStatus. rewrite Hp. destruct (GpuProps.nd_pools _ Hno p info Hp) as (Hg & Ha & Ht).
  unfold GpuManager.pool_devices. rewrite Hg, Ha, Ht. cbn [omap list_omap]. unfold GpuManager.nodeGPUs. cbn [fold_left].
  by rewrite range_empty.
Qed.

(** The status that is written then. *)
Definition emptyStatus pool (s : GPUPoolStatus) : Prop :=
  gpst_Phase s = GPUPoolPhaseReady /\ gpst_TotalGPUs s = 0 /\ gpst_AvailableGPUs s = 0 /\ gpst_AllocatedGPUs s = 0 /\
  gpst_Nodes s = [] /\ gpst_ObservedGeneration s = om_Generation (gp_ObjectMeta pool) /\
  exists c, conditionOf "Ready" (gpst_Conditions s) = Some c /\ cond_Status c = ConditionFalse.

Lemma newStatus_no_devices seed synced now pool m info : GpuProps.NoDevices m -> GpuManager.gm_pools m !! pool_name pool = Some info ->
  emptyStatus pool (gp_Status (newStatus seed synced now pool m)) /\
  gp_ObjectMeta (newStatus seed synced now pool m) = gp_ObjectMeta pool.
Proof.
  intros Hno Hp. unfold newStatus. rewrite (GetPoolStatus_no_devices seed _ m info Hno Hp). unfold updateConditions. cbn.
  assert (Hready : exists c, conditionOf "Ready" (upsertCondition (mkCondition "Ready" ConditionFalse now "NoGPUs" "No GPUs discovered in pool")
    (gpst_Conditions (gp_Status pool))) = Some c /\ cond_Status c = ConditionFalse).
  { apply (conditionOf_upsert_self (mkCondition "Ready" ConditionFalse now "NoGPUs" "No GPUs discovered in pool")). }
  destruct (gps_Sharing (gp_Spec pool)) as [sh|]; cbn; split; try done; unfold emptyStatus; cbn; split_and!; try done.
  by rewrite conditionOf_upsert, decide_False by done.
Qed.

(** ** Registering a MIG pool and allocating from it

    The pool has no instances then, so the first one of a profile gets the
    first identifier, whatever instances there are in the heap. *)
Lemma register_allocate now seed pool sh (req : AllocationRequest) profile m :
  has_mode GPUSharingModeMIG pool = Some sh -> (forall p, p ∈ gss_Profiles sh -> Mig.migProfiles !! mps_Name p <> None) ->
  Mig.migProfiles !! rq_MIGProfile req = Some profile -> rq_SharingMode req = GPUSharingModeMIG ->
  rq_PoolName req = pool_name pool -> rq_GPUCount req = 1 -> rtc MigProps.migStep Mig.NewMIGManager (GpuManager.gm_mig m) ->
  exists m1 info l i, GpuManager.Allocate now seed req (GpuManager.RegisterPool pool m).1 = Ret (m1, mkAllocationResult _ true [info] None) /\
    rtc MigProps.migStep Mig.NewMIGManager (GpuManager.gm_mig m1) /\
    InferenceProps.holds req (GpuManager.gm_mig m1) [l] /\
    Mig.mm_heap (GpuManager.gm_mig m1) !! l = Some i /\ Mig.ii_InstanceID i = Mig.instance_id (rq_MIGProfile req) 0 /\
    (forall l' i', Mig.mm_heap (GpuManager.gm_mig m) !! l' = Some i' -> Mig.ii_InUse i' = true ->
       l' <> l /\ Mig.mm_heap (GpuManager.gm_mig m1) !! l' = Some i').
Proof.
  intros Hmode Hprofs Hprof Hm Hp Hc Hr.
  assert (Hr' : rtc MigProps.migStep Mig.NewMIGManager (GpuManager.gm_mig (GpuManager.RegisterPool pool m).1)).
  { eapply rtc_r; [exact Hr|]. unfold GpuManager.RegisterPool. rewrite (GpuProps.newPoolInfo_mode _ _ _ Hmode), bool_decide_eq_true_2 by done.
    pose proof (MigProps.migStep_ConfigurePool pool (GpuManager.gm_mig m)) as Hstep. cbn [GpuManager.gm_mig GpuManager.gmset_pools].
    by destruct (Mig.ConfigurePool pool (GpuManager.gm_mig m)) as [mig r]. }
  destruct (GpuProps.RegisterPool_mig pool sh m Hmode Hprofs) as (m' & E & Hpool & Hcfg & Hheap & _). rewrite E in Hr' |- *. cbn [fst] in *.
  destruct (MigProps.Allocate_new (S seed) req (pool_name pool) _ profile (GpuManager.gm_mig m') 0 Hcfg Hprof) as
    (c' & mm1 & mig & infos & Hcr & Ha & _ & Hlen & _ & Hid); [by rewrite Hc | intros id l i Hid; simpl in Hid; by rewrite lookup_empty in Hid |].
  destruct (MigProps.Allocate_granted (S seed) req (pool_name pool) _ profile (GpuManager.gm_mig m') (MigProps.mig_reach_WF _ Hr') Hcfg Hprof
    ltac:(lia)) as (mig' & infos' & ls & Ha' & Hg).
  rewrite Ha in Ha'. injection Ha' as <- <-. destruct infos as [|info [|? ?]]; try done.
  pose proof (MigProps.gr_infos _ _ _ _ _ Hg) as Hil. destruct ls as [|l [|? ?]]; try done.
  destruct (MigProps.gr_owner _ _ _ _ _ Hg 0 l eq_refl) as (i & info' & Hi & [= <-] & Hu & Hs & Hn & _ & Hinst & _).
  assert (Hid0 : ga_MIGInstance info = Mig.instance_id (rq_MIGProfile req) 0).
  { specialize (Hid 0%nat ltac:(lia)). simpl in Hid, Hcr. injection Hcr as _ <-. rewrite Nat.add_0_r in Hid. simpl in Hid.
    rewrite lookup_app_r, Nat.sub_diag in Hid by lia. by injection Hid as ->. }
  exists (GpuManager.gmset_mig mig m'), info, l, i. split_and!; cbn; [| | | done | by rewrite <- Hinst |].
  - apply (GpuProps.Allocate_mig now seed req (GpuManager.newPoolInfo pool)); [by rewrite Hp | done | done].
  - eapply rtc_r; [exact Hr' | by eapply MigProps.migStep_Allocate].
  - split; [apply NoDup_singleton|]. intros l' ->%list_elem_of_singleton. by exists i.
  - intros l' i' Hl' Hu'. rewrite <- Hheap in Hl'. assert (Hne : l' <> l).
    { intros ->. rewrite (MigProps.gr_free _ _ _ _ _ Hg l i') in Hu'; [done | by left | done]. }
    split; [done|]. apply (MigProps.gr_frame _ _ _ _ _ Hg); [|done]. by intros ->%list_elem_of_singleton.
Qed.

(** A pool that reconciliation registers. *)
Record healthyPool pool : Prop := {
  hp_DeletionTimestamp : om_DeletionTimestamp (gp_ObjectMeta pool) = None;
  hp_Finalizers : ContainsFinalizer (om_Finalizers (gp_ObjectMeta pool)) gpuPoolFinalizer = true;
  hp_Spec : validateSpec pool = Ok tt;
}.
Lemma reconcileObject_registers seed pool m : healthyPool pool ->
  calls anything (fun x => x.1 = (GpuManager.RegisterPool pool m).1) (reconcileObject seed pool m).
Proof.
  intros Hh. rewrite pool_reconcileObject_eq, (hp_DeletionTimestamp _ Hh), (hp_Finalizers _ Hh), (hp_Spec _ Hh).
  destruct (GpuManager.RegisterPool pool m) as [m' [[]|e]]; cbn [fst].
  - apply calls_then; [apply calls_any|]. intros _. apply calls_then; [apply calls_any|]. intros; by apply calls_ret.
  - unfold fail. apply calls_then; [apply calls_any|]. intros; by apply calls_ret.
Qed.
End facts.

Section properties.
Context `{QuantityOps} `{CoreTypes} `{!ControllerLib} `{GoRuntime} `{GpuManager.RatioScanner} {T : Type}.
Implicit Types (pool : GPUPool) (m : GpuManager.Manager) (svc : InferenceService)
  (r : InferenceController.InferenceServiceReconciler (T := T)).

Lemma CleanupPool_heap seed p (m : Mig.MIGManager) : Mig.mm_heap (Mig.CleanupPool seed p m).1 = Mig.mm_heap m.
Proof. unfold Mig.CleanupPool. destruct (Mig.mm_pools m !! p) as [c|]; [|done]. by destruct (Mig.first_in_use _ _). Qed.
Lemma UnregisterPool_heap seed p m :
  Mig.mm_heap (GpuManager.gm_mig (GpuManager.UnregisterPool seed p m).1) = Mig.mm_heap (GpuManager.gm_mig m).
Proof.
  unfold GpuManager.UnregisterPool. destruct (GpuManager.gm_pools m !! p) as [info|]; [|done].
  repeat case_bool_decide; cbn; [apply CleanupPool_heap | done..].
Qed.
Lemma UnregisterPool_gone seed p m : GpuManager.gm_pools (GpuManager.UnregisterPool seed p m).1 !! p = None.
Proof.
  unfold GpuManager.UnregisterPool. destruct (GpuManager.gm_pools m !! p) as [info|] eqn:Hp; [|exact Hp]. cbn. apply lookup_delete_eq.
Qed.

Definition errorOf {A} (r : result A) : option error := match r with Ok _ => None | Err e => Some e end.

(** C33. In every state the GPU manager reaches, the status the controller
    writes for a registered pool says phase Ready, no devices, nothing allocated
    and, at odds with the phase, condition Ready false.  So the guard on
    deletion, which reads the allocated devices of the status, never holds a pool
    back: a deleted pool with such a status is unregistered, with the MIG
    instances that services hold still in use, and its deletion makes one call,
    which writes the pool without the controller's finalizer and with all others;
    if that is refused the error is returned, so that it is tried again. *)
Theorem pool_deletion_never_blocked seed seed' synced now pool deleted m info :
  rtc GpuProps.gmStep GpuManager.NewManager m -> GpuManager.gm_pools m !! pool_name pool = Some info ->
  let written := newStatus seed synced now pool m in
  gp_Status deleted = gp_Status written -> is_Some (om_DeletionTimestamp (gp_ObjectMeta deleted)) ->
  emptyStatus pool (gp_Status written) /\
  always (reconcileObject seed' deleted m) (fun tr o => exists p updated m',
    tr = [Ev (CUpdate KGPUPool p) updated] /\ o = Ret (m', mkResult false 0 (errorOf updated)) /\
    p = set_finalizers (om_Finalizers (gp_ObjectMeta p)) deleted /\
    (forall f, f ∈ om_Finalizers (gp_ObjectMeta p) <-> f ∈ om_Finalizers (gp_ObjectMeta deleted) /\ f <> gpuPoolFinalizer) /\
    GpuManager.gm_pools m' !! pool_name deleted = None /\ Mig.mm_heap (GpuManager.gm_mig m') = Mig.mm_heap (GpuManager.gm_mig m)).
Proof.
  intros Hr%GpuProps.gm_reach_NoDevices Hp written Hst [t Ht]. unfold written in *. clear written.
  destruct (newStatus_no_devices seed synced now pool m info Hr Hp) as [Hempty _]. split; [done|].
  rewrite pool_reconcileObject_eq, Ht. unfold handleDeletion. rewrite Hst. destruct Hempty as (_ & _ & _ & -> & _). cbn [Z.ltb Z.compare].
  intros updated. eexists _, updated, _. split_and!; [reflexivity | reflexivity | reflexivity | | apply UnregisterPool_gone | apply UnregisterPool_heap].
  intros f. cbn [gp_ObjectMeta set_finalizers om_Finalizers]. by rewrite RemoveFinalizer_spec.
Qed.

(** A pool and a service of it are reconciled, then the pool and another one. *)
Definition poolAndServices (s1 s2 a1 b1 a2 b2 : nat) pool svcA svcB r : prog (InferenceController.InferenceServiceReconciler (T := T)) :=
  '(gm, _) ← reconcileObject s1 pool (InferenceController.GPUManager r);
  '(r, _) ← InferenceController.reconcileObject a1 b1 svcA (InferenceController.with_gpu gm r);
  '(gm, _) ← reconcileObject s2 pool (InferenceController.GPUManager r);
  '(r, _) ← InferenceController.reconcileObject a2 b2 svcB (InferenceController.with_gpu gm r);
  mret r.

(** C9. The two controllers together: every reconciliation of a MIG pool makes
    the GPU manager forget the pool's instances.  When two services of one
    instance each are reconciled with the pool before either, whatever the
    server answers, both hold an instance at the end, two different ones that
    carry the same identifier. *)
Theorem pool_reconcile_duplicates s1 s2 a1 b1 a2 b2 f pool sh reqA reqB svcA svcB profile r :
  healthyPool pool -> has_mode GPUSharingModeMIG pool = Some sh ->
  (forall p, p ∈ gss_Profiles sh -> Mig.migProfiles !! mps_Name p <> None) ->
  InferenceProps.healthy f reqA svcA -> InferenceProps.healthy f reqB svcB -> InferenceController.BackendFactory_ r = f ->
  rq_SharingMode reqA = GPUSharingModeMIG -> rq_SharingMode reqB = GPUSharingModeMIG ->
  rq_PoolName reqA = pool_name pool -> rq_PoolName reqB = pool_name pool -> rq_GPUCount reqA = 1 -> rq_GPUCount reqB = 1 ->
  Mig.migProfiles !! rq_MIGProfile reqA = Some profile -> rq_MIGProfile reqB = rq_MIGProfile reqA ->
  rtc MigProps.migStep Mig.NewMIGManager (GpuManager.gm_mig (InferenceController.GPUManager r)) ->
  calls anything (fun r' => exists la lb ia ib, let heap := Mig.mm_heap (GpuManager.gm_mig (InferenceController.GPUManager r')) in
      la <> lb /\ heap !! la = Some ia /\ heap !! lb = Some ib /\ Mig.ii_InstanceID ia = Mig.ii_InstanceID ib /\
      InferenceProps.holds reqA (GpuManager.gm_mig (InferenceController.GPUManager r')) [la] /\
      InferenceProps.holds reqB (GpuManager.gm_mig (InferenceController.GPUManager r')) [lb])
    (poolAndServices s1 s2 a1 b1 a2 b2 pool svcA svcB r).
Proof.
  intros Hpool Hmode Hprofs HA HB Hf HmA HmB HpA HpB HcA HcB HprofA HpB' Hr.
  assert (HprofB : Mig.migProfiles !! rq_MIGProfile reqB = Some profile) by (by rewrite HpB'). unfold poolAndServices.
  eapply calls_bind; [by apply reconcileObject_registers|]. intros [gm res] E. cbn [fst] in E. subst gm.
  eapply calls_bind; [by apply (InferenceProps.reconcileObject_allocates f reqA)|]. intros [rA resA] (nowA & gmA & aA & HaA & E).
  cbn [fst InferenceController.GPUManager InferenceController.with_gpu] in *. subst rA.
  destruct (register_allocate nowA a1 pool sh reqA profile _ Hmode Hprofs HprofA HmA HpA HcA Hr)
    as (m1 & infoA & la & ia & HaA' & Hr1 & HholdA & Hia & HidA & _).
  rewrite HaA' in HaA. injection HaA as <- _.
  eapply calls_bind; [by apply reconcileObject_registers|]. intros [gm resP] E. cbn [fst] in E. subst gm.
  eapply calls_bind; [by apply (InferenceProps.reconcileObject_allocates f reqB)|]. intros [rB resB] (nowB & gmB & aB & HaB & E).
  cbn [fst InferenceController.GPUManager InferenceController.with_gpu] in *. subst rB. apply calls_ret.
  destruct (register_allocate nowB a2 pool sh reqB profile _ Hmode Hprofs HprofB HmB HpB HcB Hr1)
    as (m2 & infoB & lb & ib & HaB' & _ & HholdB & Hib & HidB & Hkeep).
  rewrite HaB' in HaB. injection HaB as <- _. cbn.
  destruct HholdA as [HndA HheldA]. destruct (HheldA la ltac:(by left)) as (ia' & Hia' & Hu & Hown). rewrite Hia in Hia'. injection Hia' as <-.
  destruct (Hkeep la ia Hia Hu) as [Hne Hia2].
  exists la, lb, ia, ib. split_and!; [done | done | done | by rewrite HidA, HidB, HpB' | | done].
  split; [done|]. intros l ->%list_elem_of_singleton. by exists ia.
Qed.
End properties.

(** * Witnesses *)
Section witnesses.
Local Existing Instance ZQuantity.
Local Existing Instance textTypes.
Local Existing Instance stdRuntime.
Local Existing Instance GpuProps.noScanner.
Local Existing Instance InferenceProps.exampleLib.

Definition ex_pool (deleted : option Z) : GPUPool :=
  mkGPUPool _ (mkObjectMeta "p" "" 1 deleted [gpuPoolFinalizer]) (gp_Spec GpuProps.gpool)
    (gp_Status (newStatus 0 7 7 GpuProps.gpool GpuProps.gstart)).

Lemma pool_deletion_never_blocked_witness :
  always (reconcileObject 0 (ex_pool (Some 8)) GpuProps.gstart) (fun tr o => exists p updated,
    tr = [Ev (CUpdate KGPUPool p) updated] /\ om_Finalizers (gp_ObjectMeta p) = []).
Proof.
  apply (always_mono _ (fun tr o => exists p updated m',
    tr = [Ev (CUpdate KGPUPool p) updated] /\ o = Ret (m', mkResult false 0 (errorOf updated)) /\
    p = set_finalizers (om_Finalizers (gp_ObjectMeta p)) (ex_pool (Some 8)) /\
    (forall f, f ∈ om_Finalizers (gp_ObjectMeta p) <-> f ∈ [gpuPoolFinalizer] /\ f <> gpuPoolFinalizer) /\
    GpuManager.gm_pools m' !! "p" = None /\ Mig.mm_heap (GpuManager.gm_mig m') = Mig.mm_heap (GpuManager.gm_mig GpuProps.gstart))).
  { intros tr o (p & updated & m' & Htr & _ & _ & Hf & _). exists p, updated. split; [exact Htr|].
    destruct (om_Finalizers (gp_ObjectMeta p)) as [|f fs]; [reflexivity|]. exfalso.
    destruct (proj1 (Hf f) ltac:(left)) as [Hin Hne]. apply Hne. by apply list_elem_of_singleton in Hin. }
  refine (proj2 (pool_deletion_never_blocked 0 0 7 7 GpuProps.gpool (ex_pool (Some 8)) GpuProps.gstart
    (GpuManager.newPoolInfo GpuProps.gpool) GpuProps.gstart_reach eq_refl eq_refl _)).
  eexists. reflexivity.
Defined.

Definition ex_second : InferenceService :=
  mkInferenceService _ _ (mkObjectMeta "chat" "default" 1 None [InferenceController.inferenceServiceFinalizer])
    (is_Spec (InferenceProps.ex_isvc GPUSharingModeMIG)) (is_Status (InferenceProps.ex_isvc GPUSharingModeMIG)).
Lemma ex_second_healthy :
  InferenceProps.healthy Backends.DefaultFactory (InferenceController.allocationRequest ex_second) ex_second.
Proof. constructor; try reflexivity. exists Vllm.VLLMBackend. split; [apply Backends.DefaultFactory_Get; by left | reflexivity]. Qed.
Lemma ex_pool_healthy : healthyPool (ex_pool None).
Proof. constructor; reflexivity. Qed.

Definition ex_both : prog (InferenceController.InferenceServiceReconciler (T := unit)) :=
  poolAndServices 0 0 0 0 0 0 (ex_pool None) (InferenceProps.ex_isvc GPUSharingModeMIG) ex_second InferenceProps.ex_reconciler.
Lemma pool_reconcile_duplicates_witness :
  calls anything (fun r' => exists la lb ia ib, let heap := Mig.mm_heap (GpuManager.gm_mig (InferenceController.GPUManager r')) in
      la <> lb /\ heap !! la = Some ia /\ heap !! lb = Some ib /\ Mig.ii_InstanceID ia = Mig.ii_InstanceID ib /\
      InferenceProps.holds InferenceProps.ex_request (GpuManager.gm_mig (InferenceController.GPUManager r')) [la] /\
      InferenceProps.holds (InferenceController.allocationRequest ex_second)
        (GpuManager.gm_mig (InferenceController.GPUManager r')) [lb]) ex_both.
Proof.
  refine (pool_reconcile_duplicates 0 0 0 0 0 0 Backends.DefaultFactory (ex_pool None) _ InferenceProps.ex_request
    (InferenceController.allocationRequest ex_second) (InferenceProps.ex_isvc GPUSharingModeMIG) ex_second MigProps.mprof
    InferenceProps.ex_reconciler ex_pool_healthy GpuProps.gpool_mode GpuProps.gpool_profiles InferenceProps.ex_healthy ex_second_healthy
    eq_refl eq_refl eq_refl eq_refl eq_refl eq_refl eq_refl MigProps.mprof_known eq_refl _).
  apply rtc_once, (MigProps.migStep_ConfigurePool GpuProps.gpool).
Defined.
End witnesses.
