(* ===== verification/TokenCacheController.v ===== *)
(** The controller of token caches
    (internal/controller/tokencache_controller.go). *)
From S2P Require Import Prelude GoFloat Api ServiceApi Backend Kube ControllerLib.
From S2P Require LocalCache RedisCache CacheManager.
From S2P Require Import Tiers.
Local Open Scope Z_scope.

Definition tokenCacheFinalizer : string := "inference.ai/tokencache-finalizer".

Section controller.
Context `{QuantityOps} `{CoreTypes} `{!ControllerLib} `{GoRuntime} `{LocalCache.Codecs} `{RedisCache.RedisServer}.
Implicit Types (tc : TokenCache) (m : CacheManager.Manager Tier).

Definition tc_Name tc : string := om_Name (tc_ObjectMeta tc).
Definition tc_Namespace tc : string := om_Namespace (tc_ObjectMeta tc).
Definition tc_Tiers tc : list CacheTierSpec := tcs_Tiers (tc_Spec tc).

(** ** Fields the controller writes *)
Definition set_finalizers (fs : list string) tc : TokenCache :=
  let o := tc_ObjectMeta tc in
  mkTokenCache _ (mkObjectMeta (om_Name o) (om_Namespace o) (om_Generation o) (om_DeletionTimestamp o) fs)
    (tc_Spec tc) (tc_Status tc).
Definition with_status (f : TokenCacheStatus -> TokenCacheStatus) tc : TokenCache :=
  mkTokenCache _ (tc_ObjectMeta tc) (tc_Spec tc) (f (tc_Status tc)).
Definition set_phase (phase : TokenCachePhase) (s : TokenCacheStatus) : TokenCacheStatus :=
  mkTokenCacheStatus _ phase (tcst_TotalSize s) (tcst_UsedSize s) (tcst_TotalEntries s) (tcst_OverallHitRate s)
    (tcst_Tiers s) (tcst_WarmupStatus s) (tcst_Conditions s) (tcst_LastSyncTime s) (tcst_ObservedGeneration s).
Definition set_conditions (cs : list Condition) (s : TokenCacheStatus) : TokenCacheStatus :=
  mkTokenCacheStatus _ (tcst_Phase s) (tcst_TotalSize s) (tcst_UsedSize s) (tcst_TotalEntries s) (tcst_OverallHitRate s)
    (tcst_Tiers s) (tcst_WarmupStatus s) cs (tcst_LastSyncTime s) (tcst_ObservedGeneration s).
Definition set_sync (time generation : Z) (s : TokenCacheStatus) : TokenCacheStatus :=
  mkTokenCacheStatus _ (tcst_Phase s) (tcst_TotalSize s) (tcst_UsedSize s) (tcst_TotalEntries s) (tcst_OverallHitRate s)
    (tcst_Tiers s) (tcst_WarmupStatus s) (tcst_Conditions s) (Some time) generation.
(** The fields that [updateStatus] copies from the manager's status. *)
Definition copy_status (from s : TokenCacheStatus) : TokenCacheStatus :=
  mkTokenCacheStatus _ (tcst_Phase from) (tcst_TotalSize from) (tcst_UsedSize from) (tcst_TotalEntries from)
    (tcst_OverallHitRate from) (tcst_Tiers from) (tcst_WarmupStatus from) (tcst_Conditions s) (tcst_LastSyncTime s)
    (tcst_ObservedGeneration s).

Definition setCondition (c : Condition) tc : TokenCache :=
  with_status (fun s => set_conditions (upsertCondition c (tcst_Conditions s)) s) tc.

(** ** Validation *)
(** The loop of [validateSpec]: the names it has seen are a map to bool. *)
Fixpoint validateTiers (tierNames : gmap string bool) (tiers : list CacheTierSpec) : result unit :=
  match tiers with
  | [] => Ok tt
  | tier :: rest =>
      if decide (cts_Name tier = "") then Err "tier name is required"
      else if default false (tierNames !! cts_Name tier) then Err ("duplicate tier name: " +:+ cts_Name tier)
      else if Quantity_IsZero (cts_Size tier) then Err ("tier size must be specified for tier: " +:+ cts_Name tier)
      else validateTiers (<[cts_Name tier := true]> tierNames) rest
  end.
Definition validateSpec tc : result unit :=
  match tc_Tiers tc with
  | [] => Err "at least one cache tier is required"
  | tiers => validateTiers ∅ tiers
  end.

(** The first tier of a type. *)
Fixpoint findTier (ty : CacheTierType) (tiers : list CacheTierSpec) : option CacheTierSpec :=
  match tiers with
  | [] => None
  | tier :: rest => if decide (cts_Type tier = ty) then Some tier else findTier ty rest
  end.

(** ** Redis *)
Definition redisName tc : string := tc_Name tc +:+ "-redis".
Definition componentLabels tc (component : string) : gmap string string :=
  {["app.kubernetes.io/name" := tc_Name tc; "app.kubernetes.io/component" := component]}.
Definition managedLabels tc (component : string) : gmap string string :=
  <["app.kubernetes.io/managed-by" := "inference-operator"]> (componentLabels tc component).
Definition childMeta tc (name component : string) : ChildMeta :=
  mkChildMeta _ name (tc_Namespace tc) (managedLabels tc component) ∅ [].
Definition redisConfig {A} (f : RedisCacheConfig -> A) (d : A) (tier : CacheTierSpec) : A :=
  match cts_RedisConfig tier with Some c => f c | None => d end.
Definition redisReplicas (tier : CacheTierSpec) : Z :=
  redisConfig (fun c => if 0 <? rcc_Replicas c then rcc_Replicas c else 1) 1 tier.
Definition persistent (tier : CacheTierSpec) : bool := redisConfig rcc_PersistenceEnabled false tier.
Definition storageClaim (meta : ChildMeta) (size : Quantity) (class : option string) : PersistentVolumeClaim := {|
  pvc_Meta := meta;
  pvc_Spec := {|
    pvs_AccessModes := [ReadWriteOnce];
    pvs_Resources := {| rr_Limits := ∅; rr_Requests := {["storage" := size]} |};
    pvs_StorageClassName := class;
    pvs_Unwritten := Unwritten_zero;
  |};
|}.

Definition redisContainer (tier : CacheTierSpec) : Container := {|
  ct_Name := "redis";
  ct_Image := "redis:7-alpine";
  ct_Command := [];
  ct_Args := if persistent tier then ["--appendonly"; "yes"; "--save"; "60"; "1"] else [];
  ct_Env := [];
  ct_Ports := [mkContainerPort "redis" 6379 "TCP"];
  ct_Resources := {|
    rr_Limits := {["cpu" := MustParse "500m"; "memory" := cts_Size tier]};
    rr_Requests := {["cpu" := MustParse "100m"; "memory" := MustParse "256Mi"]};
  |};
  ct_VolumeMounts := if persistent tier then [mkVolumeMount "data" "/data"] else [];
  ct_ReadinessProbe := Some (mkProbe (TCPSocket 6379) 5 10 0 0);
  ct_LivenessProbe := Some (mkProbe (TCPSocket 6379) 15 20 0 0);
  ct_StartupProbe := None;
|}.
Definition redisStatefulSet tc (tier : CacheTierSpec) : StatefulSet := {|
  sts_Meta := childMeta tc (redisName tc) "redis";
  sts_Spec := {|
    sss_ServiceName := redisName tc;
    sss_Replicas := Some (redisReplicas tier);
    sss_Selector := componentLabels tc "redis";
    sss_Template := mkPodTemplateSpec _ _ (componentLabels tc "redis") ∅
      (mkPodSpec _ _ "" ∅ [] None [] [redisContainer tier] [] []);
    sss_VolumeClaimTemplates :=
      if persistent tier then [storageClaim (mkChildMeta _ "data" "" ∅ ∅ []) (cts_Size tier) None] else [];
    sss_Unwritten := Unwritten_zero;
  |};
|}.
Definition redisService tc : CoreService := {|
  csv_Meta := childMeta tc (redisName tc) "redis";
  csv_Spec := mkCoreServiceSpec _ "None" "" [mkServicePort "redis" 6379 6379 "TCP"] (componentLabels tc "redis") Unwritten_zero;
|}.

Definition createRedisService tc : prog (result unit) :=
  let svc := redisService tc in
  owners ←? SetControllerReference KTokenCache tc KService svc;
  let svc := mkCoreService _ (own owners (csv_Meta svc)) (csv_Spec svc) in
  found ← get KService (meta_key (csv_Meta svc));
  match found with
  | Found _ => mret (Ok tt)
  | NotFound => _ ←? create KService svc; mret (Ok tt)
  | Failed e => mret (Err e)
  end.

(** Creates the stateful set and then its service; one that is there stays as it is. *)
Definition ensureRedis tc (tier : CacheTierSpec) : prog (result unit) :=
  let sts := redisStatefulSet tc tier in
  owners ←? SetControllerReference KTokenCache tc KStatefulSet sts;
  let sts := mkStatefulSet _ _ (own owners (sts_Meta sts)) (sts_Spec sts) in
  found ← get KStatefulSet (meta_key (sts_Meta sts));
  match found with
  | Found _ => mret (Ok tt)
  | NotFound => _ ←? create KStatefulSet sts; createRedisService tc
  | Failed e => mret (Err e)
  end.
Definition reconcileRedis tc : prog (result unit) :=
  match findTier CacheTierTypeRedis (tc_Tiers tc) with
  | None => mret (Ok tt)
  | Some tier =>
      if decide (redisConfig rcc_ExternalEndpoint "" tier = "") then ensureRedis tc tier else mret (Ok tt)
  end.

(** ** Local storage *)
Definition localClaim tc (tier : CacheTierSpec) : PersistentVolumeClaim :=
  storageClaim (childMeta tc (tc_Name tc +:+ "-local-cache") "local-cache") (cts_Size tier)
    match cts_LocalConfig tier with
    | Some c => if decide (lcc_StorageClass c = "") then None else Some (lcc_StorageClass c)
    | None => None
    end.
Definition ensureClaim tc (pvc : PersistentVolumeClaim) : prog (result unit) :=
  owners ←? SetControllerReference KTokenCache tc KPersistentVolumeClaim pvc;
  let pvc := mkPersistentVolumeClaim _ _ (own owners (pvc_Meta pvc)) (pvc_Spec pvc) in
  found ← get KPersistentVolumeClaim (meta_key (pvc_Meta pvc));
  match found with
  | Found _ => mret (Ok tt)
  | NotFound => _ ←? create KPersistentVolumeClaim pvc; mret (Ok tt)
  | Failed e => mret (Err e)
  end.
Definition reconcileLocalStorage tc : prog (result unit) :=
  match findTier CacheTierTypeLocal (tc_Tiers tc) with
  | None => mret (Ok tt)
  | Some tier =>
      if match cts_LocalConfig tier with Some c => lcc_UseRamDisk c | None => false end then mret (Ok tt)
      else ensureClaim tc (localClaim tc tier)
  end.

(** ** Status *)
Definition allTiersReady tc : bool := forallb ctst_Ready (tcst_Tiers (tc_Status tc)).
Definition readyCondition (now : Z) (ready : bool) : Condition :=
  if ready then mkCondition "Ready" ConditionTrue now "AllTiersReady" "All cache tiers are ready"
  else mkCondition "Ready" ConditionFalse now "TiersNotReady" "Not all cache tiers are ready".
Definition warmupCondition (now : Z) (warmup : option WarmupStatus) : Condition :=
  if match warmup with Some w => negb (wst_InProgress w) | None => false end
  then mkCondition "WarmupComplete" ConditionTrue now "WarmupComplete" "Cache warmup completed"
  else
    let progress := match warmup with Some w => wst_Progress w | None => 0 end in
    mkCondition "WarmupComplete" ConditionFalse now "WarmupInProgress" ("Cache warmup in progress: " +:+ print_Z progress +:+ "%").
Definition warmupEnabled tc : bool := match tcs_Warmup (tc_Spec tc) with Some w => ws_Enabled w | None => false end.
Definition updateConditions (now : Z) tc : TokenCache :=
  let ready := allTiersReady tc && (0 <? Z.of_nat (length (tcst_Tiers (tc_Status tc)))) in
  let tc := if ready then with_status (set_phase TokenCachePhaseReady) tc else tc in
  let tc := setCondition (readyCondition now ready) tc in
  if warmupEnabled tc then setCondition (warmupCondition now (tcst_WarmupStatus (tc_Status tc))) tc else tc.
Definition newStatus (synced now : Z) tc m : TokenCache :=
  let tc := match CacheManager.GetStatus (tc_Name tc) m with
    | Err _ => with_status (set_phase TokenCachePhaseInitializing) tc
    | Ok status => with_status (copy_status status) tc
    end in
  updateConditions now (with_status (set_sync synced (om_Generation (tc_ObjectMeta tc))) tc).
Definition updateStatus tc m : prog (result TokenCache) :=
  synced ← clock;
  now ← clock;
  updateStatusOf KTokenCache (newStatus synced now tc m).

Definition failedStatus (now : Z) (e : error) tc : TokenCache :=
  setCondition (mkCondition "Error" ConditionTrue now "ReconcileError" e) (with_status (set_phase TokenCachePhaseFailed) tc).
(** The outcome of the write is only logged. *)
Definition updateStatusWithError tc (e : error) : prog Result :=
  now ← clock;
  _ ← updateStatusOf KTokenCache (failedStatus now e tc);
  mret (mkResult false (30 * Second) None).

(** ** Deletion *)
Definition handleDeletion (e : CacheManager.mgr_env) tc m : prog (CacheManager.Manager Tier * Result) :=
  '(m, _) ← lift (CacheManager.CleanupCache e (tc_Name tc) m);
  let tc := set_finalizers (RemoveFinalizer (om_Finalizers (tc_ObjectMeta tc)) tokenCacheFinalizer) tc in
  updated ← update KTokenCache tc;
  mret (m, mkResult false 0 (match updated with Ok _ => None | Err e => Some e end)).

(** ** The reconciler *)
Definition fail tc (e : error) m : prog (CacheManager.Manager Tier * Result) :=
  res ← updateStatusWithError tc e; mret (m, res).

(** [Reconcile] gets at the manager twice, to configure the cache and to read
    its status, and in between it works on the API server, while goroutines and
    other controllers get at the manager too.  So it is cut in two: [configure]
    and [report].  [configure] ends the reconciliation with a result, or goes on
    ([None]); [e] is the environment of the tiers that a deletion clears, [w]
    what new tiers take from the machine. *)
Definition ends (p : prog (CacheManager.Manager Tier * Result)) : prog (CacheManager.Manager Tier * option Result) :=
  '(m, res) ← p; mret (m, Some res).
Definition configure (e : CacheManager.mgr_env) (w : nat -> CacheManager.world) tc m
    : prog (CacheManager.Manager Tier * option Result) :=
  match om_DeletionTimestamp (tc_ObjectMeta tc) with
  | Some _ => ends (handleDeletion e tc m)
  | None =>
      if ContainsFinalizer (om_Finalizers (tc_ObjectMeta tc)) tokenCacheFinalizer then
        match validateSpec tc with
        | Err err => ends (fail tc err m)
        | Ok _ =>
            match CacheManager.ConfigureCache w tc m with
            | (m, Err err) => ends (fail tc err m)
            | (m, Ok _) => mret (m, None)
            end
        end
      else
        updated ← update KTokenCache (set_finalizers (AddFinalizer (om_Finalizers (tc_ObjectMeta tc)) tokenCacheFinalizer) tc);
        mret (m, Some (match updated with
          | Ok _ => mkResult true 0 None
          | Err err => mkResult false 0 (Some err)
          end))
  end.
(** The children and the status; [m] is the manager when the status is read.
    The errors of the children are only logged. *)
Definition report tc m : prog (CacheManager.Manager Tier * Result) :=
  _ ← reconcileRedis tc;
  _ ← reconcileLocalStorage tc;
  written ← updateStatus tc m;
  mret (m, match written with
    | Ok _ => mkResult false (30 * Second) None
    | Err err => mkResult false 0 (Some err)
    end).

(** [Reconcile] up to [report]: its result, or the cache to report on. *)
Definition begin (e : CacheManager.mgr_env) (w : nat -> CacheManager.world) (key : NamespacedName) m
    : prog (CacheManager.Manager Tier * (Result + TokenCache)) :=
  fetched ← get KTokenCache key;
  match fetched with
  | NotFound => mret (m, inl (mkResult false 0 None))
  | Failed err => mret (m, inl (mkResult false 0 (Some err)))
  | Found tc => '(m, res) ← configure e w tc m; mret (m, match res with Some res => inl res | None => inr tc end)
  end.
Definition Reconcile (e : CacheManager.mgr_env) (w : nat -> CacheManager.world) (key : NamespacedName) m
    : prog (CacheManager.Manager Tier * Result) :=
  '(m, r) ← begin e w key m;
  match r with inl res => mret (m, res) | inr tc => report tc m end.

(** The same for a cache that was fetched, with nobody else at the manager. *)
Definition reconcileObject (e : CacheManager.mgr_env) (w : nat -> CacheManager.world) tc m
    : prog (CacheManager.Manager Tier * Result) :=
  '(m, res) ← configure e w tc m;
  match res with Some res => mret (m, res) | None => report tc m end.

(** ** The two parts together *)
Lemma reconcileObject_eq e w tc m : reconcileObject e w tc m =
  match om_DeletionTimestamp (tc_ObjectMeta tc) with
  | Some _ => handleDeletion e tc m
  | None =>
      if ContainsFinalizer (om_Finalizers (tc_ObjectMeta tc)) tokenCacheFinalizer then
        match validateSpec tc with
        | Err err => fail tc err m
        | Ok _ =>
            match CacheManager.ConfigureCache w tc m with
            | (m, Err err) => fail tc err m
            | (m, Ok _) => report tc m
            end
        end
      else
        updated ← update KTokenCache (set_finalizers (AddFinalizer (om_Finalizers (tc_ObjectMeta tc)) tokenCacheFinalizer) tc);
        mret (m, match updated with
          | Ok _ => mkResult true 0 None
          | Err err => mkResult false 0 (Some err)
          end)
  end.
Proof.
  unfold reconcileObject, configure. destruct (om_DeletionTimestamp _).
  { unfold handleDeletion, ends, lift. by destruct (CacheManager.CleanupCache e (tc_Name tc) m) as [[]| |]. }
  destruct (ContainsFinalizer _ _); [|done]. destruct (validateSpec tc); [|done].
  by destruct (CacheManager.ConfigureCache w tc m) as [m' []].
Qed.
Lemma Reconcile_always e w key m Q : always (Reconcile e w key m) Q <-> forall fetched : got TokenCache,
  always match fetched with
    | NotFound => mret (m, mkResult false 0 None)
    | Failed err => mret (m, mkResult false 0 (Some err))
    | Found tc => reconcileObject e w tc m
    end (fun tr o => Q (Ev (CGet KTokenCache key) fetched :: tr) o).
Proof.
  unfold Reconcile, begin. rewrite always_assoc. split; intros Hp [tc| |err].
  2, 5: exact (Hp NotFound).
  2, 4: exact (Hp (Failed err)).
  - specialize (Hp (Found tc)). apply always_assoc in Hp. eapply always_bind_ext; [|exact Hp]. by intros [m' []].
  - apply always_assoc. eapply always_bind_ext; [|exact (Hp (Found tc))]. by intros [m' []].
Qed.
End controller.
