(* ===== verification/TokenCacheProps.v ===== *)
(** What the controller of token caches does, together with the cache manager
    it configures, whatever the API server answers. *)
From S2P Require Import Prelude GoFloat Api CacheTier ServiceApi Backend Kube ControllerLib.
From S2P Require FileSystem LocalCache RedisCache RedisProps CacheManager ManagerProps InferenceProps.
From S2P Require Import Tiers TokenCacheController.
Local Open Scope Z_scope.

Section facts.
Context `{QuantityOps} `{CoreTypes} `{!ControllerLib} `{GoRuntime} `{LocalCache.Codecs} `{RedisCache.RedisServer}.
Implicit Types (tc : TokenCache) (m : CacheManager.Manager Tier).

Definition tc_Conditions tc : list Condition := tcst_Conditions (tc_Status tc).
(** What a call that writes the status of a cache writes satisfies [Q]. *)
Definition on_status (Q : TokenCache -> Prop) (c : call) : Prop :=
  match c with
  | CUpdateStatus k o => match k return obj k -> Prop with KTokenCache => Q | _ => fun _ => True end o
  | _ => True
  end.

(** ** Validation *)
Lemma validateTiers_spec seen tiers : (forall name, default false (seen !! name) = bool_decide (is_Some (seen !! name))) ->
  validateTiers seen tiers = Ok tt <->
    Forall (fun t => cts_Name t <> "" /\ Quantity_IsZero (cts_Size t) = false) tiers /\ NoDup (cts_Name <$> tiers) /\
    Forall (fun t => seen !! cts_Name t = None) tiers.
Proof.
  revert seen. induction tiers as [|t tiers IH]; intros seen Hseen; csimpl.
  { split; [|done]. intros _. split_and!; constructor. }
  assert (Hseen' : forall name, default false (<[cts_Name t := true]> seen !! name) = bool_decide (is_Some (<[cts_Name t := true]> seen !! name))).
  { intros name. destruct (decide (name = cts_Name t)) as [->|Hne]; [by rewrite lookup_insert_eq|]. by rewrite lookup_insert_ne. }
  rewrite !Forall_cons, NoDup_cons. destruct (decide (cts_Name t = "")) as [Hn|Hn]; [split; [done|]; tauto|].
  rewrite Hseen. case_bool_decide as Hs.
  { split; [done|]. intros (_ & _ & Hnone & _). rewrite Hnone in Hs. by destruct Hs. }
  apply eq_None_not_Some in Hs. destruct (Quantity_IsZero (cts_Size t)) eqn:Hz; [split; [done|]; intros [[[_ ?] _] _]; congruence|].
  rewrite (IH _ Hseen'). split.
  - intros (Hall & Hnd & Hnew). assert (Hnew' : Forall (fun x => cts_Name x <> cts_Name t /\ seen !! cts_Name x = None) tiers).
    { eapply Forall_impl; [exact Hnew|]. intros x Hx. apply lookup_insert_None in Hx. naive_solver. }
    split_and!; try done.
    + intros (x & Heq & Hx)%list_elem_of_fmap. rewrite Forall_forall in Hnew'. by destruct (Hnew' x Hx).
    + eapply Forall_impl; [exact Hnew'|]. by intros x [_ ?].
  - intros ([_ Hall] & [Hnot Hnd] & _ & Hnew). split_and!; try done. rewrite Forall_forall in Hnew |- *. intros x Hx.
    rewrite lookup_insert_ne; [by apply Hnew|]. intros Heq. apply Hnot. rewrite Heq. by apply list_elem_of_fmap_2.
Qed.

Lemma findTier_Some ty tiers t : findTier ty tiers = Some t -> t ∈ tiers /\ cts_Type t = ty.
Proof.
  induction tiers as [|u tiers IH]; simpl; [done|]. case_decide; [intros [= ->]; split; [by left | done]|].
  intros [Hin Ht]%IH. split; [by right | done].
Qed.

(** ** What [updateStatus] writes for a cache that the manager knows *)
Lemma GetStatus_config name m l c : CacheManager.lookupConfig name m = Some (l, c) ->
  exists s, CacheManager.GetStatus name m = Ok s /\
    tcst_Phase s = (if forallb tier_Healthy (CacheManager.cc_Tiers c) then TokenCachePhaseReady else TokenCachePhaseDegraded) /\
    tcst_Tiers s = CacheManager.tierStatus <$> CacheManager.cc_Tiers c /\ tcst_WarmupStatus s = None.
Proof. intros Hc. unfold CacheManager.GetStatus. rewrite Hc. eexists. split; [reflexivity|]. done. Qed.

Lemma forallb_tierStatus (ts : list Tier) : forallb ctst_Ready (CacheManager.tierStatus <$> ts) = forallb tier_Healthy ts.
Proof. induction ts as [|t ts IH]; csimpl; [done|]. by rewrite IH. Qed.

Lemma tcache_newStatus_spec synced now tc m l c : CacheManager.lookupConfig (tc_Name tc) m = Some (l, c) ->
  let tiers := CacheManager.cc_Tiers c in let healthy := forallb tier_Healthy tiers in
  let ready := readyCondition now (healthy && (0 <? Z.of_nat (length tiers))) in
  let tc' := newStatus synced now tc m in
  tc_ObjectMeta tc' = tc_ObjectMeta tc /\ tc_Spec tc' = tc_Spec tc /\
  tcst_Phase (tc_Status tc') = (if healthy then TokenCachePhaseReady else TokenCachePhaseDegraded) /\
  tcst_Tiers (tc_Status tc') = CacheManager.tierStatus <$> tiers /\
  tcst_ObservedGeneration (tc_Status tc') = om_Generation (tc_ObjectMeta tc) /\ tcst_LastSyncTime (tc_Status tc') = Some synced /\
  tc_Conditions tc' = (if warmupEnabled tc then upsertCondition (warmupCondition now None) else id) (upsertCondition ready (tc_Conditions tc)).
Proof.
  intros Hc tiers healthy ready tc'. destruct (GetStatus_config _ m l c Hc) as (s & Hs & Hphase & Htiers & Hwarm).
  unfold tc', newStatus. rewrite Hs. unfold updateConditions, allTiersReady. cbn [tc_Status with_status set_sync copy_status tcst_Tiers].
  rewrite Htiers, forallb_tierStatus, length_fmap. fold tiers in Hphase, Htiers |- *. fold healthy in Hphase |- *. fold ready.
  destruct (healthy && _) eqn:Hready; destruct (warmupEnabled tc) eqn:Hw; unfold warmupEnabled in *;
    cbn -[readyCondition warmupCondition]; rewrite ?Hw; cbn -[readyCondition warmupCondition]; rewrite ?Hphase, ?Htiers, ?Hwarm;
    split_and!; try done; by apply andb_true_iff in Hready as [-> _].
Qed.

(** ** The calls of one reconciliation *)
(** The Redis tier that the controller deploys. *)
Definition deployedRedis tc (tier : CacheTierSpec) : Prop :=
  findTier CacheTierTypeRedis (tc_Tiers tc) = Some tier /\ redisConfig rcc_ExternalEndpoint "" tier = "".
(** The objects that a reconciliation of the cache may create. *)
Definition described tc (k : kind) : obj k -> Prop :=
  match k with
  | KStatefulSet => fun sts => exists tier owners, deployedRedis tc tier /\
      sts = mkStatefulSet _ _ (own owners (sts_Meta (redisStatefulSet tc tier))) (sts_Spec (redisStatefulSet tc tier))
  | KService => fun svc => exists tier owners, deployedRedis tc tier /\
      svc = mkCoreService _ (own owners (csv_Meta (redisService tc))) (csv_Spec (redisService tc))
  | KPersistentVolumeClaim => fun pvc => exists tier owners, findTier CacheTierTypeLocal (tc_Tiers tc) = Some tier /\
      pvc = mkPersistentVolumeClaim _ _ (own owners (pvc_Meta (localClaim tc tier))) (pvc_Spec (localClaim tc tier))
  | _ => fun _ => False
  end.

Section calls_of.
Variables (P : call -> Prop) (tc : TokenCache).
Hypothesis P_now : P CNow.
Hypothesis P_get : forall k key, P (CGet k key).
Hypothesis P_own : forall k o, P (CSetOwner KTokenCache tc k o).
Hypothesis P_create : forall k o, described tc k o -> P (CCreate k o).
Hypothesis P_failed : forall now e, P (CUpdateStatus KTokenCache (failedStatus now e tc)).
Hypothesis P_status : forall synced now m l c, CacheManager.lookupConfig (tc_Name tc) m = Some (l, c) ->
  P (CUpdateStatus KTokenCache (newStatus synced now tc m)).
Hypothesis P_finalizers : forall fs, P (CUpdate KTokenCache (set_finalizers fs tc)).

Lemma tcache_fail_calls e m : calls P (fun x => x = (m, mkResult false (30 * Second) None)) (fail tc e m).
Proof.
  unfold fail, updateStatusWithError. eapply (calls_bind _ (fun res => res = mkResult false (30 * Second) None)).
  - apply calls_then; [by apply calls_clock|]. intros now.
    apply calls_then; [apply (calls_updateStatus _ KTokenCache), P_failed|]. intros; by apply calls_ret.
  - intros res ->. by apply calls_ret.
Qed.

Lemma createRedisService_calls tier : deployedRedis tc tier -> calls P anything (createRedisService tc).
Proof.
  intros Ht. unfold createRedisService. apply calls_then_ok; [apply (calls_setOwner _ KTokenCache _ KService), P_own|].
  intros owners. apply calls_then; [apply (calls_get _ KService), P_get|]. intros [found| |e]; [by apply calls_ret | | by apply calls_ret].
  apply calls_then_ok; [|intros; by apply calls_ret]. apply (calls_create _ KService), P_create. by exists tier, owners.
Qed.
Lemma reconcileRedis_calls : calls P anything (reconcileRedis tc).
Proof.
  unfold reconcileRedis. destruct (findTier _ _) as [tier|] eqn:Ht; [|by apply calls_ret].
  case_decide as He; [|by apply calls_ret]. unfold ensureRedis.
  apply calls_then_ok; [apply (calls_setOwner _ KTokenCache _ KStatefulSet), P_own|]. intros owners.
  apply calls_then; [apply (calls_get _ KStatefulSet), P_get|]. intros [found| |e]; [by apply calls_ret | | by apply calls_ret].
  apply calls_then_ok; [|intros; by apply (createRedisService_calls tier)].
  apply (calls_create _ KStatefulSet), P_create. by exists tier, owners.
Qed.
Lemma reconcileLocalStorage_calls : calls P anything (reconcileLocalStorage tc).
Proof.
  unfold reconcileLocalStorage. destruct (findTier _ _) as [tier|] eqn:Ht; [|by apply calls_ret].
  match goal with |- context [if ?b then _ else _] => destruct b end; [by apply calls_ret|]. unfold ensureClaim.
  apply calls_then_ok; [apply (calls_setOwner _ KTokenCache _ KPersistentVolumeClaim), P_own|]. intros owners.
  apply calls_then; [apply (calls_get _ KPersistentVolumeClaim), P_get|]. intros [found| |e]; [by apply calls_ret | | by apply calls_ret].
  apply calls_then_ok; [|intros; by apply calls_ret]. apply (calls_create _ KPersistentVolumeClaim), P_create. by exists tier, owners.
Qed.

(** The manager after a reconciliation: as it was, configured, or cleaned up. *)
Definition managerAfter (e : CacheManager.mgr_env) w m (m' : CacheManager.Manager Tier) : Prop :=
  m' = m \/ m' = (CacheManager.ConfigureCache w tc m).1 \/ exists r, CacheManager.CleanupCache e (tc_Name tc) m = Ret (m', r).

(** [configure] goes on only when the manager has the cache. *)
Lemma tcache_configure_calls e w m : calls P (fun x => managerAfter e w m x.1 /\
    (x.2 = None -> is_Some (CacheManager.lookupConfig (tc_Name tc) x.1))) (configure e w tc m).
Proof.
  assert (Hends : forall p, calls P (fun x => managerAfter e w m x.1) p -> calls P (fun x => managerAfter e w m x.1 /\
    (x.2 = None -> is_Some (CacheManager.lookupConfig (tc_Name tc) x.1))) (ends p)).
  { intros p Hp. eapply calls_bind; [exact Hp|]. intros [m' res] Hm'. by apply calls_ret. }
  unfold configure. destruct (om_DeletionTimestamp _).
  { apply Hends. unfold handleDeletion. eapply (calls_bind _ (fun x => CacheManager.CleanupCache e (tc_Name tc) m = Ret x)); [by apply calls_lift|].
    intros [m' r] Hm. apply calls_then; [apply (calls_update _ KTokenCache), P_finalizers|]. intros updated. apply calls_ret. right. right. eauto. }
  destruct (ContainsFinalizer _ _).
  2: { apply calls_then; [apply (calls_update _ KTokenCache), P_finalizers|]. intros updated. apply calls_ret. split; [by left | done]. }
  assert (Hfail : forall err m', m' = m \/ m' = (CacheManager.ConfigureCache w tc m).1 ->
    calls P (fun x => managerAfter e w m x.1) (fail tc err m')).
  { intros err m' Hm'. eapply calls_mono; [done | | apply tcache_fail_calls]. intros x ->. unfold managerAfter. cbn [fst]. tauto. }
  destruct (validateSpec tc); [|apply Hends, Hfail; by left].
  destruct (CacheManager.ConfigureCache w tc m) as [m' [[]|err]] eqn:Hc; [|apply Hends, Hfail; by right].
  pose proof (f_equal fst Hc) as Hm'. apply ManagerProps.ConfigureCache_Ok in Hc as (ts & c & _ & Hc & _).
  apply calls_ret. split; [right; by left|]. intros _. by eexists.
Qed.

(** What a reconciliation that got to the status asks for. *)
Definition reported (res : Result) : Prop := res = mkResult false (30 * Second) None \/ exists err, res = mkResult false 0 (Some err).
Lemma tcache_report_calls m : (forall synced now, P (CUpdateStatus KTokenCache (newStatus synced now tc m))) ->
  calls P (fun x => x.1 = m /\ reported x.2) (report tc m).
Proof.
  intros Hst. unfold report. apply calls_then; [apply reconcileRedis_calls|]. intros _.
  apply calls_then; [apply reconcileLocalStorage_calls|]. intros _. apply calls_then.
  - unfold updateStatus. apply calls_then; [by apply calls_clock|]. intros synced. apply calls_then; [by apply calls_clock|]. intros now.
    by apply (calls_updateStatus _ KTokenCache).
  - intros [o|err]; apply calls_ret; split; try done; [by left | right; by eexists].
Qed.

Lemma tcache_reconcileObject_calls e w m : calls P (fun x => managerAfter e w m x.1) (reconcileObject e w tc m).
Proof.
  unfold reconcileObject. eapply calls_bind; [apply tcache_configure_calls|]. intros [m' [res|]] [Hm' Hc]; [by apply calls_ret|].
  destruct (Hc eq_refl) as [[l c] Hlc]. eapply calls_mono; [done | | apply tcache_report_calls; intros synced now; by eapply P_status].
  intros x [-> _]. exact Hm'.
Qed.
End calls_of.
End facts.

Section properties.
Context `{QuantityOps} `{CoreTypes} `{!ControllerLib} `{GoRuntime} `{LocalCache.Codecs} `{RedisCache.RedisServer}.
Implicit Types (tc : TokenCache) (m : CacheManager.Manager Tier).

(** A cache that reconciliation configures. *)
Record healthyCache tc : Prop := {
  hc_DeletionTimestamp : om_DeletionTimestamp (tc_ObjectMeta tc) = None;
  hc_Finalizers : ContainsFinalizer (om_Finalizers (tc_ObjectMeta tc)) tokenCacheFinalizer = true;
  hc_Spec : validateSpec tc = Ok tt;
  hc_Types : Forall (fun s => ManagerProps.supported (cts_Type s)) (tc_Tiers tc);
}.

Lemma healthyCache_configures w tc m : healthyCache tc -> exists m', CacheManager.ConfigureCache w tc m = (m', Ok tt).
Proof.
  intros Hh. destruct (CacheManager.ConfigureCache w tc m) as [m' r] eqn:Hc. exists m'. f_equal.
  apply ManagerProps.ConfigureCache_is_ok in Hc. destruct r as [[]|err]; [done|]. cbn in Hc. by destruct Hc as [_ Hc]; specialize (Hc (hc_Types _ Hh)).
Qed.

(** Reconciling a healthy cache configures it, and writes what the manager says then. *)
Lemma reconcileObject_healthy e w tc m m' : healthyCache tc -> CacheManager.ConfigureCache w tc m = (m', Ok tt) ->
  calls (on_status (fun tc' => exists synced now, tc' = newStatus synced now tc m')) (fun x => x.1 = m') (reconcileObject e w tc m).
Proof.
  intros Hh Hc. rewrite reconcileObject_eq, (hc_DeletionTimestamp _ Hh), (hc_Finalizers _ Hh), (hc_Spec _ Hh), Hc.
  eapply calls_mono; [done | | apply (tcache_report_calls (on_status _)); try done]; [by intros x [-> _]|].
  intros synced now. by exists synced, now.
Qed.

(** A spec that can be configured. *)
Definition acceptable tc : Prop :=
  tc_Tiers tc <> [] /\ NoDup (cts_Name <$> tc_Tiers tc) /\
  Forall (fun t => cts_Name t <> "" /\ Quantity_IsZero (cts_Size t) = false /\ ManagerProps.supported (cts_Type t)) (tc_Tiers tc).
Lemma acceptable_iff tc : acceptable tc <->
  validateSpec tc = Ok tt /\ Forall (fun s => ManagerProps.supported (cts_Type s)) (tc_Tiers tc).
Proof.
  assert (Hv : validateSpec tc = Ok tt <-> tc_Tiers tc <> [] /\ validateTiers ∅ (tc_Tiers tc) = Ok tt).
  { unfold validateSpec. destruct (tc_Tiers tc); split; [done | by intros [] | by split | by intros []]. }
  rewrite Hv, validateTiers_spec by (intros name; by rewrite lookup_empty). unfold acceptable.
  assert (Hnew : Forall (fun t => (∅ : gmap string bool) !! cts_Name t = None) (tc_Tiers tc)).
  { apply Forall_forall. intros t _. apply lookup_empty. }
  rewrite !Forall_forall in *. naive_solver.
Qed.

(** C34. What a cache must be to be configured: at least one tier, distinct
    nonempty tier names, no zero size, and a supported type for every tier.  Such
    a cache is configured by its reconciliation; for any other the manager
    stays as it is, and the only call besides reading the clock writes the
    status, with phase Failed. *)
Theorem tcache_acceptance e w tc m : om_DeletionTimestamp (tc_ObjectMeta tc) = None ->
  tokenCacheFinalizer ∈ om_Finalizers (tc_ObjectMeta tc) ->
  (acceptable tc -> exists m', CacheManager.ConfigureCache w tc m = (m', Ok tt) /\
     calls anything (fun x => x.1 = m') (reconcileObject e w tc m)) /\
  (~ acceptable tc -> calls (fun c => c = CNow \/ exists tc', c = CUpdateStatus KTokenCache tc' /\
       tcst_Phase (tc_Status tc') = TokenCachePhaseFailed)
     (fun x => x = (m, mkResult false (30 * Second) None)) (reconcileObject e w tc m)).
Proof.
  intros Hd Hf%ContainsFinalizer_spec. rewrite acceptable_iff. split.
  - intros [Hv Ht]. assert (Hh : healthyCache tc) by (by constructor).
    destruct (healthyCache_configures w tc m Hh) as [m' Hc]. exists m'. split; [done|].
    eapply calls_mono; [| |by apply reconcileObject_healthy]; done.
  - intros Hno. set (P := fun c => _).
    assert (Hfail : forall err, calls P (fun x => x = (m, mkResult false (30 * Second) None)) (fail tc err m)).
    { intros err. apply tcache_fail_calls; [by left|]. intros now e'. right. by eexists. }
    rewrite reconcileObject_eq, Hd, Hf. destruct (validateSpec tc) as [[]|err]; [|apply Hfail].
    destruct (CacheManager.ConfigureCache w tc m) as [m' r] eqn:Hc. pose proof (ManagerProps.ConfigureCache_is_ok _ _ _ _ _ Hc) as Hok.
    destruct r as [[]|err]; [exfalso; apply Hno; split; [done | by apply Hok]|].
    assert (m' = m) as ->; [|apply Hfail].
    unfold CacheManager.ConfigureCache in Hc. destruct (CacheManager.createTiers _ _ _ _); by injection Hc.
Qed.

(** ** Children *)
Definition creationOf (ev : event) : option kind := match ev_call ev with CCreate k _ => Some k | _ => None end.
Definition statefulSetFound (ev : event) : bool :=
  match ev_call ev as c return reply c -> bool with
  | CGet KStatefulSet _ => fun r => match r with Found _ => true | _ => false end
  | _ => fun _ => false
  end (ev_reply ev).

Lemma reconcileRedis_creations tc : always (reconcileRedis tc) (fun tr _ =>
  omap creationOf tr ∈ [[]; [KStatefulSet]; [KStatefulSet; KService]] /\
  (existsb statefulSetFound tr = true -> omap creationOf tr = [])).
Proof.
  unfold reconcileRedis. destruct (findTier _ _) as [tier|]; [|by split; [left|]]. case_decide; [|by split; [left|]].
  unfold ensureRedis. intros [owners|err]; [|by split; [left|]]. intros [found| |err]; [by split; [left|] | | by split; [left|]].
  intros [sts|err]; [|split; [right; by left | done]]. intros [owners'|err]; [|split; [right; by left | done]].
  intros [found| |err]; [split; [right; by left | done] | | split; [right; by left | done]].
  intros [svc|err]; split; try done; right; right; by left.
Qed.

(** C35. The children of a cache are written once: a reconciliation creates at
    most the stateful set and service of the first Redis tier and the claim of
    the first local tier, as described by the spec, and changes no object but
    the cache itself; a stateful set that is found stays as it is, whatever the
    spec says by now, and then its service is not created either, even if it
    is missing because its creation failed before. *)
Theorem tcache_children_once e w tc m :
  calls (fun c => match c with CCreate k o => described tc k o | CUpdate k _ | CUpdateStatus k _ => k = KTokenCache | _ => True end)
    anything (reconcileObject e w tc m) /\
  always (reconcileRedis tc) (fun tr _ => omap creationOf tr ∈ [[]; [KStatefulSet]; [KStatefulSet; KService]] /\
    (existsb statefulSetFound tr = true -> omap creationOf tr = [])).
Proof.
  split; [|apply reconcileRedis_creations]. eapply calls_forget, tcache_reconcileObject_calls; done.
Qed.

(** ** Status *)
Definition readyIs (status : string) tc : Prop :=
  exists cd, conditionOf "Ready" (tc_Conditions tc) = Some cd /\ cond_Status cd = status.
(** The conditions that [updateStatus] sets. *)
Lemma newStatus_conditions synced now tc m l c : CacheManager.lookupConfig (tc_Name tc) m = Some (l, c) -> CacheManager.cc_Tiers c <> [] ->
  let tc' := newStatus synced now tc m in
  readyIs (if forallb tier_Healthy (CacheManager.cc_Tiers c) then ConditionTrue else ConditionFalse) tc' /\
  (forall cd, conditionOf "WarmupComplete" (tc_Conditions tc') = Some cd -> cond_Status cd = ConditionFalse \/
     warmupEnabled tc = false /\ conditionOf "WarmupComplete" (tc_Conditions tc) = Some cd) /\
  (forall ty cd cd', conditionOf ty (tc_Conditions tc) = Some cd -> conditionOf ty (tc_Conditions tc') = Some cd' ->
     cond_Status cd = cond_Status cd' -> cd' = cd).
Proof.
  intros Hc Hne tc'. destruct (tcache_newStatus_spec synced now tc m l c Hc) as (_ & _ & _ & _ & _ & _ & Hcs). fold tc' in Hcs.
  rewrite (proj2 (Z.ltb_lt 0 _)), andb_true_r in Hcs by (destruct (CacheManager.cc_Tiers c); [done | cbn; lia]).
  set (healthy := forallb tier_Healthy (CacheManager.cc_Tiers c)) in *. set (ready := readyCondition now healthy) in Hcs.
  assert (Tr : cond_Type ready = "Ready" /\ cond_Status ready = if healthy then ConditionTrue else ConditionFalse)
    by (unfold ready; by destruct healthy).
  destruct Tr as [Tr Sr]. destruct (conditionOf_upsert_self ready (tc_Conditions tc)) as (cd & Hcd & Hs). rewrite Tr in Hcd.
  unfold readyIs. rewrite Hcs. destruct (warmupEnabled tc); unfold id; split_and!.
  - exists cd. rewrite conditionOf_upsert, decide_False by done. split; [done | congruence].
  - intros x Hx. left. destruct (conditionOf_upsert_self (warmupCondition now None) (upsertCondition ready (tc_Conditions tc))) as (d & Hd & Hsd).
    assert (E : Some x = Some d) by (rewrite <- Hx; exact Hd). injection E as ->. exact Hsd.
  - intros ty x x'. apply conditionOf_upsert2. by rewrite Tr.
  - exists cd. split; [done | congruence].
  - intros x Hx. right. split; [done|]. by rewrite conditionOf_upsert, Tr, decide_False in Hx.
  - intros ty x x' Hx Hx' Heq. destruct (conditionOf_upsert_keeps ty ready _ x Hx) as (y & Hy & [->|[_ Hne']]); congruence.
Qed.

Lemma newStatus_phase synced now tc m l c : CacheManager.lookupConfig (tc_Name tc) m = Some (l, c) -> CacheManager.cc_Tiers c <> [] ->
  let healthy := forallb tier_Healthy (CacheManager.cc_Tiers c) in
  tcst_Phase (tc_Status (newStatus synced now tc m)) = (if healthy then TokenCachePhaseReady else TokenCachePhaseDegraded) /\
  readyIs (if healthy then ConditionTrue else ConditionFalse) (newStatus synced now tc m).
Proof.
  intros Hc Hne healthy. split; [by apply (tcache_newStatus_spec synced now tc m l c)|].
  by apply (newStatus_conditions synced now tc m l c).
Qed.

(** C37. What [updateStatus] writes for a configured cache: phase Ready and
    condition Ready exactly when every tier is healthy, phase Degraded
    otherwise, the tiers as the manager reports them and the generation it has
    observed; a condition that keeps its status keeps its time and message.
    The manager never reports a warm-up, so with warm-up enabled the condition
    WarmupComplete is False, forever "in progress". *)
Theorem tcache_status synced now tc m l c : CacheManager.lookupConfig (tc_Name tc) m = Some (l, c) -> CacheManager.cc_Tiers c <> [] ->
  let healthy := forallb tier_Healthy (CacheManager.cc_Tiers c) in
  let tc' := newStatus synced now tc m in let s := tc_Status tc' in
  tcst_Phase s = (if healthy then TokenCachePhaseReady else TokenCachePhaseDegraded) /\
  readyIs (if healthy then ConditionTrue else ConditionFalse) tc' /\
  tcst_Tiers s = CacheManager.tierStatus <$> CacheManager.cc_Tiers c /\
  tcst_ObservedGeneration s = om_Generation (tc_ObjectMeta tc) /\ tcst_LastSyncTime s = Some synced /\
  (warmupEnabled tc = true -> forall cd, conditionOf "WarmupComplete" (tcst_Conditions s) = Some cd -> cond_Status cd = ConditionFalse) /\
  (forall ty cd cd', conditionOf ty (tc_Conditions tc) = Some cd -> conditionOf ty (tcst_Conditions s) = Some cd' ->
     cond_Status cd = cond_Status cd' -> cd' = cd).
Proof.
  intros Hc Hne healthy tc' s. destruct (tcache_newStatus_spec synced now tc m l c Hc) as (_ & _ & Hp & Ht & Hg & Hsync & _).
  destruct (newStatus_conditions synced now tc m l c Hc Hne) as (Hr & Hw & Hk). split_and!; try done.
  intros Hen cd Hcd. destruct (Hw cd Hcd) as [?|[? _]]; [done | congruence].
Qed.

(** C6. The Redis that the controller deploys is never used: its tier connects
    to localhost.  As long as nothing answers there, every status that a
    reconciliation writes says phase Degraded and condition Ready False,
    whatever becomes of the stateful set. *)
Theorem tcache_redis_unused e w tc m tier : healthyCache tc -> deployedRedis tc tier ->
  (forall i o, RedisCache.opt_Addrs o = ["localhost:6379"] -> is_ok (RedisCache.Ping o (CacheManager.w_server (w i))).2 = false) ->
  calls (on_status (fun tc' => tcst_Phase (tc_Status tc') = TokenCachePhaseDegraded /\ readyIs ConditionFalse tc'))
    anything (reconcileObject e w tc m).
Proof.
  intros Hh [Ht Hext] Hping. destruct (healthyCache_configures w tc m Hh) as [m' Hc].
  assert (Hstatus : forall synced now, tcst_Phase (tc_Status (newStatus synced now tc m')) = TokenCachePhaseDegraded /\
    readyIs ConditionFalse (newStatus synced now tc m')).
  { destruct (ManagerProps.ConfigureCache_Ok _ _ _ _ Hc) as (ts & c & Ect & Hl & Hct & _). intros synced now.
    pose proof (ManagerProps.createTiers_spec w 0 (tc_Name tc) (tc_Tiers tc)) as Hts. unfold tc_Name, tc_Tiers in Hts. rewrite Ect in Hts.
    destruct Hts as (_ & _ & Hts). apply findTier_Some in Ht as [Hin Hty]. apply list_elem_of_lookup in Hin as [j Hj].
    destruct (Hts j tier Hj) as (t & Htj & Hcr). apply ManagerProps.createTier_redis in Hcr; [|done].
    assert (Hun : forallb tier_Healthy (CacheManager.cc_Tiers c) = false).
    { rewrite Hct. apply not_true_iff_false. rewrite forallb_forall. intros Hall.
      specialize (Hall t ltac:(by eapply list_elem_of_In, list_elem_of_lookup_2)). rewrite Hcr, Hping in Hall; [done|].
      unfold RedisCache.connectOptions. unfold redisConfig in Hext. destruct (cts_RedisConfig tier); [|done]. cbn. rewrite bool_decide_eq_false_2; [done | intros Hn; exact (Hn Hext)]. }
    assert (Hne : CacheManager.cc_Tiers c <> []) by (intros E; by rewrite E in Hun).
    destruct (newStatus_phase synced now tc m' _ c Hl Hne) as (Hp & Hr). by rewrite Hun in Hp, Hr. }
  eapply calls_mono; [| |by apply reconcileObject_healthy]; [|done].
  intros [| | |[]| | |] Hs; try done. cbn in Hs |- *. destruct Hs as (synced & now & ->). apply Hstatus.
Qed.

Definition hasError tc : Prop := exists cd, conditionOf "Error" (tc_Conditions tc) = Some cd /\ cond_Status cd = ConditionTrue.
Definition neverWarm tc : Prop := forall cd, conditionOf "WarmupComplete" (tc_Conditions tc) = Some cd -> cond_Status cd <> ConditionTrue.
(** What the conditions of a cache keep. *)
Definition conditionsKeep tc tc' : Prop :=
  (hasError tc -> hasError tc') /\ (neverWarm tc -> neverWarm tc') /\
  (NoDup (cond_Type <$> tc_Conditions tc) -> NoDup (cond_Type <$> tc_Conditions tc')).
Lemma conditionsKeep_upsert c tc tc' : cond_Type c <> "Error" \/ cond_Status c = ConditionTrue ->
  cond_Type c <> "WarmupComplete" \/ cond_Status c <> ConditionTrue ->
  tc_Conditions tc' = upsertCondition c (tc_Conditions tc) -> conditionsKeep tc tc'.
Proof.
  intros He Hw Hc. unfold conditionsKeep, hasError, neverWarm. rewrite Hc, !conditionOf_upsert. split_and!.
  - intros (cd & Hcd & Hs). rewrite Hcd. case_decide; [|by exists cd]. destruct He as [?|He]; [congruence|].
    exists cd. by rewrite decide_True by congruence.
  - intros Hold cd. case_decide as Ht; [|by apply Hold]. destruct Hw as [?|Hw]; [congruence|]. intros [= <-].
    destruct (conditionOf _ _) as [old|]; [|done]. case_decide; [congruence | done].
  - apply upsert_NoDup.
Qed.
Lemma conditionsKeep_trans tc1 tc2 tc3 : conditionsKeep tc1 tc2 -> conditionsKeep tc2 tc3 -> conditionsKeep tc1 tc3.
Proof. unfold conditionsKeep. naive_solver. Qed.
Lemma conditionsKeep_newStatus synced now tc m l c : CacheManager.lookupConfig (tc_Name tc) m = Some (l, c) ->
  conditionsKeep tc (newStatus synced now tc m).
Proof.
  intros (_ & _ & _ & _ & _ & _ & Hcs)%(tcache_newStatus_spec synced now).
  set (tc1 := setCondition (readyCondition now (forallb tier_Healthy (CacheManager.cc_Tiers c) && (0 <? Z.of_nat (length (CacheManager.cc_Tiers c))))) tc).
  apply (conditionsKeep_trans _ tc1); [|destruct (warmupEnabled tc)].
  - eapply conditionsKeep_upsert; [| |reflexivity]; left; unfold readyCondition; by destruct (_ && _).
  - eapply conditionsKeep_upsert; [| |exact Hcs]; [left | right]; done.
  - unfold conditionsKeep, hasError, neverWarm. by rewrite Hcs.
Qed.

(** What no reconciliation changes in the conditions of a cache: types are
    not repeated; an Error condition is never taken back, even when the cache
    is configured again; and WarmupComplete never becomes True. *)
Theorem tcache_conditions_keep e w tc m : calls (on_status (conditionsKeep tc)) anything (reconcileObject e w tc m).
Proof.
  eapply calls_forget, tcache_reconcileObject_calls; try done.
  - intros now err. eapply conditionsKeep_upsert; [| |reflexivity]; [by right | by left].
  - intros synced now m' l c. apply conditionsKeep_newStatus.
Qed.

(** ** Deletion *)
Lemma CleanupCache_forgets e name m m' r : CacheManager.CleanupCache e name m = Ret (m', r) ->
  CacheManager.lookupConfig name m' = None /\
  (forall name', name' <> name -> CacheManager.m_caches m' !! name' = CacheManager.m_caches m !! name') /\
  (is_Some (CacheManager.lookupConfig name m) -> CacheManager.m_caches m' !! name = None).
Proof.
  unfold CacheManager.CleanupCache. destruct (CacheManager.lookupConfig name m) as [[l c]|] eqn:Hl.
  - intros ([ts rs] & _ & [= <- _])%outcome_bind_Ret. unfold CacheManager.lookupConfig. cbn. rewrite lookup_delete_eq.
    split_and!; [done | | done]. intros name' Hne. by rewrite lookup_delete_ne.
  - intros [= <- _]. split_and!; [done | done | by intros []].
Qed.

(** The life of a cache begins with its finalizer and ends without it: a
    cache that lacks it gets it, and nothing else happens before it is stored; of
    one that is being deleted the manager forgets the name, the finalizer goes,
    and no other object is touched. *)
Theorem tcache_finalizer e w tc m :
  (om_DeletionTimestamp (tc_ObjectMeta tc) = None -> tokenCacheFinalizer ∉ om_Finalizers (tc_ObjectMeta tc) ->
   calls (fun c => exists tc', c = CUpdate KTokenCache tc' /\ tc_Spec tc' = tc_Spec tc /\
       tokenCacheFinalizer ∈ om_Finalizers (tc_ObjectMeta tc') /\ om_Finalizers (tc_ObjectMeta tc) ⊆ om_Finalizers (tc_ObjectMeta tc'))
     (fun x => x.1 = m) (reconcileObject e w tc m)) /\
  (is_Some (om_DeletionTimestamp (tc_ObjectMeta tc)) ->
   calls (fun c => exists tc', c = CUpdate KTokenCache tc' /\ tokenCacheFinalizer ∉ om_Finalizers (tc_ObjectMeta tc'))
     (fun x => CacheManager.lookupConfig (tc_Name tc) x.1 = None /\
        forall name', name' <> tc_Name tc -> CacheManager.m_caches x.1 !! name' = CacheManager.m_caches m !! name')
     (reconcileObject e w tc m) /\
   updates KTokenCache (reconcileObject e w tc m)).
Proof.
  rewrite reconcileObject_eq. split.
  - intros -> Hno. destruct (ContainsFinalizer _ _) eqn:Hc; [by apply ContainsFinalizer_spec in Hc|].
    apply calls_then; [|intros; by apply calls_ret]. apply (calls_update _ KTokenCache). eexists.
    split_and!; [done | done | by apply AddFinalizer_spec; right |]. intros f Hf. apply AddFinalizer_spec. by left.
  - intros [t ->]. unfold handleDeletion. split.
    2: { destruct (CacheManager.CleanupCache e (tc_Name tc) m) as [[m' r]| |]; [|done..]. intros updated x _. eexists _, _. by left. }
    eapply (calls_bind _ (fun x => CacheManager.CleanupCache e (tc_Name tc) m = Ret x)); [by apply calls_lift|].
    intros [m' r] (Hgone & Hother & _)%CleanupCache_forgets. apply calls_then; [|intros; by apply calls_ret].
    apply (calls_update _ KTokenCache). eexists. split; [done|]. cbn. rewrite RemoveFinalizer_spec. tauto.
Qed.

(** C38. The manager keys caches by name alone, without the namespace: when a
    cache is configured and then another one of the same name, in any
    namespace, is deleted, services that refer to the first find no cache, and
    its keys are gone. *)
Theorem tcache_namespaces_collide e w tc tc' m : healthyCache tc -> tc_Name tc <> "" ->
  is_Some (om_DeletionTimestamp (tc_ObjectMeta tc')) -> tc_Name tc' = tc_Name tc ->
  calls anything (fun x => forall svc namespace e' key,
      CacheManager.GetCacheForService svc namespace (tc_Name tc) x.1 = Err (CacheManager.not_found (tc_Name tc)) /\
      CacheManager.Get e' (tc_Name tc) key x.1 = Ret (x.1, Err (CacheManager.not_found (tc_Name tc))))
    ('(m, _) ← reconcileObject e w tc m; reconcileObject e w tc' m).
Proof.
  intros Hh Hname [t Ht] Heq. destruct (healthyCache_configures w tc m Hh) as [m' Hc].
  eapply calls_bind; [eapply calls_mono; [done | intros x Hx; exact Hx | by apply reconcileObject_healthy]|].
  intros [m1 res] E. cbn in E. subst m1. destruct (ManagerProps.ConfigureCache_Ok _ _ _ _ Hc) as (ts & c & _ & Hl & _).
  rewrite reconcileObject_eq, Ht. unfold handleDeletion.
  eapply (calls_bind _ (fun x => CacheManager.CleanupCache e (tc_Name tc') m' = Ret x)); [by apply calls_lift|].
  intros [m2 r] (Hgone & _ & Hkey)%CleanupCache_forgets. apply calls_then; [by apply calls_any|]. intros updated.
  apply calls_ret. cbn [fst]. rewrite Heq in Hgone, Hkey. intros svc namespace e' key. split.
  - unfold CacheManager.GetCacheForService. rewrite bool_decide_eq_false_2 by done. rewrite Hkey; [done|]. by exists (length (CacheManager.m_heap m), c).
  - unfold CacheManager.Get. by rewrite Hgone.
Qed.

(** ** The stateful set of Redis *)
Definition fits (r : ResourceRequirements) : Prop :=
  forall name req lim, rr_Requests r !! name = Some req -> rr_Limits r !! name = Some lim -> Quantity_Value req <= Quantity_Value lim.
Definition containersOf (sts : StatefulSet) : list Container := ps_Containers (pts_Spec (sss_Template (sts_Spec sts))).

(** The stateful set and service of a Redis tier belong together: same
    name and namespace, both select the pods of the template and of this cache
    only, the service and the probes use a port of the container, mounts have a
    claim template, and there is a replica at least.  But the container's memory
    limit is the size of the tier, which nothing compares with its fixed
    request: the server can accept the pods only from 256Mi on. *)
Theorem tcache_redis_wellformed tc tier :
  let sts := redisStatefulSet tc tier in let svc := redisService tc in
  meta_key (sts_Meta sts) = meta_key (csv_Meta svc) /\ sss_ServiceName (sts_Spec sts) = cm_Name (csv_Meta svc) /\
  sss_Selector (sts_Spec sts) ⊆ pts_Labels (sss_Template (sts_Spec sts)) /\
  css_Selector (csv_Spec svc) ⊆ pts_Labels (sss_Template (sts_Spec sts)) /\
  css_Selector (csv_Spec svc) !! "app.kubernetes.io/name" = Some (tc_Name tc) /\
  Forall (fun c => (forall p, p ∈ css_Ports (csv_Spec svc) -> sp_TargetPort p ∈ (cp_ContainerPort <$> ct_Ports c)) /\
      (forall p, ct_ReadinessProbe c = Some p \/ ct_LivenessProbe c = Some p -> handler_Port (prb_Handler p) ∈ (cp_ContainerPort <$> ct_Ports c)) /\
      (forall v, v ∈ ct_VolumeMounts c -> vm_Name v ∈ (cm_Name ∘ pvc_Meta <$> sss_VolumeClaimTemplates (sts_Spec sts))) /\
      (fits (ct_Resources c) -> Quantity_Value (MustParse "256Mi") <= Quantity_Value (cts_Size tier))) (containersOf sts) /\
  (exists n, sss_Replicas (sts_Spec sts) = Some n /\ 1 <= n).
Proof.
  intros sts svc. split_and!; try done.
  - apply Forall_singleton. split_and!; unfold sts, svc; cbn [redisContainer ct_Ports ct_ReadinessProbe ct_LivenessProbe ct_VolumeMounts ct_Resources].
    + intros p Hp. apply list_elem_of_singleton in Hp as ->. by left.
    + intros p [[= <-]|[= <-]]; by left.
    + cbn. destruct (persistent tier); [|by intros v ?%elem_of_nil]. intros v Hv. apply list_elem_of_singleton in Hv as ->. by left.
    + intros Hf. by apply (Hf "memory").
  - exists (redisReplicas tier). split; [done|]. unfold redisReplicas, redisConfig. destruct (cts_RedisConfig tier) as [c|]; [|done].
    destruct (Z.ltb_spec 0 (rcc_Replicas c)); lia.
Qed.
End properties.

(** * Witnesses *)
Section witnesses.
Local Existing Instance ZQuantity.
Local Existing Instance textTypes.
Local Existing Instance stdRuntime.
Local Existing Instance LocalCache.storeCodecs.
Local Existing Instance InferenceProps.exampleLib.

(** A Redis of which the address localhost:6379 refuses connections. *)
Definition refuses (o : RedisCache.Options) : bool := bool_decide (RedisCache.opt_Addrs o = ["localhost:6379"]).
Definition remoteServer : RedisCache.RedisServer := {|
  RedisCache.Server := RedisCache.Server (RedisServer := RedisProps.memServer);
  RedisCache.hash_of := RedisCache.hash_of (RedisServer := RedisProps.memServer);
  RedisCache.redis_Nil := "redis: nil";
  RedisCache.Ping := fun o s => (s, if refuses o then Err "connection refused" else Ok tt);
  RedisCache.HGetAll := RedisCache.HGetAll (RedisServer := RedisProps.memServer);
  RedisCache.HGetInt64 := RedisCache.HGetInt64 (RedisServer := RedisProps.memServer);
  RedisCache.Del := RedisCache.Del (RedisServer := RedisProps.memServer);
  RedisCache.Exec := RedisCache.Exec (RedisServer := RedisProps.memServer);
  RedisCache.Scan := RedisCache.Scan (RedisServer := RedisProps.memServer);
  RedisCache.ExecHGetAll := RedisCache.ExecHGetAll (RedisServer := RedisProps.memServer);
  RedisCache.InfoText := RedisCache.InfoText (RedisServer := RedisProps.memServer);
  RedisCache.HGetAll_Ok := RedisCache.HGetAll_Ok (RedisServer := RedisProps.memServer);
  RedisCache.HGetAll_frame := RedisCache.HGetAll_frame (RedisServer := RedisProps.memServer);
  RedisCache.HGetInt64_frame := RedisCache.HGetInt64_frame (RedisServer := RedisProps.memServer);
  RedisCache.Del_Ok := RedisCache.Del_Ok (RedisServer := RedisProps.memServer);
  RedisCache.Exec_Ok := RedisCache.Exec_Ok (RedisServer := RedisProps.memServer);
|}.
Local Existing Instance remoteServer.

Definition ex_world : nat -> CacheManager.world := fun _ =>
  CacheManager.mkWorld _ (fun _ => 0) 0 LocalCache.no_faults ∅ (∅ : gmap string (gmap string (list Z))).
Definition ex_env : CacheManager.mgr_env := fun _ => mkTierEnv 9 9 0 LocalCache.no_faults.
Definition ex_tier (name : string) (ty : CacheTierType) (size : Z) : CacheTierSpec :=
  mkCacheTierSpec _ name ty (size : @Quantity ZQuantity) None 0 None None None.
Definition ex_status (conditions : list Condition) : TokenCacheStatus :=
  mkTokenCacheStatus _ "" (0 : @Quantity ZQuantity) (0 : @Quantity ZQuantity) 0 f64_zero [] None conditions None 0.
Definition ex_cache (namespace : string) (deleted : option Z) (finalizers : list string) (tiers : list CacheTierSpec) : TokenCache :=
  mkTokenCache _ (mkObjectMeta "c" namespace 4 deleted finalizers)
    (mkTokenCacheSpec _ tiers EvictionPolicyLRU (Some (mkWarmupSpec true ["You are"] "" None)) "write-through" false 0)
    (ex_status [mkCondition "Error" ConditionTrue 5 "ReconcileError" "tier name is required"]).
Definition ex_prefix : TokenCache := ex_cache "team-a" None [tokenCacheFinalizer] [ex_tier "gpu" CacheTierTypePrefix 1000].
Definition ex_redis : TokenCache := ex_cache "team-a" None [tokenCacheFinalizer]
  [ex_tier "gpu" CacheTierTypePrefix 1000; ex_tier "shared" CacheTierTypeRedis (64 * 2 ^ 20)].
Definition ex_memcached : TokenCache := ex_cache "team-a" None [tokenCacheFinalizer] [ex_tier "m" CacheTierTypeMemcached 1000].

Lemma ex_prefix_healthy : healthyCache ex_prefix.
Proof. constructor; [reflexivity..|]. repeat constructor. Qed.
Lemma ex_redis_healthy : healthyCache ex_redis.
Proof. constructor; [reflexivity..|]. constructor; [left; reflexivity|]. constructor; [right; right; reflexivity | constructor]. Qed.

(** A memcached tier passes validation and then fails. *)
Lemma tcache_acceptance_witness : validateSpec ex_memcached = Ok tt /\
  calls (fun c => c = CNow \/ exists tc', c = CUpdateStatus KTokenCache tc' /\ tcst_Phase (tc_Status tc') = TokenCachePhaseFailed)
    (fun x => x = (CacheManager.NewManager, mkResult false (30 * Second) None))
    (reconcileObject ex_env ex_world ex_memcached CacheManager.NewManager).
Proof.
  split; [reflexivity|]. refine (proj2 (tcache_acceptance ex_env ex_world ex_memcached CacheManager.NewManager eq_refl _) _); [by left|].
  intros (_ & _ & Hall). apply Forall_inv in Hall as (_ & _ & [?|[?|?]]); discriminate.
Defined.

Lemma tcache_redis_unused_witness :
  Forall (fun ev => on_status (fun tc' => tcst_Phase (tc_Status tc') = TokenCachePhaseDegraded /\ readyIs ConditionFalse tc') (ev_call ev))
    (run InferenceProps.emptyServer tt (reconcileObject ex_env ex_world ex_redis CacheManager.NewManager)).1.2.
Proof.
  refine (proj1 (always_run InferenceProps.emptyServer tt _ _
    (tcache_redis_unused ex_env ex_world ex_redis CacheManager.NewManager (ex_tier "shared" CacheTierTypeRedis (64 * 2 ^ 20)) ex_redis_healthy _ _))).
  - split; reflexivity.
  - intros i o Ho. cbn. unfold refuses. rewrite Ho. reflexivity.
Defined.
(** That run creates the stateful set and its service. *)
Example ex_redis_creates :
  omap creationOf (run InferenceProps.emptyServer tt (reconcileObject ex_env ex_world ex_redis CacheManager.NewManager)).1.2
    = [KStatefulSet; KService].
Proof. vm_compute. reflexivity. Qed.

(** A server that has the stateful set but not its service: nothing is created. *)
Definition noServiceServer (c : call) (s : unit) : unit * reply c :=
  match c return unit * reply c with
  | CGet k key => (s, match k return got (obj k) with
      | KStatefulSet => Found (redisStatefulSet ex_redis (ex_tier "shared" CacheTierTypeRedis (64 * 2 ^ 20)))
      | _ => NotFound
      end)
  | c => InferenceProps.emptyServer c s
  end.
Example ex_service_not_retried :
  omap creationOf (run noServiceServer tt (reconcileObject ex_env ex_world ex_redis CacheManager.NewManager)).1.2 = [].
Proof. vm_compute. reflexivity. Qed.

Definition ex_manager : CacheManager.Manager Tier := (CacheManager.ConfigureCache ex_world ex_redis CacheManager.NewManager).1.
Lemma tcache_status_witness : exists l c, CacheManager.lookupConfig "c" ex_manager = Some (l, c) /\
  tcst_Tiers (tc_Status (newStatus 8 9 ex_redis ex_manager)) = CacheManager.tierStatus <$> CacheManager.cc_Tiers c.
Proof.
  destruct (healthyCache_configures ex_world ex_redis CacheManager.NewManager ex_redis_healthy) as [m' Hm].
  unfold ex_manager. rewrite Hm. destruct (ManagerProps.ConfigureCache_Ok _ _ _ _ Hm) as (ts & c & Ect & Hc & Hct & _).
  exists 0%nat, c. split; [exact Hc|]. refine (proj1 (proj2 (proj2 (tcache_status 8 9 ex_redis m' 0 c Hc _)))).
  pose proof (ManagerProps.createTiers_spec ex_world 0 "c" (tc_Tiers ex_redis)) as Hts. rewrite Hct. intros ->.
  change (CacheManager.createTiers ex_world 0 "c" (tc_Tiers ex_redis) = Ok []) in Ect. rewrite Ect in Hts. destruct Hts as (_ & Hn & _). discriminate.
Defined.

Lemma tcache_finalizer_witness :
  calls (fun c => exists tc', c = CUpdate KTokenCache tc' /\ tokenCacheFinalizer ∉ om_Finalizers (tc_ObjectMeta tc'))
    (fun x => CacheManager.lookupConfig "c" x.1 = None /\
       forall name', name' <> "c" -> CacheManager.m_caches x.1 !! name' = CacheManager.m_caches ex_manager !! name')
    (reconcileObject ex_env ex_world (ex_cache "team-a" (Some 7) [tokenCacheFinalizer] []) ex_manager).
Proof.
  refine (proj1 (proj2 (tcache_finalizer ex_env ex_world (ex_cache "team-a" (Some 7) [tokenCacheFinalizer] []) ex_manager) _)).
  eexists. reflexivity.
Defined.

Lemma tcache_namespaces_collide_witness :
  calls anything (fun x => forall svc namespace e' key,
      CacheManager.GetCacheForService svc namespace "c" x.1 = Err (CacheManager.not_found "c") /\
      CacheManager.Get e' "c" key x.1 = Ret (x.1, Err (CacheManager.not_found "c")))
    ('(m, _) ← reconcileObject ex_env ex_world ex_prefix CacheManager.NewManager;
     reconcileObject ex_env ex_world (ex_cache "team-b" (Some 7) [tokenCacheFinalizer] []) m).
Proof.
  apply (tcache_namespaces_collide ex_env ex_world ex_prefix (ex_cache "team-b" (Some 7) [tokenCacheFinalizer] []));
    [exact ex_prefix_healthy | discriminate | eexists; reflexivity | reflexivity].
Defined.

(** A tier of 64Mi is accepted, and its container's request exceeds its limit. *)
Lemma tcache_redis_wellformed_witness : acceptable ex_redis /\
  ~ fits (ct_Resources (redisContainer (ex_tier "shared" CacheTierTypeRedis (64 * 2 ^ 20)))).
Proof.
  split; [apply acceptable_iff; split; [reflexivity | apply (hc_Types _ ex_redis_healthy)]|].
  destruct (tcache_redis_wellformed ex_redis (ex_tier "shared" CacheTierTypeRedis (64 * 2 ^ 20))) as (_ & _ & _ & _ & _ & Hall & _).
  apply Forall_inv in Hall as (_ & _ & _ & Hfit). intros Hf. specialize (Hfit Hf). vm_compute in Hfit. apply Hfit. reflexivity.
Defined.
End witnesses.
