(* ===== verification/Operator.v ===== *)
(** The operator as a whole: the start-up of cmd/operator/main.go, and the
    three controllers at work on the managers that it builds. *)
From S2P Require Import Prelude GoFloat Api GpuTypes ServiceApi Backend Kube ControllerLib.
From S2P Require Backends Vllm Triton TensorRT PrefixCache LocalCache RedisCache Timeslice GpuManager CacheManager.
From S2P Require InferenceController PoolController TokenCacheController.
From S2P Require Import Tiers.
Local Open Scope Z_scope.

(** * Registration with the controller manager *)

(** What [ctrl.NewControllerManagedBy] is told: the kind a controller is for,
    and the kinds whose objects wake it up through their owner. *)
Record Registration := mkRegistration {
  reg_For : kind;
  reg_Owns : list kind;
}.
Definition InferenceService_SetupWithManager : Registration := mkRegistration KInferenceService [KDeployment; KService].
Definition GPUPool_SetupWithManager : Registration := mkRegistration KGPUPool [].
Definition TokenCache_SetupWithManager : Registration :=
  mkRegistration KTokenCache [KStatefulSet; KService; KPersistentVolumeClaim].

(** * Start-up *)

(** The flags after [flag.Parse]. *)
Record Flags := mkFlags {
  metricsAddr : string;
  probeAddr : string;
  enableLeaderElection : bool;
  enableWebhooks : bool;
}.
Definition defaultFlags : Flags := mkFlags ":8080" ":8081" false false.
Record Options := mkOptions {
  op_MetricsBindAddress : string;
  op_HealthProbeBindAddress : string;
  op_LeaderElection : bool;
  op_LeaderElectionID : string;
}.

(** The calls of [main] to the controller manager that may fail. *)
Inductive action :=
| ANewManager (options : Options)
| ASetup (registration : Registration)
| AddHealthzCheck (name : string)
| AddReadyzCheck (name : string)
| AStart.

(** controller-runtime: what it answers an action after those before it, and
    [SetupSignalHandler], which panics ([None]) or goes on. *)
Class ControllerRuntime := {
  answer : list action -> action -> option error;
  SignalState : Type;
  SetupSignalHandler : SignalState -> option SignalState;
}.
(** "SetupSignalHandler registers for SIGTERM and SIGINT": once; it panics when
    it is called again. *)
Class SignalsOnce `{ControllerRuntime} :=
  SetupSignalHandler_once : forall s s', SetupSignalHandler s = Some s' -> SetupSignalHandler s' = None.

(** How [main] can end: it returns, it exits with a code, or it panics. *)
Inductive ending (A : Type) :=
| Going (a : A)
| Exited (code : Z)
| Crashed.
Arguments Going {_} _.
Arguments Exited {_} _.
Arguments Crashed {_}.

Record process `{ControllerRuntime} := mkProcess {
  pr_log : list action;
  pr_signals : SignalState;
}.
Definition startup `{ControllerRuntime} (A : Type) : Type := process -> process * ending A.
#[export] Instance startup_ret `{ControllerRuntime} : MRet startup := fun A a p => (p, Going a).
#[export] Instance startup_bind `{ControllerRuntime} : MBind startup := fun A B f m p =>
  match m p with
  | (p, Going a) => f a p
  | (p, Exited code) => (p, Exited code)
  | (p, Crashed) => (p, Crashed)
  end.

(** The state that the controllers share. *)
Record Operator `{QuantityOps} `{CoreTypes} `{RedisCache.RedisServer} := mkOperator {
  op_gpuManager : GpuManager.Manager;
  op_cacheManager : CacheManager.Manager Tier;
  op_backendFactory : BackendFactory;
}.

Section main.
Context `{QuantityOps} `{CoreTypes} `{GoRuntime} `{RedisCache.RedisServer} `{ControllerRuntime}.

(** An action whose error ends the process. *)
Definition attempt (a : action) : startup unit := fun p =>
  (mkProcess _ (pr_log p ++ [a]) (pr_signals p), match answer (pr_log p) a with None => Going tt | Some _ => Exited 1 end).
Definition signalHandler : startup unit := fun p =>
  match SetupSignalHandler (pr_signals p) with
  | Some s => (mkProcess _ (pr_log p) s, Going tt)
  | None => (p, Crashed)
  end.
Definition orExit {A} (x : A * result unit) : startup A := fun p =>
  (p, match x with (a, Ok _) => Going a | (_, Err _) => Exited 1 end).

Definition managerOptions (flags : Flags) : Options :=
  mkOptions (metricsAddr flags) (probeAddr flags) (enableLeaderElection flags) "inference-operator.inference.ai".
Definition backendFactory : BackendFactory :=
  Register TensorRT.TensorRTBackend (Register Triton.TritonBackend (Register Vllm.VLLMBackend NewBackendFactory)).

(** [Start] of the GPU manager never reports an error, the arguments of a call
    are evaluated before it. *)
Definition main (flags : Flags) : startup Operator :=
  attempt (ANewManager (managerOptions flags));;
  signalHandler;;
  gpuManager ← orExit (GpuManager.Start GpuManager.NewManager, Ok tt);
  signalHandler;;
  cacheManager ← orExit (CacheManager.Start CacheManager.NewManager);
  let op := mkOperator _ _ _ gpuManager cacheManager backendFactory in
  attempt (ASetup InferenceService_SetupWithManager);;
  attempt (ASetup GPUPool_SetupWithManager);;
  attempt (ASetup TokenCache_SetupWithManager);;
  attempt (AddHealthzCheck "healthz");;
  attempt (AddReadyzCheck "readyz");;
  signalHandler;;
  attempt AStart;;
  mret op.
End main.

(** * The controllers at work

    A step is what one goroutine does with one use of a manager, which is made
    under the manager's mutex, and the calls to the API server around it: a
    reconciliation of an inference service, which uses a manager once; the first
    or the second part of one of a pool or a token cache, which use it twice; a
    goroutine that a call to the cache manager left behind; a tick of a tier's
    loop, or of the GPU manager's loops.  The steps of all of them come in any
    order, and the API server gives any answers. *)
Section steps.
Context `{QuantityOps} `{CoreTypes} `{!ControllerLib} `{GoRuntime} `{GpuManager.RatioScanner} `{LocalCache.Codecs} `{RedisCache.RedisServer}.
Implicit Type op : Operator.

Definition initial : Operator :=
  mkOperator _ _ _ (GpuManager.Start GpuManager.NewManager) (CacheManager.Start CacheManager.NewManager).1 backendFactory.
Definition services op : InferenceController.InferenceServiceReconciler :=
  InferenceController.mkReconciler (op_gpuManager op) (op_cacheManager op) (op_backendFactory op).
Definition with_services (r : InferenceController.InferenceServiceReconciler) : Operator :=
  mkOperator _ _ _ (InferenceController.GPUManager r) (InferenceController.CacheManager_ r) (InferenceController.BackendFactory_ r).
Definition with_gpu (m : GpuManager.Manager) op : Operator := mkOperator _ _ _ m (op_cacheManager op) (op_backendFactory op).
Definition with_cache (m : CacheManager.Manager Tier) op : Operator := mkOperator _ _ _ (op_gpuManager op) m (op_backendFactory op).

(** A tick of the background loop of a tier. *)
Inductive tierTick : Tier -> Tier -> Prop :=
| tick_prefix now seed t t' : PrefixCache.evictionTick now seed t = Ret t' -> tierTick (TPrefix t) (TPrefix t')
| tick_local f now seed t : tierTick (TLocal t) (TLocal (LocalCache.cleanupExpired f now seed t))
| tick_redis t : tierTick (TRedis t) (TRedis (RedisCache.healthCheckTick t)).

(** What happens to the cache manager without a controller. *)
Inductive cacheStep : CacheManager.Manager Tier -> CacheManager.Manager Tier -> Prop :=
| cacheStep_task es t m m' : t ∈ CacheManager.m_tasks m -> CacheManager.runTask es t m = Ret m' -> cacheStep m m'
| cacheStep_tick l c j t t' m : CacheManager.m_heap m !! l = Some c -> CacheManager.cc_Tiers c !! j = Some t ->
    tierTick t t' -> cacheStep m (CacheManager.update_tiers l (<[j := t']> (CacheManager.cc_Tiers c)) m).

(** The operator with the reconciliations that are under way: the pools that
    were registered and the caches that were configured, and whose status is
    still to be written. *)
Record Running := mkRunning {
  ru_op : Operator;
  ru_pools : list GPUPool;
  ru_caches : list TokenCache;
}.
Definition started : Running := mkRunning initial [] [].
(** Takes note of an object whose reconciliation goes on. *)
Definition goesOn {A} (r : Result + A) (underway : list A) : list A :=
  match r with inl _ => underway | inr a => underway ++ [a] end.

Inductive opStep : Running -> list event -> Running -> Prop :=
| opStep_InferenceService a b key op ps cs tr r res :
    may (InferenceController.Reconcile a b key (services op)) tr (Ret (r, res)) ->
    opStep (mkRunning op ps cs) tr (mkRunning (with_services r) ps cs)
| opStep_GPUPool seed key op ps cs tr m r :
    may (PoolController.begin seed key (op_gpuManager op)) tr (Ret (m, r)) ->
    opStep (mkRunning op ps cs) tr (mkRunning (with_gpu m op) (goesOn r ps) cs)
| opStep_GPUPool_report seed pool op ps qs cs tr m res :
    may (PoolController.report seed pool (op_gpuManager op)) tr (Ret (m, res)) ->
    opStep (mkRunning op (ps ++ pool :: qs) cs) tr (mkRunning (with_gpu m op) (ps ++ qs) cs)
| opStep_TokenCache e w key op ps cs tr m r :
    may (TokenCacheController.begin e w key (op_cacheManager op)) tr (Ret (m, r)) ->
    opStep (mkRunning op ps cs) tr (mkRunning (with_cache m op) ps (goesOn r cs))
| opStep_TokenCache_report tc op ps cs ds tr m res :
    may (TokenCacheController.report tc (op_cacheManager op)) tr (Ret (m, res)) ->
    opStep (mkRunning op ps (cs ++ tc :: ds)) tr (mkRunning (with_cache m op) ps (cs ++ ds))
| opStep_background m op ps cs : cacheStep (op_cacheManager op) m ->
    opStep (mkRunning op ps cs) [] (mkRunning (with_cache m op) ps cs)
| opStep_discover op ps cs :
    opStep (mkRunning op ps cs) [] (mkRunning (with_gpu (GpuManager.discoverGPUs (op_gpuManager op)) op) ps cs)
| opStep_schedule now op ps cs : opStep (mkRunning op ps cs) [] (mkRunning (with_gpu (GpuManager.gmset_timeslice
    (Timeslice.scheduleSlots now (GpuManager.gm_timeslice (op_gpuManager op))) (op_gpuManager op)) op) ps cs).

(** Runs of the operator, with the calls they made. *)
Inductive opRun : Running -> list event -> Running -> Prop :=
| opRun_refl s : opRun s [] s
| opRun_step s1 s2 s3 tr tr' : opRun s1 tr s2 -> opStep s2 tr' s3 -> opRun s1 (tr ++ tr') s3.
End steps.
