(* ===== verification/OperatorProps.v ===== *)
(** What the start-up of the operator does, and what holds of every run of the
    three controllers together. *)
From S2P Require Import Prelude GoFloat Api GpuTypes ServiceApi Backend Kube ControllerLib.
From S2P Require Backends LocalCache RedisCache RedisProps GpuManager GpuProps CacheManager ManagerProps.
From S2P Require InferenceController InferenceProps PoolController PoolProps TokenCacheController TokenCacheProps.
From S2P Require Import Tiers Operator.
Local Open Scope Z_scope.

(** * Start-up *)
Section startup.
Context `{QuantityOps} `{CoreTypes} `{GoRuntime} `{RedisCache.RedisServer} `{ControllerRuntime}.

(** The actions of [main] in order. *)
Definition plan (flags : Flags) : list action :=
  [ANewManager (managerOptions flags); ASetup InferenceService_SetupWithManager; ASetup GPUPool_SetupWithManager;
   ASetup TokenCache_SetupWithManager; AddHealthzCheck "healthz"; AddReadyzCheck "readyz"; AStart].
(** Actions that are all answered without an error, after those of a log. *)
Fixpoint accepted (log : list action) (actions : list action) : Prop :=
  match actions with
  | [] => True
  | a :: rest => answer log a = None /\ accepted (log ++ [a]) rest
  end.
(** Where [main] stops: [k] actions were accepted. *)
Definition stoppedAt (flags : Flags) (p p' : process) (e : ending Operator) (k : nat) : Prop :=
  accepted (pr_log p) (take k (plan flags)) /\
  match e with
  | Going op => k = 7%nat /\ pr_log p' = pr_log p ++ plan flags /\ op = initial
  | Exited code => code = 1 /\ exists a err, plan flags !! k = Some a /\
      answer (pr_log p ++ take k (plan flags)) a = Some err /\ pr_log p' = pr_log p ++ take k (plan flags) ++ [a]
  | Crashed => (exists s, SetupSignalHandler s = None) /\ pr_log p' = pr_log p ++ take k (plan flags)
  end.

Local Ltac normal := rewrite ?app_nil_r; rewrite <- ?app_assoc; cbn [app].
(** One of the ways to stop after [k] actions. *)
Local Ltac stop k :=
  exists k; cbn [take plan accepted lookup list_lookup]; split; [repeat first [exact I | split; [by normal|]]|];
  first [split; [done|]; eexists _, _; split_and!; normal; first [eassumption | reflexivity]
        |split; [by eexists|]; by normal
        |split_and!; [done | by normal | done]].
Lemma main_stopped flags p p' e : main flags p = (p', e) -> exists k, stoppedAt flags p p' e k.
Proof.
  unfold main, attempt, signalHandler, orExit, stoppedAt, mbind, startup_bind, mret, startup_ret. cbn -[plan]. intros Hm.
  repeat match type of Hm with
  | context [answer ?l ?a] => destruct (answer l a) eqn:?; cbn -[plan] in Hm
  | context [SetupSignalHandler ?s] => destruct (SetupSignalHandler s) eqn:?; cbn -[plan] in Hm
  end; injection Hm as <- <-; cbn [pr_log]; repeat match goal with H : answer _ _ = _ |- _ => progress (rewrite <- ?app_assoc in H; cbn [app] in H) end.
  all: first [stop 0%nat | stop 1%nat | stop 2%nat | stop 3%nat | stop 4%nat | stop 5%nat | stop 6%nat | stop 7%nat].
Qed.

Lemma backendFactory_default : backendFactory = Backends.DefaultFactory.
Proof.
  unfold backendFactory, Backends.DefaultFactory, Register, NewBackendFactory.
  apply (map_eq (M := gmap string)). intros ty. repeat (rewrite lookup_insert; case_decide); try done; subst; discriminate.
Qed.

(** C40. The start-up in full: [main] makes its calls in order and stops at the
    first that is refused, with exit code 1, or at an installation of the signal
    handler that panics.  When it gets to the end, the controllers ran on fresh
    managers that were started, with the three backends registered, which
    are those of the package's default factory. *)
Theorem operator_main flags p p' e : main flags p = (p', e) ->
  op_backendFactory initial = Backends.DefaultFactory /\ exists k, stoppedAt flags p p' e k.
Proof.
  intros Hm. split; [apply backendFactory_default | by apply main_stopped].
Qed.

(** C3. The operator never starts.  [main] installs the signal handler for the
    GPU manager and again for the cache manager, and the second time panics: no
    controller is ever set up or started, and unless the controller manager
    cannot be made the process crashes. *)
Theorem operator_never_starts (Honce : SignalsOnce) flags p p' e : main flags p = (p', e) ->
  pr_log p' = pr_log p ++ [ANewManager (managerOptions flags)] /\
  match answer (pr_log p) (ANewManager (managerOptions flags)) with Some _ => e = Exited 1 | None => e = Crashed end.
Proof.
  unfold main, attempt, signalHandler, orExit, mbind, startup_bind. cbn. destruct (answer _ _); cbn; [by intros [= <- <-]|].
  destruct (SetupSignalHandler (pr_signals p)) as [s|] eqn:Hs; cbn; [|by intros [= <- <-]].
  rewrite (Honce _ _ Hs). cbn. by intros [= <- <-].
Qed.
End startup.

(** * The controllers together *)
Section together.
Context `{QuantityOps} `{CoreTypes} `{!ControllerLib} `{GoRuntime} `{GpuManager.RatioScanner} `{LocalCache.Codecs} `{RedisCache.RedisServer}.
Implicit Type op : Operator.

(** ** What each controller's whole reconciliation inherits from its object's *)
Lemma isvc_Reconcile_calls P Post a b key (r : InferenceController.InferenceServiceReconciler (T := Tier)) : (forall k key, P (CGet k key)) -> (forall x, x.1 = r -> Post x) ->
  (forall svc, calls P Post (InferenceController.reconcileObject a b svc r)) -> calls P Post (InferenceController.Reconcile a b key r).
Proof.
  intros HP Hr Hobj. unfold InferenceController.Reconcile. apply calls_then; [by apply (calls_get _ KInferenceService)|].
  intros [svc| |e]; [apply Hobj | by apply calls_ret, Hr | by apply calls_ret, Hr].
Qed.
Lemma pool_begin_calls P (Post : GpuManager.Manager -> Prop) seed key m : (forall k key, P (CGet k key)) -> Post m ->
  (forall pool, calls P (fun x => Post x.1) (PoolController.register seed pool m)) ->
  calls P (fun x => Post x.1) (PoolController.begin seed key m).
Proof.
  intros HP Hm Hobj. unfold PoolController.begin. apply calls_then; [by apply (calls_get _ KGPUPool)|].
  intros [pool| |e]; [|by apply calls_ret..]. eapply calls_bind; [apply Hobj|]. intros [m' res] Hm'. by apply calls_ret.
Qed.
Lemma tcache_begin_calls P (Post : CacheManager.Manager Tier -> Prop) e w key m : (forall k key, P (CGet k key)) -> Post m ->
  (forall tc, calls P (fun x => Post x.1) (TokenCacheController.configure e w tc m)) ->
  calls P (fun x => Post x.1) (TokenCacheController.begin e w key m).
Proof.
  intros HP Hm Hobj. unfold TokenCacheController.begin. apply calls_then; [by apply (calls_get _ KTokenCache)|].
  intros [tc| |err]; [|by apply calls_ret..]. eapply calls_bind; [apply Hobj|]. intros [m' res] Hm'. by apply calls_ret.
Qed.
(** A whole reconciliation is its two parts, one after the other. *)
Lemma pool_Reconcile_calls P seed key m : calls P anything (PoolController.begin seed key m) ->
  (forall pool m', calls P anything (PoolController.report seed pool m')) -> calls P anything (PoolController.Reconcile seed key m).
Proof. intros Hb Hr. eapply calls_bind; [exact Hb|]. intros [m' [res|pool]] _; [by apply calls_ret | apply Hr]. Qed.
Lemma tcache_Reconcile_calls P e w key m : calls P anything (TokenCacheController.begin e w key m) ->
  (forall tc m', calls P anything (TokenCacheController.report tc m')) -> calls P anything (TokenCacheController.Reconcile e w key m).
Proof. intros Hb Hr. eapply calls_bind; [exact Hb|]. intros [m' [res|tc]] _; [by apply calls_ret | apply Hr]. Qed.

(** ** GPU pools: calls and manager *)
Lemma pool_register_calls (P : call -> Prop) seed pool m : P CNow ->
  (forall o, P (CUpdate KGPUPool o)) -> (forall o, P (CUpdateStatus KGPUPool o)) ->
  calls P (fun x => rtc GpuProps.gmStep m x.1) (PoolController.register seed pool m).
Proof.
  intros Hnow Hup Hst.
  assert (Hends : forall p, calls P (fun x => rtc GpuProps.gmStep m x.1) p -> calls P (fun x => rtc GpuProps.gmStep m x.1) (PoolController.ends p)).
  { intros p Hp. eapply calls_bind; [exact Hp|]. intros [m' res] Hm'. by apply calls_ret. }
  unfold PoolController.register. destruct (om_DeletionTimestamp _).
  { apply Hends. unfold PoolController.handleDeletion. destruct (0 <? _); [by apply calls_ret|].
    apply calls_then; [by apply (calls_update _ KGPUPool)|]. intros updated. apply calls_ret. cbn. apply rtc_once, GpuProps.gmStep_UnregisterPool. }
  destruct (ContainsFinalizer _ _); [|apply calls_then; [by apply (calls_update _ KGPUPool) | intros; by apply calls_ret]].
  assert (Hfail : forall e m', rtc GpuProps.gmStep m m' -> calls P (fun x => rtc GpuProps.gmStep m x.1) (PoolController.fail pool e m')).
  { intros e m' Hm'. unfold PoolController.fail, PoolController.updateStatusWithError. apply calls_then; [|intros; by apply calls_ret].
    apply calls_then; [by apply calls_clock|]. intros now. apply calls_then; [by apply (calls_updateStatus _ KGPUPool) | intros; by apply calls_ret]. }
  destruct (PoolController.validateSpec pool); [|by apply Hends, Hfail].
  pose proof (GpuProps.gmStep_RegisterPool pool m) as Hreg. destruct (GpuManager.RegisterPool pool m) as [m' [[]|e]]; cbn in Hreg;
    [|by apply Hends, Hfail, rtc_once]. apply calls_ret. by apply rtc_once.
Qed.
Lemma pool_report_calls (P : call -> Prop) seed pool m : P CNow -> (forall sel, P (CListNodes sel)) ->
  (forall o, P (CUpdateStatus KGPUPool o)) -> calls P (fun x => x.1 = m) (PoolController.report seed pool m).
Proof.
  intros Hnow Hlist Hst. unfold PoolController.report.
  apply calls_then; [unfold PoolController.discoverGPUs; apply calls_then; [by apply calls_listNodes | intros; by apply calls_ret]|].
  intros _. apply calls_then; [|intros; by apply calls_ret]. unfold PoolController.updateStatus.
  apply calls_then; [by apply calls_clock|]. intros synced. apply calls_then; [by apply calls_clock|]. intros now.
  by apply (calls_updateStatus _ KGPUPool).
Qed.

(** ** Inference services: managers and requeuing *)
Lemma isvc_reconcileObject_state a b svc (r : InferenceController.InferenceServiceReconciler (T := Tier)) :
  calls anything (fun x => (exists gm, rtc GpuProps.gmStep (InferenceController.GPUManager r) gm /\ x.1 = InferenceController.with_gpu gm r) /\
    (om_DeletionTimestamp (is_ObjectMeta svc) = None -> requeues x.2)) (InferenceController.reconcileObject a b svc r).
Proof.
  set (Done := fun (r' : InferenceController.InferenceServiceReconciler (T := Tier)) =>
    exists gm, rtc GpuProps.gmStep (InferenceController.GPUManager r) gm /\ r' = InferenceController.with_gpu gm r).
  assert (Hsame : Done r) by (exists (InferenceController.GPUManager r); by destruct r).
  unfold InferenceController.reconcileObject. destruct (om_DeletionTimestamp _).
  { unfold InferenceController.handleDeletion. apply calls_then; [apply calls_any|]. intros written. apply calls_then; [apply calls_any|].
    intros updated. apply calls_ret. split; [|done]. eexists. split; [|reflexivity]. apply rtc_once, GpuProps.gmStep_Release. }
  destruct (ContainsFinalizer _ _).
  2: { apply calls_then; [apply calls_any|]. intros [o|e]; apply calls_ret; split; try done; intros _; [by left | by right; right]. }
  assert (Hfail : forall svc' e r', Done r' -> calls anything (fun x => Done x.1 /\ (@None Z = None -> requeues x.2)) (InferenceController.fail svc' e r')).
  { intros svc' e r' Hr'. eapply calls_mono; [done | | by apply (InferenceProps.fail_calls_by anything)]. intros x ->. split; [done|]. intros _. by right; left. }
  destruct (InferenceController.validateSpec svc); [|by apply Hfail]. destruct (Backend.Get _ _) as [backend|]; [|by apply Hfail].
  destruct (bk_Validate backend svc); [|by apply Hfail]. unfold InferenceController.reconcileWith.
  eapply (calls_bind _ (fun x => Done x.1)).
  - unfold InferenceController.reconcileGPUAllocation. apply calls_then; [apply calls_any|]. intros now.
    eapply (calls_bind _ (fun x => GpuManager.Allocate now a (InferenceController.allocationRequest svc) (InferenceController.GPUManager r) = Ret x));
      [by apply calls_lift|].
    intros [gm res] Ha. apply calls_ret. exists gm. split; [|done]. eapply rtc_once, GpuProps.gmStep_Allocate, Ha.
  - intros [r' [svc'|e]] Hr'; cbn [fst] in Hr'; [|by apply Hfail].
    apply calls_then; [apply calls_any|]. intros [d|e]; [|by apply Hfail].
    apply calls_then; [apply calls_any|]. intros [[]|e]; [|by apply Hfail].
    apply calls_then; [apply calls_any|]. intros [o|e]; apply calls_ret; split; try done; intros _; [by right; left | by right; right].
Qed.

(** ** What the cache manager keeps: every name leads to its configuration, and
    a promotion that was started to one that exists. *)
Record cachesOk (m : CacheManager.Manager Tier) : Prop := {
  co_names : forall name l, CacheManager.m_caches m !! name = Some l ->
    exists c, CacheManager.m_heap m !! l = Some c /\ CacheManager.cc_Name c = name;
  co_tasks : forall l tier key entry, CacheManager.Promote l tier key entry ∈ CacheManager.m_tasks m -> is_Some (CacheManager.m_heap m !! l);
}.
Lemma cachesOk_update_tiers l ts m : cachesOk m -> cachesOk (CacheManager.update_tiers l ts m).
Proof.
  intros [Hn Ht]. unfold CacheManager.update_tiers. constructor; cbn.
  - intros name l' (c & Hc & Hname)%Hn. destruct (decide (l = l')) as [->|Hne].
    + rewrite list_lookup_alter_eq, Hc. by eexists.
    + rewrite list_lookup_alter_ne by done. by exists c.
  - intros l' tier key entry (c & Hc)%Ht. destruct (decide (l = l')) as [->|Hne]; [rewrite list_lookup_alter_eq, Hc; by eexists|].
    rewrite list_lookup_alter_ne by done. by exists c.
Qed.
Lemma cachesOk_ConfigureCache w tc m : cachesOk m -> cachesOk (CacheManager.ConfigureCache w tc m).1.
Proof.
  intros [Hn Ht]. destruct (CacheManager.ConfigureCache w tc m) as [m' r] eqn:Hc. cbn. unfold CacheManager.ConfigureCache in Hc.
  destruct (CacheManager.createTiers _ _ _ _) as [ts|err]; [|injection Hc as <- _; by constructor].
  injection Hc as <- _. match goal with |- cachesOk (if ?b then _ else _) => destruct b end; constructor; cbn.
  1, 3: intros name l; rewrite lookup_insert; case_decide as Hd; [intros [= <-]; rewrite lookup_app_r, Nat.sub_diag by lia; by eexists|];
    intros (c & Hc & Hname)%Hn; exists c; by rewrite lookup_app_l by (by eapply lookup_lt_Some).
  - intros l tier key entry [Hin|Hin]%elem_of_app; [|by apply list_elem_of_singleton in Hin].
    apply Ht in Hin as (c & Hc). exists c. by rewrite lookup_app_l by (by eapply lookup_lt_Some).
  - intros l tier key entry (c & Hc)%Ht. exists c. by rewrite lookup_app_l by (by eapply lookup_lt_Some).
Qed.
Lemma cachesOk_CleanupCache e name m m' r : cachesOk m -> CacheManager.CleanupCache e name m = Ret (m', r) -> cachesOk m'.
Proof.
  intros Hok. unfold CacheManager.CleanupCache. destruct (CacheManager.lookupConfig name m) as [[l c]|]; [|by intros [= <- _]].
  intros ([ts rs] & _ & [= <- _])%outcome_bind_Ret. destruct (cachesOk_update_tiers l ts m Hok) as [Hn Ht]. constructor; cbn; [|exact Ht].
  intros name' l' [_ Hl]%lookup_delete_Some. by apply Hn.
Qed.
Lemma cachesOk_runTask e t m m' : cachesOk m -> CacheManager.runTask e t m = Ret m' -> cachesOk m'.
Proof.
  intros Hok. destruct t as [l tier key entry|name prefixes]; cbn.
  - unfold CacheManager.promoteToPreviousTiers. destruct (CacheManager.m_heap m !! l) as [c|]; [|done].
    intros ([ts rs] & _ & [= <-])%outcome_bind_Ret. by apply cachesOk_update_tiers.
  - unfold CacheManager.warmupCache. destruct (CacheManager.lookupConfig name m) as [[l c]|]; [|by intros [= <-]].
    intros (ts & _ & [= <-])%outcome_bind_Ret. by apply cachesOk_update_tiers.
Qed.

(** ** The calls of a controller stay within its registration *)
Definition within (reg : Registration) (c : call) : Prop :=
  match c with
  | CCreate k _ => k ∈ reg_Owns reg
  | CUpdate k _ => k ∈ reg_For reg :: reg_Owns reg
  | CUpdateStatus k _ => k = reg_For reg
  | CSetOwner ok _ _ _ => ok = reg_For reg
  | _ => True
  end.
Lemma isvc_within a b key (r : InferenceController.InferenceServiceReconciler (T := Tier)) :
  calls (within InferenceService_SetupWithManager) anything (InferenceController.Reconcile a b key r).
Proof. apply isvc_Reconcile_calls; try done. intros svc. by apply (InferenceProps.reconcileObject_calls _ anything). Qed.
Lemma pool_begin_within seed key m : calls (within GPUPool_SetupWithManager) anything (PoolController.begin seed key m).
Proof. eapply calls_forget, (pool_begin_calls _ (rtc GpuProps.gmStep m)); try done. intros pool. apply pool_register_calls; try done. intros o. by left. Qed.
Lemma pool_report_within seed pool m : calls (within GPUPool_SetupWithManager) anything (PoolController.report seed pool m).
Proof. by eapply calls_forget, pool_report_calls. Qed.
Lemma tcache_begin_within e w key m : calls (within TokenCache_SetupWithManager) anything (TokenCacheController.begin e w key m).
Proof.
  apply (tcache_begin_calls _ anything); try done. intros tc. eapply calls_mono; [done | | apply TokenCacheProps.tcache_configure_calls]; try done.
  intros fs. by left.
Qed.
Lemma tcache_report_within tc m : calls (within TokenCache_SetupWithManager) anything (TokenCacheController.report tc m).
Proof. eapply calls_forget, TokenCacheProps.tcache_report_calls; try done. intros [] o; try done; intros _; cbn; set_solver. Qed.

(** ** Runs *)
(** The service that a call found. *)
Definition foundService (ev : event) : option InferenceService :=
  match ev_call ev as c return reply c -> option InferenceService with
  | CGet KInferenceService _ => fun r => match r with Found svc => Some svc | _ => None end
  | _ => fun _ => None
  end (ev_reply ev).
Definition deploys (c : call) : Prop := match c with CCreate k _ | CUpdate k _ => k = KDeployment | _ => False end.
Definition noMIG (tr : list event) : Prop :=
  forall ev svc, ev ∈ tr -> foundService ev = Some svc -> gs_Sharing (svc_GPU svc) <> GPUSharingModeMIG.

Lemma within_not_deploys reg tr : KDeployment ∉ reg_For reg :: reg_Owns reg -> Forall (fun ev => within reg (ev_call ev)) tr ->
  Forall (fun ev => ~ deploys (ev_call ev)) tr.
Proof.
  intros Hno Hin. eapply Forall_impl; [exact Hin|]. clear Hin. intros [[] r]; cbn; try tauto; intros Hin ->; apply Hno; [by right | done].
Qed.

Lemma isvc_Reconcile_no_devices a b key (r : InferenceController.InferenceServiceReconciler (T := Tier)) :
  rtc GpuProps.gmStep GpuManager.NewManager (InferenceController.GPUManager r) ->
  always (InferenceController.Reconcile a b key r) (fun tr _ => noMIG tr -> Forall (fun ev => ~ deploys (ev_call ev)) tr).
Proof.
  intros Hr [svc| |e]; [|intros _; constructor; [by intros [] | constructor]..].
  destruct (decide (gs_Sharing (svc_GPU svc) = GPUSharingModeMIG)) as [Hmig|Hmig].
  - eapply always_mono; [|apply (calls_any (InferenceController.reconcileObject a b svc r))]. intros tr o _ Hno.
    destruct (Hno (Ev (CGet KInferenceService key) (Found svc)) svc ltac:(by left) eq_refl Hmig).
  - eapply always_mono; [|by apply (InferenceProps.unallocatable_calls a b svc r)]. intros tr o [Htr _] _.
    constructor; [by intros []|]. eapply Forall_impl; [exact Htr|]. intros [[] rep]; cbn; try tauto. intros Hk ->. done.
Qed.

Record operatorInv op : Prop := {
  oi_gpu : rtc GpuProps.gmStep GpuManager.NewManager (op_gpuManager op);
  oi_factory : op_backendFactory op = Backends.DefaultFactory;
  oi_caches : cachesOk (op_cacheManager op);
}.
Lemma operatorInv_initial : operatorInv initial.
Proof.
  constructor; [apply rtc_once, GpuProps.gmStep_Start | exact backendFactory_default |].
  constructor; [intros name l; cbn; by rewrite lookup_empty | intros l tier key entry Hin; by apply elem_of_nil in Hin].
Qed.
Lemma operatorInv_with_gpu op m : operatorInv op -> rtc GpuProps.gmStep (op_gpuManager op) m -> operatorInv (with_gpu m op).
Proof. intros [Hg Hf Hc] Hm. constructor; [by etrans | exact Hf | exact Hc]. Qed.
Lemma operatorInv_with_cache op m : operatorInv op -> cachesOk m -> operatorInv (with_cache m op).
Proof. intros [Hg Hf Hc] Hm. by constructor. Qed.

Lemma cachesOk_cacheStep m m' : cacheStep m m' -> cachesOk m -> cachesOk m'.
Proof. intros [es t m1 m2 _ Ht|l c j t t' m1 _ _ _] Hok; [by eapply cachesOk_runTask | by apply cachesOk_update_tiers]. Qed.

(** The manager after the first part of a reconciliation: by one step of the
    GPU manager, or as [managerAfter] says of the cache manager. *)
Lemma pool_begin_state seed key m : calls anything (fun x => rtc GpuProps.gmStep m x.1) (PoolController.begin seed key m).
Proof. by apply (pool_begin_calls anything (rtc GpuProps.gmStep m)); [| |intros pool; apply pool_register_calls]. Qed.
Lemma tcache_begin_state e w key m (Post : CacheManager.Manager Tier -> Prop) : Post m ->
  (forall tc, Post (CacheManager.ConfigureCache w tc m).1) -> (forall name m' r, CacheManager.CleanupCache e name m = Ret (m', r) -> Post m') ->
  calls anything (fun x => Post x.1) (TokenCacheController.begin e w key m).
Proof.
  intros Hm Hcfg Hclean. apply (tcache_begin_calls anything Post); [done..|]. intros tc.
  eapply calls_mono; [done | | by apply (TokenCacheProps.tcache_configure_calls anything)].
  intros x [[->|[->|[r Hr]]] _]; [done | apply Hcfg | by eapply Hclean].
Qed.

Lemma opStep_Inv s tr s' : operatorInv (ru_op s) -> opStep s tr s' -> operatorInv (ru_op s').
Proof.
  intros Hi Hs. destruct Hs as [a b key op ps cs tr r res Hm|seed key op ps cs tr m r Hm|seed pool op ps qs cs tr m res Hm
    |e w key op ps cs tr m r Hm|tc op ps cs ds tr m res Hm|m op ps cs Hm|op ps cs|now op ps cs]; cbn [ru_op] in *.
  - eapply (calls_may anything (fun x => exists gm, rtc GpuProps.gmStep (op_gpuManager op) gm /\ x.1 = InferenceController.with_gpu gm (services op)))
      in Hm as [_ (gm & Hgm & Hx)].
    + cbn in Hx. subst r. by apply (operatorInv_with_gpu op).
    + apply isvc_Reconcile_calls; [done | intros x ->; by exists (op_gpuManager op) |].
      intros svc. eapply calls_mono; [done | | apply isvc_reconcileObject_state]. by intros x [? _].
  - eapply calls_may in Hm as [_ Hx]; [|apply pool_begin_state]. by apply operatorInv_with_gpu.
  - eapply calls_may in Hm as [_ Hx]; [|by apply (pool_report_calls anything)]. cbn in Hx. subst m. by apply operatorInv_with_gpu.
  - eapply calls_may in Hm as [_ Hx]; [|apply (tcache_begin_state _ _ _ _ cachesOk)].
    + by apply operatorInv_with_cache.
    + apply oi_caches, Hi.
    + intros tc. apply cachesOk_ConfigureCache, oi_caches, Hi.
    + intros name m' r'. apply cachesOk_CleanupCache, oi_caches, Hi.
  - eapply (calls_may anything (fun x => x.1 = op_cacheManager op /\ TokenCacheProps.reported x.2)) in Hm as [_ [Hx _]];
      [|by apply (TokenCacheProps.tcache_report_calls anything)]. cbn in Hx. subst m.
    apply operatorInv_with_cache; [done | apply oi_caches, Hi].
  - apply operatorInv_with_cache; [done|]. by eapply cachesOk_cacheStep, oi_caches.
  - by apply operatorInv_with_gpu.
  - apply operatorInv_with_gpu; [done|]. apply rtc_once, GpuProps.gmStep_tick.
Qed.
Lemma opRun_Inv s tr s' : operatorInv (ru_op s) -> opRun s tr s' -> operatorInv (ru_op s').
Proof. intros Hi Hr. induction Hr as [|s1 s2 s3 tr tr' Hr IH Hs]; [done|]. by eapply opStep_Inv, Hs; apply IH. Qed.

(** ** Reconciliations end, and objects are queued again *)
Lemma tcache_reconcileObject_returns e w tc m : om_DeletionTimestamp (tc_ObjectMeta tc) = None ->
  returns (fun x => requeues x.2) (TokenCacheController.reconcileObject e w tc m).
Proof.
  intros Hd. rewrite TokenCacheController.reconcileObject_eq, Hd. destruct (ContainsFinalizer _ _).
  2: { apply returns_then; [auto with inference|]. intros [o|err]; apply returns_ret; [by left | by right; right]. }
  assert (Hfail : forall err m', returns (fun x => requeues x.2) (TokenCacheController.fail tc err m')).
  { intros err m'. unfold TokenCacheController.fail, TokenCacheController.updateStatusWithError.
    eapply returns_bind with (Mid := requeues); [|intros; by apply returns_ret].
    apply returns_then; [auto with inference|]. intros now. apply returns_then; [auto with inference|]. intros _. apply returns_ret. by right; left. }
  destruct (TokenCacheController.validateSpec tc); [|apply Hfail]. destruct (CacheManager.ConfigureCache w tc m) as [m' [[]|err]]; [|apply Hfail].
  apply returns_then.
  { unfold TokenCacheController.reconcileRedis. destruct (TokenCacheController.findTier _ _) as [tier|]; [|by apply returns_ret].
    case_decide; [|by apply returns_ret]. apply returns_ok; [auto with inference|]. intros owners. apply returns_then; [auto with inference|].
    intros [found| |err]; [by apply returns_ret | | by apply returns_ret]. apply returns_ok; [auto with inference|]. intros _.
    apply returns_ok; [auto with inference|]. intros owners'. apply returns_then; [auto with inference|].
    intros [found| |err]; [by apply returns_ret | | by apply returns_ret]. apply returns_ok; [auto with inference | intros; by apply returns_ret]. }
  intros _. apply returns_then.
  { unfold TokenCacheController.reconcileLocalStorage. destruct (TokenCacheController.findTier _ _) as [tier|]; [|by apply returns_ret].
    match goal with |- context [if ?b then _ else _] => destruct b end; [by apply returns_ret|].
    apply returns_ok; [auto with inference|]. intros owners. apply returns_then; [auto with inference|].
    intros [found| |err]; [by apply returns_ret | | by apply returns_ret]. apply returns_ok; [auto with inference | intros; by apply returns_ret]. }
  intros _. apply returns_then; [|intros [o|err]; apply returns_ret; [by right; left | by right; right]].
  apply returns_then; [auto with inference|]. intros synced. apply returns_then; [auto with inference|]. intros now. apply (returns_updateStatus KTokenCache).
Qed.

Lemma pool_reconcileObject_returns seed pool m : om_DeletionTimestamp (gp_ObjectMeta pool) = None ->
  returns (fun x => requeues x.2) (PoolController.reconcileObject seed pool m).
Proof.
  intros Hd. rewrite PoolController.pool_reconcileObject_eq, Hd. destruct (ContainsFinalizer _ _).
  2: { apply returns_then; [auto with inference|]. intros [o|err]; apply returns_ret; [by left | by right; right]. }
  assert (Hfail : forall err m', returns (fun x => requeues x.2) (PoolController.fail pool err m')).
  { intros err m'. unfold PoolController.fail, PoolController.updateStatusWithError.
    eapply returns_bind with (Mid := requeues); [|intros; by apply returns_ret].
    apply returns_then; [auto with inference|]. intros now. apply returns_then; [auto with inference|]. intros _. apply returns_ret. by right; left. }
  destruct (PoolController.validateSpec pool); [|apply Hfail]. destruct (GpuManager.RegisterPool pool m) as [m' [[]|err]]; [|apply Hfail].
  apply returns_then; [unfold PoolController.discoverGPUs; apply returns_then; [auto with inference | intros; by apply returns_ret]|].
  intros _. apply returns_then; [|intros [o|err]; apply returns_ret; [by right; left | by right; right]].
  apply returns_then; [auto with inference|]. intros synced. apply returns_then; [auto with inference|]. intros now. apply (returns_updateStatus KGPUPool).
Qed.

(** C39. An object that is not being deleted is never dropped: whatever the
    server answers, a reconciliation of a pool or of a token cache returns, and
    it asks for the object to be queued again, at once, later, or by an error;
    so does one of an inference service that returns. *)
Theorem operator_keeps_reconciling a b seed e w svc pool tc op :
  (om_DeletionTimestamp (is_ObjectMeta svc) = None ->
     calls anything (fun x => requeues x.2) (InferenceController.reconcileObject a b svc (services op))) /\
  (om_DeletionTimestamp (gp_ObjectMeta pool) = None ->
     returns (fun x => requeues x.2) (PoolController.reconcileObject seed pool (op_gpuManager op))) /\
  (om_DeletionTimestamp (tc_ObjectMeta tc) = None ->
     returns (fun x => requeues x.2) (TokenCacheController.reconcileObject e w tc (op_cacheManager op))).
Proof.
  split_and!; [|by apply pool_reconcileObject_returns | by apply tcache_reconcileObject_returns].
  intros Hd. eapply calls_mono; [done | | apply isvc_reconcileObject_state]. intros x [_ Hx]. by apply Hx.
Qed.

(** Each controller stays within its registration: it creates only objects
    of kinds it owns, for an owner of its own kind, so that a change of any of
    them wakes it up; it changes objects of these kinds and its own only, and
    statuses of its own only. *)
Theorem operator_within_registration a b seed e w key op :
  calls (within InferenceService_SetupWithManager) anything (InferenceController.Reconcile a b key (services op)) /\
  calls (within GPUPool_SetupWithManager) anything (PoolController.Reconcile seed key (op_gpuManager op)) /\
  calls (within TokenCache_SetupWithManager) anything (TokenCacheController.Reconcile e w key (op_cacheManager op)).
Proof.
  split_and!; [apply isvc_within | apply pool_Reconcile_calls; intros; [apply pool_begin_within | apply pool_report_within]
    | apply tcache_Reconcile_calls; intros; [apply tcache_begin_within | apply tcache_report_within]].
Qed.

(** C4. What holds in every state that the controllers and the background
    loops reach from a start, in any order and whatever the server answers, also
    while reconciliations are under way: no device is known to any of the GPU
    managers; the three backends are registered; and every cache name leads to
    its configuration, so that it has a status, and no promotion has lost its
    cache. *)
Theorem operator_reachable tr s : opRun started tr s -> let op := ru_op s in
  GpuProps.NoDevices (op_gpuManager op) /\ op_backendFactory op = Backends.DefaultFactory /\ cachesOk (op_cacheManager op) /\
  (forall name, is_Some (CacheManager.m_caches (op_cacheManager op) !! name) ->
     is_ok (CacheManager.GetStatus name (op_cacheManager op)) = true).
Proof.
  intros [Hg Hf Hc]%(opRun_Inv started _ _ operatorInv_initial) op. split_and!; [by apply GpuProps.gm_reach_NoDevices | done | done |].
  intros name [l Hl]. destruct (co_names _ Hc name l Hl) as (c & Hcfg & _). unfold CacheManager.GetStatus, CacheManager.lookupConfig.
  unfold op in *. rewrite Hl. cbn. by rewrite Hcfg.
Qed.

(** C5. The operator deploys nothing but MIG services: a run from a start in
    which every inference service found shares its GPUs otherwise, or not at
    all, creates and changes no deployment. *)
Theorem operator_deploys_mig_only tr s : opRun started tr s -> noMIG tr -> Forall (fun ev => ~ deploys (ev_call ev)) tr.
Proof.
  intros Hr. remember started as s0 eqn:E. induction Hr as [|s1 s2 s3 tr tr' Hr IH Hs]; [by constructor|]. subst s1. intros Hno.
  pose proof (opRun_Inv started _ _ operatorInv_initial Hr) as Hi. apply Forall_app. split; [apply IH; [done|]; intros ev svc Hin; apply Hno; set_solver|].
  assert (Hno' : noMIG tr') by (intros ev svc Hin; apply Hno; set_solver).
  destruct Hs as [a b key op ps cs tr' r res Hm|seed key op ps cs tr' m r Hm|seed pool op ps qs cs tr' m res Hm
    |e w key op ps cs tr' m r Hm|tc op ps cs ds tr' m res Hm|m op ps cs Hm|op ps cs|now op ps cs]; try by constructor.
  - by apply (proj1 (always_may _ _) (isvc_Reconcile_no_devices a b key (services op) (oi_gpu _ Hi)) _ _ Hm).
  - apply (within_not_deploys GPUPool_SetupWithManager); [set_solver|]. exact (proj1 (calls_may _ _ _ _ _ (pool_begin_within seed key _) Hm)).
  - apply (within_not_deploys GPUPool_SetupWithManager); [set_solver|]. exact (proj1 (calls_may _ _ _ _ _ (pool_report_within seed pool _) Hm)).
  - apply (within_not_deploys TokenCache_SetupWithManager); [set_solver|]. exact (proj1 (calls_may _ _ _ _ _ (tcache_begin_within e w key _) Hm)).
  - apply (within_not_deploys TokenCache_SetupWithManager); [set_solver|]. exact (proj1 (calls_may _ _ _ _ _ (tcache_report_within tc _) Hm)).
Qed.
End together.

(** * Witnesses *)
Section startup_witnesses.
Local Existing Instance ZQuantity.
Local Existing Instance textTypes.
Local Existing Instance stdRuntime.
Local Existing Instance TokenCacheProps.remoteServer.

(** A runtime that refuses nothing, with controller-runtime's handler, which can
    be set up once, and with one that can be set up again. *)
Definition onceRuntime : ControllerRuntime :=
  {| answer := fun _ _ => None; SignalState := bool; SetupSignalHandler := fun installed => if installed then None else Some true |}.
Definition againRuntime : ControllerRuntime :=
  {| answer := fun _ _ => None; SignalState := unit; SetupSignalHandler := fun s => Some s |}.
Lemma onceRuntime_once : SignalsOnce (H := onceRuntime).
Proof. intros [|] s' E; [discriminate E | injection E as <-; reflexivity]. Qed.

Lemma operator_never_starts_witness :
  (main (H3 := onceRuntime) defaultFlags (mkProcess onceRuntime [] false)).2 = Crashed.
Proof.
  exact (proj2 (operator_never_starts (H3 := onceRuntime) onceRuntime_once defaultFlags (mkProcess onceRuntime [] false) _ _ (surjective_pairing _))).
Defined.
Lemma operator_main_witness : exists k, stoppedAt (H3 := againRuntime) defaultFlags (mkProcess againRuntime [] tt)
  (main (H3 := againRuntime) defaultFlags (mkProcess againRuntime [] tt)).1 (Going initial) k.
Proof.
  exact (proj2 (operator_main (H3 := againRuntime) defaultFlags (mkProcess againRuntime [] tt) _ _ (surjective_pairing _))).
Defined.
End startup_witnesses.

Section together_witnesses.
Local Existing Instance ZQuantity.
Local Existing Instance textTypes.
Local Existing Instance stdRuntime.
Local Existing Instance LocalCache.storeCodecs.
Local Existing Instance GpuProps.noScanner.
Local Existing Instance InferenceProps.exampleLib.
Local Existing Instance TokenCacheProps.remoteServer.

(** A server with one inference service and one token cache. *)
Definition objectServer (c : call) (s : unit) : unit * reply c :=
  (s, match c return reply c with
      | CGet k _ => match k return got (obj k) with
          | KInferenceService => Found (InferenceProps.ex_isvc GPUSharingModeExclusive)
          | KTokenCache => Found TokenCacheProps.ex_prefix
          | _ => NotFound
          end
      | CCreate _ o | CUpdate _ o | CUpdateStatus _ o => Ok o
      | CSetOwner _ _ _ _ => Ok []
      | CListNodes _ => Ok 0%nat
      | CNow => 9
      end).

(** The first part of the reconciliation of the token cache. *)
Definition ex_cacheRun : unit * list event * outcome (CacheManager.Manager Tier * (Result + TokenCache)) :=
  run objectServer tt (TokenCacheController.begin TokenCacheProps.ex_env TokenCacheProps.ex_world ("team-a", "c")
    (op_cacheManager initial)).
Definition ex_configured : CacheManager.Manager Tier :=
  (CacheManager.ConfigureCache TokenCacheProps.ex_world TokenCacheProps.ex_prefix (op_cacheManager initial)).1.
Definition ex_underway : Running := mkRunning (with_cache ex_configured initial) [] [TokenCacheProps.ex_prefix].
Lemma ex_cacheRun_ends : ex_cacheRun.2 = Ret (ex_configured, inr TokenCacheProps.ex_prefix).
Proof. vm_cast_no_check (@eq_refl _ (Ret (ex_configured, inr TokenCacheProps.ex_prefix) : outcome (CacheManager.Manager Tier * (Result + TokenCache)))). Qed.
Lemma ex_cacheRun_opRun : opRun started ex_cacheRun.1.2 ex_underway.
Proof.
  apply (opRun_step _ started _ [] ex_cacheRun.1.2); [apply opRun_refl|].
  apply (opStep_TokenCache TokenCacheProps.ex_env TokenCacheProps.ex_world ("team-a", "c") initial [] []
    ex_cacheRun.1.2 ex_configured (inr TokenCacheProps.ex_prefix)). rewrite <- ex_cacheRun_ends. apply run_may.
Qed.
Lemma operator_reachable_witness : opRun started ex_cacheRun.1.2 ex_underway /\ GpuProps.NoDevices (op_gpuManager (ru_op ex_underway)).
Proof. split; [exact ex_cacheRun_opRun|]. exact (proj1 (operator_reachable _ _ ex_cacheRun_opRun)). Defined.

Definition ex_serviceRun : unit * list event * outcome (InferenceController.InferenceServiceReconciler (T := Tier) * Result) :=
  run objectServer tt (InferenceController.Reconcile 0 0 ("default", "llm") (services initial)).
Lemma ex_serviceRun_ends : exists x, ex_serviceRun.2 = Ret x.
Proof.
  assert (E : match ex_serviceRun.2 with Ret _ => true | _ => false end = true) by (vm_compute; reflexivity).
  destruct ex_serviceRun.2 as [x| |]; [by exists x | discriminate E..].
Qed.
Lemma ex_serviceRun_opRun : exists s, opRun started ex_serviceRun.1.2 s.
Proof.
  destruct ex_serviceRun_ends as [[r res] Hr]. exists (mkRunning (with_services r) [] []).
  apply (opRun_step _ started _ [] ex_serviceRun.1.2); [apply opRun_refl|].
  eapply opStep_InferenceService. rewrite <- Hr. apply run_may.
Qed.
Lemma ex_serviceRun_noMIG : noMIG ex_serviceRun.1.2.
Proof.
  assert (E : omap foundService ex_serviceRun.1.2 = [InferenceProps.ex_isvc GPUSharingModeExclusive]) by (vm_compute; reflexivity).
  intros ev svc Hin Hev. assert (Hs : svc ∈ omap foundService ex_serviceRun.1.2) by (apply list_elem_of_omap; eauto).
  rewrite E in Hs. apply list_elem_of_singleton in Hs as ->. discriminate.
Qed.
Lemma operator_deploys_mig_only_witness : Forall (fun ev => ~ deploys (ev_call ev)) ex_serviceRun.1.2.
Proof. destruct ex_serviceRun_opRun as [s Hr]. exact (operator_deploys_mig_only _ s Hr ex_serviceRun_noMIG). Defined.
End together_witnesses.
