(* ===== verification/PrefixContents.v ===== *)
(** What a prefix cache holds: a predicate on keys and values that every [Set]
    meets is met by everything the cache returns, whatever the background loop
    evicts, swaps out or removes in between. *)
From S2P Require Import Prelude GoFloat Api CacheTier PrefixCache.
Local Open Scope Z_scope.

Section contents.
Context `{QuantityOps} `{GoRuntime} (P : string -> bytes -> Prop).
Implicit Types (c : PrefixCache) (k hash : string).

(** The values of the allocated blocks, by address. *)
Definition kvs c : list bytes := pb_KVCache <$> pc_heap c.
Definition holdsAt c k (l : loc) : Prop := exists v, kvs c !! l = Some v /\ P k v.
Definition contents c : Prop := forall k l, pc_gpuBlocks c !! k = Some l \/ pc_swapBlocks c !! k = Some l -> holdsAt c k l.
(** A step that allocates nothing and files nothing bad. *)
Definition keeps c c' : Prop := contents c -> kvs c' = kvs c /\ contents c'.

Lemma keeps_trans c1 c2 c3 : keeps c1 c2 -> keeps c2 c3 -> keeps c1 c3.
Proof. intros H12 H23 Hc. destruct (H12 Hc) as [E12 Hc2]. destruct (H23 Hc2) as [E23 Hc3]. split; [congruence|done]. Qed.

Lemma kvs_alter f l c c' : pc_heap c' = alter f l (pc_heap c) -> (forall b, pb_KVCache (f b) = pb_KVCache b) -> kvs c' = kvs c.
Proof.
  intros Hh Hf. unfold kvs. rewrite Hh. apply list_eq. intros i. rewrite !list_lookup_fmap.
  destruct (decide (i = l)) as [->|Hne]; [rewrite list_lookup_alter_eq | by rewrite list_lookup_alter_ne].
  destruct (pc_heap c !! l); cbn; [by rewrite Hf | done].
Qed.
Lemma holdsAt_kvs c c' k l : kvs c' = kvs c -> holdsAt c k l -> holdsAt c' k l.
Proof. unfold holdsAt. by intros ->. Qed.
(** Fewer files over the same blocks. *)
Lemma keeps_subset c c' : kvs c' = kvs c ->
  (forall k l, pc_gpuBlocks c' !! k = Some l \/ pc_swapBlocks c' !! k = Some l ->
     pc_gpuBlocks c !! k = Some l \/ pc_swapBlocks c !! k = Some l \/ holdsAt c k l) -> keeps c c'.
Proof.
  intros Hk Hsub Hc. split; [done|]. intros k l Hl. eapply holdsAt_kvs; [exact Hk|].
  destruct (Hsub k l Hl) as [Hg|[Hs|Hh]]; [apply Hc; by left | apply Hc; by right | done].
Qed.

(** ** Each step *)
Lemma removeBlock_keeps hash l c c' : removeBlock hash l c = Ret c' -> keeps c c'.
Proof.
  unfold removeBlock. intros (b & _ & [= <-])%outcome_bind_Ret. apply keeps_subset.
  - destruct (pb_InGPU b), (pb_InSwap b); reflexivity.
  - intros k l'. destruct (pb_InGPU b), (pb_InSwap b); cbn; rewrite ?lookup_delete_Some; tauto.
Qed.
Lemma moveToSwap_keeps hash l c c' : holdsAt c hash l -> moveToSwap hash l c = Ret c' -> keeps c c'.
Proof.
  intros Hh. unfold moveToSwap. intros (b & _ & (s & _ & [= <-])%outcome_bind_Ret)%outcome_bind_Ret. apply keeps_subset.
  - by eapply (kvs_alter _ l c).
  - intros k l'. cbn. rewrite lookup_delete_Some, lookup_insert_Some. intros [[_ Hg]|[[-> ->]|[_ Hs]]]; tauto.
Qed.
Lemma evictOne_keeps bi c c' : holdsAt c bi.1.1 bi.1.2 -> evictOne bi c = Ret c' -> keeps c c'.
Proof. intros Hh. unfold evictOne. destruct (_ && _); intros He; [exact (moveToSwap_keeps _ _ _ _ Hh He) | exact (removeBlock_keeps _ _ _ _ He)]. Qed.
Lemma evictLoop_keeps target blocks c c' : Forall (fun bi => holdsAt c bi.1.1 bi.1.2) blocks ->
  evictLoop target blocks c = Ret c' -> keeps c c'.
Proof.
  revert c. induction blocks as [|bi blocks IH]; intros c Hb; cbn; [intros [= <-] Hc; by split|].
  destruct (_ <=? _); [intros [= <-] Hc; by split|]. apply Forall_cons in Hb as [Hbi Hb].
  intros (c1 & H1 & H2)%outcome_bind_Ret Hc. apply evictOne_keeps in H1; [|done]. destruct (H1 Hc) as [E1 Hc1].
  eapply keeps_trans; [exact H1 | | exact Hc]. eapply IH; [|exact H2].
  eapply Forall_impl; [exact Hb|]. intros bi'. by apply holdsAt_kvs.
Qed.
Lemma evictLRU_keeps seed c c' : evictLRU seed c = Ret c' -> keeps c c'.
Proof.
  unfold evictLRU, Lock. destruct (pc_mu c); [done|]. cbn [mbind outcome_bind].
  destruct (_ <=? _); [intros [= <-]; apply keeps_subset; [done | cbn; tauto]|].
  intros (c1 & H1 & [= <-])%outcome_bind_Ret Hc. apply evictLoop_keeps in H1; [exact (H1 Hc)|].
  apply Forall_forall. intros [[hash l] t]. rewrite sort_slice_perm. unfold collectUnpinned.
  rewrite list_elem_of_omap. intros ([k p] & Hin%range_elem & Hp). cbn in Hin.
  apply bind_Some in Hp as (b & _ & Hp). destruct (_ =? _); [|done]. injection Hp as -> -> _.
  apply Hc. by left.
Qed.
Lemma evictExpired_keeps now seed c c' : evictExpired now seed c = Ret c' -> keeps c c'.
Proof.
  unfold evictExpired, Lock. destruct (pc_mu c); [done|]. cbn [mbind outcome_bind].
  intros (c1 & Hf & [= <-])%outcome_bind_Ret. enough (keeps (set_mu true c) c1) as Hk by exact Hk.
  clear -Hf. revert Hf. generalize (range seed (pc_gpuBlocks (set_mu true c))). generalize (set_mu true c).
  intros c0 ls. revert c0. induction ls as [|[hash l] ls IH]; intros c0.
  - cbn. intros [= <-] Hc. by split.
  - cbn [foldM]. intros (c2 & (b & _ & Hb)%outcome_bind_Ret & Hf)%outcome_bind_Ret. eapply keeps_trans; [|by apply IH].
    destruct (_ && _); [by eapply removeBlock_keeps|]. injection Hb as <-. intros Hc. by split.
Qed.
Lemma evictionTick_keeps now seed c c' : evictionTick now seed c = Ret c' -> keeps c c'.
Proof. intros (c1 & H1%evictExpired_keeps & H2%evictLRU_keeps)%outcome_bind_Ret. by eapply keeps_trans. Qed.

Lemma New_contents cacheName tierName size ttl config : contents (NewPrefixCache cacheName tierName size ttl config).
Proof. intros k l. cbn. rewrite lookup_empty. by intros [?|?]. Qed.
Lemma Clear_contents c c' r : Clear c = Ret (c', r) -> contents c'.
Proof.
  unfold Clear, Lock. destruct (pc_mu c); [done|]. intros [= <- _] k l. cbn. rewrite lookup_empty. by intros [?|?].
Qed.
Lemma Set_contents now key value ttl c c' r : P key value -> contents c -> Set_ now key value ttl c = Ret (c', r) -> contents c'.
Proof.
  intros HP Hc. unfold Set_, Lock. destruct (pc_mu c); [done|]. cbn [mbind outcome_bind].
  intros (c1 & Hrem & [= <- _])%outcome_bind_Ret.
  assert (Hc1 : contents c1).
  { change (contents (set_mu true c)) in Hc. revert Hrem. cbn.
    destruct (pc_gpuBlocks c !! key); [intros Hr%removeBlock_keeps; by apply Hr|].
    destruct (pc_swapBlocks c !! key); [intros Hr%removeBlock_keeps; by apply Hr | by intros [= <-]]. }
  clear Hrem Hc. intros k l Hl.
  assert (Hk : exists v, (kvs c1 ++ [value]) !! l = Some v /\ P k v).
  { assert (Hl' : k = key /\ l = length (pc_heap c1) \/ pc_gpuBlocks c1 !! k = Some l \/ pc_swapBlocks c1 !! k = Some l)
      by (revert Hl; destruct (maxSize c1 <? _); cbn; rewrite lookup_insert_Some; naive_solver).
    destruct Hl' as [[-> ->]|Hl'].
    - exists value. split; [|done]. rewrite lookup_app_r; unfold kvs; rewrite length_fmap; [by rewrite Nat.sub_diag | done].
    - destruct (Hc1 k l Hl') as (v & Hv & HPv). exists v. split; [by apply lookup_app_l_Some | done]. }
  unfold holdsAt, kvs in *. destruct (maxSize c1 <? _); cbn; rewrite fmap_app; exact Hk.
Qed.

(** What [Get] returns is filed under the key it was asked for. *)
Lemma Get_contents now1 now2 seed key c c' e : contents c -> Get now1 now2 seed key c = Ret (c', Ok (Some e)) ->
  ce_Key e = key /\ P key (ce_Value e).
Proof.
  intros Hc. unfold Get, RLock. destruct (pc_mu c) eqn:Hmu; [done|]. cbn [mbind outcome_bind].
  destruct (lookupBlock key c) as [l|] eqn:Hl; [|done].
  intros (b & _ & Hget)%outcome_bind_Ret. destruct (_ <? _); [by apply outcome_bind_Ret in Hget as (? & _ & ?)|].
  apply outcome_bind_Ret in Hget as ([c1 e1] & Hhit & [= <- <-]). revert Hhit. unfold getHit.
  intros (c2 & Hlock & (b2 & _ & (c3 & Hmove & (b3 & Hload & [= _ <-])%outcome_bind_Ret)%outcome_bind_Ret)%outcome_bind_Ret)%outcome_bind_Ret.
  cbn. split; [done|].
  assert (Hk2 : kvs c2 = kvs c).
  { revert Hlock. unfold Lock. cbn. rewrite Hmu. intros [= <-].
    by eapply (kvs_alter _ l c). }
  assert (Hc2 : contents c2).
  { revert Hlock. unfold Lock. cbn. rewrite Hmu. intros [= <-]. intros k l' Hl'. eapply holdsAt_kvs; [exact Hk2|]. by apply Hc. }
  assert (Hacc : kvs (modify (b_set_AccessedAt now2) l c2) = kvs c2) by by eapply (kvs_alter _ l c2).
  assert (Hk3 : kvs c3 = kvs c2).
  { destruct (pb_InSwap b2); [|by injection Hmove as <-]. revert Hmove. unfold moveToGPU.
    intros (b4 & _ & (c4 & Hev & (s & _ & [= <-])%outcome_bind_Ret)%outcome_bind_Ret)%outcome_bind_Ret.
    transitivity (kvs c4); [by eapply (kvs_alter _ l c4)|].
    destruct (_ <? _); [|by injection Hev as <-]. rewrite <- Hacc. refine (proj1 (evictLRU_keeps _ _ _ Hev _)).
    intros k l' Hl'. eapply holdsAt_kvs; [exact Hacc | by apply Hc2]. }
  assert (Hh : holdsAt c key l) by (apply Hc; unfold lookupBlock in Hl; destruct (pc_gpuBlocks c !! key); [left; congruence | by right]).
  destruct Hh as (v & Hv & HPv). rewrite <- Hk2, <- Hk3 in Hv. unfold kvs in Hv. rewrite list_lookup_fmap in Hv.
  revert Hload. unfold load. cbn. destruct (pc_heap c3 !! l) as [b'|]; [|done]. intros [= ->]. cbn in Hv. by injection Hv as ->.
Qed.
End contents.
