(* ===== verification/WarmProps.v ===== *)
(** What the caches of a running operator hold.  Nothing in the operator stores
    a token prefix or looks one up: the cache manager is only configured, cleaned
    up and warmed up, so that its prefix tiers hold warm-up prefixes and nothing
    else, and lose even those with every reconciliation. *)
From S2P Require Import Prelude GoFloat Api CacheTier FileSystem Tiers ServiceApi Kube ControllerLib Operator.
From S2P Require PrefixCache PrefixContents LocalCache RedisCache CacheManager ManagerProps TokenCacheController TokenCacheProps.
From S2P Require InferenceController InferenceProps OperatorProps GpuManager GpuProps.
Import LocalCache RedisCache.
Local Open Scope Z_scope.

Section warm.
Context `{QO : QuantityOps} `{CT : CoreTypes} `{GR : GoRuntime} `{CO : Codecs} `{RS : RedisServer}.
Context `{CL : !ControllerLib} `{SC : GpuManager.RatioScanner}.
Implicit Types (tc : TokenCache) (m : CacheManager.Manager Tier).

(** ** Tiers whose contents satisfy a predicate *)
Section contents.
(** [W] holds of every key and value of a prefix tier; [other] says whether
    there may be other tiers. *)
Variables (W : string -> bytes -> Prop) (other : Prop).
Definition holdsOnly (t : Tier) : Prop := match t with TPrefix c => PrefixContents.contents W c | _ => other end.

Lemma tier_Set_holds e key value ttl t t' r : W key value -> holdsOnly t -> tier_Set e key value ttl t = Ret (t', r) -> holdsOnly t'.
Proof.
  intros Hw Ht. destruct t as [c|c|c]; intros (c' & Hs & ->)%wrap_call_Ret; [|exact Ht..].
  exact (PrefixContents.Set_contents W _ _ _ _ _ _ _ Hw Ht Hs).
Qed.
Lemma tier_Clear_holds e t t' r : holdsOnly t -> tier_Clear e t = Ret (t', r) -> holdsOnly t'.
Proof.
  intros Ht. destruct t as [c|c|c]; intros (c' & Hs & ->)%wrap_call_Ret; [|exact Ht..]. exact (PrefixContents.Clear_contents W _ _ _ Hs).
Qed.
Lemma tierTick_holds t t' : tierTick t t' -> holdsOnly t -> holdsOnly t'.
Proof. intros []; [|done..]. cbn. intros Hc. eapply PrefixContents.evictionTick_keeps; [done | exact Hc]. Qed.

(** A call on each tier. *)
Lemma eachTier_holds (call : nat -> Tier -> outcome (Tier * result unit)) ts :
  (forall i t t' r, holdsOnly t -> call i t = Ret (t', r) -> holdsOnly t') -> Forall holdsOnly ts ->
  forall i ts' rs, CacheManager.eachTier call i ts = Ret (ts', rs) -> Forall holdsOnly ts'.
Proof.
  intros Hcall HQ. induction HQ as [|t ts Ht _ IH]; intros i ts' rs; cbn; [by intros [= <- _]|].
  intros ([t' r] & Hc & ([ts2 rs2] & Hrest & [= <- _])%outcome_bind_Ret)%outcome_bind_Ret.
  constructor; [by eapply Hcall | by eapply IH].
Qed.
Lemma warmTiers_holds es prefixes : (forall p, p ∈ prefixes -> W (CacheManager.prefix_key p) (bytes_of_string p)) ->
  forall i ts ts', Forall holdsOnly ts -> CacheManager.warmTiers es i prefixes ts = Ret ts' -> Forall holdsOnly ts'.
Proof.
  induction prefixes as [|p prefixes IH]; intros Hp i ts ts' Hts; cbn; [by intros [= <-]|].
  intros ([ts1 rs] & Hall & Hrest)%outcome_bind_Ret. eapply IH; [| |exact Hrest]; [intros q Hq; apply Hp; by right|].
  eapply eachTier_holds; [|exact Hts|exact Hall]. intros j t t' r Ht Hs. eapply tier_Set_holds; [|exact Ht|exact Hs]. apply Hp. by left.
Qed.

(** New tiers are empty. *)
Lemma createTiers_holds w name specs : Forall (fun s => cts_Type s = CacheTierTypePrefix \/ other) specs ->
  forall i ts, CacheManager.createTiers w i name specs = Ok ts -> Forall holdsOnly ts.
Proof.
  induction 1 as [|spec specs Hspec _ IH]; intros i ts; cbn; [by intros [= <-]|].
  destruct (CacheManager.createTier (w i) name spec) as [t|e] eqn:Ht; [|done].
  destruct (CacheManager.createTiers w (S i) name specs) as [ts2|e] eqn:Hts; [|done]. intros [= <-].
  constructor; [|by eapply IH]. revert Ht. unfold CacheManager.createTier. case_bool_decide as Hty.
  { intros [= <-]. apply PrefixContents.New_contents. }
  destruct Hspec as [?|Ho]; [done|]. case_bool_decide; [by intros [= <-]|]. case_bool_decide; [|done].
  destruct (NewRedisCache _ _ _ _ _ _) as [c [|]]; [by intros [= <-] | done].
Qed.
End contents.

(** Tiers that are replaced stay with their configuration. *)
Lemma update_tiers_lookup l ts m l' c : CacheManager.m_heap (CacheManager.update_tiers l ts m) !! l' = Some c ->
  exists c0, CacheManager.m_heap m !! l' = Some c0 /\ CacheManager.cc_Name c = CacheManager.cc_Name c0 /\
    CacheManager.cc_Tiers c = if decide (l' = l) then ts else CacheManager.cc_Tiers c0.
Proof.
  cbn. destruct (decide (l' = l)) as [->|Hne].
  - rewrite list_lookup_alter_eq. destruct (CacheManager.m_heap m !! l) as [c0|]; [|done]. intros [= <-]. by exists c0.
  - rewrite list_lookup_alter_ne by done. intros Hc. by exists c.
Qed.

(** ** The warm-ups of a cache *)
Definition commonPrefixes tc : list string := match tcs_Warmup (tc_Spec tc) with Some w => ws_CommonPrefixes w | None => [] end.
(** A key and a value that the warm-up of some of the prefixes files. *)
Definition warmed (prefixes : string -> Prop) (key : string) (value : bytes) : Prop :=
  exists prefix, prefixes prefix /\ key = CacheManager.prefix_key prefix /\ value = bytes_of_string prefix.

(** What [ConfigureCache] leaves: what was there, the new tiers, and a warm-up
    of the spec if that asks for one. *)
Lemma ConfigureCache_leaves w tc m :
  let m' := (CacheManager.ConfigureCache w tc m).1 in
  (forall t, t ∈ CacheManager.m_tasks m' -> t ∈ CacheManager.m_tasks m \/
     TokenCacheController.warmupEnabled tc = true /\ t = CacheManager.Warmup (TokenCacheController.tc_Name tc) (commonPrefixes tc)) /\
  (forall l c, CacheManager.m_heap m' !! l = Some c -> CacheManager.m_heap m !! l = Some c \/
     CacheManager.cc_Name c = TokenCacheController.tc_Name tc /\
     CacheManager.createTiers w 0 (TokenCacheController.tc_Name tc) (TokenCacheController.tc_Tiers tc) = Ok (CacheManager.cc_Tiers c)).
Proof.
  unfold CacheManager.ConfigureCache, TokenCacheController.tc_Name, TokenCacheController.tc_Tiers, TokenCacheController.warmupEnabled, commonPrefixes.
  destruct (CacheManager.createTiers _ _ _ _) as [ts|e] eqn:Hts; [|cbn; by split; [left|left]].
  cbn [fst]. destruct (match tcs_Warmup (tc_Spec tc) with Some _ => _ | None => false end) eqn:He; cbn [andb];
    [destruct (bool_decide _)|]; split; cbn; try (by left).
  1: { intros t [Hin | ->%list_elem_of_singleton]%elem_of_app; [by left | by right]. }
  all: intros l c [Hl|[_ Hl]]%lookup_app_Some; [by left | right]; by apply list_elem_of_lookup_2, list_elem_of_singleton in Hl as ->.
Qed.

(** ** In every run of the operator *)
(** The token cache that a call found. *)
Definition foundCache (ev : event) : option TokenCache :=
  match ev_call ev as c return reply c -> option TokenCache with
  | CGet KTokenCache _ => fun r => match r with Found tc => Some tc | _ => None end
  | _ => fun _ => None
  end (ev_reply ev).
Definition foundIn (tr : list event) tc : Prop := exists ev, ev ∈ tr /\ foundCache ev = Some tc.

Section run.
Variable F : TokenCache -> Prop.
(** The prefixes of the warm-ups of the caches of a name. *)
Definition prefixesOf (name prefix : string) : Prop := exists tc, F tc /\ TokenCacheController.tc_Name tc = name /\
  TokenCacheController.warmupEnabled tc = true /\ prefix ∈ commonPrefixes tc.
(** Every goroutine of the manager is the warm-up of a cache, and prefix tiers
    hold what the warm-ups of the caches of their name file. *)
Record warmManager m : Prop := {
  wm_ok : OperatorProps.cachesOk m;
  wm_tasks : forall t, t ∈ CacheManager.m_tasks m -> exists tc, F tc /\ TokenCacheController.warmupEnabled tc = true /\
    t = CacheManager.Warmup (TokenCacheController.tc_Name tc) (commonPrefixes tc);
  wm_tiers : forall l c, CacheManager.m_heap m !! l = Some c ->
    Forall (holdsOnly (warmed (prefixesOf (CacheManager.cc_Name c))) True) (CacheManager.cc_Tiers c);
}.

Lemma warm_update_tiers l c ts m : warmManager m -> CacheManager.m_heap m !! l = Some c ->
  Forall (holdsOnly (warmed (prefixesOf (CacheManager.cc_Name c))) True) ts -> warmManager (CacheManager.update_tiers l ts m).
Proof.
  intros [Hok Ht Hw] Hc Hts. constructor; [by apply OperatorProps.cachesOk_update_tiers | exact Ht |].
  intros l' c' (c0 & Hc0 & -> & ->)%update_tiers_lookup. destruct (decide (l' = l)) as [->|Hne]; [by simplify_eq | by eapply Hw].
Qed.
Lemma warm_ConfigureCache w tc m : F tc -> warmManager m -> warmManager (CacheManager.ConfigureCache w tc m).1.
Proof.
  intros HF [Hok Ht Hw]. destruct (ConfigureCache_leaves w tc m) as [Htasks Hheap]. constructor.
  - by apply OperatorProps.cachesOk_ConfigureCache.
  - intros t [Hin|[He ->]]%Htasks; [by apply Ht | by exists tc].
  - intros l c [Hl|[_ Hts]]%Hheap; [by eapply Hw|]. eapply createTiers_holds; [|exact Hts]. apply Forall_true. by right.
Qed.
Lemma warm_CleanupCache e name m m' r : warmManager m -> CacheManager.CleanupCache e name m = Ret (m', r) -> warmManager m'.
Proof.
  intros Hm Hr. pose proof (OperatorProps.cachesOk_CleanupCache _ _ _ _ _ (wm_ok _ Hm) Hr) as Hok. revert Hr.
  unfold CacheManager.CleanupCache, CacheManager.lookupConfig. destruct (CacheManager.m_caches m !! name) as [l|]; [|by intros [= <- _]].
  cbn. destruct (CacheManager.m_heap m !! l) as [c|] eqn:Hc; [|by intros [= <- _]]. cbn.
  intros ([ts rs] & Hcl & [= <- _])%outcome_bind_Ret. destruct (warm_update_tiers l c ts m Hm Hc) as [_ Ht Hw]; [|by constructor].
  eapply eachTier_holds; [|by eapply (wm_tiers _ Hm)|exact Hcl]. intros i t t' r'. apply tier_Clear_holds.
Qed.
Lemma warm_cacheStep m m' : warmManager m -> cacheStep m m' -> warmManager m'.
Proof.
  intros Hm Hs. destruct Hs as [es t m1 m2 Hin Hr|l c j t t' m1 Hl Hj Ht].
  - apply (wm_tasks _ Hm) in Hin as (tc & HF & He & ->). revert Hr. cbn. unfold CacheManager.warmupCache, CacheManager.lookupConfig.
    destruct (CacheManager.m_caches m1 !! _) as [l|] eqn:Hl; [|by intros [= <-]]. cbn.
    destruct (OperatorProps.co_names _ (wm_ok _ Hm) _ _ Hl) as (c & Hc & Hname). rewrite Hc. cbn.
    intros (ts & Hts & [= <-])%outcome_bind_Ret. eapply warm_update_tiers; [done | exact Hc |].
    eapply warmTiers_holds; [|by eapply (wm_tiers _ Hm)|exact Hts]. intros p Hp. exists p. split_and!; [|done..]. rewrite Hname. by exists tc.
  - eapply warm_update_tiers; [done | exact Hl |]. pose proof (wm_tiers _ Hm _ _ Hl) as Hw. apply Forall_insert; [done|].
    eapply tierTick_holds; [exact Ht|]. by eapply Forall_lookup_1.
Qed.
End run.

(** The first part of a reconciliation configures or cleans up the cache that it found. *)
Lemma tcache_begin_found e w key m : always (TokenCacheController.begin e w key m) (fun tr o => forall m' r, o = Ret (m', r) ->
  m' = m \/ exists tc, foundIn tr tc /\ TokenCacheProps.managerAfter tc e w m m').
Proof.
  intros [tc| |err]; [|by intros m' r [= <- _]; left..].
  assert (Hc : calls anything (fun x => TokenCacheProps.managerAfter tc e w m x.1)
    ('(m', res) ← TokenCacheController.configure e w tc m;
     mret (M := prog) (m', match res with Some res => inl res | None => inr tc end))).
  { eapply calls_bind; [by apply (TokenCacheProps.tcache_configure_calls anything)|]. intros [m' res] [Hm' _]. by apply calls_ret. }
  eapply always_mono; [|exact Hc]. intros tr o [_ Ho] m' r ->. right. exists tc. split; [|exact (Ho _ eq_refl)].
  exists (Ev (CGet KTokenCache key) (Found tc)). split; [by left | done].
Qed.

Lemma opStep_warm F s tr s' : (forall tc, foundIn tr tc -> F tc) -> warmManager F (op_cacheManager (ru_op s)) -> opStep s tr s' ->
  warmManager F (op_cacheManager (ru_op s')).
Proof.
  intros HF Hm Hs. destruct Hs as [a b key op ps cs tr r res Hr|seed key op ps cs tr m r Hr|seed pool op ps qs cs tr m res Hr
    |e w key op ps cs tr m r Hr|tc op ps cs ds tr m res Hr|m op ps cs Hr|op ps cs|now op ps cs]; cbn in *; try exact Hm.
  - eapply (calls_may anything (fun x => exists gm, x.1 = InferenceController.with_gpu gm (services op)))
      in Hr as [_ (gm & Hx)]; [cbn in Hx; subst r; exact Hm|].
    apply OperatorProps.isvc_Reconcile_calls; [done | intros x ->; by exists (op_gpuManager op) |].
    intros svc. eapply calls_mono; [done | | apply OperatorProps.isvc_reconcileObject_state]. intros x [(gm & _ & Hx) _]. by exists gm.
  - destruct (proj1 (always_may _ _) (tcache_begin_found e w key _) _ _ Hr m r eq_refl) as [->|(tc & Hin & Hafter)]; [done|].
    destruct Hafter as [->|[->|[r' Hclean]]]; [done | by apply warm_ConfigureCache, Hm; apply HF | by eapply warm_CleanupCache].
  - eapply (calls_may anything (fun x => x.1 = op_cacheManager op /\ TokenCacheProps.reported x.2)) in Hr as [_ [Hx _]];
      [cbn in Hx; by subst m | by apply (TokenCacheProps.tcache_report_calls anything)].
  - by eapply warm_cacheStep.
Qed.
Lemma opRun_warm F s tr s' : (forall tc, foundIn tr tc -> F tc) -> warmManager F (op_cacheManager (ru_op s)) -> opRun s tr s' ->
  warmManager F (op_cacheManager (ru_op s')).
Proof.
  intros HF Hm Hr. induction Hr as [|s1 s2 s3 tr tr' Hr IH Hs]; [done|].
  assert (Hl : forall tc, foundIn tr tc -> F tc) by (intros tc (ev & Hin & Hev); apply HF; exists ev; set_solver).
  assert (Hl' : forall tc, foundIn tr' tc -> F tc) by (intros tc (ev & Hin & Hev); apply HF; exists ev; set_solver).
  eapply opStep_warm; [exact Hl' | by apply IH | exact Hs].
Qed.

(** C2. In no state of any run of the operator does a prefix tier hold anything
    but the warm-up prefixes of its cache, and the only goroutines that the
    cache manager has started are warm-ups, none is a promotion: whatever the
    controllers reconciled, whatever the background loops evicted or swapped, and
    in whatever order, a lookup in a prefix tier of a configured cache finds a key
    only if it is the key of a prefix in the CommonPrefixes of a token cache of
    that name, with warm-up enabled, that the run has read, and returns the text
    of that prefix. *)
Theorem operator_caches_only_warmups tr s : opRun started tr s ->
  let m := op_cacheManager (ru_op s) in
  (forall t, t ∈ CacheManager.m_tasks m -> exists tc, foundIn tr tc /\ TokenCacheController.warmupEnabled tc = true /\
     t = CacheManager.Warmup (TokenCacheController.tc_Name tc) (commonPrefixes tc)) /\
  forall name l config pc now1 now2 seed key pc' entry,
    CacheManager.lookupConfig name m = Some (l, config) -> TPrefix pc ∈ CacheManager.cc_Tiers config ->
    PrefixCache.Get now1 now2 seed key pc = Ret (pc', Ok (Some entry)) ->
    exists tc prefix, foundIn tr tc /\ TokenCacheController.tc_Name tc = name /\ TokenCacheController.warmupEnabled tc = true /\
      prefix ∈ commonPrefixes tc /\ key = CacheManager.prefix_key prefix /\ ce_Key entry = key /\ ce_Value entry = bytes_of_string prefix.
Proof.
  intros Hrun m. assert (Hm : warmManager (foundIn tr) m).
  { eapply opRun_warm; [done | | exact Hrun]. constructor; [exact (OperatorProps.oi_caches _ OperatorProps.operatorInv_initial) | |].
    - intros t Ht. by apply elem_of_nil in Ht.
    - intros l c. cbn. by rewrite lookup_nil. }
  split; [exact (wm_tasks _ _ Hm)|]. intros name l config pc now1 now2 seed key pc' entry Hcfg Hin Hget.
  unfold CacheManager.lookupConfig in Hcfg. apply bind_Some in Hcfg as (l' & Hl & (c & Hc & [= -> ->])%bind_Some).
  destruct (OperatorProps.co_names _ (wm_ok _ _ Hm) _ _ Hl) as (c0 & Hc0 & Hname). simplify_eq.
  pose proof (wm_tiers _ _ Hm _ _ Hc) as Hw. rewrite Forall_forall in Hw. apply Hw in Hin. cbn in Hin.
  destruct (PrefixContents.Get_contents _ _ _ _ _ _ _ _ Hin Hget) as [Hk (prefix & (tc & HF & Hn & He & Hp) & Hkey & Hv)].
  by exists tc, prefix.
Qed.


End warm.

(** * Witnesses *)
Section witnesses.
Local Existing Instance ZQuantity.
Local Existing Instance ServiceApi.textTypes.
Local Existing Instance stdRuntime.
Local Existing Instance LocalCache.storeCodecs.
Local Existing Instance GpuProps.noScanner.
Local Existing Instance InferenceProps.exampleLib.
Local Existing Instance TokenCacheProps.remoteServer.

(** The manager after the warm-up of the example cache ran, which is before the
    reconciliation that started it has written the status. *)
Definition ex_warmup : CacheManager.task := CacheManager.Warmup "c" ["You are"].
Definition ex_warmed : CacheManager.Manager Tier :=
  match CacheManager.runTask (fun _ => TokenCacheProps.ex_env) ex_warmup OperatorProps.ex_configured with
  | Ret m => m
  | _ => OperatorProps.ex_configured
  end.
Lemma ex_warmup_runs :
  match CacheManager.runTask (fun _ => TokenCacheProps.ex_env) ex_warmup OperatorProps.ex_configured with Ret _ => true | _ => false end = true.
Proof. vm_compute. reflexivity. Qed.
Lemma ex_warmed_step : cacheStep OperatorProps.ex_configured ex_warmed.
Proof.
  apply (cacheStep_task (fun _ => TokenCacheProps.ex_env) ex_warmup).
  - replace (CacheManager.m_tasks OperatorProps.ex_configured) with [ex_warmup] by (vm_compute; reflexivity). by left.
  - unfold ex_warmed. pose proof ex_warmup_runs as Hruns. destruct (CacheManager.runTask _ _ _); [reflexivity | discriminate Hruns..].
Qed.
Lemma ex_warmed_opRun : opRun started (OperatorProps.ex_cacheRun.1.2 ++ [])
  (mkRunning (with_cache ex_warmed initial) [] [TokenCacheProps.ex_prefix]).
Proof.
  eapply opRun_step; [exact OperatorProps.ex_cacheRun_opRun|].
  exact (opStep_background ex_warmed (with_cache OperatorProps.ex_configured initial) [] [TokenCacheProps.ex_prefix] ex_warmed_step).
Qed.

(** Asking the prefix tier of the warmed cache for the prefix. *)
Definition ex_found : option (loc * CacheManager.CacheConfig Tier * PrefixCache.PrefixCache * PrefixCache.PrefixCache * CacheEntry) :=
  match CacheManager.lookupConfig "c" ex_warmed with
  | Some (l, config) =>
      match CacheManager.cc_Tiers config with
      | [TPrefix pc] => match PrefixCache.Get 10 10 0 "prefix:You are" pc with
                        | Ret (pc', Ok (Some entry)) => Some (l, config, pc, pc', entry)
                        | _ => None
                        end
      | _ => None
      end
  | None => None
  end.
Lemma ex_found_some : match ex_found with Some _ => true | None => false end = true.
Proof. vm_compute. reflexivity. Qed.
Lemma ex_found_spec : exists l config pc pc' entry, CacheManager.lookupConfig "c" ex_warmed = Some (l, config) /\
  TPrefix pc ∈ CacheManager.cc_Tiers config /\ PrefixCache.Get 10 10 0 "prefix:You are" pc = Ret (pc', Ok (Some entry)).
Proof.
  pose proof ex_found_some as Hf. unfold ex_found in Hf.
  destruct (CacheManager.lookupConfig "c" ex_warmed) as [[l config]|]; [|discriminate Hf].
  destruct (CacheManager.cc_Tiers config) as [|[pc|c|c] [|t ts]] eqn:Ht; try discriminate Hf.
  destruct (PrefixCache.Get 10 10 0 "prefix:You are" pc) as [[pc' [[entry|]|e]]| |] eqn:Hget; try discriminate Hf.
  exists l, config, pc, pc', entry. rewrite Ht. split_and!; [reflexivity | by left | exact Hget].
Qed.

(** The prefix that is found is one of the cache that the run has read. *)
Lemma operator_caches_only_warmups_witness : exists (pc pc' : PrefixCache.PrefixCache) (entry : CacheEntry) tc prefix,
  PrefixCache.Get 10 10 0 "prefix:You are" pc = Ret (pc', Ok (Some entry)) /\
  foundIn (OperatorProps.ex_cacheRun.1.2 ++ []) tc /\ prefix ∈ commonPrefixes tc /\
  "prefix:You are" = CacheManager.prefix_key prefix /\ ce_Value entry = bytes_of_string prefix.
Proof.
  destruct ex_found_spec as (l & config & pc & pc' & entry & Hl & Hin & Hget).
  destruct (proj2 (operator_caches_only_warmups _ _ ex_warmed_opRun) "c" l config pc 10 10 0%nat _ pc' entry Hl Hin Hget)
    as (tc & p & Hf & _ & _ & Hp & Hk & _ & Hv).
  exists pc, pc', entry, tc, p. split; [exact Hget|]. split; [exact Hf|]. split; [exact Hp|]. split; [exact Hk | exact Hv].
Defined.

End witnesses.
