(* ===== verification/GoMemory.v ===== *)
(** Go values in memory: structs, pointers, slices and maps over a heap of
    cells, the types that describe them, and what it is for a function to copy
    a value deeply.  The API types are copied over this memory ([DeepCopy]),
    because there the question is which cells two values share. *)
From Stdlib Require Import SpecFloat.
From S2P Require Import Prelude.

(** * Values

    Numbers, strings and booleans are immutable; a string has no cell of its
    own.  A slice is an array, an offset and a length; its capacity, which only
    [append] reads, is left out. *)
Inductive basic := BString (s : string) | BInt (z : Z) | BBool (b : bool) | BFloat (f : spec_float).
Inductive go :=
| Basic (b : basic)
| Struct (fs : list (string * go))
| Ptr (p : option loc)
| Slice (s : option (loc * nat * nat))
| GoMap (m : option loc).

Inductive cell :=
| Var (v : go)
| Array (vs : list go)
| Table (m : gmap string go).
Abbreviation heap := (list cell) (only parsing).

(** ** Programs over the memory *)
Definition M (A : Type) : Type := heap -> outcome (heap * A).
#[export] Instance M_ret : MRet M := fun A a h => Ret (h, a).
#[export] Instance M_bind : MBind M := fun A B f m h => '(h, a) ← m h; f a h.

Definition panic {A} (why : string) : M A := fun _ => Panic why.
Definition alloc (c : cell) : M loc := fun h => Ret (h ++ [c], length h).
Definition store (l : loc) (c : cell) : M unit := fun h => Ret (<[l := c]> h, tt).
(** What the program reads has the type it expects. *)
Definition loadVar (l : loc) : M go := fun h =>
  match h !! l with Some (Var v) => Ret (h, v) | _ => Panic "invalid memory address" end.
Definition loadArray (l : loc) : M (list go) := fun h =>
  match h !! l with Some (Array vs) => Ret (h, vs) | _ => Panic "invalid memory address" end.
Definition loadTable (l : loc) : M (gmap string go) := fun h =>
  match h !! l with Some (Table m) => Ret (h, m) | _ => Panic "invalid memory address" end.

(** Symbolic execution: a program whose first step is known to return. *)
Lemma M_step {A B} (m : M A) (f : A -> M B) h h' a r : m h = Ret (h', a) -> f a h' = r -> (m ≫= f) h = r.
Proof. intros Hm <-. unfold mbind, M_bind. by rewrite Hm. Qed.
Lemma M_alloc {B} c (f : loc -> M B) h r : f (length h) (h ++ [c]) = r -> (alloc c ≫= f) h = r.
Proof. by apply M_step. Qed.
Lemma M_store {B} l c (f : unit -> M B) h r : f tt (<[l := c]> h) = r -> (store l c ≫= f) h = r.
Proof. by apply M_step. Qed.
Lemma M_loadVar {B} l v (f : go -> M B) h r : h !! l = Some (Var v) -> f v h = r -> (loadVar l ≫= f) h = r.
Proof. intros Hl. apply M_step. unfold loadVar. by rewrite Hl. Qed.
Lemma M_loadArray {B} l vs (f : list go -> M B) h r : h !! l = Some (Array vs) -> f vs h = r -> (loadArray l ≫= f) h = r.
Proof. intros Hl. apply M_step. unfold loadArray. by rewrite Hl. Qed.
Lemma M_loadTable {B} l m (f : gmap string go -> M B) h r : h !! l = Some (Table m) -> f m h = r -> (loadTable l ≫= f) h = r.
Proof. intros Hl. apply M_step. unfold loadTable. by rewrite Hl. Qed.

(** Fields by name. *)
Fixpoint assoc {A} (f : string) (l : list (string * A)) : option A :=
  match l with
  | [] => None
  | (g, a) :: l => if String.eqb f g then Some a else assoc f l
  end.
Fixpoint replace {A} (f : string) (a : A) (l : list (string * A)) : list (string * A) :=
  match l with
  | [] => []
  | (g, b) :: l => if String.eqb f g then (g, a) :: l else (g, b) :: replace f a l
  end.
Definition field (f : string) (v : go) : option go :=
  match v with Struct fs => assoc f fs | _ => None end.
Definition set_field (f : string) (x v : go) : go :=
  match v with Struct fs => Struct (replace f x fs) | _ => v end.
Definition getField (f : string) (v : go) : M go :=
  match field f v with Some x => mret x | None => panic "no such field" end.

(** * Types *)
Inductive kind := KindString | KindInt | KindBool | KindFloat.
Inductive ty :=
| TBasic (k : kind)
| TStruct (fs : list (string * ty))
| TPtr (t : ty)
| TSlice (t : ty)
| TMap (t : ty).
Definition TString := TBasic KindString.
Definition TInt := TBasic KindInt.
Definition TBool := TBasic KindBool.
Definition TFloat := TBasic KindFloat.
#[export] Instance kind_eq_dec : EqDecision kind.
Proof. solve_decision. Defined.
Definition kindOf (b : basic) : kind :=
  match b with BString _ => KindString | BInt _ => KindInt | BBool _ => KindBool | BFloat _ => KindFloat end.

Section ty_ind.
Variable P : ty -> Prop.
Hypothesis (P_basic : forall k, P (TBasic k)).
Hypothesis (P_struct : forall fs, Forall (fun ft => P ft.2) fs -> P (TStruct fs)).
Hypothesis (P_ptr : forall t, P t -> P (TPtr t)) (P_slice : forall t, P t -> P (TSlice t)) (P_map : forall t, P t -> P (TMap t)).
Fixpoint ty_nested_ind (t : ty) : P t :=
  match t with
  | TBasic k => P_basic k
  | TStruct fs => P_struct fs ((fix go fs : Forall (fun ft => P ft.2) fs :=
      match fs with [] => Forall_nil_2 _ | ft :: fs => Forall_cons_2 _ _ _ (ty_nested_ind ft.2) (go fs) end) fs)
  | TPtr t => P_ptr t (ty_nested_ind t)
  | TSlice t => P_slice t (ty_nested_ind t)
  | TMap t => P_map t (ty_nested_ind t)
  end.
End ty_ind.

(** * What a value means

    [read] follows every pointer of a value of a type and gives the tree it
    finds, in which a nil pointer, slice or map is [Nil], with the addresses it
    went through. *)
Inductive tree :=
| Leaf (b : basic)
| Node (fs : list (string * tree))
| Nil
| Ref (x : tree)
| Elems (xs : list tree)
| Entries (xs : list (string * tree)).

Section read.
Context (h : heap).
Fixpoint read (t : ty) (v : go) {struct t} : option (tree * list loc) :=
  match t, v with
  | TBasic k, Basic b => if decide (kindOf b = k) then Some (Leaf b, []) else None
  | TStruct ts, Struct _ =>
      xs ← mapM (fun ft => v ← field ft.1 v; '(x, X) ← read ft.2 v; Some (ft.1, x, X)) ts;
      Some (Node xs.*1, concat xs.*2)
  | TPtr _, Ptr None | TSlice _, Slice None | TMap _, GoMap None => Some (Nil, [])
  | TPtr t, Ptr (Some l) =>
      match h !! l with
      | Some (Var v) => '(x, X) ← read t v; Some (Ref x, l :: X)
      | _ => None
      end
  | TSlice t, Slice (Some (l, off, n)) =>
      match h !! l with
      | Some (Array vs) =>
          if decide (off + n <= length vs) then
            xs ← mapM (read t) (take n (drop off vs));
            Some (Elems xs.*1, l :: concat xs.*2)
          else None
      | _ => None
      end
  | TMap t, GoMap (Some l) =>
      match h !! l with
      | Some (Table m) =>
          xs ← mapM (fun kv : string * go => '(x, X) ← read t kv.2; Some (kv.1, x, X)) (map_to_list m);
          Some (Entries xs.*1, l :: concat xs.*2)
      | _ => None
      end
  | _, _ => None
  end.
End read.

(** A type whose values have no pointer: assigning them copies them. *)
Fixpoint flat (t : ty) : bool :=
  match t with
  | TBasic _ => true
  | TStruct ts => forallb (fun ft => flat ft.2) ts
  | _ => false
  end.

(** * The meaning depends on the visited cells only *)
Lemma mapM_agree {A B} (f g : A -> option (B * list loc)) (P : loc -> Prop) (l : list A) xs :
  (forall a x X, a ∈ l -> f a = Some (x, X) -> Forall P X -> g a = Some (x, X)) ->
  mapM f l = Some xs -> Forall P (concat xs.*2) -> mapM g l = Some xs.
Proof.
  intros Hfg Hf. apply mapM_Some in Hf. rewrite mapM_Some. induction Hf as [|a [x X] l xs Ha _ IH]; [done|].
  simpl. rewrite Forall_app. intros [HX Hxs]. constructor; [apply Hfg; [by left | done..]|].
  apply IH; [|done]. intros. apply Hfg; [by right | done..].
Qed.
Lemma mapM_concat {A B} (f : A -> option (B * list loc)) (P : loc -> Prop) (l : list A) xs :
  (forall a x X, a ∈ l -> f a = Some (x, X) -> Forall P X) -> mapM f l = Some xs -> Forall P (concat xs.*2).
Proof.
  intros Hf Hl. apply mapM_Some in Hl. induction Hl as [|a [x X] l xs Ha _ IH]; [constructor|].
  simpl. apply Forall_app. split; [eapply Hf; [by left | done]|]. apply IH. intros. eapply Hf; [by right | done].
Qed.
Lemma mapM_flat {A B} (f : A -> option (B * list loc)) (l : list A) xs :
  (forall a x X, a ∈ l -> f a = Some (x, X) -> X = []) -> mapM f l = Some xs -> concat xs.*2 = [].
Proof.
  intros Hf Hl. enough (Forall (fun _ => False) (concat xs.*2)) as HF by (destruct (concat _); [done|]; by inversion HF).
  eapply mapM_concat; [|exact Hl]. intros a x X Ha Hx. by rewrite (Hf _ _ _ Ha Hx).
Qed.

Lemma read_agree h h' t v x X : read h t v = Some (x, X) -> Forall (fun l => h' !! l = h !! l) X ->
  read h' t v = Some (x, X).
Proof.
  revert v x X. induction t as [k|ts IH|t IH|t IH|t IH] using ty_nested_ind; intros v x X; destruct v as [b|fs|[l|]|[[[l off] n]|]|[l|]];
    try done; cbn [read].
  - intros (xs & Hxs & [= <- <-])%bind_Some HX. apply bind_Some. exists xs. split; [|done].
    eapply mapM_agree; [|exact Hxs|exact HX]. intros [f t] y Y Hin (w & Hw & [[z Z] [Hz [= <- <-]]]%bind_Some)%bind_Some HY.
    rewrite Forall_forall in IH. pose proof (IH _ Hin _ _ _ Hz HY) as Hz'. cbn in Hw, Hz' |- *. rewrite Hw. cbn. by rewrite Hz'.
  - destruct (h !! l) as [[w| |]|] eqn:Hl; try done. intros ([y Y] & Hy & [= <- <-])%bind_Some [Hl' HX]%Forall_cons.
    rewrite Hl', Hl. by rewrite (IH _ _ _ Hy HX).
  - destruct (h !! l) as [[|vs|]|] eqn:Hl; try done. case_decide; [|done].
    intros (xs & Hxs & [= <- <-])%bind_Some [Hl' HX]%Forall_cons. rewrite Hl', Hl, decide_True by done.
    apply bind_Some. exists xs. split; [|done]. eapply mapM_agree; [|exact Hxs|exact HX]. intros w y Y _. apply IH.
  - destruct (h !! l) as [[| |m]|] eqn:Hl; try done. intros (xs & Hxs & [= <- <-])%bind_Some [Hl' HX]%Forall_cons.
    rewrite Hl', Hl. apply bind_Some. exists xs. split; [|done]. eapply mapM_agree; [|exact Hxs|exact HX].
    intros [k w] y Y _ ([z Z] & Hz & [= <- <-])%bind_Some HY. cbn in Hz |- *. by rewrite (IH _ _ _ Hz HY).
Qed.

(** Visited cells exist. *)
Lemma read_bound h t v x X : read h t v = Some (x, X) -> Forall (fun l => l < length h) X.
Proof.
  revert v x X. induction t as [k|ts IH|t IH|t IH|t IH] using ty_nested_ind; intros v x X; destruct v as [b|fs|[l|]|[[[l off] n]|]|[l|]];
    try done; cbn [read].
  - case_decide; [|done]. intros [= <- <-]. constructor.
  - intros (xs & Hxs & [= <- <-])%bind_Some. eapply mapM_concat; [|exact Hxs].
    intros [f t] y Y Hin (w & _ & [[z Z] [Hz [= <- <-]]]%bind_Some)%bind_Some. rewrite Forall_forall in IH. by eapply (IH _ Hin).
  - destruct (h !! l) as [[w| |]|] eqn:Hl; try done. intros ([y Y] & Hy & [= <- <-])%bind_Some.
    constructor; [by eapply lookup_lt_Some | by eapply IH].
  - intros [= <- <-]. constructor.
  - destruct (h !! l) as [[|vs|]|] eqn:Hl; try done. case_decide; [|done]. intros (xs & Hxs & [= <- <-])%bind_Some.
    constructor; [by eapply lookup_lt_Some|]. eapply mapM_concat; [|exact Hxs]. intros w y Y _. apply IH.
  - intros [= <- <-]. constructor.
  - destruct (h !! l) as [[| |m]|] eqn:Hl; try done. intros (xs & Hxs & [= <- <-])%bind_Some.
    constructor; [by eapply lookup_lt_Some|]. eapply mapM_concat; [|exact Hxs].
    intros [k w] y Y _ ([z Z] & Hz & [= <- <-])%bind_Some. by eapply IH.
  - intros [= <- <-]. constructor.
Qed.

Lemma read_flat h t v x X : flat t = true -> read h t v = Some (x, X) -> X = [].
Proof.
  revert v x X. induction t as [k|ts IH|t IH|t IH|t IH] using ty_nested_ind; intros v x X; try done; cbn [read flat].
  - intros _. destruct v; try done. case_decide; [|done]. by intros [= <- <-].
  - destruct v; try done. rewrite forallb_forall. intros Hf (xs & Hxs & [= <- <-])%bind_Some.
    eapply mapM_flat; [|exact Hxs]. intros [f t] y Y Hin (w & _ & [[z Z] [Hz [= <- <-]]]%bind_Some)%bind_Some.
    rewrite Forall_forall in IH. exact (IH _ Hin _ _ _ (Hf _ (proj1 (list_elem_of_In _ _) Hin)) Hz).
Qed.

(** An older value keeps its meaning in a heap that only grew. *)
Lemma read_grow h h' t v x X : h `prefix_of` h' -> read h t v = Some (x, X) -> read h' t v = Some (x, X).
Proof.
  intros [k ->] Hr. eapply read_agree; [exact Hr|]. eapply Forall_impl; [by eapply read_bound|].
  intros l Hl. by apply lookup_app_l.
Qed.

(** * Copying

    A copier gets the value [*in] and computes what [*out] holds in the end. *)
Definition copier := go -> M go.

(** [**out = **in] *)
Definition assign : copier := fun v => mret v.
(** [*out = new(T)] and a copy into it. *)
Definition newCopy (into : copier) : copier := fun v =>
  match v with
  | Ptr None => mret v
  | Ptr (Some l) => out ← alloc (Var (Struct [])); x ← loadVar l; y ← into x; store out (Var y);; mret (Ptr (Some out))
  | _ => panic "not a pointer"
  end.
(** [x := ( *in).DeepCopy(); *out = &x] *)
Definition addressOfCopy (copy : copier) : copier := fun v =>
  match v with
  | Ptr None => mret v
  | Ptr (Some l) => x ← loadVar l; y ← copy x; out ← alloc (Var y); mret (Ptr (Some out))
  | _ => panic "not a pointer"
  end.
(** [*out = make([]T, len( *in))], and element by element. *)
Fixpoint copyElems (into : copier) (out i : nat) (vs : list go) : M unit :=
  match vs with
  | [] => mret tt
  | v :: vs => y ← into v; ys ← loadArray out; store out (Array (<[i := y]> ys));; copyElems into out (S i) vs
  end.
Definition makeCopy (into : copier) : copier := fun v =>
  match v with
  | Slice None => mret v
  | Slice (Some (l, off, n)) =>
      out ← alloc (Array (replicate n (Struct [])));
      vs ← loadArray l;
      copyElems into out 0 (take n (drop off vs));;
      mret (Slice (Some (out, 0, n)))
  | _ => panic "not a slice"
  end.
(** [*out = make([]T, len( *in)); copy( *out, *in)] *)
Definition makeAndCopy : copier := fun v =>
  match v with
  | Slice None => mret v
  | Slice (Some (l, off, n)) =>
      out ← alloc (Array (replicate n (Struct [])));
      vs ← loadArray l;
      store out (Array (take n (drop off vs)));;
      mret (Slice (Some (out, 0, n)))
  | _ => panic "not a slice"
  end.
(** [*out = make(map[string]string, len( *in))], and entry by entry. *)
Fixpoint copyEntries (out : loc) (kvs : list (string * go)) : M unit :=
  match kvs with
  | [] => mret tt
  | (k, v) :: kvs => m ← loadTable out; store out (Table (<[k := v]> m));; copyEntries out kvs
  end.
Definition makeMap `{GoRuntime} (seed : nat) : copier := fun v =>
  match v with
  | GoMap None => mret v
  | GoMap (Some l) =>
      out ← alloc (Table ∅); m ← loadTable l;
      copyEntries out (range seed m);;
      mret (GoMap (Some out))
  | _ => panic "not a map"
  end.
(** [*out = *in], then statements that overwrite fields of [*out] with copies of
    the same fields of [*in]. *)
Fixpoint overwrite (in_ out : go) (acts : list (string * copier)) : M go :=
  match acts with
  | [] => mret out
  | (f, copy) :: acts => x ← getField f in_; y ← copy x; overwrite in_ (set_field f y out) acts
  end.
Definition fields (acts : list (string * copier)) : copier := fun in_ => overwrite in_ in_ acts.

(** ** What a deep copy is

    The copy means the same, the cells there were are as they were, and every
    cell of the copy is new. *)
Definition copies (h : heap) (t : ty) (x : tree) (m : M go) : Prop :=
  exists h' v X, m h = Ret (h', v) /\ h `prefix_of` h' /\ read h' t v = Some (x, X) /\ Forall (fun l => length h <= l) X.
Definition deep (t : ty) (copy : copier) : Prop :=
  forall h v x X, read h t v = Some (x, X) -> copies h t x (copy v).

Create HintDb deep.
#[export] Hint Constants Opaque : deep.

Lemma deep_assign t : flat t = true -> deep t assign.
Proof.
  intros Hf h v x X Hr. exists h, v, X. split_and!; [done..|]. by rewrite (read_flat _ _ _ _ _ Hf Hr).
Qed.

Lemma prefix_insert (h h' : heap) l c : length h <= l -> h `prefix_of` h' -> h `prefix_of` <[l := c]> h'.
Proof. intros Hl [k ->]. rewrite insert_app_r_alt by done. by eexists. Qed.
Lemma prefix_last (h h' : heap) c : h ++ [c] `prefix_of` h' -> h' !! length h = Some c.
Proof. intros [k ->]. rewrite <- app_assoc. rewrite lookup_app_r, Nat.sub_diag by done. done. Qed.
Lemma fresh_weaken (h h' : heap) (X : list loc) : h `prefix_of` h' -> Forall (fun l => length h' <= l) X -> Forall (fun l => length h <= l) X.
Proof. intros Hp%prefix_length HX. eapply Forall_impl; [exact HX|]. cbn. intros l. lia. Qed.
(** A cell that a value does not go through may change. *)
Lemma read_store (h : heap) t v x X l c n : read h t v = Some (x, X) -> l < n -> Forall (fun l => n <= l) X ->
  read (<[l := c]> h) t v = Some (x, X).
Proof.
  intros Hr Hl HX. eapply read_agree; [exact Hr|]. eapply Forall_impl; [exact HX|]. intros l' Hl'.
  cbn in Hl'. apply list_lookup_insert_ne. lia.
Qed.
Lemma read_Ptr h t l v x X : h !! l = Some (Var v) -> read h t v = Some (x, X) -> read h (TPtr t) (Ptr (Some l)) = Some (Ref x, l :: X).
Proof. intros Hl Hr. cbn. by rewrite Hl, Hr. Qed.

(** A pointer that is not nil means what it points to. *)
Lemma read_Ptr_inv h t v x X : read h (TPtr t) v = Some (x, X) ->
  v = Ptr None /\ x = Nil \/ exists l w y Y, v = Ptr (Some l) /\ h !! l = Some (Var w) /\ read h t w = Some (y, Y) /\ x = Ref y /\ X = l :: Y.
Proof.
  destruct v as [| |[l|]| |]; try done; cbn; [|intros [= <- <-]; by left].
  destruct (h !! l) as [[w| |]|] eqn:Hl; try done. intros ([y Y] & Hy & [= <- <-])%bind_Some. right. by exists l, w, y, Y.
Qed.

Lemma deep_newCopy t into : deep t into -> deep (TPtr t) (newCopy into).
Proof.
  intros Hd h v x X [[-> ->] | (l & w & y & Y & -> & Hl & Hr & -> & ->)]%read_Ptr_inv; [by exists h, (Ptr None), []|].
  set (h1 := h ++ [Var (Struct [])]). assert (Hp : h `prefix_of` h1) by by eexists.
  destruct (Hd h1 w y Y (read_grow _ _ _ _ _ _ Hp Hr)) as (h2 & w' & Y' & Hrun & Hp2 & Hr2 & HY).
  assert (Hlen : length h < length h1) by (unfold h1; rewrite length_app; cbn; lia).
  exists (<[length h := Var w']> h2), (Ptr (Some (length h))), (length h :: Y'). split_and!.
  - apply M_alloc. fold h1. eapply M_loadVar; [by eapply prefix_lookup_Some|]. eapply M_step; [exact Hrun|]. by apply M_store.
  - apply prefix_insert; [lia|]. by transitivity h1.
  - eapply read_Ptr; [|by eapply read_store].
    apply list_lookup_insert_eq. apply prefix_length in Hp2. lia.
  - constructor; [lia|]. by eapply fresh_weaken.
Qed.

Lemma deep_addressOfCopy t copy : deep t copy -> deep (TPtr t) (addressOfCopy copy).
Proof.
  intros Hd h v x X [[-> ->] | (l & w & y & Y & -> & Hl & Hr & -> & ->)]%read_Ptr_inv; [by exists h, (Ptr None), []|].
  destruct (Hd h w y Y Hr) as (h2 & w' & Y' & Hrun & Hp & Hr2 & HY).
  exists (h2 ++ [Var w']), (Ptr (Some (length h2))), (length h2 :: Y'). split_and!.
  - eapply M_loadVar; [exact Hl|]. eapply M_step; [exact Hrun|]. by apply M_alloc.
  - etransitivity; [exact Hp|by eexists].
  - eapply read_Ptr; [apply prefix_last; reflexivity|]. eapply read_grow; [by eexists|done].
  - constructor; [by apply prefix_length|done].
Qed.
#[export] Hint Resolve deep_assign deep_newCopy deep_addressOfCopy : deep.

(** The loop over the elements fills the new array and touches no other cell. *)
Definition keepsBut (out : loc) (h h' : heap) : Prop :=
  length h <= length h' /\ forall l, l < length h -> l <> out -> h' !! l = h !! l.
Lemma keepsBut_refl out h : keepsBut out h h.
Proof. by split. Qed.
Lemma keepsBut_trans out h1 h2 h3 : keepsBut out h1 h2 -> keepsBut out h2 h3 -> keepsBut out h1 h3.
Proof. intros [Hl1 H1] [Hl2 H2]. split; [lia|]. intros l Hl Hne. rewrite H2, H1 by lia. done. Qed.
Lemma keepsBut_prefix out h h' : h `prefix_of` h' -> keepsBut out h h'.
Proof. intros [k ->]. split; [rewrite length_app; lia|]. intros l Hl _. by apply lookup_app_l. Qed.
Lemma keepsBut_store out h c : keepsBut out h (<[out := c]> h).
Proof. split; [by rewrite length_insert|]. intros l _ Hne. by apply list_lookup_insert_ne. Qed.
Lemma prefix_keepsBut (h0 h h' : heap) out : h0 `prefix_of` h -> length h0 <= out -> keepsBut out h h' -> h0 `prefix_of` h'.
Proof.
  intros Hp Ho [Hl Hk]. pose proof (prefix_length _ _ Hp) as Hlp. destruct Hp as [k ->]. exists (drop (length h0) h').
  rewrite <- (take_drop (length h0) h') at 1. f_equal. apply list_eq. intros i.
  destruct (decide (i < length h0)) as [Hi|Hi].
  - rewrite lookup_take_lt, Hk by lia. by apply lookup_app_l.
  - rewrite lookup_take_ge by lia. symmetry. apply lookup_ge_None. lia.
Qed.
Lemma read_keepsBut out h h' t v x X : keepsBut out h h' -> read h t v = Some (x, X) -> Forall (fun l => l <> out) X ->
  read h' t v = Some (x, X).
Proof.
  intros [_ Hk] Hr HX. eapply read_agree; [exact Hr|]. pose proof (read_bound _ _ _ _ _ Hr) as HB.
  eapply Forall_impl; [apply Forall_and; split; [exact HB | exact HX]|]. intros l [Hb Hne]. by apply Hk.
Qed.

Lemma copyElems_spec into t (h0 : heap) out vs : deep t into -> length h0 <= out -> forall i (h : heap) ys xs,
  mapM (read h0 t) vs = Some xs -> h0 `prefix_of` h -> h !! out = Some (Array ys) -> i + length vs = length ys ->
  exists h' ws zs, copyElems into out i vs h = Ret (h', tt) /\ h' !! out = Some (Array (take i ys ++ ws)) /\ length ws = length vs /\
    mapM (read h' t) ws = Some zs /\ zs.*1 = xs.*1 /\ Forall (fun l => out < l) (concat zs.*2) /\ keepsBut out h h'.
Proof.
  intros Hd Ho. induction vs as [|v vs IH]; intros i h ys xs Hxs Hp Hout Hlen.
  { injection Hxs as <-. cbn in Hlen. exists h, [], []. rewrite take_ge, app_nil_r by lia. split_and!; [done..|constructor|apply keepsBut_refl]. }
  cbn in Hxs. apply bind_Some in Hxs as ([x X] & Hx & (xs' & Hxs & [= <-])%bind_Some).
  destruct (Hd h v x X (read_grow _ _ _ _ _ _ Hp Hx)) as (h1 & y & Y & Hrun & Hp1 & Hy & HY).
  pose proof (lookup_lt_Some _ _ _ Hout) as Hlt. cbn in Hlen.
  set (h2 := <[out := Array (<[i := y]> ys)]> h1).
  assert (Hk12 : keepsBut out h h2) by (eapply keepsBut_trans; [by apply keepsBut_prefix|apply keepsBut_store]).
  assert (Hout2 : h2 !! out = Some (Array (<[i := y]> ys)))
    by (apply list_lookup_insert_eq; apply prefix_length in Hp1; lia).
  destruct (IH (S i) h2 (<[i := y]> ys) xs' Hxs (prefix_keepsBut _ _ _ _ Hp Ho Hk12) Hout2) as (h' & ws & zs & Hrun' & Hout' & Hl & Hzs & Hmean & Hf & Hk).
  { rewrite length_insert. lia. }
  exists h', (y :: ws), ((x, Y) :: zs). split_and!.
  - eapply M_step; [exact Hrun|]. eapply M_loadArray; [exact (prefix_lookup_Some _ _ _ _ Hout Hp1)|]. by apply M_store.
  - rewrite Hout'. do 2 f_equal. rewrite (take_S_r _ _ y) by (apply list_lookup_insert_eq; lia).
    rewrite take_insert_ge by lia. by rewrite <- app_assoc.
  - cbn. lia.
  - apply mapM_Some_2. constructor; [|by apply mapM_Some_1].
    assert (HYo : Forall (fun l => l <> out) Y) by (eapply Forall_impl; [exact HY|]; cbn; intros l; lia).
    eapply read_keepsBut; [exact Hk| |exact HYo]. eapply read_keepsBut; [apply keepsBut_store|exact Hy|exact HYo].
  - cbn. by f_equal.
  - cbn. apply Forall_app. split; [|done]. eapply Forall_impl; [exact HY|]. cbn. intros l. lia.
  - by eapply keepsBut_trans.
Qed.

(** A slice that is not nil means its elements. *)
Lemma read_Slice_inv h t v x X : read h (TSlice t) v = Some (x, X) ->
  v = Slice None /\ x = Nil \/ exists l off n vs xs, v = Slice (Some (l, off, n)) /\ h !! l = Some (Array vs) /\
    length (take n (drop off vs)) = n /\ mapM (read h t) (take n (drop off vs)) = Some xs /\ x = Elems xs.*1.
Proof.
  destruct v as [| | |[[[l off] n]|]|]; try done; cbn; [|intros [= <- <-]; by left].
  destruct (h !! l) as [[|vs|]|] eqn:Hl; try done. case_decide; [|done]. intros (xs & Hxs & [= <- <-])%bind_Some.
  right. exists l, off, n, vs, xs. split_and!; [done..| |done|done]. rewrite length_take, length_drop. lia.
Qed.
Lemma read_Slice h t l vs xs : h !! l = Some (Array vs) -> mapM (read h t) vs = Some xs ->
  read h (TSlice t) (Slice (Some (l, 0, length vs))) = Some (Elems xs.*1, l :: concat xs.*2).
Proof. intros Hl Hxs. cbn [read]. rewrite Hl, decide_True by done. rewrite drop_0, take_ge, Hxs by done. done. Qed.

Lemma deep_makeCopy t into : deep t into -> deep (TSlice t) (makeCopy into).
Proof.
  intros Hd h v x X [[-> ->] | (l & off & n & vs & xs & -> & Hl & Hn & Hxs & ->)]%read_Slice_inv; [by exists h, (Slice None), []|].
  set (h1 := h ++ [Array (replicate n (Struct []))]).
  assert (Hp : h `prefix_of` h1) by by eexists.
  assert (Hout : h1 !! length h = Some (Array (replicate n (Struct [])))) by (apply prefix_last; reflexivity).
  destruct (copyElems_spec into t h (length h) _ Hd (le_n _) 0 h1 _ xs Hxs Hp Hout) as (h' & ws & zs & Hrun & Hout' & Hlw & Hzs & Hmean & Hf & Hk).
  { by rewrite length_replicate. }
  rewrite Hn in Hlw. subst n. cbn in Hout'. exists h', (Slice (Some (length h, 0, length ws))), (length h :: concat zs.*2). split_and!.
  - apply M_alloc. fold h1. eapply M_loadArray; [exact (prefix_lookup_Some _ _ _ _ Hl Hp)|]. by eapply M_step; [exact Hrun|].
  - by eapply prefix_keepsBut.
  - rewrite <- Hmean. by apply read_Slice.
  - constructor; [done|]. eapply Forall_impl; [exact Hf|]. cbn. intros k. lia.
Qed.

(** The flat elements may be copied as they are. *)
Lemma deep_makeAndCopy t : flat t = true -> deep (TSlice t) makeAndCopy.
Proof.
  intros Hft h v x X [[-> ->] | (l & off & n & vs & xs & -> & Hl & Hn & Hxs & ->)]%read_Slice_inv; [by exists h, (Slice None), []|].
  set (h1 := h ++ [Array (replicate n (Struct []))]). set (ws := take n (drop off vs)). fold ws in Hn, Hxs.
  assert (Hp : h `prefix_of` h1) by by eexists.
  assert (Hflat : concat xs.*2 = []).
  { eapply mapM_flat; [|exact Hxs]. intros w y Y _. by apply read_flat. }
  exists (<[length h := Array ws]> h1), (Slice (Some (length h, 0, n))), (length h :: concat xs.*2). split_and!.
  - apply M_alloc. fold h1. eapply M_loadArray; [exact (prefix_lookup_Some _ _ _ _ Hl Hp)|]. by apply M_store.
  - by apply prefix_insert.
  - rewrite <- Hn. apply read_Slice; [apply list_lookup_insert_eq; unfold h1; rewrite length_app; cbn; lia|].
    eapply (mapM_agree _ _ (fun _ => True)); [|exact Hxs|by apply Forall_true]. intros w y Y _ Hy _.
    eapply read_agree; [exact Hy|]. rewrite (read_flat _ _ _ _ _ Hft Hy). constructor.
  - rewrite Hflat. by constructor.
Qed.

(** The new map has every entry, in whatever order the range visits them. *)
Lemma copyEntries_run out kvs : forall (h : heap) m, h !! out = Some (Table m) ->
  copyEntries out kvs h = Ret (<[out := Table (list_to_map (reverse kvs) ∪ m)]> h, tt).
Proof.
  induction kvs as [|[k v] kvs IH]; intros h m Hout.
  - cbn. rewrite map_empty_union, list_insert_id by done. done.
  - eapply M_loadTable; [exact Hout|]. apply M_store.
    rewrite (IH _ (<[k := v]> m)) by (apply list_lookup_insert_eq; by eapply lookup_lt_Some).
    rewrite list_insert_insert_eq. do 4 f_equal. rewrite reverse_cons, list_to_map_app. cbn.
    rewrite <- (map_union_assoc _ _ m). f_equal. by rewrite insert_empty, <- insert_union_singleton_l.
Qed.
Lemma deep_makeMap `{GoRuntime} seed t : flat t = true -> deep (TMap t) (makeMap seed).
Proof.
  intros Hft h v x X Hr. destruct v as [| | | |[l|]]; try done; [|by injection Hr as <- <-; exists h, (GoMap None), []].
  cbn in Hr. destruct (h !! l) as [[| |m]|] eqn:Hl; try done. apply bind_Some in Hr as (xs & Hxs & [= <- <-]).
  set (h1 := h ++ [Table ∅]). assert (Hp : h `prefix_of` h1) by by eexists.
  assert (Hflat : concat xs.*2 = []).
  { eapply mapM_flat; [|exact Hxs]. intros [k w] y Y _ ([z Z] & Hz & [= <- <-])%bind_Some. by eapply read_flat. }
  assert (Hm : list_to_map (reverse (range seed m)) ∪ ∅ = m).
  { rewrite map_union_empty. rewrite <- (list_to_map_to_list m) at 2. apply list_to_map_proper.
    - rewrite fmap_reverse, (reverse_Permutation (range seed m).*1). rewrite (range_perm _ seed m). apply NoDup_fst_map_to_list.
    - by rewrite reverse_Permutation, (range_perm _ seed m). }
  exists (<[length h := Table m]> h1), (GoMap (Some (length h))), (length h :: concat xs.*2). split_and!.
  - apply M_alloc. fold h1. eapply M_loadTable; [exact (prefix_lookup_Some _ _ _ _ Hl Hp)|].
    eapply M_step; [apply (copyEntries_run _ _ h1 ∅); apply prefix_last; reflexivity|]. by rewrite Hm.
  - by apply prefix_insert.
  - cbn. rewrite list_lookup_insert_eq by (unfold h1; rewrite length_app; cbn; lia). apply bind_Some. exists xs. split; [|done].
    eapply (mapM_agree _ _ (fun _ => True)); [|exact Hxs|by apply Forall_true].
    intros [k w] y Y _ ([z Z] & Hz & [= <- <-])%bind_Some _. cbn in Hz |- *.
    pose proof (read_flat _ _ _ _ _ Hft Hz) as ->. rewrite (read_agree _ _ _ _ _ _ Hz); [done|constructor].
  - rewrite Hflat. by constructor.
Qed.
#[export] Hint Resolve deep_makeCopy deep_makeAndCopy deep_makeMap : deep.

(** ** Structs *)
Lemma assoc_elem {A} f (a : A) l : assoc f l = Some a -> (f, a) ∈ l.
Proof.
  induction l as [|[g b] l IH]; [done|]. cbn. destruct (String.eqb_spec f g) as [->|Hne].
  - intros [= ->]. by left.
  - intros Ha. right. by apply IH.
Qed.
Lemma assoc_None {A} f (l : list (string * A)) : assoc f l = None <-> f ∉ l.*1.
Proof.
  induction l as [|[g b] l IH]; [split; [intros _; apply not_elem_of_nil | done]|]. cbn.
  rewrite not_elem_of_cons, <- IH. destruct (String.eqb_spec f g) as [->|Hne]; naive_solver.
Qed.
Lemma assoc_replace {A} f (a : A) l : is_Some (assoc f l) -> assoc f (replace f a l) = Some a.
Proof.
  induction l as [|[g b] l IH]; [by intros [? ?]|]. cbn. destruct (String.eqb f g) eqn:He; cbn; by rewrite He.
Qed.
Lemma assoc_replace_ne {A} f g (a : A) l : f <> g -> assoc f (replace g a l) = assoc f l.
Proof.
  intros Hne. induction l as [|[k b] l IH]; [done|]. cbn. destruct (String.eqb_spec g k) as [->|Hk]; cbn.
  - apply String.eqb_neq in Hne. by rewrite Hne.
  - by rewrite IH.
Qed.
Lemma field_set f x v : is_Some (field f v) -> field f (set_field f x v) = Some x.
Proof. destruct v; cbn; try by intros [? ?]. apply assoc_replace. Qed.
Lemma field_set_ne f g x v : f <> g -> field f (set_field g x v) = field f v.
Proof. intros Hne. destruct v; try done. by apply assoc_replace_ne. Qed.

(** What the statements make of a struct: fields they name are copies, the
    others are shared. *)
Lemma overwrite_spec (h0 : heap) (ts : list (string * ty)) in_ (acts : list (string * copier)) : forall (h : heap) out, h0 `prefix_of` h ->
  NoDup acts.*1 ->
  (forall f c, (f, c) ∈ acts -> is_Some (field f out) /\ (exists t, (f, t) ∈ ts) /\
    forall t, (f, t) ∈ ts -> deep t c /\ exists v x X, field f in_ = Some v /\ read h0 t v = Some (x, X)) ->
  exists h' out', overwrite in_ out acts h = Ret (h', out') /\ h `prefix_of` h' /\
    (forall f, f ∉ acts.*1 -> field f out' = field f out) /\
    forall f t v x X, (f, t) ∈ ts -> f ∈ acts.*1 -> field f in_ = Some v -> read h0 t v = Some (x, X) ->
      exists v' X', field f out' = Some v' /\ read h' t v' = Some (x, X') /\ Forall (fun l => length h0 <= l) X'.
Proof.
  induction acts as [|[g c] acts IH]; intros h out Hp Hnd Hacts.
  { exists h, out. split_and!; [done..|]. by intros f t v x X _ ?%elem_of_nil. }
  cbn in Hnd. apply NoDup_cons in Hnd as [Hg Hnd].
  destruct (Hacts g c) as (Hsome & (t & Ht) & Hdeep); [by left|].
  destruct (Hdeep t Ht) as (Hd & v & x & X & Hv & Hx).
  destruct (Hd h v x X (read_grow _ _ _ _ _ _ Hp Hx)) as (h1 & y & Y & Hrun & Hp1 & Hy & HY).
  destruct (IH h1 (set_field g y out) ltac:(by transitivity h) Hnd) as (h' & out' & Hrun' & Hp' & Hrest & Hdone).
  { intros f c' Hin. destruct (Hacts f c') as (Hs & Hex & Hall); [by right|]. split; [|done].
    rewrite field_set_ne; [done|]. intros ->. apply Hg. by apply (list_elem_of_fmap_2 fst _ (g, c')). }
  exists h', out'. split_and!.
  - eapply M_step; [unfold getField; by rewrite Hv|]. by eapply M_step; [exact Hrun|].
  - by transitivity h1.
  - intros f [Hne Hf]%not_elem_of_cons. rewrite Hrest by done. by apply field_set_ne.
  - intros f t' w z Z Hin [-> | Hf]%elem_of_cons Hw Hz; [|by eapply Hdone].
    cbn in Hw, Hin |- *. rewrite Hv in Hw. injection Hw as <-. destruct (Hdeep t' Hin) as (Hd' & _).
    destruct (Hd' h v z Z (read_grow _ _ _ _ _ _ Hp Hz)) as (h1' & y' & Y' & Hrun'' & _ & Hy' & HY').
    rewrite Hrun in Hrun''. injection Hrun'' as <- <-. exists y, Y'. split_and!.
    + rewrite Hrest by done. by apply field_set.
    + by eapply read_grow.
    + by eapply fresh_weaken.
Qed.

Lemma overwrite_struct in_ acts : forall (h h' : heap) out out', overwrite in_ out acts h = Ret (h', out') ->
  (exists fs, out = Struct fs) -> exists fs, out' = Struct fs.
Proof.
  induction acts as [|[f c] acts IH]; intros h h' out out'.
  - intros [= <- <-] Hs. exact Hs.
  - cbn. unfold mbind, M_bind. destruct (getField f in_ h) as [[h1 x]| |]; try done. cbn.
    destruct (c x h1) as [[h2 y]| |]; try done. intros Hrun [fs ->]. apply (IH _ _ _ _ Hrun). by eexists.
Qed.

(** Every field that has pointers is copied deeply. *)
Definition covers (ts : list (string * ty)) (acts : list (string * copier)) : Prop :=
  Forall (fun ft : string * ty => match assoc ft.1 acts with Some c => deep ft.2 c | None => flat ft.2 = true end) ts.
Definition wellNamed (ts : list (string * ty)) (acts : list (string * copier)) : bool :=
  bool_decide (NoDup acts.*1) && forallb (fun a => match assoc a.1 ts with Some _ => true | None => false end) acts.

Lemma assoc_NoDup {A} f (a : A) l : NoDup l.*1 -> (f, a) ∈ l -> assoc f l = Some a.
Proof.
  intros Hnd Hin. induction l as [|[g b] l IH]; [by apply elem_of_nil in Hin|]. cbn in Hnd |- *.
  apply NoDup_cons in Hnd as [Hg Hnd]. apply elem_of_cons in Hin as [[= <- <-]|Hin]; [by rewrite String.eqb_refl|].
  destruct (String.eqb_spec f g) as [->|]; [|by apply IH]. destruct Hg. by apply (list_elem_of_fmap_2 fst _ (g, a)).
Qed.

(** A struct means what its fields mean. *)
Definition readField (h : heap) (v : go) (ft : string * ty) : option (string * tree * list loc) :=
  v ← field ft.1 v; '(x, X) ← read h ft.2 v; Some (ft.1, x, X).
Lemma struct_meaning (h h' : heap) v v' ts xs :
  (forall ft w y Y, ft ∈ ts -> field ft.1 v = Some w -> read h ft.2 w = Some (y, Y) ->
    exists w' Y', field ft.1 v' = Some w' /\ read h' ft.2 w' = Some (y, Y') /\ Forall (fun l => length h <= l) Y') ->
  Forall2 (fun ft x => readField h v ft = Some x) ts xs ->
  exists ys, Forall2 (fun ft y => readField h' v' ft = Some y) ts ys /\ ys.*1 = xs.*1 /\
    Forall (fun l => length h <= l) (concat ys.*2).
Proof.
  intros Hnew Hxs. induction Hxs as [|ft z ts xs Hft Hxs IH]; [exists []; split_and!; by constructor|].
  destruct IH as (ys & Hys & Hmean & Hf); [intros; eapply Hnew; [by right|done..]|].
  apply bind_Some in Hft as (w & Hw & [[y Y] [Hy [= <-]]]%bind_Some).
  destruct (Hnew ft w y Y ltac:(by left) Hw Hy) as (w' & Y' & Hw' & Hy' & HY').
  exists ((ft.1, y, Y') :: ys). split_and!.
  - constructor; [|done]. unfold readField. rewrite Hw'. cbn. by rewrite Hy'.
  - cbn. by f_equal.
  - cbn. by apply Forall_app.
Qed.

Lemma deep_fields ts acts : wellNamed ts acts = true -> covers ts acts -> deep (TStruct ts) (fields acts).
Proof.
  intros [Hnd%bool_decide_eq_true Hnames]%andb_true_iff Hcov h v x X Hr.
  destruct v as [|fs| | |]; try done. cbn [read] in Hr. apply bind_Some in Hr as (xs & Hxs & [= <- <-]).
  apply mapM_Some_1 in Hxs. unfold covers in Hcov. rewrite Forall_forall in Hcov.
  assert (Hread : forall ft, ft ∈ ts -> exists w y Y, field ft.1 (Struct fs) = Some w /\ read h ft.2 w = Some (y, Y)).
  { intros ft Hin. destruct (list_elem_of_lookup_1 _ _ Hin) as [i Hi].
    destruct (Forall2_lookup_l _ _ _ _ _ Hxs Hi) as (z & _ & (w & Hw & [[y Y] [Hy _]]%bind_Some)%bind_Some). by exists w, y, Y. }
  assert (Hdeep : forall f c, (f, c) ∈ acts -> forall t, (f, t) ∈ ts -> deep t c).
  { intros f c Hin t Ht. specialize (Hcov _ Ht). cbn in Hcov. by rewrite (assoc_NoDup _ _ _ Hnd Hin) in Hcov. }
  destruct (overwrite_spec h ts (Struct fs) acts h (Struct fs) (reflexivity _) Hnd) as (h' & out & Hrun & Hp & Hrest & Hdone).
  { intros f c Hin. assert (Hex : exists t, (f, t) ∈ ts).
    { rewrite forallb_forall in Hnames. specialize (Hnames _ (proj1 (list_elem_of_In _ _) Hin)). cbn in Hnames.
      destruct (assoc f ts) as [t|] eqn:Ht; [|done]. exists t. by apply assoc_elem. }
    destruct Hex as [t Ht]. split; [|split; [by exists t|]].
    - destruct (Hread _ Ht) as (w & y & Y & Hw & _). by exists w.
    - intros t' Ht'. split; [by eapply Hdeep|]. by apply (Hread _ Ht'). }
  destruct (overwrite_struct _ _ _ _ _ _ Hrun ltac:(by eexists)) as [fs' ->].
  assert (Hnew : forall ft w y Y, ft ∈ ts -> field ft.1 (Struct fs) = Some w -> read h ft.2 w = Some (y, Y) ->
    exists w' Y', field ft.1 (Struct fs') = Some w' /\ read h' ft.2 w' = Some (y, Y') /\ Forall (fun l => length h <= l) Y').
  { intros [f t] w y Y Hin Hw Hy. destruct (assoc f acts) as [c|] eqn:Ha.
    - eapply Hdone; [done| |done|done]. apply (list_elem_of_fmap_2 fst _ (f, c)). by apply assoc_elem.
    - specialize (Hcov _ Hin). cbn in Hcov. rewrite Ha in Hcov. exists w, []. change (f, t).1 with f. rewrite (Hrest f) by by apply assoc_None.
      split_and!; [done| |constructor]. rewrite <- (read_flat _ _ _ _ _ Hcov Hy). by eapply read_grow. }
  destruct (struct_meaning h h' _ _ ts xs Hnew Hxs) as (ys & Hys & Hmean & Hf).
  exists h', (Struct fs'), (concat ys.*2). split_and!; [done..| |done].
  apply bind_Some. exists ys. split; [exact (mapM_Some_2 _ _ _ Hys)|]. cbn. by rewrite Hmean.
Qed.
