(* ===== verification/DeepCopy.v ===== *)
(** The API types as they lie in memory, and the generated functions that copy
    them: api/v1alpha1/zz_generated.deepcopy.go, function by function, and the
    registration of the types with the scheme builder.

    A struct type lists the fields of the Go struct with their types; embedded
    structs are fields with the name of their type.  [T_DeepCopyInto] is the
    method [DeepCopyInto] of [T]: it starts from [*out = *in] and overwrites, in
    the order of the code, the fields that the code copies.  *)
From S2P Require Import Prelude GoMemory.

(** * The types and methods of other packages

    Of apimachinery and core/v1 the code needs the types and their copy methods.
    [Time_DeepCopy] is the method of the pointer; the location that a [time.Time]
    points to cannot be changed, so a [Time] counts as what the package copies. *)
Class ForeignTypes := {
  Quantity : ty; Time : ty; Duration : ty; TypeMeta : ty; ObjectMeta : ty; ListMeta : ty; Condition : ty;
  LocalObjectReference : ty; ResourceRequirements : ty; Toleration : ty;
  Quantity_DeepCopy : copier; Time_DeepCopyInto : copier; Time_DeepCopy : copier; ObjectMeta_DeepCopyInto : copier;
  ListMeta_DeepCopyInto : copier; Condition_DeepCopyInto : copier; ResourceRequirements_DeepCopyInto : copier;
  Toleration_DeepCopyInto : copier;
}.
(** Their methods copy deeply, and what the code assigns has no pointers. *)
Class ForeignLaws `{ForeignTypes} : Prop := {
  Quantity_deep : deep Quantity Quantity_DeepCopy;
  Time_deep : deep Time Time_DeepCopyInto;
  Time_pointer_deep : deep (TPtr Time) Time_DeepCopy;
  ObjectMeta_deep : deep ObjectMeta ObjectMeta_DeepCopyInto;
  ListMeta_deep : deep ListMeta ListMeta_DeepCopyInto;
  Condition_deep : deep Condition Condition_DeepCopyInto;
  ResourceRequirements_deep : deep ResourceRequirements ResourceRequirements_DeepCopyInto;
  Toleration_deep : deep Toleration Toleration_DeepCopyInto;
  Duration_flat : flat Duration = true;
  TypeMeta_flat : flat TypeMeta = true;
  LocalObjectReference_flat : flat LocalObjectReference = true;
}.

(** A value of the interface [runtime.Object]: a type and a pointer, or nil. *)
Record object := mkObject { ob_Type : string; ob_Value : go }.
(** [if c := in.DeepCopy(); c != nil { return c }; return nil] *)
Definition asObject (type : string) (copy : copier) (in_ : go) : M (option object) :=
  c ← copy in_; mret (match c with Ptr None => None | _ => Some (mkObject type c) end).

Section api.
Context `{ForeignTypes} `{GoRuntime}.

(** * gpupool_types.go *)
Definition MIGProfileSpec : ty := TStruct [("Name", TString); ("Count", TInt)].
Definition GPUSharingSpec : ty := TStruct
  [("Mode", TString); ("Profiles", TSlice MIGProfileSpec); ("TimeSliceInterval", TInt);
   ("MPSActiveThreadPercentage", TInt); ("MPSMemoryLimit", TPtr Quantity)].
Definition OversubscriptionSpec : ty := TStruct
  [("Enabled", TBool); ("Ratio", TString); ("MemoryOvercommitRatio", TString)].
Definition MIGInstanceStatus : ty := TStruct
  [("InstanceID", TString); ("Profile", TString); ("Memory", Quantity); ("ComputeUnits", TInt); ("InUse", TBool);
   ("AllocatedTo", TString)].
Definition AllocationInfo : ty := TStruct
  [("ServiceRef", TString); ("Namespace", TString); ("AllocatedMemory", Quantity); ("AllocatedAt", Time)].
Definition GPUDeviceStatus : ty := TStruct
  [("DeviceID", TString); ("UUID", TString); ("Model", TString); ("TotalMemory", Quantity);
   ("AvailableMemory", Quantity); ("Utilization", TInt); ("Temperature", TInt); ("PowerUsage", TInt);
   ("MIGEnabled", TBool); ("MIGInstances", TSlice MIGInstanceStatus); ("Allocations", TSlice AllocationInfo)].
Definition GPUNodeStatus : ty := TStruct
  [("NodeName", TString); ("TotalGPUs", TInt); ("AvailableGPUs", TInt); ("GPUs", TSlice GPUDeviceStatus)].
Definition GPUPoolSpec : ty := TStruct
  [("NodeSelector", TMap TString); ("GPUType", TString); ("Sharing", TPtr GPUSharingSpec);
   ("Oversubscription", TPtr OversubscriptionSpec); ("ReservationPolicy", TString); ("PreemptionPolicy", TString);
   ("HealthCheckInterval", TPtr Duration)].
Definition GPUPoolStatus : ty := TStruct
  [("Phase", TString); ("TotalGPUs", TInt); ("AvailableGPUs", TInt); ("AllocatedGPUs", TInt);
   ("TotalMemory", Quantity); ("AvailableMemory", Quantity); ("Nodes", TSlice GPUNodeStatus);
   ("Conditions", TSlice Condition); ("LastSyncTime", TPtr Time); ("ObservedGeneration", TInt)].
Definition GPUPool : ty := TStruct
  [("TypeMeta", TypeMeta); ("ObjectMeta", ObjectMeta); ("Spec", GPUPoolSpec); ("Status", GPUPoolStatus)].
Definition GPUPoolList : ty := TStruct [("TypeMeta", TypeMeta); ("ListMeta", ListMeta); ("Items", TSlice GPUPool)].
(** * inferenceservice_types.go *)
Definition ModelSpec : ty := TStruct
  [("Name", TString); ("Source", TString); ("Revision", TString); ("SecretRef", TPtr LocalObjectReference);
   ("StoragePath", TString)].
Definition GPUSpec : ty := TStruct
  [("Type", TString); ("Count", TInt); ("Sharing", TString); ("MIGProfile", TString); ("Memory", TPtr Quantity);
   ("GPUPoolRef", TPtr LocalObjectReference)].
Definition CacheSpec : ty := TStruct
  [("Enabled", TBool); ("Strategy", TString); ("PrefixCacheSize", TPtr Quantity);
   ("TokenCacheRef", TPtr LocalObjectReference); ("TTL", TPtr Duration)].
Definition AutoscalingMetric : ty := TStruct [("Type", TString); ("Target", TInt)].
Definition AutoscalingSpec : ty := TStruct
  [("MinReplicas", TInt); ("MaxReplicas", TInt); ("Metrics", TSlice AutoscalingMetric);
   ("ScaleDownStabilizationSeconds", TInt); ("ScaleUpStabilizationSeconds", TInt)].
Definition BackendConfig : ty := TStruct
  [("MaxBatchSize", TInt); ("MaxSeqLen", TInt); ("TensorParallelism", TInt); ("PipelineParallelism", TInt);
   ("Quantization", TString); ("ExtraArgs", TMap TString)].
Definition InferenceServiceSpec : ty := TStruct
  [("Model", ModelSpec); ("Backend", TString); ("BackendConfig", TPtr BackendConfig); ("Replicas", TInt);
   ("GPU", GPUSpec); ("Cache", TPtr CacheSpec); ("Autoscaling", TPtr AutoscalingSpec);
   ("Resources", TPtr ResourceRequirements); ("NodeSelector", TMap TString); ("Tolerations", TSlice Toleration);
   ("ServiceAccountName", TString); ("ImagePullSecrets", TSlice LocalObjectReference)].
Definition GPUAllocation : ty := TStruct
  [("NodeName", TString); ("DeviceID", TString); ("MIGInstance", TString); ("MemoryAllocated", Quantity);
   ("Utilization", TInt)].
Definition CacheStatus : ty := TStruct [("HitRate", TFloat); ("Size", Quantity); ("Entries", TInt)].
Definition InferenceServiceStatus : ty := TStruct
  [("Phase", TString); ("ReadyReplicas", TInt); ("AvailableReplicas", TInt); ("URL", TString);
   ("GPUAllocations", TSlice GPUAllocation); ("CacheStatus", TPtr CacheStatus); ("Conditions", TSlice Condition);
   ("LastScaleTime", TPtr Time); ("ObservedGeneration", TInt)].
Definition InferenceService : ty := TStruct
  [("TypeMeta", TypeMeta); ("ObjectMeta", ObjectMeta); ("Spec", InferenceServiceSpec);
   ("Status", InferenceServiceStatus)].
Definition InferenceServiceList : ty := TStruct
  [("TypeMeta", TypeMeta); ("ListMeta", ListMeta); ("Items", TSlice InferenceService)].
(** * tokencache_types.go *)
Definition SecretKeyRef : ty := TStruct [("Name", TString); ("Key", TString)].
Definition RedisCacheConfig : ty := TStruct
  [("Replicas", TInt); ("Mode", TString); ("ExternalEndpoint", TString); ("PasswordSecretRef", TPtr SecretKeyRef);
   ("MaxConnections", TInt); ("ConnectionTimeout", TPtr Duration); ("PersistenceEnabled", TBool)].
Definition LocalCacheConfig : ty := TStruct
  [("StorageClass", TString); ("MountPath", TString); ("UseRamDisk", TBool); ("Compression", TBool);
   ("CompressionAlgorithm", TString)].
Definition PrefixCacheConfig : ty := TStruct
  [("MaxPrefixLength", TInt); ("MinPrefixLength", TInt); ("BlockSize", TInt); ("EnableSwap", TBool);
   ("SwapSpaceSize", TPtr Quantity)].
Definition CacheTierSpec : ty := TStruct
  [("Name", TString); ("Type", TString); ("Size", Quantity); ("TTL", TPtr Duration); ("Priority", TInt);
   ("RedisConfig", TPtr RedisCacheConfig); ("LocalConfig", TPtr LocalCacheConfig);
   ("PrefixConfig", TPtr PrefixCacheConfig)].
Definition WarmupSpec : ty := TStruct
  [("Enabled", TBool); ("CommonPrefixes", TSlice TString); ("WarmupSchedule", TString);
   ("SourceConfigMapRef", TPtr SecretKeyRef)].
Definition TokenCacheSpec : ty := TStruct
  [("Tiers", TSlice CacheTierSpec); ("EvictionPolicy", TString); ("Warmup", TPtr WarmupSpec);
   ("CoherencePolicy", TString); ("MetricsEnabled", TBool); ("MetricsPort", TInt)].
Definition CacheTierStatus : ty := TStruct
  [("Name", TString); ("Ready", TBool); ("Size", Quantity); ("UsedSize", Quantity); ("Entries", TInt);
   ("HitRate", TFloat); ("MissRate", TFloat); ("AvgLatency", TPtr Duration); ("Endpoint", TString)].
Definition WarmupStatus : ty := TStruct
  [("InProgress", TBool); ("Progress", TInt); ("LastWarmupTime", TPtr Time); ("EntriesWarmed", TInt)].
Definition TokenCacheStatus : ty := TStruct
  [("Phase", TString); ("TotalSize", Quantity); ("UsedSize", Quantity); ("TotalEntries", TInt);
   ("OverallHitRate", TFloat); ("Tiers", TSlice CacheTierStatus); ("WarmupStatus", TPtr WarmupStatus);
   ("Conditions", TSlice Condition); ("LastSyncTime", TPtr Time); ("ObservedGeneration", TInt)].
Definition TokenCache : ty := TStruct
  [("TypeMeta", TypeMeta); ("ObjectMeta", ObjectMeta); ("Spec", TokenCacheSpec); ("Status", TokenCacheStatus)].
Definition TokenCacheList : ty := TStruct
  [("TypeMeta", TypeMeta); ("ListMeta", ListMeta); ("Items", TSlice TokenCache)].

(** * zz_generated.deepcopy.go

    The seed names the order in which the ranges over maps go. *)
Section copying.
Context (seed : nat).

Definition MIGProfileSpec_DeepCopyInto : copier := fields [ ].
Definition MIGProfileSpec_DeepCopy : copier := newCopy MIGProfileSpec_DeepCopyInto.

Definition GPUSharingSpec_DeepCopyInto : copier := fields
  [("Profiles", makeAndCopy); ("MPSMemoryLimit", addressOfCopy Quantity_DeepCopy)].
Definition GPUSharingSpec_DeepCopy : copier := newCopy GPUSharingSpec_DeepCopyInto.

Definition OversubscriptionSpec_DeepCopyInto : copier := fields [ ].
Definition OversubscriptionSpec_DeepCopy : copier := newCopy OversubscriptionSpec_DeepCopyInto.

Definition MIGInstanceStatus_DeepCopyInto : copier := fields [("Memory", Quantity_DeepCopy)].
Definition MIGInstanceStatus_DeepCopy : copier := newCopy MIGInstanceStatus_DeepCopyInto.

Definition AllocationInfo_DeepCopyInto : copier := fields
  [("AllocatedMemory", Quantity_DeepCopy); ("AllocatedAt", Time_DeepCopyInto)].
Definition AllocationInfo_DeepCopy : copier := newCopy AllocationInfo_DeepCopyInto.

Definition GPUDeviceStatus_DeepCopyInto : copier := fields
  [("TotalMemory", Quantity_DeepCopy); ("AvailableMemory", Quantity_DeepCopy);
   ("MIGInstances", makeCopy MIGInstanceStatus_DeepCopyInto); ("Allocations", makeCopy AllocationInfo_DeepCopyInto)].
Definition GPUDeviceStatus_DeepCopy : copier := newCopy GPUDeviceStatus_DeepCopyInto.

Definition GPUNodeStatus_DeepCopyInto : copier := fields [("GPUs", makeCopy GPUDeviceStatus_DeepCopyInto)].
Definition GPUNodeStatus_DeepCopy : copier := newCopy GPUNodeStatus_DeepCopyInto.

Definition GPUPoolSpec_DeepCopyInto : copier := fields
  [("NodeSelector", makeMap seed); ("Sharing", newCopy GPUSharingSpec_DeepCopyInto);
   ("Oversubscription", newCopy assign); ("HealthCheckInterval", newCopy assign)].
Definition GPUPoolSpec_DeepCopy : copier := newCopy GPUPoolSpec_DeepCopyInto.

Definition GPUPoolStatus_DeepCopyInto : copier := fields
  [("TotalMemory", Quantity_DeepCopy); ("AvailableMemory", Quantity_DeepCopy);
   ("Nodes", makeCopy GPUNodeStatus_DeepCopyInto); ("Conditions", makeCopy Condition_DeepCopyInto);
   ("LastSyncTime", Time_DeepCopy)].
Definition GPUPoolStatus_DeepCopy : copier := newCopy GPUPoolStatus_DeepCopyInto.

Definition GPUPool_DeepCopyInto : copier := fields
  [("TypeMeta", assign); ("ObjectMeta", ObjectMeta_DeepCopyInto); ("Spec", GPUPoolSpec_DeepCopyInto);
   ("Status", GPUPoolStatus_DeepCopyInto)].
Definition GPUPool_DeepCopy : copier := newCopy GPUPool_DeepCopyInto.
Definition GPUPool_DeepCopyObject : go -> M (option object) := asObject "GPUPool" GPUPool_DeepCopy.

Definition GPUPoolList_DeepCopyInto : copier := fields
  [("TypeMeta", assign); ("ListMeta", ListMeta_DeepCopyInto); ("Items", makeCopy GPUPool_DeepCopyInto)].
Definition GPUPoolList_DeepCopy : copier := newCopy GPUPoolList_DeepCopyInto.
Definition GPUPoolList_DeepCopyObject : go -> M (option object) := asObject "GPUPoolList" GPUPoolList_DeepCopy.

Definition ModelSpec_DeepCopyInto : copier := fields [("SecretRef", newCopy assign)].
Definition ModelSpec_DeepCopy : copier := newCopy ModelSpec_DeepCopyInto.

Definition GPUSpec_DeepCopyInto : copier := fields
  [("Memory", addressOfCopy Quantity_DeepCopy); ("GPUPoolRef", newCopy assign)].
Definition GPUSpec_DeepCopy : copier := newCopy GPUSpec_DeepCopyInto.

Definition CacheSpec_DeepCopyInto : copier := fields
  [("PrefixCacheSize", addressOfCopy Quantity_DeepCopy); ("TokenCacheRef", newCopy assign); ("TTL", newCopy assign)].
Definition CacheSpec_DeepCopy : copier := newCopy CacheSpec_DeepCopyInto.

Definition AutoscalingMetric_DeepCopyInto : copier := fields [ ].
Definition AutoscalingMetric_DeepCopy : copier := newCopy AutoscalingMetric_DeepCopyInto.

Definition AutoscalingSpec_DeepCopyInto : copier := fields [("Metrics", makeAndCopy)].
Definition AutoscalingSpec_DeepCopy : copier := newCopy AutoscalingSpec_DeepCopyInto.

Definition BackendConfig_DeepCopyInto : copier := fields [("ExtraArgs", makeMap seed)].
Definition BackendConfig_DeepCopy : copier := newCopy BackendConfig_DeepCopyInto.

Definition InferenceServiceSpec_DeepCopyInto : copier := fields
  [("Model", ModelSpec_DeepCopyInto); ("BackendConfig", newCopy BackendConfig_DeepCopyInto);
   ("GPU", GPUSpec_DeepCopyInto); ("Cache", newCopy CacheSpec_DeepCopyInto);
   ("Autoscaling", newCopy AutoscalingSpec_DeepCopyInto); ("Resources", newCopy ResourceRequirements_DeepCopyInto);
   ("NodeSelector", makeMap seed); ("Tolerations", makeCopy Toleration_DeepCopyInto);
   ("ImagePullSecrets", makeAndCopy)].
Definition InferenceServiceSpec_DeepCopy : copier := newCopy InferenceServiceSpec_DeepCopyInto.

Definition GPUAllocation_DeepCopyInto : copier := fields [("MemoryAllocated", Quantity_DeepCopy)].
Definition GPUAllocation_DeepCopy : copier := newCopy GPUAllocation_DeepCopyInto.

Definition CacheStatus_DeepCopyInto : copier := fields [("Size", Quantity_DeepCopy)].
Definition CacheStatus_DeepCopy : copier := newCopy CacheStatus_DeepCopyInto.

Definition InferenceServiceStatus_DeepCopyInto : copier := fields
  [("GPUAllocations", makeCopy GPUAllocation_DeepCopyInto); ("CacheStatus", newCopy CacheStatus_DeepCopyInto);
   ("Conditions", makeCopy Condition_DeepCopyInto); ("LastScaleTime", Time_DeepCopy)].
Definition InferenceServiceStatus_DeepCopy : copier := newCopy InferenceServiceStatus_DeepCopyInto.

Definition InferenceService_DeepCopyInto : copier := fields
  [("TypeMeta", assign); ("ObjectMeta", ObjectMeta_DeepCopyInto); ("Spec", InferenceServiceSpec_DeepCopyInto);
   ("Status", InferenceServiceStatus_DeepCopyInto)].
Definition InferenceService_DeepCopy : copier := newCopy InferenceService_DeepCopyInto.
Definition InferenceService_DeepCopyObject : go -> M (option object) := asObject "InferenceService" InferenceService_DeepCopy.

Definition InferenceServiceList_DeepCopyInto : copier := fields
  [("TypeMeta", assign); ("ListMeta", ListMeta_DeepCopyInto); ("Items", makeCopy InferenceService_DeepCopyInto)].
Definition InferenceServiceList_DeepCopy : copier := newCopy InferenceServiceList_DeepCopyInto.
Definition InferenceServiceList_DeepCopyObject : go -> M (option object) := asObject "InferenceServiceList" InferenceServiceList_DeepCopy.

Definition SecretKeyRef_DeepCopyInto : copier := fields [ ].
Definition SecretKeyRef_DeepCopy : copier := newCopy SecretKeyRef_DeepCopyInto.

Definition RedisCacheConfig_DeepCopyInto : copier := fields
  [("PasswordSecretRef", newCopy assign); ("ConnectionTimeout", newCopy assign)].
Definition RedisCacheConfig_DeepCopy : copier := newCopy RedisCacheConfig_DeepCopyInto.

Definition LocalCacheConfig_DeepCopyInto : copier := fields [ ].
Definition LocalCacheConfig_DeepCopy : copier := newCopy LocalCacheConfig_DeepCopyInto.

Definition PrefixCacheConfig_DeepCopyInto : copier := fields [("SwapSpaceSize", addressOfCopy Quantity_DeepCopy)].
Definition PrefixCacheConfig_DeepCopy : copier := newCopy PrefixCacheConfig_DeepCopyInto.

Definition CacheTierSpec_DeepCopyInto : copier := fields
  [("Size", Quantity_DeepCopy); ("TTL", newCopy assign); ("RedisConfig", newCopy RedisCacheConfig_DeepCopyInto);
   ("LocalConfig", newCopy assign); ("PrefixConfig", newCopy PrefixCacheConfig_DeepCopyInto)].
Definition CacheTierSpec_DeepCopy : copier := newCopy CacheTierSpec_DeepCopyInto.

Definition WarmupSpec_DeepCopyInto : copier := fields
  [("CommonPrefixes", makeAndCopy); ("SourceConfigMapRef", newCopy assign)].
Definition WarmupSpec_DeepCopy : copier := newCopy WarmupSpec_DeepCopyInto.

Definition TokenCacheSpec_DeepCopyInto : copier := fields
  [("Tiers", makeCopy CacheTierSpec_DeepCopyInto); ("Warmup", newCopy WarmupSpec_DeepCopyInto)].
Definition TokenCacheSpec_DeepCopy : copier := newCopy TokenCacheSpec_DeepCopyInto.

Definition CacheTierStatus_DeepCopyInto : copier := fields
  [("Size", Quantity_DeepCopy); ("UsedSize", Quantity_DeepCopy); ("AvgLatency", newCopy assign)].
Definition CacheTierStatus_DeepCopy : copier := newCopy CacheTierStatus_DeepCopyInto.

Definition WarmupStatus_DeepCopyInto : copier := fields [("LastWarmupTime", Time_DeepCopy)].
Definition WarmupStatus_DeepCopy : copier := newCopy WarmupStatus_DeepCopyInto.

Definition TokenCacheStatus_DeepCopyInto : copier := fields
  [("TotalSize", Quantity_DeepCopy); ("UsedSize", Quantity_DeepCopy);
   ("Tiers", makeCopy CacheTierStatus_DeepCopyInto); ("WarmupStatus", newCopy WarmupStatus_DeepCopyInto);
   ("Conditions", makeCopy Condition_DeepCopyInto); ("LastSyncTime", Time_DeepCopy)].
Definition TokenCacheStatus_DeepCopy : copier := newCopy TokenCacheStatus_DeepCopyInto.

Definition TokenCache_DeepCopyInto : copier := fields
  [("TypeMeta", assign); ("ObjectMeta", ObjectMeta_DeepCopyInto); ("Spec", TokenCacheSpec_DeepCopyInto);
   ("Status", TokenCacheStatus_DeepCopyInto)].
Definition TokenCache_DeepCopy : copier := newCopy TokenCache_DeepCopyInto.
Definition TokenCache_DeepCopyObject : go -> M (option object) := asObject "TokenCache" TokenCache_DeepCopy.

Definition TokenCacheList_DeepCopyInto : copier := fields
  [("TypeMeta", assign); ("ListMeta", ListMeta_DeepCopyInto); ("Items", makeCopy TokenCache_DeepCopyInto)].
Definition TokenCacheList_DeepCopy : copier := newCopy TokenCacheList_DeepCopyInto.
Definition TokenCacheList_DeepCopyObject : go -> M (option object) := asObject "TokenCacheList" TokenCacheList_DeepCopy.

(** * groupversion_info.go

    The [init] functions of the package run in the order of the file names and
    hand their types to the scheme builder. *)
Record runtimeType := mkRuntimeType { rt_Name : string; rt_Type : ty; rt_DeepCopyObject : go -> M (option object) }.
Definition GroupVersion : string * string := ("inference.ai", "v1alpha1").
Definition Register (objs builder : list runtimeType) : list runtimeType := builder ++ objs.
Definition gpupool_types_init : list runtimeType -> list runtimeType :=
  Register [mkRuntimeType "GPUPool" GPUPool GPUPool_DeepCopyObject;
            mkRuntimeType "GPUPoolList" GPUPoolList GPUPoolList_DeepCopyObject].
Definition inferenceservice_types_init : list runtimeType -> list runtimeType :=
  Register [mkRuntimeType "InferenceService" InferenceService InferenceService_DeepCopyObject;
            mkRuntimeType "InferenceServiceList" InferenceServiceList InferenceServiceList_DeepCopyObject].
Definition tokencache_types_init : list runtimeType -> list runtimeType :=
  Register [mkRuntimeType "TokenCache" TokenCache TokenCache_DeepCopyObject;
            mkRuntimeType "TokenCacheList" TokenCacheList TokenCacheList_DeepCopyObject].
Definition SchemeBuilder : list runtimeType :=
  tokencache_types_init (inferenceservice_types_init (gpupool_types_init [])).
End copying.
End api.
