(* ===== verification/DeepCopyProps.v ===== *)
(** The generated copies are deep.  A lemma per type, in the order in which
    types contain each other, by the fields of the type and the statements of
    the method. *)
From S2P Require Import Prelude GoMemory DeepCopy.

#[export] Hint Resolve Quantity_deep Time_deep Time_pointer_deep ObjectMeta_deep ListMeta_deep Condition_deep
  ResourceRequirements_deep Toleration_deep Duration_flat TypeMeta_flat LocalObjectReference_flat : deep.

(** Every field of the type is looked up among the statements. *)
Ltac deep_struct :=
  apply deep_fields; [reflexivity|]; repeat (apply Forall_cons; split); [..|apply Forall_nil; exact I]; cbn;
  solve [reflexivity | eauto with deep].

Section deep.
Context `{ForeignLaws} `{GoRuntime} (seed : nat).

Lemma MIGProfileSpec_deep : deep MIGProfileSpec MIGProfileSpec_DeepCopyInto.
Proof. deep_struct. Qed.
#[local] Hint Resolve MIGProfileSpec_deep : deep.
Lemma GPUSharingSpec_deep : deep GPUSharingSpec GPUSharingSpec_DeepCopyInto.
Proof. deep_struct. Qed.
#[local] Hint Resolve GPUSharingSpec_deep : deep.
Lemma OversubscriptionSpec_deep : deep OversubscriptionSpec OversubscriptionSpec_DeepCopyInto.
Proof. deep_struct. Qed.
#[local] Hint Resolve OversubscriptionSpec_deep : deep.
Lemma MIGInstanceStatus_deep : deep MIGInstanceStatus MIGInstanceStatus_DeepCopyInto.
Proof. deep_struct. Qed.
#[local] Hint Resolve MIGInstanceStatus_deep : deep.
Lemma AllocationInfo_deep : deep AllocationInfo AllocationInfo_DeepCopyInto.
Proof. deep_struct. Qed.
#[local] Hint Resolve AllocationInfo_deep : deep.
Lemma GPUDeviceStatus_deep : deep GPUDeviceStatus GPUDeviceStatus_DeepCopyInto.
Proof. deep_struct. Qed.
#[local] Hint Resolve GPUDeviceStatus_deep : deep.
Lemma GPUNodeStatus_deep : deep GPUNodeStatus GPUNodeStatus_DeepCopyInto.
Proof. deep_struct. Qed.
#[local] Hint Resolve GPUNodeStatus_deep : deep.
Lemma GPUPoolSpec_deep : deep GPUPoolSpec (GPUPoolSpec_DeepCopyInto seed).
Proof. deep_struct. Qed.
#[local] Hint Resolve GPUPoolSpec_deep : deep.
Lemma GPUPoolStatus_deep : deep GPUPoolStatus GPUPoolStatus_DeepCopyInto.
Proof. deep_struct. Qed.
#[local] Hint Resolve GPUPoolStatus_deep : deep.
Lemma GPUPool_deep : deep GPUPool (GPUPool_DeepCopyInto seed).
Proof. deep_struct. Qed.
#[local] Hint Resolve GPUPool_deep : deep.
Lemma GPUPoolList_deep : deep GPUPoolList (GPUPoolList_DeepCopyInto seed).
Proof. deep_struct. Qed.
#[local] Hint Resolve GPUPoolList_deep : deep.
Lemma ModelSpec_deep : deep ModelSpec ModelSpec_DeepCopyInto.
Proof. deep_struct. Qed.
#[local] Hint Resolve ModelSpec_deep : deep.
Lemma GPUSpec_deep : deep GPUSpec GPUSpec_DeepCopyInto.
Proof. deep_struct. Qed.
#[local] Hint Resolve GPUSpec_deep : deep.
Lemma CacheSpec_deep : deep CacheSpec CacheSpec_DeepCopyInto.
Proof. deep_struct. Qed.
#[local] Hint Resolve CacheSpec_deep : deep.
Lemma AutoscalingMetric_deep : deep AutoscalingMetric AutoscalingMetric_DeepCopyInto.
Proof. deep_struct. Qed.
#[local] Hint Resolve AutoscalingMetric_deep : deep.
Lemma AutoscalingSpec_deep : deep AutoscalingSpec AutoscalingSpec_DeepCopyInto.
Proof. deep_struct. Qed.
#[local] Hint Resolve AutoscalingSpec_deep : deep.
Lemma BackendConfig_deep : deep BackendConfig (BackendConfig_DeepCopyInto seed).
Proof. deep_struct. Qed.
#[local] Hint Resolve BackendConfig_deep : deep.
Lemma InferenceServiceSpec_deep : deep InferenceServiceSpec (InferenceServiceSpec_DeepCopyInto seed).
Proof. deep_struct. Qed.
#[local] Hint Resolve InferenceServiceSpec_deep : deep.
Lemma GPUAllocation_deep : deep GPUAllocation GPUAllocation_DeepCopyInto.
Proof. deep_struct. Qed.
#[local] Hint Resolve GPUAllocation_deep : deep.
Lemma CacheStatus_deep : deep CacheStatus CacheStatus_DeepCopyInto.
Proof. deep_struct. Qed.
#[local] Hint Resolve CacheStatus_deep : deep.
Lemma InferenceServiceStatus_deep : deep InferenceServiceStatus InferenceServiceStatus_DeepCopyInto.
Proof. deep_struct. Qed.
#[local] Hint Resolve InferenceServiceStatus_deep : deep.
Lemma InferenceService_deep : deep InferenceService (InferenceService_DeepCopyInto seed).
Proof. deep_struct. Qed.
#[local] Hint Resolve InferenceService_deep : deep.
Lemma InferenceServiceList_deep : deep InferenceServiceList (InferenceServiceList_DeepCopyInto seed).
Proof. deep_struct. Qed.
#[local] Hint Resolve InferenceServiceList_deep : deep.
Lemma SecretKeyRef_deep : deep SecretKeyRef SecretKeyRef_DeepCopyInto.
Proof. deep_struct. Qed.
#[local] Hint Resolve SecretKeyRef_deep : deep.
Lemma RedisCacheConfig_deep : deep RedisCacheConfig RedisCacheConfig_DeepCopyInto.
Proof. deep_struct. Qed.
#[local] Hint Resolve RedisCacheConfig_deep : deep.
Lemma LocalCacheConfig_deep : deep LocalCacheConfig LocalCacheConfig_DeepCopyInto.
Proof. deep_struct. Qed.
#[local] Hint Resolve LocalCacheConfig_deep : deep.
Lemma PrefixCacheConfig_deep : deep PrefixCacheConfig PrefixCacheConfig_DeepCopyInto.
Proof. deep_struct. Qed.
#[local] Hint Resolve PrefixCacheConfig_deep : deep.
Lemma CacheTierSpec_deep : deep CacheTierSpec CacheTierSpec_DeepCopyInto.
Proof. deep_struct. Qed.
#[local] Hint Resolve CacheTierSpec_deep : deep.
Lemma WarmupSpec_deep : deep WarmupSpec WarmupSpec_DeepCopyInto.
Proof. deep_struct. Qed.
#[local] Hint Resolve WarmupSpec_deep : deep.
Lemma TokenCacheSpec_deep : deep TokenCacheSpec TokenCacheSpec_DeepCopyInto.
Proof. deep_struct. Qed.
#[local] Hint Resolve TokenCacheSpec_deep : deep.
Lemma CacheTierStatus_deep : deep CacheTierStatus CacheTierStatus_DeepCopyInto.
Proof. deep_struct. Qed.
#[local] Hint Resolve CacheTierStatus_deep : deep.
Lemma WarmupStatus_deep : deep WarmupStatus WarmupStatus_DeepCopyInto.
Proof. deep_struct. Qed.
#[local] Hint Resolve WarmupStatus_deep : deep.
Lemma TokenCacheStatus_deep : deep TokenCacheStatus TokenCacheStatus_DeepCopyInto.
Proof. deep_struct. Qed.
#[local] Hint Resolve TokenCacheStatus_deep : deep.
Lemma TokenCache_deep : deep TokenCache TokenCache_DeepCopyInto.
Proof. deep_struct. Qed.
#[local] Hint Resolve TokenCache_deep : deep.
Lemma TokenCacheList_deep : deep TokenCacheList TokenCacheList_DeepCopyInto.
Proof. deep_struct. Qed.
#[local] Hint Resolve TokenCacheList_deep : deep.
End deep.

(** * Properties *)
Section properties.
Context `{ForeignLaws} `{GoRuntime} (seed : nat).

(** [asObject] keeps a nil pointer from becoming an interface that is not nil. *)
Lemma asObject_copies name copy t (h : heap) l x X : deep (TPtr t) copy -> read h (TPtr t) (Ptr (Some l)) = Some (x, X) ->
  exists h' l' X', asObject name copy (Ptr (Some l)) h = Ret (h', Some (mkObject name (Ptr (Some l')))) /\
    h `prefix_of` h' /\ read h' (TPtr t) (Ptr (Some l')) = Some (x, X') /\ Forall (fun k => length h <= k) X'.
Proof.
  intros Hd Hr. destruct (Hd _ _ _ _ Hr) as (h' & v & X' & Hrun & Hp & Hr' & Hf).
  destruct (read_Ptr_inv _ _ _ _ _ Hr) as [[[=] _] | (_ & _ & y & _ & _ & _ & _ & -> & _)].
  destruct (read_Ptr_inv _ _ _ _ _ Hr') as [[_ [=]] | (l' & _ & _ & _ & -> & _)].
  exists h', l', X'. split_and!; [|done..]. by eapply M_step.
Qed.

Lemma registered_deep rt : rt ∈ SchemeBuilder seed ->
  exists into, deep (rt_Type rt) into /\ rt_DeepCopyObject rt = asObject (rt_Name rt) (newCopy into).
Proof.
  unfold SchemeBuilder, tokencache_types_init, inferenceservice_types_init, gpupool_types_init, Register. cbn [app].
  rewrite !elem_of_cons, elem_of_nil. intros Hrt. repeat destruct Hrt as [-> | Hrt]; [..|done]; cbn; eexists; (split; [|reflexivity]).
  - apply GPUPool_deep.
  - apply GPUPoolList_deep.
  - apply InferenceService_deep.
  - apply InferenceServiceList_deep.
  - apply TokenCache_deep.
  - apply TokenCacheList_deep.
Qed.

(** C36. The objects that the operator registers are copied deeply, whatever
    pointers, slices and maps they have and however those share cells: the copy
    of an object means what the object means, and the two have no cell in
    common, so that whatever is written to the one afterwards leaves the other
    as it is.  The copy of a nil pointer is the nil interface. *)
Theorem deepcopy_objects rt (h : heap) : rt ∈ SchemeBuilder seed ->
  rt_DeepCopyObject rt (Ptr None) h = Ret (h, None) /\
  forall l x X, read h (TPtr (rt_Type rt)) (Ptr (Some l)) = Some (x, X) ->
  exists h' l' X', rt_DeepCopyObject rt (Ptr (Some l)) h = Ret (h', Some (mkObject (rt_Name rt) (Ptr (Some l')))) /\
    h `prefix_of` h' /\ read h' (TPtr (rt_Type rt)) (Ptr (Some l')) = Some (x, X') /\ X ## X' /\
    (forall h2, (forall k, k ∉ X' -> h2 !! k = h' !! k) -> read h2 (TPtr (rt_Type rt)) (Ptr (Some l)) = Some (x, X)) /\
    (forall h2, (forall k, k ∉ X -> h2 !! k = h' !! k) -> read h2 (TPtr (rt_Type rt)) (Ptr (Some l')) = Some (x, X')).
Proof.
  intros (into & Hd & Heq)%registered_deep. rewrite Heq. split; [reflexivity|]. intros l x X Hr.
  destruct (asObject_copies (rt_Name rt) _ _ _ _ _ _ (deep_newCopy _ _ Hd) Hr) as (h' & l' & X' & Hrun & Hp & Hr' & Hf).
  pose proof (read_bound _ _ _ _ _ Hr) as Hb. rewrite Forall_forall in Hb. rewrite Forall_forall in Hf.
  assert (Hdisj : X ## X') by (intros k Hk Hk'; specialize (Hb k Hk); specialize (Hf k Hk'); cbn in *; lia).
  exists h', l', X'. split_and!; [done..| |].
  - intros h2 Hh2. eapply read_agree; [exact (read_grow _ _ _ _ _ _ Hp Hr)|]. apply Forall_forall. intros k Hk. apply Hh2. set_solver.
  - intros h2 Hh2. eapply read_agree; [exact Hr'|]. apply Forall_forall. intros k Hk. apply Hh2. set_solver.
Qed.
End properties.

(** * A witness *)
Module DeepCopyWitness.
(** Foreign types of the shapes that the packages have: a quantity may point to
    a big decimal, object metadata has maps and slices. *)
Definition t_Quantity : ty := TStruct [("i", TInt); ("d", TPtr TInt); ("s", TString)].
Definition c_Quantity : copier := fields [("d", newCopy assign)].
Definition t_ObjectMeta : ty := TStruct [("Name", TString); ("Labels", TMap TString); ("Finalizers", TSlice TString)].
Local Existing Instance stdRuntime.
Definition c_ObjectMeta : copier := fields [("Labels", makeMap 0); ("Finalizers", makeAndCopy)].
Definition t_Resources : ty := TStruct [("Limits", TPtr t_Quantity)].
Definition c_Resources : copier := fields [("Limits", newCopy c_Quantity)].
Definition exampleTypes : ForeignTypes := {|
  Quantity := t_Quantity; Time := TInt; Duration := TInt; TypeMeta := TStruct [("Kind", TString)]; ObjectMeta := t_ObjectMeta;
  ListMeta := TStruct []; Condition := TStruct [("Type", TString)]; LocalObjectReference := TStruct [("Name", TString)];
  ResourceRequirements := t_Resources; Toleration := TStruct [("Seconds", TPtr TInt)];
  Quantity_DeepCopy := c_Quantity; Time_DeepCopyInto := assign; Time_DeepCopy := newCopy assign;
  ObjectMeta_DeepCopyInto := c_ObjectMeta; ListMeta_DeepCopyInto := assign; Condition_DeepCopyInto := assign;
  ResourceRequirements_DeepCopyInto := c_Resources; Toleration_DeepCopyInto := fields [("Seconds", newCopy assign)];
|}.
Local Existing Instance exampleTypes.
Lemma t_Quantity_deep : deep t_Quantity c_Quantity.
Proof. deep_struct. Qed.
Local Hint Resolve t_Quantity_deep : deep.
Lemma exampleLaws : ForeignLaws.
Proof. constructor; first [reflexivity | by apply deep_assign | by apply deep_newCopy, deep_assign | deep_struct]. Qed.
Local Existing Instance exampleLaws.

(** A pool with labels, a sharing spec and two finalizers out of a longer array. *)
Definition str (s : string) : go := Basic (BString s).
Definition int (z : Z) : go := Basic (BInt z).
Definition zeroQuantity : go := Struct [("i", int 0); ("d", Ptr (Some 5)); ("s", str "")].
Definition ex_pool : go := Struct
  [("TypeMeta", Struct [("Kind", str "GPUPool")]);
   ("ObjectMeta", Struct [("Name", str "p"); ("Labels", GoMap (Some 1)); ("Finalizers", Slice (Some (2, 1, 2)))]);
   ("Spec", Struct [("NodeSelector", GoMap (Some 1)); ("GPUType", str "a100"); ("Sharing", Ptr (Some 3));
      ("Oversubscription", Ptr None); ("ReservationPolicy", str ""); ("PreemptionPolicy", str ""); ("HealthCheckInterval", Ptr (Some 5))]);
   ("Status", Struct [("Phase", str "Ready"); ("TotalGPUs", int 1); ("AvailableGPUs", int 1); ("AllocatedGPUs", int 0);
      ("TotalMemory", zeroQuantity); ("AvailableMemory", zeroQuantity); ("Nodes", Slice None); ("Conditions", Slice None);
      ("LastSyncTime", Ptr None); ("ObservedGeneration", int 1)])].
Definition ex_sharing : go := Struct
  [("Mode", str "mig"); ("Profiles", Slice (Some (4, 0, 1))); ("TimeSliceInterval", int 0); ("MPSActiveThreadPercentage", int 0);
   ("MPSMemoryLimit", Ptr None)].
Definition ex_heap : heap :=
  [Var ex_pool; Table {["gpu" := str "a100"]}; Array [str "x"; str "a"; str "b"]; Var ex_sharing;
   Array [Struct [("Name", str "1g.5gb"); ("Count", int 7)]]; Var (int 30)].

Lemma deepcopy_objects_witness : exists rt h' l' X', rt ∈ SchemeBuilder 0 /\ rt_Name rt = "GPUPool" /\
  rt_DeepCopyObject rt (Ptr (Some 0)) ex_heap = Ret (h', Some (mkObject "GPUPool" (Ptr (Some l')))) /\
  [0; 1; 2; 1; 3; 4; 5; 5; 5] ## X' /\ read h' (TPtr GPUPool) (Ptr (Some l')) =
    Some (from_option fst Nil (read ex_heap (TPtr GPUPool) (Ptr (Some 0))), X').
Proof.
  set (rt := mkRuntimeType "GPUPool" GPUPool (GPUPool_DeepCopyObject 0)).
  assert (Hin : rt ∈ SchemeBuilder 0) by by left.
  destruct (read ex_heap (TPtr GPUPool) (Ptr (Some 0))) as [[x X]|] eqn:Hr; [|vm_compute in Hr; discriminate Hr].
  assert (HX : X = [0; 1; 2; 1; 3; 4; 5; 5; 5]) by (vm_compute in Hr; by injection Hr as _ <-).
  destruct (proj2 (deepcopy_objects 0 rt ex_heap Hin) 0 x X Hr) as (h' & l' & X' & Hrun & _ & Hread & Hd & _).
  exists rt, h', l', X'. rewrite HX in Hd. by split_and!.
Defined.
End DeepCopyWitness.
