(* ===== verification/Metrics.v ===== *)
(** The Prometheus metrics of the GPU manager and the cache manager: the
    collectors they declare and register (the [var] blocks and [init] functions
    of gpu/manager.go and cache/manager.go), and the gauges they refresh.  The
    client library is a class with its documented behaviour: registration panics
    on a name that is taken, and a collector panics when it gets as many label
    values as it has no labels for. *)
From S2P Require Import Prelude GoFloat Api CacheTier Tiers GpuTypes.
From S2P Require PrefixCache PrefixProps GpuManager GpuProps.
Local Open Scope Z_scope.

Record Vec := mkVec { vec_Name : string; vec_Help : string; vec_Labels : list string }.

(** * The client library *)
Class Prometheus := {
  Registry : Type;
  MustRegister : list Vec -> Registry -> outcome Registry;
  gauge_Set : Vec -> list string -> float64 -> Registry -> outcome Registry;
  registered : Registry -> list string;
  value : string -> list string -> Registry -> option float64;
}.
Class PrometheusLaws `{Prometheus} : Prop := {
  law_register : forall vs r, NoDup ((vec_Name <$> vs) ++ registered r) -> exists r', MustRegister vs r = Ret r' /\
    registered r' = (vec_Name <$> vs) ++ registered r;
  law_set : forall v ls x r, length ls = length (vec_Labels v) -> exists r', gauge_Set v ls x r = Ret r' /\
    registered r' = registered r /\ value (vec_Name v) ls r' = Some x /\
    forall n ls', (n, ls') <> (vec_Name v, ls) -> value n ls' r' = value n ls' r;
}.

(** * gpu/manager.go *)
Definition gpuLabels : list string := ["node"; "device_id"; "pool"].
Definition gpuUtilizationGauge : Vec := mkVec "inference_gpu_utilization" "Current GPU utilization percentage" gpuLabels.
Definition gpuMemoryUsedGauge : Vec := mkVec "inference_gpu_memory_used_bytes" "GPU memory used in bytes" gpuLabels.
Definition gpuMemoryTotalGauge : Vec := mkVec "inference_gpu_memory_total_bytes" "Total GPU memory in bytes" gpuLabels.
Definition gpuTemperatureGauge : Vec := mkVec "inference_gpu_temperature_celsius" "GPU temperature in Celsius" gpuLabels.
Definition gpuPowerUsageGauge : Vec := mkVec "inference_gpu_power_usage_watts" "GPU power usage in Watts" gpuLabels.
Definition gpuAllocationCounter : Vec :=
  mkVec "inference_gpu_allocations_total" "Total number of GPU allocations" ["pool"; "sharing_mode"].
Definition gpuCollectors : list Vec :=
  [gpuUtilizationGauge; gpuMemoryUsedGauge; gpuMemoryTotalGauge; gpuTemperatureGauge; gpuPowerUsageGauge; gpuAllocationCounter].

(** * cache/manager.go *)
Definition cacheLabels : list string := ["cache"; "tier"].
Definition cacheHitsCounter : Vec := mkVec "inference_cache_hits_total" "Total number of cache hits" cacheLabels.
Definition cacheMissesCounter : Vec := mkVec "inference_cache_misses_total" "Total number of cache misses" cacheLabels.
Definition cacheSizeGauge : Vec := mkVec "inference_cache_size_bytes" "Current cache size in bytes" cacheLabels.
Definition cacheEntriesGauge : Vec := mkVec "inference_cache_entries" "Number of entries in cache" cacheLabels.
Definition cacheLatencyHistogram : Vec :=
  mkVec "inference_cache_latency_seconds" "Cache operation latency in seconds" ["cache"; "tier"; "operation"].
Definition cacheCollectors : list Vec :=
  [cacheHitsCounter; cacheMissesCounter; cacheSizeGauge; cacheEntriesGauge; cacheLatencyHistogram].

Section metrics.
Context `{QuantityOps} `{GoRuntime} `{Prometheus}.
Implicit Types (m : GpuManager.Manager) (r : Registry).

Definition gpu_init : Registry -> outcome Registry := MustRegister gpuCollectors.
Definition cache_init : Registry -> outcome Registry := MustRegister cacheCollectors.

(** The first pool, in the order of the range, that has a device with the
    identifier of this one. *)
Definition hasUUID m (uuid : string) (l : loc) : bool :=
  match GpuManager.gm_heap m !! l with Some g => bool_decide (gi_UUID g = uuid) | None => false end.
Definition getPoolForGPU (seed : nat) (gpu : GPUInfo) m : string :=
  match filter (fun x => existsb (hasUUID m (gi_UUID gpu)) (pi_GPUs x.2) = true) (range seed (GpuManager.gm_pools m)) with
  | (name, _) :: _ => name
  | [] => "default"
  end.

Definition updateGPUMetrics (seed : nat) (gpu : GPUInfo) m r : outcome Registry :=
  let ls := [gi_NodeName gpu; gi_DeviceID gpu; getPoolForGPU seed gpu m] in
  r ← gauge_Set gpuUtilizationGauge ls (float64_of_int (gi_Utilization gpu)) r;
  let memUsed := int64 (Quantity_Value (gi_TotalMemory gpu) - Quantity_Value (gi_AvailableMemory gpu)) in
  r ← gauge_Set gpuMemoryUsedGauge ls (float64_of_int memUsed) r;
  r ← gauge_Set gpuMemoryTotalGauge ls (float64_of_int (Quantity_Value (gi_TotalMemory gpu))) r;
  r ← gauge_Set gpuTemperatureGauge ls (float64_of_int (gi_Temperature gpu)) r;
  gauge_Set gpuPowerUsageGauge ls (float64_of_int (gi_PowerUsage gpu)) r.

(** The loop of [discoverGPUs], which leaves the manager as it is. *)
Definition refreshGPUs (seed : nat) m r : outcome Registry :=
  foldM (fun r '(_, l) =>
    match GpuManager.gm_heap m !! l with
    | Some gpu => updateGPUMetrics (S seed) gpu m r
    | None => Ret r
    end) r (range seed (GpuManager.gm_gpus m)).

(** The loop at the end of [GetStatus] of the cache manager. *)
Definition refreshCache {T} `{!CacheTierOps T} (cacheName : string) (tiers : list T) r : outcome Registry :=
  foldM (fun r tier =>
    let stats := tier_Stats tier in
    r ← gauge_Set cacheSizeGauge [cacheName; tier_Name tier] (float64_of_int (ts_UsedSize stats)) r;
    gauge_Set cacheEntriesGauge [cacheName; tier_Name tier] (float64_of_int (ts_Entries stats)) r) r tiers.
End metrics.

(** * What they do *)
Section properties.
Context `{QuantityOps} `{GoRuntime} `{PrometheusLaws}.
Implicit Types (m : GpuManager.Manager) (r : Registry).

(** The collectors of both packages are registered side by side. *)
Lemma metrics_register r : registered r = [] -> exists r1 r2, gpu_init r = Ret r1 /\ cache_init r1 = Ret r2 /\
  registered r2 = (vec_Name <$> cacheCollectors) ++ (vec_Name <$> gpuCollectors).
Proof.
  intros Hr. destruct (law_register gpuCollectors r) as (r1 & Hrun1 & Hn1).
  { rewrite Hr. apply (bool_decide_unpack _). vm_compute. exact I. }
  rewrite Hr, app_nil_r in Hn1. destruct (law_register cacheCollectors r1) as (r2 & Hrun2 & Hn2).
  { rewrite Hn1. apply (bool_decide_unpack _). vm_compute. exact I. }
  exists r1, r2. by rewrite Hn2, Hn1.
Qed.

Lemma getPoolForGPU_spec seed gpu m :
  getPoolForGPU seed gpu m = "default" \/ exists pool l g, GpuManager.gm_pools m !! getPoolForGPU seed gpu m = Some pool /\
    l ∈ pi_GPUs pool /\ GpuManager.gm_heap m !! l = Some g /\ gi_UUID g = gi_UUID gpu.
Proof.
  unfold getPoolForGPU. destruct (filter _ _) as [|[name pool] rest] eqn:Hf; [by left|]. right.
  assert (Hin : (name, pool) ∈ filter (fun x => existsb (hasUUID m (gi_UUID gpu)) (pi_GPUs x.2) = true)
    (range seed (GpuManager.gm_pools m))) by (rewrite Hf; by left).
  apply list_elem_of_filter in Hin as [He Hin]. rewrite (range_perm _ seed _) in Hin. apply elem_of_map_to_list in Hin.
  apply existsb_exists in He as (l & Hl & Hu). apply list_elem_of_In in Hl. unfold hasUUID in Hu.
  destruct (GpuManager.gm_heap m !! l) as [g|] eqn:Hg; [|done]. apply bool_decide_eq_true in Hu. by exists pool, l, g.
Qed.

(** One more gauge set, among others that were. *)
Ltac set_gauge r' :=
  match goal with |- exists _, (gauge_Set ?v ?ls ?x ?r ≫= _) = Ret _ /\ _ =>
    let Hr := fresh "Hr" in
    destruct (law_set v ls x r eq_refl) as (r' & Hr & ? & ? & ?); rewrite Hr; cbn [mbind outcome_bind] end.

(** The refresh of a device sets its five gauges, all under the same labels, and
    no other. *)
Lemma updateGPUMetrics_spec seed gpu m r : let ls := [gi_NodeName gpu; gi_DeviceID gpu; getPoolForGPU seed gpu m] in
  exists r', updateGPUMetrics seed gpu m r = Ret r' /\ registered r' = registered r /\
    value "inference_gpu_utilization" ls r' = Some (float64_of_int (gi_Utilization gpu)) /\
    value "inference_gpu_memory_used_bytes" ls r' =
      Some (float64_of_int (int64 (Quantity_Value (gi_TotalMemory gpu) - Quantity_Value (gi_AvailableMemory gpu)))) /\
    value "inference_gpu_memory_total_bytes" ls r' = Some (float64_of_int (Quantity_Value (gi_TotalMemory gpu))) /\
    value "inference_gpu_temperature_celsius" ls r' = Some (float64_of_int (gi_Temperature gpu)) /\
    value "inference_gpu_power_usage_watts" ls r' = Some (float64_of_int (gi_PowerUsage gpu)) /\
    forall n ls', ls' <> ls -> value n ls' r' = value n ls' r.
Proof.
  intros ls. unfold updateGPUMetrics. fold ls. set_gauge r1. set_gauge r2. set_gauge r3. set_gauge r4.
  destruct (law_set gpuPowerUsageGauge ls (float64_of_int (gi_PowerUsage gpu)) r4 eq_refl) as (r5 & -> & Hreg & Hv & Ho).
  exists r5. cbn in *. split_and!; [done|congruence|..]; [..|done|].
  1-4: repeat match goal with
    | H : value ?n ?l ?r = Some ?x |- value ?n ?l ?r = Some ?x => exact H
    | H : forall n l, _ -> value n l ?r = _ |- value _ _ ?r = Some _ => rewrite H by (intros [=])
    end.
  intros n ls' Hne. repeat match goal with H : forall n l, _ -> value n l ?r = _ |- value _ _ ?r = _ =>
    rewrite H by (intros [= -> ->]; by apply Hne) end. done.
Qed.

Lemma refreshGPUs_quiet seed m r : GpuProps.NoDevices m -> refreshGPUs seed m r = Ret r.
Proof. intros [Hg _ _ _]. unfold refreshGPUs. by rewrite Hg, range_empty. Qed.

Section cache.
Context {T : Type} `{!CacheTierOps T}.
Implicit Types (tiers : list T).

(** What the tiers report ends up in the two gauges of each, if their names
    differ, and nothing else changes. *)
Lemma refreshCache_spec cacheName tiers : forall r, NoDup (tier_Name <$> tiers) ->
  exists r', refreshCache cacheName tiers r = Ret r' /\ registered r' = registered r /\
    (forall t, t ∈ tiers ->
      value "inference_cache_size_bytes" [cacheName; tier_Name t] r' = Some (float64_of_int (ts_UsedSize (tier_Stats t))) /\
      value "inference_cache_entries" [cacheName; tier_Name t] r' = Some (float64_of_int (ts_Entries (tier_Stats t)))) /\
    forall n ls, (forall t, t ∈ tiers -> ls <> [cacheName; tier_Name t]) -> value n ls r' = value n ls r.
Proof.
  induction tiers as [|t tiers IH]; intros r Hnd.
  { exists r. split_and!; [done..| |done]. by intros t ?%elem_of_nil. }
  cbn in Hnd. apply NoDup_cons in Hnd as [Hfresh Hnd]. unfold refreshCache. cbn [foldM].
  destruct (law_set cacheSizeGauge [cacheName; tier_Name t] (float64_of_int (ts_UsedSize (tier_Stats t))) r eq_refl) as (r1 & -> & Hg1 & Hv1 & Ho1).
  cbn [mbind outcome_bind].
  destruct (law_set cacheEntriesGauge [cacheName; tier_Name t] (float64_of_int (ts_Entries (tier_Stats t))) r1 eq_refl) as (r2 & -> & Hg2 & Hv2 & Ho2).
  cbn [mbind outcome_bind]. destruct (IH r2 Hnd) as (r' & Hrun & Hg & Hv & Ho). exists r'. cbn in Hv1, Hv2, Ho1, Ho2.
  assert (Hother : forall u, u ∈ tiers -> [cacheName; tier_Name t] <> [cacheName; tier_Name u])
    by (intros u Hu [= Heq]; apply Hfresh; rewrite Heq; by apply list_elem_of_fmap_2).
  split_and!; [exact Hrun | congruence | |].
  - intros u [-> | Hu]%elem_of_cons; [|by apply Hv]. rewrite !Ho by done. split; [|exact Hv2]. by rewrite Ho2.
  - intros n ls Hls. rewrite Ho by (intros u Hu; apply Hls; by right).
    rewrite Ho2, Ho1; [done|..]; intros [= -> ->]; apply (Hls t); [by left | done | by left | done].
Qed.
End cache.

(** The metrics: the collectors of the two packages are registered at
    start-up without a clash; the status of a cache exports what each tier
    reports and overwrites no series of another cache; and no gauge of a device
    is ever exported, because the GPU manager never knows a device: each round of
    its discovery loop leaves the registry as it is. *)
Theorem metrics_exported `{GpuManager.RatioScanner} {T} `{!CacheTierOps T} (r0 : Registry) (tiers : list T) cacheName seed m :
  registered r0 = [] -> NoDup (tier_Name <$> tiers) -> rtc GpuProps.gmStep GpuManager.NewManager m ->
  exists r1 r2 r3, gpu_init r0 = Ret r1 /\ cache_init r1 = Ret r2 /\ refreshCache cacheName tiers r2 = Ret r3 /\
    (forall t, t ∈ tiers ->
      value "inference_cache_size_bytes" [cacheName; tier_Name t] r3 = Some (float64_of_int (ts_UsedSize (tier_Stats t))) /\
      value "inference_cache_entries" [cacheName; tier_Name t] r3 = Some (float64_of_int (ts_Entries (tier_Stats t)))) /\
    (forall n c name, c <> cacheName -> value n [c; name] r3 = value n [c; name] r2) /\
    forall r, refreshGPUs seed m r = Ret r.
Proof.
  intros Hr Hnd Hm. destruct (metrics_register r0 Hr) as (r1 & r2 & Hr1 & Hr2 & _).
  destruct (refreshCache_spec cacheName tiers r2 Hnd) as (r3 & Hr3 & _ & Hv & Ho).
  exists r1, r2, r3. split_and!; [done..| |].
  - intros n c name Hc. apply Ho. by intros t _ [= ->].
  - intros r. apply refreshGPUs_quiet. by apply GpuProps.gm_reach_NoDevices.
Qed.
End properties.

(** * A witness *)
Module MetricsWitness.
(** A registry of names and gauges. *)
#[local] Instance memPrometheus : Prometheus := {|
  Registry := list string * gmap (string * list string) float64;
  MustRegister vs r :=
    if decide (NoDup ((vec_Name <$> vs) ++ r.1)) then Ret ((vec_Name <$> vs) ++ r.1, r.2) else Panic "duplicate metrics collector registration";
  gauge_Set v ls x r :=
    if decide (length ls = length (vec_Labels v)) then Ret (r.1, <[(vec_Name v, ls) := x]> r.2) else Panic "inconsistent label cardinality";
  registered r := r.1;
  value n ls r := r.2 !! (n, ls);
|}.
#[local] Instance memPrometheusLaws : PrometheusLaws.
Proof.
  split.
  - intros vs r Hnd. cbn in *. rewrite decide_True by done. by eexists.
  - intros v ls x r Hlen. cbn in *. rewrite decide_True by done. eexists. split_and!; [done..|apply lookup_insert_eq|].
    intros n ls' Hne. cbn. by rewrite lookup_insert_ne.
Qed.
#[local] Existing Instance ZQuantity.
#[local] Existing Instance stdRuntime.
#[local] Existing Instance GpuProps.noScanner.

Definition emptyRegistry : @Registry memPrometheus := ([] : list string, ∅ : gmap (string * list string) float64).
Lemma metrics_exported_witness : exists r1 r2 r3 : Registry, gpu_init emptyRegistry = Ret r1 /\ cache_init r1 = Ret r2 /\
  refreshCache "c" [PrefixProps.demo1] r2 = Ret r3 /\
  value "inference_cache_entries" ["c"; tier_Name PrefixProps.demo1] r3 =
    Some (float64_of_int (ts_Entries (tier_Stats PrefixProps.demo1))).
Proof.
  destruct (metrics_exported emptyRegistry [PrefixProps.demo1] "c" 0 GpuProps.gstart eq_refl (NoDup_singleton _) GpuProps.gstart_reach)
    as (r1 & r2 & r3 & H1 & H2 & H3 & Hv & _).
  exists r1, r2, r3. split_and!; [exact H1 | exact H2 | exact H3 |]. apply Hv. by left.
Defined.
End MetricsWitness.
