(* ===== verification/Loops.v ===== *)
(** The background loops that end with a stop channel: those of the GPU manager,
    the MPS manager, the time-slice manager, the cache manager and the local
    cache, and what stopping a local cache does.  (The loops of the prefix cache
    and of the Redis cache range over a ticker and never end.) *)
From S2P Require Import Prelude GoFloat Api GpuTypes CacheTier Tiers.
From S2P Require FileSystem LocalCache CacheManager GpuManager Mps Timeslice TimesliceProps.
Local Open Scope Z_scope.

(** * [for { select { ... } }]

    A run of a loop is a list of the cases that [select] took: the context is
    done, the stop channel is closed, or one of the other channels delivered. *)
Inductive received (W : Type) := CtxDone | StopClosed | Delivered (w : W).
Arguments CtxDone {W}.
Arguments StopClosed {W}.
Arguments Delivered {W} _.

Section select.
Context {S W : Type} (serve : W -> S -> S).
(** The state after the run, and whether the loop has returned. *)
Fixpoint select_loop (rs : list (received W)) (s : S) : S * bool :=
  match rs with
  | [] => (s, false)
  | CtxDone :: _ | StopClosed :: _ => (s, true)
  | Delivered w :: rs => select_loop rs (serve w s)
  end.

(** A loop serves what is delivered to it, in order, until it first sees the end. *)
Fixpoint untilEnd (rs : list (received W)) : list W :=
  match rs with
  | Delivered w :: rs => w :: untilEnd rs
  | _ => []
  end.
Definition ends (r : received W) : bool := match r with Delivered _ => false | _ => true end.
Lemma select_loop_spec rs s : select_loop rs s = (fold_left (fun s w => serve w s) (untilEnd rs) s, existsb ends rs).
Proof. revert s. induction rs as [|[| |w] rs IH]; intros s; [done..|]. cbn. apply IH. Qed.
(** One that has returned does nothing any more. *)
Lemma select_loop_returned rs rs' s : (select_loop rs s).2 = true -> select_loop (rs ++ rs') s = select_loop rs s.
Proof. revert s. induction rs as [|[| |w] rs IH]; intros s; [done..|]. cbn. apply IH. Qed.
(** Every state on the way is reached by serving. *)
Lemma select_loop_rtc (R : S -> S -> Prop) rs s : (forall w s, rtc R s (serve w s)) -> rtc R s (select_loop rs s).1.
Proof.
  intros HR. revert s. induction rs as [|[| |w] rs IH]; intros s; [done..|]. cbn.
  etransitivity; [apply HR | apply IH].
Qed.
End select.

Section loops.
Context `{QuantityOps} `{GoRuntime}.

(** gpu/manager.go: each tick discovers devices. *)
Definition runDiscoveryLoop `{GpuManager.RatioScanner} : list (received unit) -> GpuManager.Manager -> GpuManager.Manager * bool :=
  select_loop (fun _ m => GpuManager.discoverGPUs m).

(** gpu/mps.go: each tick looks at the daemons and logs those that do not run. *)
Definition monitorDaemons : list (received nat) -> Mps.MPSManager * list (string * string) -> (Mps.MPSManager * list (string * string)) * bool :=
  select_loop (fun seed '(m, log) => (m, log ++ Mps.checkDaemonHealth seed m)).

(** gpu/timeslice.go: a tick and a signal both schedule; a signal leaves the channel. *)
Inductive wakeup := Tick (now : Z) | Signal (now : Z).
Definition runScheduler : list (received wakeup) -> Timeslice.TimesliceManager -> Timeslice.TimesliceManager * bool :=
  select_loop (fun w m => match w with
    | Tick now => Timeslice.scheduleSlots now m
    | Signal now => match Timeslice.takeSignal now m with Some m => m | None => m end
    end).

(** cache/manager.go: each tick logs the tiers that are too full. *)
Definition runEvictionLoop {T} `{!CacheTierOps T} :
    list (received nat) -> CacheManager.Manager T * list (string * string * float64) ->
    (CacheManager.Manager T * list (string * string * float64)) * bool :=
  select_loop (fun seed '(m, log) => (m, log ++ CacheManager.runEviction seed m)).

(** cache/local.go: each tick drops what has expired. *)
Section local.
Import FileSystem LocalCache.
Context `{Codecs}.
Definition cleanupLoop : list (received (faults * Z * nat)) -> LocalCache -> LocalCache * bool :=
  select_loop (fun '(f, now, seed) c => cleanupExpired f now seed c).
(** [Stop] closes the channel, which panics when it is closed, and saves the
    index, whatever comes of it. *)
Definition Stop (closed : bool) (f : faults) (c : LocalCache) : outcome (LocalCache * bool) :=
  if closed then Panic "close of closed channel" else Ret ((SaveIndex f c).1, true).
End local.

(** A run of the scheduler is a run of the steps of the time-slice manager. *)
Lemma runScheduler_steps rs m : rtc TimesliceProps.tsStep m (runScheduler rs m).1.
Proof.
  apply select_loop_rtc. intros [now|now] m'; [by apply rtc_once, TimesliceProps.tsStep_tick|].
  destruct (Timeslice.takeSignal now m') as [m2|] eqn:Ht; [|done]. by eapply rtc_once, TimesliceProps.tsStep_signal.
Qed.
(** The loops that only log leave their managers as they are. *)
Lemma runDiscoveryLoop_idle `{GpuManager.RatioScanner} rs m : (runDiscoveryLoop rs m).1 = m.
Proof. unfold runDiscoveryLoop. rewrite select_loop_spec. cbn. by induction (untilEnd rs). Qed.
Lemma monitorDaemons_idle rs m log : (monitorDaemons rs (m, log)).1.1 = m.
Proof.
  unfold monitorDaemons. rewrite select_loop_spec. cbn. revert log. induction (untilEnd rs) as [|w ws IH]; intros log; [done|]. apply IH.
Qed.
Lemma runEvictionLoop_idle {T} `{!CacheTierOps T} rs (m : CacheManager.Manager T) log : (runEvictionLoop rs (m, log)).1.1 = m.
Proof.
  unfold runEvictionLoop. rewrite select_loop_spec. cbn. revert log. induction (untilEnd rs) as [|w ws IH]; intros log; [done|]. apply IH.
Qed.
End loops.
