(* ===== verification/BackendStats.v ===== *)
(** The statistics that the vLLM and Triton backends can fetch from their
    servers (getVLLMStats and getModelStats of vllm.go and triton.go).  Nothing
    in the operator calls them.  [encoding/json] is a parameter. *)
From S2P Require Import Prelude GoFloat Api ServiceApi Backend.
Local Open Scope Z_scope.

Record vLLMStatsResponse := mkVLLMStatsResponse {
  vs_NumRequests : Z; vs_NumRunningReqs : Z; vs_NumWaitingReqs : Z;
  vs_GPUMemoryUsed : Z; vs_GPUMemoryTotal : Z;
  vs_CacheHitRate : float64; vs_TokensPerSecond : float64;
}.
(** One entry of [model_stats]; [J] is what a value of [interface{}] holds. *)
Record ModelStat (J : Type) := mkModelStat {
  mst_Name : string; mst_Version : string;
  mst_InferCount : Z; mst_ExecCount : Z; mst_InferStats : gmap string J;
}.
Definition TritonModelStats (J : Type) : Type := list (ModelStat J).

(** [json.NewDecoder(body).Decode(&stats)], with what reading the body gave. *)
Class JsonDecoder := {
  json : Type;
  decode_vLLMStats : result bytes -> result vLLMStatsResponse;
  decode_ModelStats : result bytes -> result (TritonModelStats json);
}.

Section stats.
Context `{JsonDecoder}.
Definition fetch {A} (decode : result bytes -> result A) (reply : http_reply) : result A :=
  match reply with
  | BadURL e | NoReply e => Err e
  | Reply _ body => decode body
  end.
Definition getVLLMStats (net : string -> http_reply) (endpoint : string) : result vLLMStatsResponse :=
  fetch decode_vLLMStats (net (endpointURL endpoint "/stats")).
Definition getModelStats (net : string -> http_reply) (endpoint modelName : string) : result (TritonModelStats json) :=
  fetch decode_ModelStats (net (endpointURL endpoint ("/v2/models/" +:+ modelName +:+ "/stats"))).

(** The status of the reply is not looked at: an error page that decodes counts
    as statistics. *)
Lemma getVLLMStats_any_status net net' endpoint s s' body :
  net (endpointURL endpoint "/stats") = Reply s body -> net' (endpointURL endpoint "/stats") = Reply s' body ->
  getVLLMStats net endpoint = getVLLMStats net' endpoint.
Proof. intros Hn Hn'. unfold getVLLMStats. by rewrite Hn, Hn'. Qed.
End stats.
